(* ===== verification/_CoqProject ===== *)
-Q . S2P
Prelude.v
GoStrings.v
Regex.v
Url2crd.v
Kube.v
Api.v
Model.v
Cluster.v
ProgTheory.v
RefServer.v
Config.v
Naming.v
State.v
Utilities.v
Reconciliation.v
Generators.v
Resources.v
Samples.v
Resolver.v
Events.v
Status.v
Controller.v
Convergence.v
Sidecars.v
PodWebhook.v
Oci.v
Sigstore.v
Validation.v
Startup.v
Schema.v
Pinning.v
MockController.v
EndToEnd.v
Credentials.v
Main.v
Operator.v
