(* ===== verification/Prelude.v ===== *)
(** * Accesserator: a verification development

    Accesserator is a Kubernetes operator.  For every SecurityConfig, which belongs to one
    application, it resolves what the SecurityConfig asks for (TokenX, Maskinporten, Entra
    ID, ID-porten, Ansattporten, OPA), keeps twelve generated objects as they should be, and
    reports in the status; admission webhooks check SecurityConfigs and their OPA bundles,
    and put the sidecars Texas and OPA into the application's pods.

    ** The parts and the files

    The program's own types and what it stands on:
    - [Prelude]: Go errors, results of calls ([outcome]), maps, tactics, generic lemmas;
      [GoStrings] and [Regex]: what the code uses of [strings], [fmt], [hash/fnv] and
      [regexp], with the meaning of a pattern and its matcher proved equal;
    - [Kube], [Api], [Model], [Config], [State]: the Kubernetes types that occur,
      [api/v1alpha/securityconfig_types.go], [pkg/model/opa.go], the record of
      [pkg/config/config.go], [internal/state];
    - [Schema]: the validation markers of [api/v1alpha] as predicates;
    - [Cluster]: the operations on the API server and the registry ([Op]), programs over
      them ([prog], a free monad: an operation and what follows each reply), the library
      functions the code calls ([Lib], with the laws used in [LibLaws]) and API servers
      ([Server], [ServerLaws]); [ProgTheory]: the rules to reason about programs (all
      operations satisfy an invariant of the history; a run with given replies; a run
      against a server; a program that cannot fail); [RefServer]: an instance of the
      interfaces, on which the witnesses evaluate; [Samples]: the inputs of the witnesses.

    The controller:
    - [Naming], [Utilities]: [pkg/utilities] without the registry;
    - [Resolver]: [internal/resolver]; [Generators]: [pkg/resourcegenerators], a module per
      generator; [Resources]: [internal/reconciler/resources.go], the twelve resources with
      their comparison and update functions; [Reconciliation]:
      [pkg/reconciliation/reconciliation.go] and [internal/reconciler/reconciler.go];
    - [Events]: [internal/eventhandler] and the watches of [SetupWithManager]; [Status]:
      [internal/statusmanager]; [Controller]:
      [internal/controller/securityconfig_controller.go]; [Convergence]: the whole [Reconcile]
      against a server, and what a second one may still write.

    The webhooks and the registry:
    - [Sidecars], [PodWebhook]: [internal/webhook/pods];
    - [Oci], [Sigstore]: [pkg/utilities/oci_helpers.go], [sigstore_helpers.go] and
      [pkg/validation/sigstore_bundle_validation.go], whose goroutines are a step relation,
      and the bundle fetcher of [internal/resolver/opa_resolver.go];
      [Validation]: [pkg/validation/opa_bundle_urls_validation.go] and
      [internal/webhook/securityconfigs].

    The programs: [Startup] ([Load] of [pkg/config/config.go] and the bundle for self
    authorization), [Main] ([cmd/main.go]), [MockController] ([hack/mock_controller], which
    plays the operators of clients), [Url2crd] ([hack/url2crd], a build tool).

    The composition: [EndToEnd] (reconcile, operator of clients, status), [Credentials]
    (the same up to the pod's sidecar), [Pinning] (admission and reconciliation read the
    same bundle), [Operator] (what [main] gives all the others).  In theorems about bundles
    the registry is a function of time, and the replies to the operations on it are what the
    functions of [Oci] and [Sigstore] give at some moment ([Validation.registry_reply]).

    ** How the code is written down

    A function of the code is a definition of its name.  A call that leaves the program is
    an operation; a function with the results [(A, error)] is a [GoM A]; the scope that the
    code changes through a pointer is passed along ([ScopeM]).  A nil pointer that is read,
    a write to a nil map and [panic] are [Panic].  A nil and an empty slice or map are told
    apart only where the code can tell ([slice], [gomap]).  A pod is changed through a
    pointer too: a mutation returns its result and the pod, also when it fails halfway.
    Objects of the API server carry their kind in their type ([Object k]); of the status of
    a client only the two fields that are read are kept ([SyncStatus]).  Strings hold bytes.
    Log output and contexts are left out; a deadline is part of what an operation answers,
    and a parameter of the concurrent verification.

    ** What is proved

    For any API server, even one that answers at random: which reads and writes
    [Reconcile], the reconciliation of a resource, the status update, the resolvers and the
    pod webhook can make, in which order and on what evidence ([Reconcile_safe],
    [ReconcileControllerResource_safe], [UpdateSecurityConfigStatus_safe],
    [ResolveSecurityConfig_readonly], [Default_only_adds]); that the status tells whether
    [doReconcile] failed ([doReconcile_reports]); that no generator dereferences a nil
    pointer.

    For an API server that keeps its contract ([ServerLaws]): a reconciliation without an
    error leaves every object in its final state and touches no other, doing it again writes
    only messages that the library calls different and what waits for a finalizer, and the
    chain from the SecurityConfig to the credentials in the pod's sidecar
    holds ([Reconcile_converges], [doReconcile_twice], [pod_reads_client_secrets]).

    For the admission: what is admitted was proved, in every interleaving of the goroutines;
    the concurrent verification refines its sequential specification, never deadlocks and
    ends ([ValidateSigstoreBundles_sound], [group_returns_spec], [group_terminates],
    [validateSecurityConfig_sound], [pinned_bundles_run_as_verified]); a pod that was
    mutated passes the validation, and one that passes has what it asked for.  (A pod whose
    namespace cannot be read is not eligible for either webhook and is admitted as it is.)

    For the start: the manager runs only when everything was loaded, and then an admitted
    SecurityConfig resolves unless something it refers to is missing ([main_starts],
    [started_operator_resolves]); the expression for certificates and the checks of texts
    accept exactly what is written out.

    For the data: names never collide and fit the API server's limits, conditions are stable,
    watches are complete and sound, the descendants of a scope have one entry per ID.

    ** Bounds and fuel

    Only functions on texts take fuel: the lexer and the replacement of [Regex] and the
    trimming of [GoStrings], each with the length of its text, of which every round consumes
    at least a byte.  The repetition after a conflict belongs to [retry.RetryOnConflict]:
    [retry_spec] says that it runs its body some number of times.  Integers are in Z; those
    that wrap in Go (the hash) are taken modulo 2^32, and ports, priorities and limits are
    only copied, compared and printed.

    ** What is not modelled

    - Logging ([pkg/log]); the deep copies that controller-gen writes and the registration
      of the API group; the registration of types in the scheme and of controllers with
      controller-runtime, beyond what is registered and in which order.
    - Libraries: the client of the API server, oras, sigstore-go, envconfig, [encoding/json],
      [yaml], protobuf and the quantities are classes with the laws that are used, if any.
      Go's [ToLower] is exact on ASCII only, and a pattern with other syntax than the
      program's does not compile.
    - Concurrency of reconciliations: the work queue hands a SecurityConfig to one worker
      at a time, and each run is modelled against a server that others may change in between
      where the theorem is about any replies; the theorems about stores are about one run.
    - [Schema] does not look into the types of other modules and takes the zero value of an
      optional field as absent.

    ** Left for later

    The order in which admission and storage by the API server interleave with
    reconciliations, as a transition system over stores; fairness of retries after errors;
    the equality of the listers' caches with the store. *)
From stdpp Require Import base gmap strings list pretty.

(** ** Errors and outcomes of Go calls *)

(** A Go [error] value.  [ErrorString] is what [errors.New] and [fmt.Errorf]
    without a [%w] verb give; [Sentinel] is a package level error variable that
    is compared by identity; [StatusError] is an error of the Kubernetes API
    (its reason and its text); [Wrapped] is [fmt.Errorf] with one [%w] verb (the
    whole text and the wrapped error); [Joined] is [errors.Join]. *)
Inductive error : Type :=
| ErrorString (msg : string)
| Sentinel (name msg : string)
| StatusError (reason msg : string)
| Wrapped (msg : string) (inner : error)
| Joined (errs : list error).

(** What a Go function with results [(A, error)] does: it returns a value and a
    nil error, it returns a non-nil error, or it panics. *)
Inductive outcome (A : Type) : Type :=
| Ok (a : A)
| Err (e : error)
| Panic (why : string).
Arguments Ok {A} a.
Arguments Err {A} e.
Arguments Panic {A} why.

(** [strings.Join]. *)
Fixpoint Join (l : list string) (sep : string) : string :=
  match l with
  | [] => ""
  | [s] => s
  | s :: l' => s +:+ sep +:+ Join l' sep
  end.

Definition newline : string := String (Ascii.ascii_of_nat 10) EmptyString.

(** [err.Error()]. *)
Fixpoint Error (e : error) : string :=
  match e with
  | ErrorString m | Sentinel _ m | StatusError _ m | Wrapped m _ => m
  | Joined l => Join (map Error l) newline
  end.

(** [errors.Is] against the sentinel called [name]. *)
Fixpoint ErrorIs (name : string) (e : error) : bool :=
  match e with
  | Sentinel n _ => bool_decide (n = name)
  | Wrapped _ inner => ErrorIs name inner
  | Joined l => existsb (ErrorIs name) l
  | _ => false
  end.

(** [fmt.Errorf(prefix + "%w", err)]. *)
Definition wrapf (prefix : string) (e : error) : error :=
  Wrapped (prefix +:+ Error e) e.

Definition outcome_bind {A B : Type} (m : outcome A) (f : A → outcome B) : outcome B :=
  match m with
  | Ok a => f a
  | Err e => Err e
  | Panic w => Panic w
  end.

(** [if err != nil { return f(err) }]. *)
Definition on_err {A : Type} (f : error → error) (m : outcome A) : outcome A :=
  match m with
  | Ok a => Ok a
  | Err e => Err (f e)
  | Panic w => Panic w
  end.

(** Dereference of a pointer: a nil pointer panics. *)
Definition deref {A : Type} (p : option A) : outcome A :=
  match p with
  | Some a => Ok a
  | None => Panic "invalid memory address or nil pointer dereference"
  end.

(** [p != nil]. *)
Definition is_some {A : Type} (o : option A) : bool :=
  match o with Some _ => true | None => false end.

Definition is_ok {A : Type} (m : outcome A) : bool :=
  match m with Ok _ => true | _ => false end.

Declare Scope go_scope.
Delimit Scope go_scope with go.

Notation "'let?' x := m 'in' k" := (outcome_bind m (λ x, k))
  (at level 10, x pattern, m at level 100, k at level 200) : go_scope.

(** A Go slice whose nil value differs, for the code, from an empty slice. *)
Definition slice (A : Type) : Type := option (list A).
Definition items {A : Type} (s : slice A) : list A := default [] s.

(** A Go [map\[string\]V] that may be nil; reading a nil map finds nothing. *)
Definition gomap (V : Type) : Type := option (gmap string V).
Definition entries {V : Type} (m : gomap V) : gmap string V := default ∅ m.

(** ** Tactics *)

(** Split on the scrutinee of a [match] or an [if] of the goal. *)
Ltac case_goal :=
  match goal with
  | |- context [match ?x with _ => _ end] => destruct x eqn:?
  end.

(** The same on a hypothesis. *)
Ltac case_hyp H :=
  match type of H with
  | context [match ?x with _ => _ end] => destruct x eqn:?
  end.

(** Case analysis on every [match] of [H] until only solved goals are left. *)
Ltac crush_hyp H := repeat (case_hyp H; simplify_eq/=; try done).

(** ** Generic lemmas *)

Create HintDb go discriminated.
Create Rewrite HintDb go_rw.

Lemma outcome_bind_Ok {A B : Type} (m : outcome A) (f : A → outcome B) b :
  outcome_bind m f = Ok b ↔ ∃ a, m = Ok a ∧ f a = Ok b.
Proof. destruct m; simpl; naive_solver. Qed.

Lemma on_err_Ok {A : Type} f (m : outcome A) a : on_err f m = Ok a ↔ m = Ok a.
Proof. destruct m; simpl; naive_solver. Qed.

Lemma deref_Ok {A : Type} (p : option A) a : deref p = Ok a ↔ p = Some a.
Proof. destruct p; naive_solver. Qed.

#[export] Hint Rewrite @outcome_bind_Ok @on_err_Ok @deref_Ok : go_rw.

(** A reference is wrapped at most once per layer: wrapping keeps [errors.Is]. *)
Lemma ErrorIs_wrapf name p e : ErrorIs name (wrapf p e) = ErrorIs name e.
Proof. done. Qed.

(** *** Strings *)

Lemma string_app_cancel_l (s t u : string) : s +:+ t = s +:+ u → t = u.
Proof.
  induction s as [|c s IH]; [done|]. intros H. apply IH. by injection H.
Qed.

Lemma string_length_app (s t : string) :
  String.length (s +:+ t) = (String.length s + String.length t)%nat.
Proof. induction s as [|c s IH]; [done|]. exact (f_equal S IH). Qed.

Lemma string_app_eq_length (s t u v : string) :
  String.length s = String.length t → s +:+ u = t +:+ v → s = t ∧ u = v.
Proof.
  revert t. induction s as [|c s IH]; intros [|c' t] Hl Heq; try done.
  injection Hl as Hl. injection Heq as -> Heq.
  by destruct (IH t Hl Heq) as [-> ->].
Qed.

Lemma string_app_cancel_r (s t u : string) : s +:+ u = t +:+ u → s = t.
Proof.
  intros H. assert (String.length s = String.length t) as Hl.
  { apply (f_equal String.length) in H. rewrite !string_length_app in H. lia. }
  by apply (string_app_eq_length _ _ _ _ Hl H).
Qed.

Lemma string_app_eq_length_r (s t u v : string) :
  String.length u = String.length v → s +:+ u = t +:+ v → s = t ∧ u = v.
Proof.
  intros Hl H. assert (String.length s = String.length t) as Hs.
  { apply (f_equal String.length) in H. rewrite !string_length_app in H. lia. }
  by apply string_app_eq_length.
Qed.

Lemma string_app_assoc (s t u : string) : (s +:+ t) +:+ u = s +:+ (t +:+ u).
Proof. induction s as [|c s IH]; [done|]. exact (f_equal (String c) IH). Qed.

Lemma string_app_nil_r (s : string) : s +:+ "" = s.
Proof. induction s as [|c s IH]; [done|]. exact (f_equal (String c) IH). Qed.

(** *** Lists *)

Lemma existsb_false_forall {A : Type} (f : A → bool) l :
  existsb f l = false ↔ ∀ x, x ∈ l → f x = false.
Proof.
  induction l as [|a l IH]; simpl.
  - split; [intros _ x Hx; by apply not_elem_of_nil in Hx | done].
  - rewrite orb_false_iff, IH. setoid_rewrite elem_of_cons. naive_solver.
Qed.
