(* ===== verification/GoStrings.v ===== *)
(** * Strings and hashes of the Go standard library

    The functions of [strings], [fmt] and [hash/fnv] that the program calls, on
    byte strings ([String.string] holds the bytes of a Go string).  []byte values are
    byte strings too, so the conversions between the two are the identity. *)
From stdpp Require Import base gmap strings list pretty sorting.
From Stdlib Require Import ZArith Ascii Lia.
From S2P Require Import Prelude.

(** []byte. *)
Abbreviation bytes := string (only parsing).

(** [strings.HasPrefix(s, prefix)]. *)
Fixpoint HasPrefix (s p : string) : bool :=
  match p, s with
  | EmptyString, _ => true
  | String c p', String d s' => bool_decide (c = d) && HasPrefix s' p'
  | String _ _, EmptyString => false
  end.

(** [strings.Contains(s, t)]. *)
Fixpoint Contains (s t : string) : bool :=
  HasPrefix s t || match s with EmptyString => false | String _ s' => Contains s' t end.

(** The bytes of [s] from index [n] on. *)
Fixpoint drop_bytes (n : nat) (s : string) : string :=
  match n, s with
  | O, _ => s
  | S m, String _ s' => drop_bytes m s'
  | S _, EmptyString => EmptyString
  end.

(** [strings.TrimPrefix(s, prefix)]. *)
Definition TrimPrefix (s p : string) : string :=
  if HasPrefix s p then drop_bytes (String.length p) s else s.

(** [strings.Split(s, sep)] for a separator of one byte. *)
Fixpoint Split (s : string) (sep : ascii) : list string :=
  match s with
  | EmptyString => [EmptyString]
  | String c s' =>
      if bool_decide (c = sep) then EmptyString :: Split s' sep
      else match Split s' sep with
           | [] => [String c EmptyString]
           | w :: ws => String c w :: ws
           end
  end.

Fixpoint rev_app (s acc : string) : string :=
  match s with
  | EmptyString => acc
  | String c s' => rev_app s' (String c acc)
  end.
Definition rev_string (s : string) : string := rev_app s EmptyString.

Definition of_codes (l : list nat) : string :=
  foldr (λ n s, String (ascii_of_nat n) s) EmptyString l.

(** The UTF-8 encodings of the runes for which [unicode.IsSpace] holds. *)
Definition space_encodings : list string :=
  map of_codes
    ([[9]; [10]; [11]; [12]; [13]; [32]; [194; 133]; [194; 160]; [225; 154; 128]]
     ++ map (λ n, [226; 128; n]) (seq 128 11)
     ++ [[226; 128; 168]; [226; 128; 169]; [226; 128; 175]; [226; 129; 159]; [227; 128; 128]]).

(** Remove, while one applies, a prefix of [ws]; [fuel] is the length of the
    string, and each round removes at least one byte. *)
Fixpoint trim_left (fuel : nat) (ws : list string) (s : string) : string :=
  match fuel with
  | O => s
  | S n => match List.find (HasPrefix s) ws with
           | Some w => trim_left n ws (drop_bytes (String.length w) s)
           | None => s
           end
  end.

(** [strings.TrimSpace].  A UTF-8 encoding ends a string exactly when its reversal starts
    the reversed string, so the right side is trimmed on the reversed string. *)
Definition TrimSpace (s : string) : string :=
  let l := trim_left (String.length s) space_encodings s in
  rev_string (trim_left (String.length l) (map rev_string space_encodings) (rev_string l)).

Definition lower_ascii (c : ascii) : ascii :=
  let n := nat_of_ascii c in
  if (65 <=? n)%nat && (n <=? 90)%nat then ascii_of_nat (n + 32) else c.

(** [strings.ToLower], as far as a comparison of its result with an ASCII
    string can tell: the ASCII letters are lowered, and so are the two other
    runes whose lower case is ASCII (the Kelvin sign and the dotted capital I);
    every other rune stays a rune that is not ASCII. *)
Fixpoint ToLower (s : string) : string :=
  match s with
  | EmptyString => EmptyString
  | String a s1 =>
      match s1 with
      | EmptyString => String (lower_ascii a) EmptyString
      | String b s2 =>
          if bool_decide (of_codes [196; 176] = String a (String b EmptyString))
          then String "i" (ToLower s2)
          else match s2 with
               | EmptyString => String (lower_ascii a) (ToLower s1)
               | String c s3 =>
                   if bool_decide (of_codes [226; 132; 170] =
                                   String a (String b (String c EmptyString)))
                   then String "k" (ToLower s3)
                   else String (lower_ascii a) (ToLower s1)
               end
      end
  end.

(** [%d] of an integer. *)
Definition itoa (z : Z) : string := pretty z.

(** [strconv.FormatBool]. *)
Definition FormatBool (b : bool) : string := if b then "true" else "false".

Definition hex_digit (d : Z) : ascii :=
  ascii_of_nat (Z.to_nat (if (d <? 10)%Z then 48 + d else 87 + d)).

(** The [n] lowest hexadecimal digits of [h] in front of [acc]. *)
Fixpoint hex_digits (n : nat) (h : Z) (acc : string) : string :=
  match n with
  | O => acc
  | S m => hex_digits m (h / 16) (String (hex_digit (h mod 16)) acc)
  end.

(** [fmt.Sprintf("%08x", h)] of a [uint32]. *)
Definition hex08 (h : Z) : string := hex_digits 8 h EmptyString.

(** [hash/fnv]: 32-bit FNV-1a.  A [uint32] is a [Z]; the product wraps. *)
Definition fnv_offset32 : Z := 2166136261.
Definition fnv_prime32 : Z := 16777619.
Definition fnv32a_step (h : Z) (c : ascii) : Z :=
  (Z.lxor h (Z.of_nat (nat_of_ascii c)) * fnv_prime32) mod 2 ^ 32.
Fixpoint fnv32a_from (h : Z) (s : string) : Z :=
  match s with
  | EmptyString => h
  | String c s' => fnv32a_from (fnv32a_step h c) s'
  end.
Definition fnv32a (s : string) : Z := fnv32a_from fnv_offset32 s.

(** [slices.Sort] of strings, by their bytes. *)
Definition str_le (s t : string) : Prop := String.leb s t = true.
#[global] Instance str_le_dec : RelDecision str_le.
Proof. intros s t. unfold str_le. apply _. Defined.
Definition Sort (l : list string) : list string := merge_sort str_le l.

(** ** Lemmas *)

#[global] Instance str_le_total : Total str_le.
Proof. intros s t. unfold str_le. destruct (String.leb_total s t); auto. Qed.

#[global] Instance str_le_antisymm : AntiSymm (=) str_le.
Proof. intros s t. apply String.leb_antisym. Qed.

#[global] Instance str_le_trans : Transitive str_le.
Proof.
  intros s t u. unfold str_le, String.leb. revert t u.
  induction s as [|a s IH]; intros [|b t] [|c u]; simpl; try done. unfold Ascii.compare.
  destruct (N.compare_spec (N_of_ascii a) (N_of_ascii b)) as [Hab|Hab|Hab]; try done;
    destruct (N.compare_spec (N_of_ascii b) (N_of_ascii c)) as [Hbc|Hbc|Hbc]; try done;
    destruct (N.compare_spec (N_of_ascii a) (N_of_ascii c)) as [Hac|Hac|Hac]; try done;
    try lia. apply IH.
Qed.

(** Sorting forgets the order. *)
Lemma Sort_perm l l' : l ≡ₚ l' → Sort l = Sort l'.
Proof.
  intros Hl. apply (Sorted_unique str_le).
  - apply Sorted_merge_sort. apply _.
  - apply Sorted_merge_sort. apply _.
  - unfold Sort. by rewrite !merge_sort_Permutation.
Qed.

Lemma Sort_Permutation l : Sort l ≡ₚ l.
Proof. apply merge_sort_Permutation. Qed.

Lemma Sort_Sorted l : Sorted str_le (Sort l).
Proof. apply Sorted_merge_sort. apply _. Qed.

Lemma HasPrefix_spec s p : HasPrefix s p = true ↔ ∃ t, s = p +:+ t.
Proof.
  revert s. induction p as [|c p IH]; intros [|d s]; simpl.
  - split; [by exists EmptyString | done].
  - split; [by exists (String d s) | done].
  - split; [done | by intros [t [=]]].
  - rewrite andb_true_iff, bool_decide_eq_true, IH. split.
    + intros [-> [t ->]]. by exists t.
    + intros [t [= -> ->]]. eauto.
Qed.

Lemma HasPrefix_app p t : HasPrefix (p +:+ t) p = true.
Proof. apply HasPrefix_spec. eauto. Qed.

Lemma drop_bytes_app p t : drop_bytes (String.length p) (p +:+ t) = t.
Proof. by induction p. Qed.

Lemma TrimPrefix_app p t : TrimPrefix (p +:+ t) p = t.
Proof. unfold TrimPrefix. by rewrite HasPrefix_app, drop_bytes_app. Qed.

Lemma Split_not_nil s c : Split s c ≠ [].
Proof. destruct s; simpl; [done|]. by repeat case_match. Qed.

(** Joining what [Split] gives restores the string. *)
Lemma Join_Split s c : Join (Split s c) (String c EmptyString) = s.
Proof.
  induction s as [|d s IH]; [done|]. simpl. pose proof (Split_not_nil s c).
  destruct (bool_decide_reflect (d = c)) as [->|]; destruct (Split s c) as [|w ws]; try done.
  - simpl in *. by rewrite <-IH.
  - destruct ws; simpl in *; by rewrite <-IH.
Qed.

(** *** Reversal *)

Lemma rev_app_spec s acc : rev_app s acc = rev_string s +:+ acc.
Proof.
  unfold rev_string. revert acc. induction s as [|c s IH]; intros acc; simpl; [done|].
  rewrite (IH (String c acc)), (IH (String c "")), string_app_assoc. done.
Qed.

Lemma rev_app_app s t acc : rev_app (s +:+ t) acc = rev_app t (rev_app s acc).
Proof. revert acc. induction s as [|c s IH]; intros acc; [done|]. apply IH. Qed.

Lemma rev_string_app s t : rev_string (s +:+ t) = rev_string t +:+ rev_string s.
Proof. unfold rev_string at 1 3. by rewrite rev_app_app, rev_app_spec. Qed.

(** A property of the sixteen values of a hexadecimal digit. *)
Lemma below_16 (P : Z → Prop) d :
  (0 ≤ d < 16)%Z →
  P 0%Z ∧ P 1%Z ∧ P 2%Z ∧ P 3%Z ∧ P 4%Z ∧ P 5%Z ∧ P 6%Z ∧ P 7%Z ∧
  P 8%Z ∧ P 9%Z ∧ P 10%Z ∧ P 11%Z ∧ P 12%Z ∧ P 13%Z ∧ P 14%Z ∧ P 15%Z → P d.
Proof.
  intros Hd Hall. destruct_and? Hall.
  assert (d = 0 ∨ d = 1 ∨ d = 2 ∨ d = 3 ∨ d = 4 ∨ d = 5 ∨ d = 6 ∨ d = 7 ∨ d = 8 ∨ d = 9 ∨
          d = 10 ∨ d = 11 ∨ d = 12 ∨ d = 13 ∨ d = 14 ∨ d = 15)%Z as Hcases by lia.
  repeat (destruct Hcases as [->|Hcases]; [done|]). by subst d.
Qed.

Lemma hex_digits_length n h acc :
  String.length (hex_digits n h acc) = (n + String.length acc)%nat.
Proof. revert h acc. induction n as [|n IH]; intros; simpl; [done|]. rewrite IH. simpl. lia. Qed.

Lemma fnv32a_step_range h c : (0 ≤ fnv32a_step h c < 2 ^ 32)%Z.
Proof. apply Z.mod_pos_bound. lia. Qed.

Lemma fnv32a_range s : (0 ≤ fnv32a s < 2 ^ 32)%Z.
Proof.
  unfold fnv32a. assert (0 ≤ fnv_offset32 < 2 ^ 32)%Z as H by (unfold fnv_offset32; lia).
  revert H. generalize fnv_offset32 as h. induction s as [|c s IH]; simpl; [done|].
  intros h _. apply IH, fnv32a_step_range.
Qed.

Example fnv32a_foobar : hex08 (fnv32a "foobar") = "bf9cf968".
Proof. vm_compute. reflexivity. Qed.
Example TrimSpace_ex : TrimSpace (of_codes [32; 194; 160] +:+ "texas " +:+ newline) = "texas".
Proof. vm_compute. reflexivity. Qed.
Example ToLower_ex : ToLower "TeXas" = "texas".
Proof. vm_compute. reflexivity. Qed.
