(* ===== verification/Regex.v ===== *)
(** * Regular expressions: the part of Go's [regexp] that the program uses

    Patterns are compiled from the text that stands in the source, by a lexer and a
    parser for the syntax these patterns use; a pattern with other syntax, or with a byte
    that is not ASCII, is outside of the model, and [Compile] says so.  Matching is by
    derivatives, proved against the relation [M] that gives the meaning of a pattern.

    Subjects are byte strings.  A negated class or a dot then takes one byte where Go
    takes one rune; the patterns of the program use both under [+] only, where a sequence
    of bytes and a sequence of runes are matched alike. *)
From stdpp Require Import base gmap strings list.
From Stdlib Require Import ZArith Ascii Lia.
From S2P Require Import Prelude GoStrings.
Open Scope go_scope.

(** ** Expressions and their meaning *)

(** A class is a list of ranges of bytes, both ends included, or what is outside of them. *)
Inductive regex : Type :=
| RNone
| REmpty
| RBegin
| REnd
| RClass (negated : bool) (ranges : list (ascii * ascii))
| RSeq (r1 r2 : regex)
| RAlt (r1 r2 : regex)
| RStar (r : regex).

Definition in_range (c : ascii) (range : ascii * ascii) : bool :=
  (nat_of_ascii range.1 <=? nat_of_ascii c)%nat && (nat_of_ascii c <=? nat_of_ascii range.2)%nat.
Definition in_class (negated : bool) (ranges : list (ascii * ascii)) (c : ascii) : bool :=
  xorb negated (existsb (in_range c) ranges).

Definition empty (s : string) : bool :=
  match s with EmptyString => true | String _ _ => false end.

(** [M r b s e]: [r] matches [s]; [b] tells whether [s] starts the text, [e] whether it ends
    the text. *)
Inductive M : regex → bool → string → bool → Prop :=
| M_empty b e : M REmpty b EmptyString e
| M_begin e : M RBegin true EmptyString e
| M_end b : M REnd b EmptyString true
| M_class n l c b e : in_class n l c = true → M (RClass n l) b (String c EmptyString) e
| M_seq r1 r2 s1 s2 b e :
    M r1 b s1 (e && empty s2) → M r2 (b && empty s1) s2 e → M (RSeq r1 r2) b (s1 +:+ s2) e
| M_left r1 r2 s b e : M r1 b s e → M (RAlt r1 r2) b s e
| M_right r1 r2 s b e : M r2 b s e → M (RAlt r1 r2) b s e
| M_stop r b e : M (RStar r) b EmptyString e
| M_more r s1 s2 b e :
    M r b s1 (e && empty s2) → M (RStar r) (b && empty s1) s2 e → M (RStar r) b (s1 +:+ s2) e.

(** ** Matching by derivatives *)

Fixpoint nullable (b e : bool) (r : regex) : bool :=
  match r with
  | RNone | RClass _ _ => false
  | REmpty | RStar _ => true
  | RBegin => b
  | REnd => e
  | RSeq r1 r2 => nullable b e r1 && nullable b e r2
  | RAlt r1 r2 => nullable b e r1 || nullable b e r2
  end.

Definition mk_seq (r1 r2 : regex) : regex :=
  match r1 with RNone => RNone | REmpty => r2 | _ => RSeq r1 r2 end.
Definition mk_alt (r1 r2 : regex) : regex :=
  match r1, r2 with RNone, _ => r2 | _, RNone => r1 | _, _ => RAlt r1 r2 end.

(** What is left to match after the byte [c]. *)
Fixpoint deriv (b : bool) (c : ascii) (r : regex) : regex :=
  match r with
  | RNone | REmpty | RBegin | REnd => RNone
  | RClass n l => if in_class n l c then REmpty else RNone
  | RSeq r1 r2 => mk_alt (mk_seq (deriv b c r1) r2)
                    (if nullable b false r1 then deriv b c r2 else RNone)
  | RAlt r1 r2 => mk_alt (deriv b c r1) (deriv b c r2)
  | RStar r => mk_seq (deriv b c r) (RStar r)
  end.

Fixpoint match_from (b : bool) (r : regex) (s : string) : bool :=
  match s with
  | EmptyString => nullable b true r
  | String c s' => match_from false (deriv b c r) s'
  end.

Definition any_byte : regex := RClass true [].

(** [re.MatchString(s)]: a match anywhere in [s]. *)
Definition MatchString (re : regex) (s : string) : bool :=
  match_from true (RSeq (RStar any_byte) (RSeq re (RStar any_byte))) s.

(** ** Syntax *)

Inductive token : Type :=
| TChar (c : ascii)
| TClass (negated : bool) (ranges : list (ascii * ascii))
| TBegin | TEnd | TOpen | TClose | TBar
| TRep (least : nat) (most : option nat).

Definition newline_char : ascii := ascii_of_nat 10.
Definition is_digit (c : ascii) : bool := in_range c ("0", "9")%char.
Definition is_alnum (c : ascii) : bool :=
  existsb (in_range c) [("0", "9"); ("a", "z"); ("A", "Z")]%char.
Definition is_ascii (c : ascii) : bool := (nat_of_ascii c <? 128)%nat.

(** A decimal number and the rest. *)
Fixpoint lex_number (acc : nat) (s : string) : nat * string :=
  match s with
  | String c s' =>
      if is_digit c then lex_number (10 * acc + (nat_of_ascii c - 48)) s' else (acc, s)
  | EmptyString => (acc, s)
  end.

(** [{n}], [{n,}] or [{n,m}] after the brace; anything else is no repetition. *)
Definition lex_repeat (s : string) : option (token * string) :=
  match s with
  | String d _ =>
      if negb (is_digit d) then None
      else
        let (n, s) := lex_number 0 s in
        match s with
        | String "}"%char rest => Some (TRep n (Some n), rest)
        | String ","%char (String "}"%char rest) => Some (TRep n None, rest)
        | String ","%char (String d s') =>
            if negb (is_digit d) then None
            else
              let (m, s'') := lex_number 0 (String d s') in
              match s'' with
              | String "}"%char rest => Some (TRep n (Some m), rest)
              | _ => None
              end
        | _ => None
        end
  | EmptyString => None
  end.

(** The members of a class up to its closing bracket. *)
Fixpoint lex_class (fuel : nat) (first : bool) (s : string) :
    option (list (ascii * ascii) * string) :=
  match fuel with
  | O => None
  | S fuel =>
      match s with
      | EmptyString => None
      | String lo s' =>
          if bool_decide (lo = "]"%char) && negb first then Some ([], s')
          else if bool_decide (lo = "["%char) || bool_decide (lo = "\"%char) then None
          else
            let next (range : ascii * ascii) rest :=
              match lex_class fuel false rest with
              | Some (l, rest') => Some (range :: l, rest')
              | None => None
              end in
            match s' with
            | String "-"%char (String hi s'') =>
                if bool_decide (hi = "]"%char) then next (lo, lo) s'
                else if bool_decide (hi = "["%char) || bool_decide (hi = "\"%char) then None
                else next (lo, hi) s''
            | _ => next (lo, lo) s'
            end
      end
  end.

(** A repetition that prefers few matches the same texts. *)
Definition skip_lazy (s : string) : string :=
  match s with String "?"%char s' => s' | _ => s end.

(** One token. *)
Definition lex_one (s : string) : option (token * string) :=
  match s with
  | EmptyString => None
  | String c s' =>
      if negb (is_ascii c) then None
      else if bool_decide (c = "\"%char) then
        match s' with
        | String d s'' => if is_ascii d && negb (is_alnum d) then Some (TChar d, s'') else None
        | EmptyString => None
        end
      else if bool_decide (c = "["%char) then
        let (negated, body) :=
          match s' with String "^"%char s'' => (true, s'') | _ => (false, s') end in
        match lex_class (String.length s') true body with
        | Some (l, rest) => Some (TClass negated l, rest)
        | None => None
        end
      else if bool_decide (c = "("%char) then
        match s' with
        | String "?"%char (String ":"%char s'') => Some (TOpen, s'')
        | String "?"%char _ => None
        | _ => Some (TOpen, s')
        end
      else if bool_decide (c = "{"%char) then
        match lex_repeat s' with
        | Some (t, rest) => Some (t, skip_lazy rest)
        | None => Some (TChar c, s')
        end
      else Some
        (if bool_decide (c = ")"%char) then (TClose, s')
         else if bool_decide (c = "|"%char) then (TBar, s')
         else if bool_decide (c = "^"%char) then (TBegin, s')
         else if bool_decide (c = "$"%char) then (TEnd, s')
         else if bool_decide (c = "."%char) then
           (TClass true [(newline_char, newline_char)], s')
         else if bool_decide (c = "*"%char) then (TRep 0 None, skip_lazy s')
         else if bool_decide (c = "+"%char) then (TRep 1 None, skip_lazy s')
         else if bool_decide (c = "?"%char) then (TRep 0 (Some 1%nat), skip_lazy s')
         else (TChar c, s'))
  end.

(** All tokens; each takes at least one byte, so the length of the text is enough fuel. *)
Fixpoint lex_all (fuel : nat) (s : string) : option (list token) :=
  match s with
  | EmptyString => Some []
  | _ =>
      match fuel with
      | O => None
      | S fuel =>
          match lex_one s with
          | Some (t, rest) =>
              match lex_all fuel rest with Some ts => Some (t :: ts) | None => None end
          | None => None
          end
      end
  end.
Definition lex (s : string) : option (list token) := lex_all (String.length s) s.

(** ** Parsing *)

(** An open group: the alternatives read so far and the items of the current one, both
    with the last one first, and whether the last item is a repetition. *)
Record frame := { f_alts : list regex; f_items : list regex; f_repeated : bool }.
Definition new_frame : frame := {| f_alts := []; f_items := []; f_repeated := false |}.

Definition seq_of (items : list regex) : regex := foldr RSeq REmpty items.
Definition alt_of (alts : list regex) : regex :=
  match alts with [] => RNone | r :: l => fold_left RAlt l r end.

(** The expression of a whole group. *)
Definition group_of (f : frame) : regex := alt_of (rev (seq_of (rev (f_items f)) :: f_alts f)).

Definition push (r : regex) (repeated : bool) (stack : list frame) : option (list frame) :=
  match stack with
  | f :: rest => Some ({| f_alts := f_alts f; f_items := r :: f_items f;
                          f_repeated := repeated |} :: rest)
  | [] => None
  end.

(** [r], at most [n] times. *)
Fixpoint at_most (n : nat) (r : regex) : regex :=
  match n with O => REmpty | S n => RAlt REmpty (RSeq r (at_most n r)) end.

Definition repeat_regex (least : nat) (most : option nat) (r : regex) : regex :=
  foldr RSeq (match most with Some m => at_most (m - least) r | None => RStar r end)
    (replicate least r).

(** [regexp/syntax] rejects counts above 1000 and a largest count below the least one. *)
Definition valid_counts (least : nat) (most : option nat) : bool :=
  (least <=? 1000)%nat &&
  match most with Some m => (m <=? 1000)%nat && (least <=? m)%nat | None => true end.

Definition parse_one (stack : list frame) (t : token) : option (list frame) :=
  match t with
  | TChar c => push (RClass false [(c, c)]) false stack
  | TClass n l => push (RClass n l) false stack
  | TBegin => push RBegin false stack
  | TEnd => push REnd false stack
  | TOpen => Some (new_frame :: stack)
  | TClose => match stack with f :: rest => push (group_of f) false rest | [] => None end
  | TBar =>
      match stack with
      | f :: rest => Some ({| f_alts := seq_of (rev (f_items f)) :: f_alts f; f_items := [];
                              f_repeated := false |} :: rest)
      | [] => None
      end
  | TRep least most =>
      match stack with
      | {| f_alts := alts; f_items := r :: items; f_repeated := false |} :: rest =>
          if valid_counts least most
          then Some ({| f_alts := alts; f_items := repeat_regex least most r :: items;
                        f_repeated := true |} :: rest)
          else None
      | _ => None
      end
  end.

Fixpoint parse_tokens (ts : list token) (stack : list frame) : option (list frame) :=
  match ts with
  | [] => Some stack
  | t :: ts =>
      match parse_one stack t with Some stack' => parse_tokens ts stack' | None => None end
  end.

Definition parse (s : string) : option regex :=
  match lex s with
  | Some ts =>
      match parse_tokens ts [new_frame] with
      | Some [f] => Some (group_of f)
      | _ => None
      end
  | None => None
  end.

(** [regexp.Compile]. *)
Definition Compile (s : string) : outcome regex :=
  match parse s with
  | Some r => Ok r
  | None => Panic "regexp syntax outside of the model"
  end.

(** [regexp.MustCompile]; the patterns of the program compile. *)
Definition MustCompile (s : string) : regex :=
  match Compile s with Ok r => r | _ => RNone end.

(** The length of the longest prefix of [s] that [r] matches. *)
Fixpoint longest_match (b : bool) (r : regex) (s : string) : option nat :=
  match s with
  | EmptyString => if nullable b true r then Some O else None
  | String c s' =>
      match longest_match false (deriv b c r) s' with
      | Some n => Some (S n)
      | None => if nullable b false r then Some O else None
      end
  end.

(** [re.ReplaceAllString(s, repl)], for a replacement without [$] and an expression that
    does not match the empty string and prefers longer matches (no [|], nothing lazy):
    [fuel] is the length of [s], and each round takes at least one byte. *)
Fixpoint replace_from (fuel : nat) (b : bool) (re : regex) (s repl : string) : string :=
  match fuel, s with
  | S fuel', String c s' =>
      match longest_match b re s with
      | Some (S n) => repl +:+ replace_from fuel' false re (drop_bytes n s') repl
      | _ => String c (replace_from fuel' false re s' repl)
      end
  | _, _ => s
  end.
Definition ReplaceAllString (re : regex) (s repl : string) : string :=
  replace_from (String.length s) true re s repl.

(** [regexp.QuoteMeta]. *)
Definition special : list ascii :=
  ["\"; "."; "+"; "*"; "?"; "("; ")"; "|"; "["; "]"; "{"; "}"; "^"; "$"]%char.
Fixpoint QuoteMeta (s : string) : string :=
  match s with
  | EmptyString => EmptyString
  | String c s' =>
      if bool_decide (c ∈ special) then String "\" (String c (QuoteMeta s'))
      else String c (QuoteMeta s')
  end.

(** ** The derivatives are right *)

Lemma empty_app s1 s2 : empty (s1 +:+ s2) = empty s1 && empty s2.
Proof. by destruct s1. Qed.

Lemma M_none b s e : ¬ M RNone b s e.
Proof. inversion 1. Qed.

Lemma M_empty_inv b s e : M REmpty b s e ↔ s = EmptyString.
Proof. split; [by inversion 1|]. intros ->. constructor. Qed.

Lemma M_alt_iff r1 r2 b s e : M (RAlt r1 r2) b s e ↔ M r1 b s e ∨ M r2 b s e.
Proof. split; [inversion 1; auto|]. intros [?|?]; by constructor. Qed.

Lemma M_seq_iff r1 r2 b s e :
  M (RSeq r1 r2) b s e ↔
  ∃ s1 s2, s = s1 +:+ s2 ∧ M r1 b s1 (e && empty s2) ∧ M r2 (b && empty s1) s2 e.
Proof.
  split; [inversion 1; subst; eauto 10|]. intros (s1 & s2 & -> & H1 & H2). by constructor.
Qed.

Lemma M_class_iff n l b s e :
  M (RClass n l) b s e ↔ ∃ c, s = String c EmptyString ∧ in_class n l c = true.
Proof. split; [inversion 1; eauto|]. intros (c & -> & Hc). by constructor. Qed.

Lemma mk_seq_iff r1 r2 b s e : M (mk_seq r1 r2) b s e ↔ M (RSeq r1 r2) b s e.
Proof.
  destruct r1; try done.
  - rewrite M_seq_iff. simpl. split; [by intros ?%M_none|]. by intros (? & ? & _ & ?%M_none & _).
  - simpl. rewrite M_seq_iff. setoid_rewrite M_empty_inv. split.
    + intros Hm. exists EmptyString, s. by rewrite andb_true_r.
    + intros (s1 & s2 & -> & -> & Hm). by rewrite andb_true_r in Hm.
Qed.

Lemma mk_alt_iff r1 r2 b s e : M (mk_alt r1 r2) b s e ↔ M (RAlt r1 r2) b s e.
Proof.
  rewrite M_alt_iff. destruct r1, r2; simpl; rewrite ?M_alt_iff; try done;
    (split; [auto|intros [?|?]; [by try (exfalso; by eapply M_none)|by try (exfalso; by eapply M_none)]]).
Qed.

Lemma app_empty (s1 s2 : string) : s1 +:+ s2 = EmptyString → s1 = EmptyString ∧ s2 = EmptyString.
Proof. by destruct s1. Qed.

Lemma nullable_spec b e r : nullable b e r = true ↔ M r b EmptyString e.
Proof.
  revert b e. induction r as [| | | |n l|r1 IH1 r2 IH2|r1 IH1 r2 IH2|r IH]; intros b e; simpl.
  - split; [done|]. by intros ?%M_none.
  - split; [constructor|done].
  - destruct b; split; try done; [constructor|by inversion 1].
  - destruct e; split; try done; [constructor|by inversion 1].
  - split; [done|]. by intros (c & ? & _)%M_class_iff.
  - rewrite andb_true_iff, IH1, IH2, M_seq_iff. split.
    + intros [H1 H2]. exists EmptyString, EmptyString. by rewrite !andb_true_r.
    + intros (s1 & s2 & Heq & H1 & H2). symmetry in Heq. apply app_empty in Heq as [-> ->].
      by rewrite andb_true_r in H1, H2.
  - by rewrite orb_true_iff, IH1, IH2, M_alt_iff.
  - split; [constructor|done].
Qed.

(** A nonempty match of a star starts with a nonempty match of its body. *)
Lemma M_star_cons r b c s e :
  M (RStar r) b (String c s) e ↔
  ∃ s1 s2, s = s1 +:+ s2 ∧ M r b (String c s1) (e && empty s2) ∧ M (RStar r) false s2 e.
Proof.
  split.
  - intros Hm. remember (RStar r) as r' eqn:Hr. remember (String c s) as s' eqn:Hs.
    revert c s Hr Hs. induction Hm as [| | | | | | | |r0 s1 s2 b e H1 _ H2 IH]; try done.
    intros c s [= ->] Hs. destruct s1 as [|c1 s1]; simpl in *.
    + rewrite andb_true_r in IH. by apply IH.
    + injection Hs as -> <-. exists s1, s2. by rewrite andb_false_r in H2.
  - intros (s1 & s2 & -> & H1 & H2). apply (M_more r (String c s1) s2); [done|].
    simpl. by rewrite andb_false_r.
Qed.

Lemma deriv_spec r : ∀ b c s e, M (deriv b c r) false s e ↔ M r b (String c s) e.
Proof.
  induction r as [| | | |n l|r1 IH1 r2 IH2|r1 IH1 r2 IH2|r IH]; intros b c s e; simpl;
    try (split; [by intros ?%M_none|by inversion 1]).
  - destruct (in_class n l c) eqn:Hc; rewrite M_class_iff.
    + rewrite M_empty_inv. split; [intros ->; eauto|]. by intros (c' & [= -> ->] & _).
    + split; [by intros ?%M_none|]. intros (c' & [= -> ->] & ?). congruence.
  - rewrite mk_alt_iff, M_alt_iff, mk_seq_iff, !M_seq_iff. setoid_rewrite IH1. split.
    + intros [(s1 & s2 & -> & H1 & H2)|H2].
      * exists (String c s1), s2. simpl. by rewrite andb_false_r.
      * destruct (nullable b false r1) eqn:Hn; [|by apply M_none in H2].
        apply nullable_spec in Hn. apply IH2 in H2.
        exists EmptyString, (String c s). simpl. by rewrite andb_false_r, andb_true_r.
    + intros ([|c1 s1] & s2 & Heq & H1 & H2); simpl in *.
      * right. change (String c s = s2) in Heq. subst s2. simpl in H1. rewrite andb_false_r in H1. rewrite andb_true_r in H2.
        apply nullable_spec in H1. rewrite H1. by apply IH2.
      * injection Heq as <- ->. left. exists s1, s2. by rewrite andb_false_r in H2.
  - by rewrite mk_alt_iff, !M_alt_iff, IH1, IH2.
  - rewrite mk_seq_iff, M_seq_iff, M_star_cons. by setoid_rewrite IH.
Qed.

Lemma match_from_spec b r s : match_from b r s = true ↔ M r b s true.
Proof.
  revert b r. induction s as [|c s IH]; intros b r; simpl; [apply nullable_spec|].
  by rewrite IH, deriv_spec.
Qed.

Lemma M_any b s e : M (RStar any_byte) b s e.
Proof.
  revert b. induction s as [|c s IH]; intros b; [constructor|].
  apply (M_more _ (String c EmptyString) s); [by constructor|apply IH].
Qed.

(** A match is a match of some part of the text. *)
Lemma MatchString_spec re s :
  MatchString re s = true ↔
  ∃ s1 s2 s3, s = s1 +:+ s2 +:+ s3 ∧ M re (empty s1) s2 (empty s3).
Proof.
  unfold MatchString. rewrite match_from_spec, M_seq_iff. setoid_rewrite M_seq_iff. simpl. split.
  - intros (s1 & s' & -> & _ & s2 & s3 & -> & Hm & _). eauto 10.
  - intros (s1 & s2 & s3 & -> & Hm). exists s1, (s2 +:+ s3). split; [done|].
    split; [apply M_any|]. exists s2, s3. split; [done|]. split; [done|apply M_any].
Qed.

(** ** Meaning of the common forms *)

Fixpoint all_chars (p : ascii → bool) (s : string) : bool :=
  match s with EmptyString => true | String c s' => p c && all_chars p s' end.

Definition char_re (c : ascii) : regex := RClass false [(c, c)].

(** The characters of [s] one after the other, then [r]. *)
Fixpoint text_then (s : string) (r : regex) : regex :=
  match s with EmptyString => r | String c s' => RSeq (char_re c) (text_then s' r) end.

Lemma in_class_single c d : in_class false [(c, c)] d = true ↔ d = c.
Proof.
  unfold in_class, in_range. simpl. rewrite orb_false_r, andb_true_iff, !Nat.leb_le. split.
  - intros [H1 H2]. rewrite <-(ascii_nat_embedding c), <-(ascii_nat_embedding d).
    f_equal. lia.
  - by intros ->.
Qed.

Lemma M_char c b s e : M (char_re c) b s e ↔ s = String c EmptyString.
Proof.
  unfold char_re. rewrite M_class_iff. setoid_rewrite in_class_single. naive_solver.
Qed.

Lemma M_text_then t r b s e :
  M (text_then t r) b s e ↔ ∃ s', s = t +:+ s' ∧ M r (b && empty t) s' e.
Proof.
  revert b s. induction t as [|c t IH]; intros b s; simpl.
  - rewrite andb_true_r. split; [eauto|]. by intros (s' & -> & ?).
  - rewrite M_seq_iff. setoid_rewrite M_char. setoid_rewrite IH. split.
    + intros (s1 & s2 & -> & -> & s' & -> & Hm). exists s'. split; [done|].
      simpl in Hm. by rewrite andb_false_r in *.
    + intros (s' & -> & Hm). exists (String c EmptyString), (t +:+ s').
      split_and!; [done|done|]. exists s'. split; [done|]. simpl. by rewrite andb_false_r in *.
Qed.

Lemma M_star_class n l b s e :
  M (RStar (RClass n l)) b s e ↔ all_chars (in_class n l) s = true.
Proof.
  revert b. induction s as [|c s IH]; intros b; simpl; [split; [done|constructor]|].
  rewrite M_star_cons, andb_true_iff. setoid_rewrite M_class_iff. split.
  - intros (s1 & s2 & -> & (c' & [= -> ->] & Hc) & Hm). split; [done|]. by eapply IH.
  - intros [Hc Hs]. exists EmptyString, s. split_and!; [done|eauto|by apply IH].
Qed.

Lemma M_plus_class n l b s e :
  M (RSeq (RClass n l) (RStar (RClass n l))) b s e ↔
  empty s = false ∧ all_chars (in_class n l) s = true.
Proof.
  rewrite M_seq_iff. setoid_rewrite M_class_iff. setoid_rewrite M_star_class. split.
  - intros (s1 & s2 & -> & (c & -> & Hc) & Hs). simpl. by rewrite Hc.
  - destruct s as [|c s]; simpl; [by intros [? _]|]. rewrite andb_true_iff.
    intros (_ & Hc & Hs). exists (String c EmptyString), s. eauto 10.
Qed.

Lemma M_at_most_class k n l b s e :
  M (at_most k (RClass n l)) b s e ↔
  (String.length s ≤ k)%nat ∧ all_chars (in_class n l) s = true.
Proof.
  revert b s. induction k as [|k IH]; intros b s; simpl.
  - rewrite M_empty_inv. split; [by intros ->|]. intros [Hl _]. destruct s; [done|]. simpl in Hl. lia.
  - rewrite M_alt_iff, M_empty_inv, M_seq_iff. setoid_rewrite M_class_iff. setoid_rewrite IH. split.
    + intros [->|(s1 & s2 & -> & (c & -> & Hc) & Hl & Hs)]; [split; [simpl; lia|done]|].
      change (String c EmptyString +:+ s2) with (String c s2). simpl.
      rewrite Hc, Hs. split; [lia|done].
    + destruct s as [|c s]; simpl; [by left|]. rewrite andb_true_iff. intros (Hl & Hc & Hs).
      right. exists (String c EmptyString), s. split_and!; [done|eauto|lia|done].
Qed.

Lemma M_alt_of rs b s e : M (alt_of rs) b s e ↔ ∃ r, r ∈ rs ∧ M r b s e.
Proof.
  assert (∀ rs r0, M (fold_left RAlt rs r0) b s e ↔ M r0 b s e ∨ ∃ r, r ∈ rs ∧ M r b s e) as Hfold.
  { clear rs. induction rs as [|r rs IH]; intros r0; simpl; [set_solver|].
    rewrite IH, M_alt_iff. set_solver. }
  destruct rs as [|r rs]; simpl.
  - split; [by intros ?%M_none|]. by intros (r & ?%not_elem_of_nil & _).
  - rewrite Hfold. set_solver.
Qed.

Lemma M_begin_iff b s e : M RBegin b s e ↔ b = true ∧ s = EmptyString.
Proof. split; [by inversion 1|]. intros [-> ->]. constructor. Qed.

Lemma M_end_iff b s e : M REnd b s e ↔ e = true ∧ s = EmptyString.
Proof. split; [by inversion 1|]. intros [-> ->]. constructor. Qed.

(** A pattern that starts with [^]: the match is at the start. *)
Lemma MatchString_begin r s :
  MatchString (RSeq RBegin r) s = true ↔ ∃ s2 s3, s = s2 +:+ s3 ∧ M r true s2 (empty s3).
Proof.
  rewrite MatchString_spec. setoid_rewrite M_seq_iff. setoid_rewrite M_begin_iff. split.
  - intros (s1 & s2 & s3 & -> & s4 & s5 & -> & [He ->] & Hm).
    destruct s1; [|done]. exists s5, s3. done.
  - intros (s2 & s3 & -> & Hm). exists EmptyString, s2, s3. split; [done|].
    exists EmptyString, s2. done.
Qed.

(** ** Lexing and parsing of quoted text *)

Inductive Lexes : string → list token → Prop :=
| Lexes_nil : Lexes EmptyString []
| Lexes_cons s t rest ts : lex_one s = Some (t, rest) → Lexes rest ts → Lexes s (t :: ts).

Lemma Lexes_all s ts fuel : Lexes s ts → (length ts ≤ fuel)%nat → lex_all fuel s = Some ts.
Proof.
  intros Hl. revert fuel. induction Hl as [|s t rest ts Ht _ IH]; intros fuel Hf; simpl in *.
  - by destruct fuel.
  - destruct fuel as [|fuel]; [lia|]. simpl. destruct s; [done|].
    rewrite Ht, IH by lia. done.
Qed.

Lemma lex_quoted c rest :
  is_ascii c = true →
  lex_one (if bool_decide (c ∈ special) then String "\" (String c rest) else String c rest) =
    Some (TChar c, rest).
Proof.
  destruct c as [[] [] [] [] [] [] [] []]; intros Hc; try discriminate Hc; reflexivity.
Qed.

(** Every character of a quoted text stands for itself. *)
Lemma Lexes_QuoteMeta s rest ts :
  all_chars is_ascii s = true → Lexes rest ts →
  Lexes (QuoteMeta s +:+ rest) (map TChar (String.list_ascii_of_string s) ++ ts).
Proof.
  intros Hs Hr. induction s as [|c s IH]; simpl in *; [done|].
  apply andb_prop in Hs as [Hc Hs]. pose proof (lex_quoted c (QuoteMeta s +:+ rest) Hc) as Hl.
  case_bool_decide; by apply (Lexes_cons _ (TChar c) (QuoteMeta s +:+ rest)), IH.
Qed.

Lemma QuoteMeta_length s : (String.length s ≤ String.length (QuoteMeta s))%nat.
Proof. induction s as [|c s IH]; simpl; [lia|]. case_bool_decide; simpl; lia. Qed.

Lemma parse_tokens_app ts1 ts2 st :
  parse_tokens (ts1 ++ ts2) st =
  match parse_tokens ts1 st with Some st' => parse_tokens ts2 st' | None => None end.
Proof. revert st. induction ts1 as [|t ts1 IH]; intros st; simpl; [done|]. by case_match. Qed.

Lemma parse_chars s alts items st :
  parse_tokens (map TChar s) ({| f_alts := alts; f_items := items; f_repeated := false |} :: st) =
  Some ({| f_alts := alts; f_items := rev (map char_re s) ++ items; f_repeated := false |} :: st).
Proof.
  revert items. induction s as [|c s IH]; intros items; simpl; [done|].
  rewrite IH. do 3 f_equal. by rewrite <-app_assoc.
Qed.

Lemma seq_of_chars s : seq_of (map char_re (String.list_ascii_of_string s)) = text_then s REmpty.
Proof. induction s as [|c s IH]; simpl; [done|]. by rewrite <-IH. Qed.
