(* ===== verification/Url2crd.v ===== *)
(** * Fetching the schemas of other projects: [hack/url2crd/main.go]

    The build tool that downloads CustomResourceDefinitions: it reads the documents of a
    YAML text, takes the definitions of the requested kinds, makes sure that every version
    has the status subresource, and writes each to its own file.  The YAML library, HTTP
    and the file system are the class [Tools].  The theorems: which files a run writes, that
    the change is idempotent and touches nothing but the subresources, and where the files
    end up. *)
From stdpp Require Import base gmap strings list.
From Stdlib Require Import ZArith Ascii Lia.
From S2P Require Import Prelude GoStrings Regex.
Open Scope go_scope.

(** ** Documents *)

(** A value in a decoded document, as the program tells them apart.  A document shares no
    maps: the library decodes an alias anew. *)
Inductive any : Type :=
| AString (s : string)
| AMap (m : gomap any)
| ASlice (l : list any)
| AOther (text : string).

(** Type assertions, and what is left of them without their [ok]. *)
Definition to_map (v : option any) : option (gomap any) :=
  match v with Some (AMap m) => Some m | _ => None end.
Definition to_slice (v : option any) : option (list any) :=
  match v with Some (ASlice l) => Some l | _ => None end.
Definition to_string (v : option any) : option string :=
  match v with Some (AString s) => Some s | _ => None end.
Definition map_of (v : option any) : gomap any := default None (to_map v).
Definition string_of (v : option any) : string := default EmptyString (to_string v).

(** [m\[key\]] and [m\[key\] = v]; writing to a nil map panics. *)
Definition get (m : gomap any) (key : string) : option any := entries m !! key.
Definition assign (m : gomap any) (key : string) (v : any) : outcome (gomap any) :=
  match m with
  | Some m => Ok (Some (<[key := v]> m))
  | None => Panic "assignment to entry in nil map"
  end.

Record objectMeta := { om_APIVersion : string; om_Kind : string; om_Name : string }.

(** [http.Response]; the error of closing the body is only printed. *)
Record Response := {
  StatusCode : Z;
  StatusText : string;
  ContentType : string;
  Body : outcome string;
}.

Class Tools := {
  (** What a [yaml.Decoder] gives until the end of the text or until an error. *)
  DecodeAll : string → list (gomap any) * option error;
  (** [yaml.Marshal]. *)
  Marshal : gomap any → outcome string;
  (** The [objectMeta] that [yaml.Unmarshal] leaves; its error is dropped. *)
  UnmarshalMeta : string → objectMeta;
  (** [http.NewRequestWithContext] and [http.DefaultClient.Do]. *)
  NewRequest : string → option error;
  Do : string → outcome Response;
  (** [os.MkdirAll] and [os.WriteFile]. *)
  MkdirAll : string → option error;
  WriteFile : string → string → option error;
}.

(** ** Names of files *)

Definition invalid : regex := MustCompile "[^a-zA-Z0-9_.-]+".
Definition sanitize (s : string) : string := ReplaceAllString invalid s "-".

Definition crdFileName (raw : gomap any) : string :=
  let spec := map_of (get raw "spec") in
  let group := string_of (get spec "group") in
  let names := map_of (get spec "names") in
  let plural := string_of (get names "plural") in
  if empty group || empty plural then
    let meta := map_of (get raw "metadata") in
    let name := string_of (get meta "name") in
    let name := if empty name then "crd" else name in
    ToLower (sanitize name) +:+ ".yaml"
  else ToLower group +:+ "_" +:+ ToLower plural +:+ ".yaml".

(** [filepath.Clean]: the elements of the cleaned path, last first. *)
Definition clean_element (rooted : bool) (acc : list string) (element : string) : list string :=
  if bool_decide (element ∈ [""; "."]) then acc
  else if bool_decide (element = "..") then
    match acc with
    | [] => if rooted then [] else [".."]
    | top :: rest => if bool_decide (top = "..") then ".." :: acc else rest
    end
  else element :: acc.
Definition clean_elements (rooted : bool) (elements : list string) : list string :=
  fold_left (clean_element rooted) elements [].
Definition Clean (path : string) : string :=
  let rooted := HasPrefix path "/" in
  let out := (if rooted then "/" else "") +:+
             Join (rev (clean_elements rooted (Split path "/"))) "/" in
  if empty out then "." else out.

(** [filepath.Join] of two elements; empty ones are left out. *)
Definition JoinPath (dir file : string) : string :=
  if empty dir then (if empty file then "" else Clean file)
  else Clean (dir +:+ "/" +:+ file).

(** ** The status subresource *)

Definition with_status (v : any) : outcome any :=
  match to_map (Some v) with
  | None => Ok v
  | Some ver =>
      let old := map_of (get ver "subresources") in
      let subresources := match old with Some m => m | None => ∅ end in
      let subresources := match subresources !! "status" with
                          | Some _ => subresources
                          | None => <["status" := AMap (Some ∅)]> subresources
                          end in
      let? ver := assign ver "subresources" (AMap (Some subresources)) in
      Ok (AMap ver)
  end.

Fixpoint map_outcome {A B : Type} (f : A → outcome B) (l : list A) : outcome (list B) :=
  match l with
  | [] => Ok []
  | a :: l => let? b := f a in let? bs := map_outcome f l in Ok (b :: bs)
  end.

Definition ensureVersionedStatusSubresource (raw : gomap any) : outcome (gomap any) :=
  match to_map (get raw "spec") with
  | None => Ok raw
  | Some spec =>
      match to_slice (get spec "versions") with
      | None | Some [] => Ok raw
      | Some versions =>
          let? versions := map_outcome with_status versions in
          let? spec := assign spec "versions" (ASlice versions) in
          assign raw "spec" (AMap spec)
      end
  end.

(** ** Effects *)

(** What a run of the tool wrote, and how it ended; an error is the text it ends with. *)
Definition written (A : Type) : Type := list (string * string) * outcome A.
Definition pure {A : Type} (r : outcome A) : written A := ([], r).
Definition written_bind {A B : Type} (m : written A) (f : A → written B) : written B :=
  match m.2 with
  | Ok a => let n := f a in (m.1 ++ n.1, n.2)
  | Err e => (m.1, Err e)
  | Panic w => (m.1, Panic w)
  end.
Notation "'let+' x := m 'in' k" := (written_bind m (λ x, k))
  (at level 10, x pattern, m at level 100, k at level 200) : go_scope.

Definition ends_with_newline (b : string) : bool := HasPrefix (rev_string b) newline.

Section Tool.
Context `{Tools}.

(** A CustomResourceDefinition among the documents, with its header. *)
Record crdEntry := { ce_raw : gomap any; ce_meta : objectMeta }.

(** The loop over the documents. *)
Fixpoint collect (label : string) (docs : list (gomap any)) (err : option error) :
    outcome (list crdEntry) :=
  match docs with
  | [] => match err with
          | Some err => Err (wrapf (label +:+ ": decode yaml: ") err)
          | None => Ok []
          end
  | raw :: docs =>
      if (size (entries raw) =? 0)%nat then collect label docs err
      else
        let? b := on_err (wrapf (label +:+ ": marshal doc: ")) (Marshal raw) in
        let meta := UnmarshalMeta b in
        if negb (bool_decide (om_Kind meta = "CustomResourceDefinition"))
        then collect label docs err
        else
          let? crds := collect label docs err in
          Ok ({| ce_raw := raw; ce_meta := meta |} :: crds)
  end.

Definition crdDefinedKind (raw : gomap any) : string :=
  match to_map (get raw "spec") with
  | None => ""
  | Some spec =>
      match to_map (get spec "names") with
      | None => ""
      | Some names => string_of (get names "kind")
      end
  end.

(** The kinds are compared in lower case; without [-kind] every definition is taken. *)
Definition requested (flagKinds : list string) (raw : gomap any) : bool :=
  bool_decide (flagKinds = []) ||
  bool_decide (ToLower (crdDefinedKind raw) ∈ map ToLower flagKinds).

Definition write_crd (label outDir : string) (raw : gomap any) : written unit :=
  let+ raw := pure (ensureVersionedStatusSubresource raw) in
  let+ b := pure (on_err (wrapf (label +:+ ": marshal doc: ")) (Marshal raw)) in
  let path := JoinPath outDir (crdFileName raw) in
  let b := if empty b || negb (ends_with_newline b) then b +:+ newline else b in
  ([(path, b)],
   match WriteFile path b with
   | Some werr => Err (wrapf ("write " +:+ path +:+ ": ") werr)
   | None => Ok tt
   end).

(** The loop over the definitions; the result is their number. *)
Fixpoint write_crds (label outDir : string) (flagKinds : list string) (crds : list crdEntry) :
    written nat :=
  match crds with
  | [] => ([], Ok 0%nat)
  | c :: crds =>
      if negb (requested flagKinds (ce_raw c)) then write_crds label outDir flagKinds crds
      else
        let+ _ := write_crd label outDir (ce_raw c) in
        let+ n := write_crds label outDir flagKinds crds in
        pure (Ok (S n))
  end.

Definition writeCRDsFromYAML (flagKinds : list string) (src label outDir : string) :
    written unit :=
  let '(docs, err) := DecodeAll src in
  let+ crds := pure (collect label docs err) in
  if (length crds =? 0)%nat then
    pure (Err (ErrorString (label +:+ ": no CustomResourceDefinition documents found")))
  else if (1 <? length crds)%nat && (length flagKinds =? 0)%nat then
    let kinds := map (λ c, crdDefinedKind (ce_raw c)) crds in
    pure (Err (ErrorString (label +:+ ": contains " +:+ itoa (Z.of_nat (length crds)) +:+ " CRDs (" +:+
      Join kinds ", " +:+ "); use -kind to specify which one(s) to write")))
  else
    let+ n := write_crds label outDir flagKinds crds in
    if (n =? 0)%nat then
      pure (Err (ErrorString (label +:+ ": no CRDs matched -kind=" +:+ Join flagKinds ", ")))
    else pure (Ok tt).

(** ** The download, and the program *)

(** [fatalf] ends the program with a text. *)
Definition fatal (prefix : string) {A : Type} (m : outcome A) : outcome A :=
  on_err (λ err, ErrorString (prefix +:+ Error err)) m.

Definition fetchURLBytes (u : string) : outcome string :=
  let? _ := fatal "build request: "
              match NewRequest u with Some err => Err err | None => Ok tt end in
  let? resp := fatal ("GET " +:+ u +:+ ": ") (Do u) in
  if (StatusCode resp <? 200)%Z || (300 <=? StatusCode resp)%Z then
    Err (ErrorString ("GET " +:+ u +:+ ": unexpected status " +:+ StatusText resp))
  else if Contains (ContentType resp) "text/html" then
    Err (ErrorString ("URL " +:+ u +:+ " returned HTML, not YAML"))
  else fatal ("read response body from " +:+ u +:+ ": ") (Body resp).

Fixpoint write_urls (flagOutDir : string) (flagKinds flagURLs : list string) : written unit :=
  match flagURLs with
  | [] => pure (Ok tt)
  | u :: urls =>
      let+ b := pure (fetchURLBytes u) in
      let r := writeCRDsFromYAML flagKinds b u flagOutDir in
      let+ _ := (r.1, fatal "" r.2) in
      write_urls flagOutDir flagKinds urls
  end.

Definition url2crd_main (flagOutDir : string) (flagURLs flagKinds : list string) : written unit :=
  if (length flagURLs =? 0)%nat then
    pure (Err (ErrorString "no inputs provided; use -url (repeatable)"))
  else match MkdirAll flagOutDir with
       | Some err => pure (Err (ErrorString ("creating outdir " +:+ flagOutDir +:+ ": " +:+ Error err)))
       | None => write_urls flagOutDir flagKinds flagURLs
       end.
End Tool.

(** ** Theorems *)

(** *** The status subresource *)

Definition has_status (v : any) : bool :=
  match to_map (Some v) with
  | None => true
  | Some ver => is_some (get (map_of (get ver "subresources")) "status")
  end.

Lemma get_assign m key v m' key' :
  assign m key v = Ok m' → get m' key' = if decide (key' = key) then Some v else get m key'.
Proof.
  destruct m as [m|]; [|done]. intros [= <-]. unfold get. simpl.
  case_decide as Hk; [subst; by rewrite lookup_insert_eq|by rewrite lookup_insert_ne].
Qed.

Lemma assign_same m key v : get m key = Some v → assign m key v = Ok m.
Proof.
  unfold get. destruct m as [m|]; simpl; [|by rewrite lookup_empty].
  intros Hm. by rewrite insert_id.
Qed.

(** A version that is no map stays, and a map gets at most the status subresource; one that
    is there is kept. *)
Definition only_status_added (v v' : any) : Prop :=
  match v with
  | AMap ver =>
      ∃ ver' sub', v' = AMap ver' ∧ get ver' "subresources" = Some (AMap (Some sub')) ∧
        is_some (sub' !! "status") = true ∧
        (∀ key, key ≠ "subresources" → get ver' key = get ver key) ∧
        (∀ key, key ≠ "status" ∨ is_some (get (map_of (get ver "subresources")) "status") = true →
           sub' !! key = get (map_of (get ver "subresources")) key)
  | _ => v' = v
  end.

Lemma with_status_map ver v' :
  with_status (AMap ver) = Ok v' → only_status_added (AMap ver) v'.
Proof.
  unfold with_status. cbn [to_map]. cbv zeta.
  intros (ver' & Ha & [= <-])%outcome_bind_Ok. eexists ver', _. split; [done|].
  split_and!.
  - rewrite (get_assign _ _ _ _ _ Ha). by rewrite decide_True.
  - destruct (_ !! "status") eqn:Hs; [by rewrite Hs|by rewrite lookup_insert_eq].
  - intros key Hk. rewrite (get_assign _ _ _ _ _ Ha). by rewrite decide_False.
  - intros key Hk. unfold get. destruct (map_of _) as [m|]; simpl in *.
    + destruct (m !! "status") eqn:Hs; [done|]. unfold get in Hk. simpl in Hk. rewrite Hs in Hk.
      destruct Hk as [Hk|]; [by rewrite lookup_insert_ne|done].
    + destruct Hk as [Hk|]; [|done].
      by rewrite lookup_empty, lookup_insert_ne.
Qed.

Lemma with_status_adds v v' : with_status v = Ok v' → only_status_added v v'.
Proof.
  destruct v as [s|ver|l|t]; [by intros [= <-]|apply with_status_map|by intros [= <-]..].
Qed.

Lemma with_status_has v v' : with_status v = Ok v' → has_status v' = true.
Proof.
  destruct v as [s|ver|l|t]; [by intros [= <-]| |by intros [= <-]|by intros [= <-]].
  intros (ver' & sub' & -> & Hs & Hst & _)%with_status_map.
  unfold has_status. cbn [to_map]. by rewrite Hs.
Qed.

(** A version that has its status subresource is left as it is. *)
Lemma with_status_id v : v ≠ AMap None → has_status v = true → with_status v = Ok v.
Proof.
  destruct v as [s|ver|l|t]; [done| |done..]. intros Hn. unfold has_status, with_status.
  cbn [to_map]. cbv zeta. unfold map_of.
  destruct (get ver "subresources") as [[|[m|]| |]|] eqn:Hs; unfold get; simpl;
    rewrite ?lookup_empty; try done.
  destruct (m !! "status"); [|done]. intros _. rewrite assign_same; [done|by rewrite Hs].
Qed.

Lemma with_status_total v : v ≠ AMap None → ∃ v', with_status v = Ok v' ∧ v' ≠ AMap None.
Proof.
  destruct v as [s|[ver|]|l|t]; intros Hv; try done;
    unfold with_status; simpl; eexists; split; done.
Qed.

Lemma map_outcome_spec {A B : Type} (f : A → outcome B) l l' :
  map_outcome f l = Ok l' ↔ Forall2 (λ a b, f a = Ok b) l l'.
Proof.
  revert l'. induction l as [|a l IH]; intros l'; simpl.
  - split; [by intros [= <-]|]. by intros ->%Forall2_nil_inv_l.
  - rewrite outcome_bind_Ok. setoid_rewrite outcome_bind_Ok. setoid_rewrite IH. split.
    + intros (b & Hb & bs & Hbs & [= <-]). by constructor.
    + intros (b & bs & ? & ? & ->)%Forall2_cons_inv_l. eauto.
Qed.

(** The versions of a definition. *)
Definition versions_of (raw : gomap any) : list any :=
  default [] (to_slice (get (map_of (get raw "spec")) "versions")).

(** Nothing changes but the versions, one by one. *)
Definition same_but_versions (raw raw' : gomap any) : Prop :=
  (∀ key, key ≠ "spec" → get raw' key = get raw key) ∧
  (∀ key, key ≠ "versions" →
    get (map_of (get raw' "spec")) key = get (map_of (get raw "spec")) key) ∧
  is_some (to_map (get raw' "spec")) = is_some (to_map (get raw "spec")) ∧
  Forall2 only_status_added (versions_of raw) (versions_of raw').

Lemma ensure_cases raw raw' :
  ensureVersionedStatusSubresource raw = Ok raw' →
  (raw' = raw ∧ versions_of raw = []) ∨
  ∃ spec spec' l l', get raw "spec" = Some (AMap spec) ∧
    get spec "versions" = Some (ASlice l) ∧ Forall2 (λ v v', with_status v = Ok v') l l' ∧
    assign spec "versions" (ASlice l') = Ok spec' ∧ assign raw "spec" (AMap spec') = Ok raw'.
Proof.
  unfold ensureVersionedStatusSubresource, versions_of, map_of.
  destruct (get raw "spec") as [[|spec| |]|]; simpl; try (intros [= <-]; by left).
  destruct (get spec "versions") as [[| |[|v l]|]|] eqn:Hv; simpl; try (intros [= <-]; by left).
  intros (l' & Hl & (spec' & Hs & Hr)%outcome_bind_Ok)%(outcome_bind_Ok (map_outcome _ (v :: l))).
  right. apply (map_outcome_spec _ (v :: l)) in Hl. by exists spec, spec', (v :: l), l'.
Qed.

Lemma ensure_changes raw raw' :
  ensureVersionedStatusSubresource raw = Ok raw' →
  same_but_versions raw raw' ∧ Forall (λ v, has_status v = true) (versions_of raw').
Proof.
  intros [[-> Hn]|(spec & spec' & l & l' & Hs & Hv & Hl & Hs' & Hr)]%ensure_cases.
  { unfold same_but_versions. rewrite Hn. split; [by split_and!|done]. }
  assert (get raw' "spec" = Some (AMap spec')) as Hspec
    by (rewrite (get_assign _ _ _ _ _ Hr); by rewrite decide_True).
  assert (get spec' "versions" = Some (ASlice l')) as Hver
    by (rewrite (get_assign _ _ _ _ _ Hs'); by rewrite decide_True).
  unfold same_but_versions, versions_of, map_of. rewrite Hs, Hspec. cbn [to_map from_option id].
  rewrite Hv, Hver. cbn [to_slice from_option id]. split; [split_and!|].
  - intros key Hk. rewrite (get_assign _ _ _ _ _ Hr). by rewrite decide_False.
  - intros key Hk. rewrite (get_assign _ _ _ _ _ Hs'). by rewrite decide_False.
  - done.
  - clear -Hl. induction Hl; constructor; [by apply with_status_adds|done].
  - clear -Hl. induction Hl; constructor; [by eapply with_status_has|done].
Qed.

Lemma ensure_idempotent raw raw' :
  ensureVersionedStatusSubresource raw = Ok raw' →
  ensureVersionedStatusSubresource raw' = Ok raw'.
Proof.
  intros Hraw. destruct (ensure_cases _ _ Hraw)
    as [[-> _]|(spec & spec' & l & l' & Hs & Hv & Hl & Hs' & Hr)]; [done|].
  unfold ensureVersionedStatusSubresource.
  rewrite (get_assign _ _ _ _ "spec" Hr), decide_True by done. cbn [to_map].
  rewrite (get_assign _ _ _ _ "versions" Hs'), decide_True by done. cbn [to_slice].
  destruct l' as [|v' l']; [done|].
  assert (map_outcome with_status (v' :: l') = Ok (v' :: l')) as ->.
  { apply map_outcome_spec. remember (v' :: l') as l1 eqn:Hl1. clear -Hl.
    induction Hl as [|v w l l' Hw _ IH]; constructor; [|done].
    apply with_status_id; [|by eapply with_status_has].
    destruct v as [|ver| |]; [by injection Hw as <-| |by injection Hw as <-..].
    apply with_status_map in Hw as (ver' & sub' & -> & Hsub & _). intros [= ->].
    unfold get in Hsub. simpl in Hsub. by rewrite lookup_empty in Hsub. }
  cbn [outcome_bind].
  rewrite (assign_same spec') by (rewrite (get_assign _ _ _ _ _ Hs'); by rewrite decide_True).
  cbn [outcome_bind]. apply assign_same. rewrite (get_assign _ _ _ _ _ Hr). by rewrite decide_True.
Qed.

Lemma ensure_total raw :
  Forall (λ v, v ≠ AMap None) (versions_of raw) →
  is_ok (ensureVersionedStatusSubresource raw) = true.
Proof.
  unfold ensureVersionedStatusSubresource, versions_of, map_of.
  destruct (get raw "spec") as [[|spec| |]|] eqn:Hs; simpl; [done| |done..].
  destruct (get spec "versions") as [[| |l|]|] eqn:Hv; simpl; [done..| |done|done].
  intros Hl. destruct l as [|v l]; [done|].
  assert (∃ l', map_outcome with_status (v :: l) = Ok l') as [l' ->].
  { revert Hl. generalize (v :: l). clear. intros l Hl.
    induction Hl as [|v l Hv _ [l' Hl']]; [by eexists|]. simpl.
    destruct (with_status_total v Hv) as (v' & -> & _). rewrite Hl'. simpl. by eexists. }
  simpl. unfold assign. destruct spec as [spec|]; [|done].
  destruct raw as [raw|]; [done|]. unfold get in Hs. simpl in Hs. by rewrite lookup_empty in Hs.
Qed.

(** *** Paths *)

Definition slash : ascii := "/"%char.
Definition no_slash (s : string) : bool := all_chars (λ c, negb (bool_decide (c = slash))) s.

(** Whether a path starts at the root, and its elements; [Clean] writes them. *)
Definition elements_of (path : string) : bool * list string :=
  let rooted := HasPrefix path "/" in (rooted, rev (clean_elements rooted (Split path "/"))).
Definition path_of (p : bool * list string) : string :=
  let out := (if p.1 then "/" else "") +:+ Join p.2 "/" in if empty out then "." else out.

Lemma all_chars_app p s t : all_chars p (s +:+ t) = all_chars p s && all_chars p t.
Proof. induction s as [|c s IH]; [done|]. simpl. by rewrite IH, andb_assoc. Qed.

Lemma Split_no_slash s : no_slash s = true → Split s slash = [s].
Proof.
  induction s as [|c s IH]; [done|]. simpl. intros [Hc Hs]%andb_prop. rewrite (IH Hs).
  by destruct (bool_decide _).
Qed.

Lemma Split_app s t :
  Split (s +:+ String slash t) slash = Split s slash ++ Split t slash.
Proof.
  induction s as [|c s IH]; [done|]. simpl. case_bool_decide as Hc.
  - simpl. by rewrite IH.
  - rewrite IH. destruct (Split s slash) as [|w ws] eqn:Hs; [|done]. by apply Split_not_nil in Hs.
Qed.

Lemma HasPrefix_slash_app s t :
  s ≠ "" → HasPrefix (s +:+ t) "/" = HasPrefix s "/".
Proof. destruct s as [|c s]; [done|]. intros _. by destruct s, t. Qed.

(** A file whose name is one element lies directly in the directory. *)
Lemma JoinPath_inside dir file :
  no_slash file = true → file ∉ [""; "."; ".."] →
  JoinPath dir file = path_of ((elements_of dir).1, (elements_of dir).2 ++ [file]).
Proof.
  intros Hs Hf.
  assert (∀ rooted acc, clean_element rooted acc file = file :: acc) as Hclean.
  { intros rooted acc. unfold clean_element. rewrite !elem_of_cons in Hf.
    rewrite !bool_decide_eq_false_2; [done|..]; rewrite ?elem_of_cons; naive_solver. }
  assert (∀ rooted l, rev (clean_elements rooted (l ++ [file])) =
                      rev (clean_elements rooted l) ++ [file]) as Hend.
  { intros rooted l. unfold clean_elements. rewrite fold_left_app. simpl. by rewrite Hclean. }
  assert (HasPrefix file "/" = false) as Hp.
  { destruct file as [|c file]; [done|]. simpl in Hs |- *. apply andb_prop in Hs as [Hc _].
    unfold slash in Hc. destruct (bool_decide_reflect (c = "/"%char)) as [->|Hn]; [done|].
    rewrite bool_decide_eq_false_2; [done|congruence]. }
  unfold JoinPath, path_of, elements_of. destruct dir as [|c dir].
  - cbn [empty]. destruct (empty file) eqn:He; [destruct file; [exfalso; apply Hf; left|done]|].
    unfold Clean. rewrite Hp. change (Split file "/") with (Split file slash).
    rewrite Split_no_slash by done. change [file] with ([] ++ [file]). rewrite Hend. done.
  - cbn [empty]. unfold Clean. rewrite HasPrefix_slash_app by done.
    change ("/" +:+ file) with (String slash file).
    change (Split ?s "/") with (Split s slash). rewrite Split_app, (Split_no_slash file) by done.
    by rewrite Hend.
Qed.

(** *** Names of files *)

Lemma ToLower_no_slash s : no_slash s = true → no_slash (ToLower s) = true.
Proof.
  assert (∀ c, negb (bool_decide (c = slash)) = true →
               negb (bool_decide (lower_ascii c = slash)) = true) as Hlow.
  { intros c. destruct c as [[] [] [] [] [] [] [] []]; vm_compute; intros H; exact H. }
  remember (String.length s) as n eqn:Hn. revert s Hn.
  induction (lt_wf n) as [n _ IH]. intros [|a s1] ->; [done|]. intros Hs.
  pose proof Hs as [Ha Hs1]%andb_prop.
  assert (∀ t, (String.length t < S (String.length s1))%nat → no_slash t = true →
               no_slash (ToLower t) = true) as IH'.
  { intros t Ht Hns. by eapply (IH (String.length t)). }
  assert (no_slash (String (lower_ascii a) (ToLower s1)) = true) as Hstep.
  { change (negb (bool_decide (lower_ascii a = slash)) && no_slash (ToLower s1) = true).
    rewrite Hlow by done. apply IH'; [lia|done]. }
  destruct s1 as [|b s2]; [exact Hstep|]. cbn [ToLower]. pose proof Hs1 as [_ Hs2]%andb_prop.
  destruct (bool_decide (of_codes [196; 176] = _)).
  - change (no_slash (ToLower s2) = true). apply IH'; [simpl; lia|done].
  - destruct s2 as [|c s3]; [exact Hstep|]. pose proof Hs2 as [_ Hs3]%andb_prop.
    destruct (bool_decide (of_codes [226; 132; 170] = _)); [|exact Hstep].
    change (no_slash (ToLower s3) = true). apply IH'; [simpl; lia|done].
Qed.

(** The characters that a sanitized name keeps. *)
Definition replaced (c : ascii) : bool :=
  in_class true [("a", "z"); ("A", "Z"); ("0", "9"); ("_", "_"); (".", "."); ("-", "-")]%char c.
Definition replaced_re : regex :=
  RClass true [("a", "z"); ("A", "Z"); ("0", "9"); ("_", "_"); (".", "."); ("-", "-")]%char.
Definition sanitized (s : string) : bool := all_chars (λ c, negb (replaced c)) s.

Lemma invalid_shape : invalid = RSeq (RSeq replaced_re (RStar replaced_re)) REmpty.
Proof. vm_compute. reflexivity. Qed.

(** How many of the first characters are replaced. *)
Fixpoint replaced_run (s : string) : nat :=
  match s with
  | EmptyString => 0
  | String c s' => if replaced c then S (replaced_run s') else 0
  end.

Lemma longest_none b s : longest_match b RNone s = None.
Proof. revert b. induction s as [|c s IH]; intros b; simpl; [done|]. by rewrite IH. Qed.

Lemma longest_run s :
  longest_match false (RSeq (RStar replaced_re) REmpty) s = Some (replaced_run s).
Proof.
  induction s as [|c s IH]; [done|]. cbn [longest_match replaced_run deriv replaced_re nullable].
  unfold replaced. destruct (in_class _ _ c); cbn [mk_seq mk_alt andb].
  - change (RClass true _) with replaced_re. by rewrite IH.
  - by rewrite longest_none.
Qed.

Lemma longest_invalid b c s :
  longest_match b invalid (String c s) =
  if replaced c then Some (S (replaced_run s)) else None.
Proof.
  rewrite invalid_shape. cbn [longest_match deriv replaced_re nullable].
  unfold replaced. destruct (in_class _ _ c); cbn [mk_seq mk_alt andb].
  - change (RClass true _) with replaced_re. by rewrite longest_run.
  - by rewrite longest_none.
Qed.

Lemma drop_run_length s : (String.length (drop_bytes (replaced_run s) s) ≤ String.length s)%nat.
Proof.
  induction s as [|c s IH]; simpl; [done|]. destruct (replaced c); simpl; lia.
Qed.

(** A sanitized name has no other characters, and a name without others is kept. *)
Lemma replace_sanitized fuel b s :
  (String.length s ≤ fuel)%nat → sanitized (replace_from fuel b invalid s "-") = true.
Proof.
  revert b s. induction fuel as [|fuel IH]; intros b [|c s] Hl; simpl in Hl; try done; [lia|].
  cbn [replace_from]. rewrite longest_invalid. destruct (replaced c) eqn:Hc.
  - unfold sanitized. rewrite all_chars_app. apply andb_true_intro. split; [done|].
    apply IH. pose proof (drop_run_length s). lia.
  - unfold sanitized. cbn [all_chars]. rewrite Hc. apply IH. lia.
Qed.

Lemma replace_id fuel b s : sanitized s = true → replace_from fuel b invalid s "-" = s.
Proof.
  revert b s. induction fuel as [|fuel IH]; intros b [|c s]; try done.
  cbn [replace_from]. rewrite longest_invalid. unfold sanitized. cbn [all_chars].
  intros [Hc Hs]%andb_prop. destruct (replaced c); [done|]. by rewrite IH.
Qed.

Lemma sanitize_spec s :
  sanitized (sanitize s) = true ∧ (sanitized s = true → sanitize s = s) ∧
  sanitize (sanitize s) = sanitize s.
Proof.
  assert (∀ s, sanitized (sanitize s) = true) as Hs by (intros; by apply replace_sanitized).
  split_and!; [done|apply replace_id|]. by apply replace_id.
Qed.

Lemma sanitized_no_slash s : sanitized s = true → no_slash s = true.
Proof.
  assert (∀ c, negb (replaced c) = true → negb (bool_decide (c = slash)) = true) as Hc.
  { intros c. destruct (bool_decide_reflect (c = slash)) as [->|]; [|done]. by vm_compute. }
  induction s as [|c s IH]; [done|]. unfold sanitized, no_slash. cbn [all_chars].
  intros [H1 H2]%andb_prop. apply andb_true_intro. auto.
Qed.

(** The group and the plural of a definition. *)
Definition crd_group (raw : gomap any) : string := string_of (get (map_of (get raw "spec")) "group").
Definition crd_plural (raw : gomap any) : string :=
  string_of (get (map_of (get (map_of (get raw "spec")) "names")) "plural").

(** Where the group and the plural have no slash, the name is one element of a path. *)
Lemma crdFileName_one_element raw :
  no_slash (crd_group raw) = true → no_slash (crd_plural raw) = true →
  no_slash (crdFileName raw) = true ∧ crdFileName raw ∉ [""; "."; ".."].
Proof.
  intros Hg Hp.
  assert (∃ base, crdFileName raw = base +:+ ".yaml" ∧ no_slash base = true) as (base & -> & Hb).
  { unfold crdFileName. fold (crd_group raw). fold (crd_plural raw).
    destruct (empty _ || empty _).
    - eexists. split; [done|]. apply ToLower_no_slash, sanitized_no_slash, sanitize_spec.
    - exists (ToLower (crd_group raw) +:+ "_" +:+ ToLower (crd_plural raw)).
      rewrite !string_app_assoc. split; [done|]. unfold no_slash. rewrite !all_chars_app.
      apply ToLower_no_slash in Hg, Hp. unfold no_slash in Hg, Hp. by rewrite Hg, Hp. }
  split.
  - unfold no_slash. rewrite all_chars_app. unfold no_slash in Hb. by rewrite Hb.
  - rewrite !elem_of_cons, elem_of_nil.
    intros [H|[H|[H|[]]]]; apply (f_equal String.length) in H; rewrite string_length_app in H;
      simpl in H; lia.
Qed.

(** *** What a run writes *)

Section Runs.
Context `{Tools}.

Definition is_crd (raw : gomap any) : bool :=
  negb (size (entries raw) =? 0)%nat &&
  match Marshal raw with
  | Ok b => bool_decide (om_Kind (UnmarshalMeta b) = "CustomResourceDefinition")
  | _ => false
  end.

(** The file of a definition. *)
Definition file_of (outDir : string) (raw : gomap any) (file : string * string) : Prop :=
  ∃ raw' b, ensureVersionedStatusSubresource raw = Ok raw' ∧ Marshal raw' = Ok b ∧
    file.1 = JoinPath outDir (crdFileName raw) ∧
    (file.2 = b ∨ file.2 = b +:+ newline) ∧ ends_with_newline file.2 = true.

(** The names depend on nothing that is changed. *)
Lemma ensure_file_name raw raw' :
  ensureVersionedStatusSubresource raw = Ok raw' → crdFileName raw' = crdFileName raw.
Proof.
  intros [(Hkeys & Hspec & _ & _) _]%ensure_changes. unfold crdFileName.
  by rewrite !Hspec, (Hkeys "metadata").
Qed.

Lemma ends_with_newline_app b : ends_with_newline (b +:+ newline) = true.
Proof. unfold ends_with_newline. rewrite rev_string_app. apply HasPrefix_app. Qed.

Lemma collect_Ok label docs err crds :
  collect label docs err = Ok crds →
  err = None ∧ map ce_raw crds = List.filter is_crd docs.
Proof.
  revert crds. induction docs as [|raw docs IH]; intros crds; simpl.
  - destruct err; [done|]. by intros [= <-].
  - unfold is_crd at 1. destruct (_ =? 0)%nat; [apply IH|]. cbn [negb andb].
    intros (b & ->%on_err_Ok & Hc)%outcome_bind_Ok. destruct (bool_decide _); cbn [negb] in Hc.
    + apply outcome_bind_Ok in Hc as (crds' & Hc & [= <-]).
      apply IH in Hc as [-> Hc]. by rewrite <-Hc.
    + by apply IH.
Qed.

Lemma write_crd_writes label outDir raw :
  let m := write_crd label outDir raw in
  (m.1 = [] ∧ m.2 ≠ Ok tt) ∨ ∃ file, m.1 = [file] ∧ file_of outDir raw file.
Proof.
  unfold write_crd, written_bind, pure. cbv zeta.
  destruct (ensureVersionedStatusSubresource raw) as [raw'| |] eqn:Hr; [|by left..].
  simpl. destruct (Marshal raw') as [b| |] eqn:Hb; [|by left..]. right. simpl.
  eexists. split; [done|]. exists raw', b. simpl. rewrite (ensure_file_name _ _ Hr).
  destruct (empty b || negb (ends_with_newline b)) eqn:He.
  - split_and!; [done..|by right|apply ends_with_newline_app].
  - apply orb_false_iff in He as [_ He%negb_false_iff].
    by split_and!; [..|left|].
Qed.

(** The files written are those of the first requested definitions, and all of them after
    a success. *)
Lemma write_crds_writes label outDir flagKinds crds :
  let m := write_crds label outDir flagKinds crds in
  let chosen := List.filter (requested flagKinds) (map ce_raw crds) in
  Forall2 (file_of outDir) (take (length m.1) chosen) m.1 ∧
  (∀ n, m.2 = Ok n → n = length chosen ∧ length m.1 = length chosen).
Proof.
  induction crds as [|c crds [IH1 IH2]]; cbn [write_crds map List.filter]; cbv zeta.
  { split; [constructor|]. by intros n [= <-]. }
  destruct (requested flagKinds (ce_raw c)); cbn [negb]; [|done].
  unfold written_bind, pure.
  destruct (write_crd_writes label outDir (ce_raw c)) as [[H1 H2]|(file & H1 & Hf)]; rewrite H1;
    destruct (write_crd _ _ _).2 as [[]|e|w]; simpl; try done;
    try (split; [by repeat constructor|done]).
  destruct (write_crds _ _ _ _).2 as [n|e|w]; simpl; rewrite ?app_nil_r;
    (split; [by constructor|]); [|done..].
  intros n' [= <-]. destruct (IH2 n eq_refl) as [-> ->]. done.
Qed.

(** The definitions that a run is asked for. *)
Definition chosen_crds (flagKinds : list string) (src : string) : list (gomap any) :=
  List.filter (requested flagKinds) (List.filter is_crd (DecodeAll src).1).

Lemma writeCRDs_writes flagKinds src label outDir :
  let m := writeCRDsFromYAML flagKinds src label outDir in
  let chosen := chosen_crds flagKinds src in
  Forall2 (file_of outDir) (take (length m.1) chosen) m.1 ∧
  (m.2 = Ok tt → (DecodeAll src).2 = None ∧ length m.1 = length chosen ∧ chosen ≠ [] ∧
    (flagKinds = [] → length (List.filter is_crd (DecodeAll src).1) = 1%nat)).
Proof.
  unfold writeCRDsFromYAML, chosen_crds. destruct (DecodeAll src) as [docs err]. cbn [fst snd].
  unfold written_bind, pure. cbn [fst snd].
  destruct (collect label docs err) as [crds| |] eqn:Hc; [|by split; [constructor|]..].
  apply collect_Ok in Hc as [-> <-]. rewrite length_map.
  destruct (length crds =? 0)%nat eqn:H0; [by split; [constructor|]|].
  destruct ((1 <? length crds)%nat && _) eqn:H1; [by split; [constructor|]|].
  destruct (write_crds_writes label outDir flagKinds crds) as [Hf Hn].
  destruct (write_crds _ _ _ _).2 as [n| |]; cbn [fst snd]; [|by split..].
  destruct (Hn n eq_refl) as [-> Hl].
  destruct (length (List.filter _ _) =? 0)%nat eqn:Hz; cbn [fst snd]; rewrite app_nil_r;
    (split; [exact Hf|]); [done|].
  intros _. split_and!; [done|exact Hl| |].
  - intros He. by rewrite He in Hz.
  - intros ->. apply Nat.eqb_neq in H0. apply andb_false_iff in H1 as [H1|H1]; [|done].
    apply Nat.ltb_ge in H1. lia.
Qed.

(** C38: what the tool writes for a text.  Whatever happens, the files it wrote are those of
    the first requested definitions in the order of the documents: named after the group
    and the plural, with the status subresource in every version and nothing else changed,
    and ending in a new line.  When it succeeds, every document could be read, every
    requested definition has been written, there is at least one, and without [-kind] there
    is just one definition; where the group and the plural have no slash, the file lies
    directly in the output directory. *)
Theorem writeCRDsFromYAML_spec flagKinds src label outDir :
  let chosen := chosen_crds flagKinds src in
  let '(files, r) := writeCRDsFromYAML flagKinds src label outDir in
  Forall2 (λ raw file, file_of outDir raw file ∧
      (no_slash (crd_group raw) = true → no_slash (crd_plural raw) = true →
       file.1 = path_of ((elements_of outDir).1, (elements_of outDir).2 ++ [crdFileName raw])) ∧
      ∀ raw', ensureVersionedStatusSubresource raw = Ok raw' →
        same_but_versions raw raw' ∧ Forall (λ v, has_status v = true) (versions_of raw') ∧
        ensureVersionedStatusSubresource raw' = Ok raw')
    (take (length files) chosen) files ∧
  (r = Ok tt → (DecodeAll src).2 = None ∧ length files = length chosen ∧ chosen ≠ [] ∧
    (flagKinds = [] → length (List.filter is_crd (DecodeAll src).1) = 1%nat)).
Proof.
  intros chosen. rewrite (surjective_pairing (writeCRDsFromYAML _ _ _ _)).
  destruct (writeCRDs_writes flagKinds src label outDir) as [Hf Hr].
  split; [|exact Hr]. eapply Forall2_impl; [exact Hf|].
  intros raw file Hfile. split_and!; [done| |].
  - intros Hg Hp. destruct Hfile as (_ & _ & _ & _ & -> & _).
    apply JoinPath_inside; by apply crdFileName_one_element.
  - intros raw' Hraw. destruct (ensure_changes _ _ Hraw) as [Hsame Hst].
    split_and!; [done..|by eapply ensure_idempotent].
Qed.
End Runs.

(** *** Examples *)

Definition sample_crd (group plural kind : string) : gomap any := Some
  {["kind" := AString "CustomResourceDefinition";
    "spec" := AMap (Some
      {["group" := AString group;
        "names" := AMap (Some {["plural" := AString plural; "kind" := AString kind]});
        "versions" := ASlice [AMap (Some {["name" := AString "v1"]})]]})]}.

Example Clean_ex : map Clean ["./bases"; "/a/../../b//c/."; "a/../.."; ""] = ["bases"; "/b/c"; ".."; "."].
Proof. vm_compute. reflexivity. Qed.
Example sanitize_ex : sanitize "istio: a b/Foo" = "istio-a-b-Foo".
Proof. vm_compute. reflexivity. Qed.
Example crdFileName_ex :
  JoinPath "./bases" (crdFileName (sample_crd "networking.istio.io" "ServiceEntries" "ServiceEntry")) =
  "bases/networking.istio.io_serviceentries.yaml".
Proof. vm_compute. reflexivity. Qed.

(** Only the name of the metadata is sanitized: a group that is a path leads elsewhere. *)
Example crdFileName_escapes :
  JoinPath "./bases" (crdFileName (sample_crd "../../cmd/x" "y" "Z")) = "../cmd/x_y.yaml".
Proof. vm_compute. reflexivity. Qed.

(** Two definitions in a text, of which one is asked for. *)
Definition sample_tools : Tools := {|
  DecodeAll _ := ([sample_crd "g" "as" "A"; None; sample_crd "g" "bs" "B"], None);
  Marshal raw := Ok (string_of (get raw "kind"));
  UnmarshalMeta b := {| om_APIVersion := ""; om_Kind := b; om_Name := "" |};
  NewRequest _ := None;
  Do _ := Ok {| StatusCode := 200; StatusText := "200 OK"; ContentType := "text/yaml"; Body := Ok "" |};
  MkdirAll _ := None;
  WriteFile _ _ := None;
|}.
Example url2crd_ex :
  url2crd_main (H := sample_tools) "out" ["u"] ["b"] =
    ([("out/g_bs.yaml", "CustomResourceDefinition" +:+ newline)], Ok tt) ∧
  (url2crd_main (H := sample_tools) "out" ["u"] []).1 = [].
Proof. vm_compute. split; reflexivity. Qed.
