(* ===== verification/Kube.v ===== *)
(** * Records of the APIs the program uses

    The data of the Kubernetes, Istio, NAIS and Skiperator APIs, with the fields
    the program reads or writes.  A part of a record that the program copies or
    compares without looking inside is an [AnyVal], its JSON value.  Fields that
    the program never touches are one field called [.._Other].  These records are data only: the
    functions of the libraries are parameters (see [Cluster.Lib]). *)
From stdpp Require Import base gmap strings list.
From Stdlib Require Import ZArith.
From S2P Require Import Prelude.

(** A JSON value, also the [any] of [map[string]any]. *)
Inductive AnyVal : Type :=
| VNull
| VBool (b : bool)
| VNum (z : Z)
| VStr (s : string)
| VList (l : list AnyVal)
| VMap (fields : list (string * AnyVal)).

#[global] Instance AnyVal_eq_dec : EqDecision AnyVal.
Proof.
  refine (fix go (x y : AnyVal) : Decision (x = y) :=
    match x, y with
    | VNull, VNull => left _
    | VBool a, VBool b => cast_if (decide (a = b))
    | VNum a, VNum b => cast_if (decide (a = b))
    | VStr a, VStr b => cast_if (decide (a = b))
    | VList a, VList b =>
        let _ : EqDecision AnyVal := go in cast_if (decide (a = b))
    | VMap a, VMap b =>
        let _ : EqDecision AnyVal := go in cast_if (decide (a = b))
    | _, _ => right _
    end); congruence.
Defined.

Abbreviation Time := Z (only parsing).

(** ** Object metadata ([k8s.io/apimachinery/pkg/apis/meta/v1]) *)

Record OwnerReference := {
  or_Kind : string;
  or_Name : string;
  or_UID : string;
  or_Controller : option bool;
}.
#[global] Instance OwnerReference_eq_dec : EqDecision OwnerReference.
Proof. solve_decision. Defined.

Record ObjectMeta := {
  m_Name : string;
  m_GenerateName : string;
  m_Namespace : string;
  m_UID : string;
  m_ResourceVersion : string;
  m_Generation : Z;
  m_DeletionTimestamp : option Time;
  m_Labels : gomap string;
  m_Annotations : gomap string;
  m_OwnerReferences : list OwnerReference;
}.
#[global] Instance ObjectMeta_eq_dec : EqDecision ObjectMeta.
Proof. solve_decision. Defined.

(** The zero [ObjectMeta] with a namespace and a name. *)
Definition named_meta (ns name : string) : ObjectMeta :=
  {| m_Name := name; m_GenerateName := ""; m_Namespace := ns; m_UID := "";
     m_ResourceVersion := ""; m_Generation := 0; m_DeletionTimestamp := None;
     m_Labels := None; m_Annotations := None; m_OwnerReferences := [] |}.

Definition with_labels (m : ObjectMeta) (l : gomap string) : ObjectMeta :=
  {| m_Name := m_Name m; m_GenerateName := m_GenerateName m; m_Namespace := m_Namespace m;
     m_UID := m_UID m; m_ResourceVersion := m_ResourceVersion m;
     m_Generation := m_Generation m; m_DeletionTimestamp := m_DeletionTimestamp m;
     m_Labels := l; m_Annotations := m_Annotations m;
     m_OwnerReferences := m_OwnerReferences m |}.

Definition with_annotations (m : ObjectMeta) (a : gomap string) : ObjectMeta :=
  {| m_Name := m_Name m; m_GenerateName := m_GenerateName m; m_Namespace := m_Namespace m;
     m_UID := m_UID m; m_ResourceVersion := m_ResourceVersion m;
     m_Generation := m_Generation m; m_DeletionTimestamp := m_DeletionTimestamp m;
     m_Labels := m_Labels m; m_Annotations := a;
     m_OwnerReferences := m_OwnerReferences m |}.

Record Condition := {
  c_Type : string;
  c_Status : string;
  c_Reason : string;
  c_Message : string;
  c_LastTransitionTime : Time;
}.
#[global] Instance Condition_eq_dec : EqDecision Condition.
Proof. solve_decision. Defined.

Record LabelSelector := {
  ls_MatchLabels : gmap string string;
  ls_MatchExpressions : list AnyVal;
}.
#[global] Instance LabelSelector_eq_dec : EqDecision LabelSelector.
Proof. solve_decision. Defined.

Definition match_labels (m : gmap string string) : LabelSelector :=
  {| ls_MatchLabels := m; ls_MatchExpressions := [] |}.

(** ** NAIS ([github.com/nais/liberator/pkg/apis/nais.io/v1]) *)

Record AccessPolicyRule := {
  apr_Application : string;
  apr_Namespace : string;
  apr_Cluster : string;
}.
#[global] Instance AccessPolicyRule_eq_dec : EqDecision AccessPolicyRule.
Proof. solve_decision. Defined.

Record AccessPolicyInboundRule := {
  air_AccessPolicyRule : AccessPolicyRule;
  air_Permissions : option AnyVal;
}.
#[global] Instance AccessPolicyInboundRule_eq_dec : EqDecision AccessPolicyInboundRule.
Proof. solve_decision. Defined.

Record AccessPolicyOutbound := {
  apo_Rules : list AccessPolicyRule;
  apo_External : list AnyVal;
}.
#[global] Instance AccessPolicyOutbound_eq_dec : EqDecision AccessPolicyOutbound.
Proof. solve_decision. Defined.

Record AccessPolicy := {
  ap_Inbound : option (list AccessPolicyInboundRule);
  ap_Outbound : option AccessPolicyOutbound;
}.
#[global] Instance AccessPolicy_eq_dec : EqDecision AccessPolicy.
Proof. solve_decision. Defined.

Record JwkerSpec := {
  js_SecretName : string;
  js_AccessPolicy : option AccessPolicy;
}.
#[global] Instance JwkerSpec_eq_dec : EqDecision JwkerSpec.
Proof. solve_decision. Defined.

Record SyncStatus := {
  SynchronizationState : string;
  SynchronizationSecretName : string;
}.
#[global] Instance SyncStatus_eq_dec : EqDecision SyncStatus.
Proof. solve_decision. Defined.

Record Jwker := { jwker_Spec : JwkerSpec; jwker_Status : SyncStatus }.
#[global] Instance Jwker_eq_dec : EqDecision Jwker.
Proof. solve_decision. Defined.

Record ConsumedScope := { cs_Name : string }.
#[global] Instance ConsumedScope_eq_dec : EqDecision ConsumedScope.
Proof. solve_decision. Defined.

Record NaisMaskinportenScope := {
  nms_ConsumedScopes : list ConsumedScope;
  nms_ExposedScopes : list AnyVal;
}.
#[global] Instance NaisMaskinportenScope_eq_dec : EqDecision NaisMaskinportenScope.
Proof. solve_decision. Defined.

Record NaisMaskinportenClientSpec := {
  nmc_ClientName : string;
  nmc_Scopes : NaisMaskinportenScope;
  nmc_SecretName : string;
}.
#[global] Instance NaisMaskinportenClientSpec_eq_dec : EqDecision NaisMaskinportenClientSpec.
Proof. solve_decision. Defined.

Record MaskinportenClient := {
  mpc_Spec : NaisMaskinportenClientSpec;
  mpc_Status : SyncStatus;
}.
#[global] Instance MaskinportenClient_eq_dec : EqDecision MaskinportenClient.
Proof. solve_decision. Defined.

Record AzureAdGroup := { aag_ID : string }.
#[global] Instance AzureAdGroup_eq_dec : EqDecision AzureAdGroup.
Proof. solve_decision. Defined.

Record AzureAdReplyUrl := { aar_Url : string }.
#[global] Instance AzureAdReplyUrl_eq_dec : EqDecision AzureAdReplyUrl.
Proof. solve_decision. Defined.

Record AzureAdClaims := { aac_Groups : list AzureAdGroup; aac_Extra : list string }.
#[global] Instance AzureAdClaims_eq_dec : EqDecision AzureAdClaims.
Proof. solve_decision. Defined.

Record NaisAzureAdApplicationSpec := {
  naa_SecretName : string;
  naa_Claims : option AzureAdClaims;
  naa_LogoutUrl : string;
  naa_PreAuthorizedApplications : list AccessPolicyInboundRule;
  naa_ReplyUrls : list AzureAdReplyUrl;
  naa_SinglePageApplication : option bool;
  naa_Other : AnyVal;
}.
#[global] Instance NaisAzureAdApplicationSpec_eq_dec : EqDecision NaisAzureAdApplicationSpec.
Proof. solve_decision. Defined.

Record AzureAdApplication := {
  aad_Spec : NaisAzureAdApplicationSpec;
  aad_Status : SyncStatus;
}.
#[global] Instance AzureAdApplication_eq_dec : EqDecision AzureAdApplication.
Proof. solve_decision. Defined.

(** ** Skiperator ([github.com/kartverket/skiperator/api/v1alpha1]) *)

Record InternalRule := {
  ir_Application : string;
  ir_Namespace : string;
  ir_NamespacesByLabel : gmap string string;
}.

(** [Spec.AccessPolicy], [.Inbound] and [.Rules] of an [Application]. *)
Record InboundPolicy := { ip_Rules : list InternalRule }.
Record SkiperatorAccessPolicy := { sap_Inbound : option InboundPolicy }.
Record Application := { app_AccessPolicy : option SkiperatorAccessPolicy }.

(** ** Core and networking objects *)

Record Secret := {
  sec_StringData : gmap string string;
  sec_Data : gmap string string;
  sec_Immutable : option bool;
  sec_Type : string;
}.
#[global] Instance Secret_eq_dec : EqDecision Secret.
Proof. solve_decision. Defined.

Record ConfigMap := {
  cm_Data : gmap string string;
  cm_BinaryData : gmap string string;
  cm_Immutable : option bool;
}.
#[global] Instance ConfigMap_eq_dec : EqDecision ConfigMap.
Proof. solve_decision. Defined.

Record NetworkPolicyPeer := {
  np_PodSelector : option LabelSelector;
  np_NamespaceSelector : option LabelSelector;
  np_IPBlock : option AnyVal;
}.
#[global] Instance NetworkPolicyPeer_eq_dec : EqDecision NetworkPolicyPeer.
Proof. solve_decision. Defined.

Record NetworkPolicyEgressRule := {
  ner_Ports : list AnyVal;
  ner_To : list NetworkPolicyPeer;
}.
#[global] Instance NetworkPolicyEgressRule_eq_dec : EqDecision NetworkPolicyEgressRule.
Proof. solve_decision. Defined.

Record NetworkPolicy := {
  netpol_PodSelector : LabelSelector;
  netpol_Ingress : list AnyVal;
  netpol_Egress : list NetworkPolicyEgressRule;
  netpol_PolicyTypes : list string;
}.
#[global] Instance NetworkPolicy_eq_dec : EqDecision NetworkPolicy.
Proof. solve_decision. Defined.

(** ** Istio *)

Record ServicePort := {
  sp_Number : Z;
  sp_Protocol : string;
  sp_Name : string;
  sp_TargetPort : Z;
}.
#[global] Instance ServicePort_eq_dec : EqDecision ServicePort.
Proof. solve_decision. Defined.

(** [istio.io/api/networking/v1.ServiceEntry_Resolution]. *)
Inductive Resolution := Resolution_NONE | Resolution_STATIC | Resolution_DNS
                      | Resolution_OTHER (n : Z).
#[global] Instance Resolution_eq_dec : EqDecision Resolution.
Proof. solve_decision. Defined.

Record ServiceEntry := {
  se_ExportTo : list string;
  se_Hosts : list string;
  se_Ports : list ServicePort;
  se_Resolution : Resolution;
  se_Other : AnyVal;
}.
#[global] Instance ServiceEntry_eq_dec : EqDecision ServiceEntry.
Proof. solve_decision. Defined.

(** Enumerations of [EnvoyFilter], by the name of the value. *)
Record ConfigPatch := {
  cp_ApplyTo : string;
  cp_MatchContext : string;
  (** The [Filter.Name] and [SubFilter.Name] of the listener match, if any. *)
  cp_Listener : option (string * string);
  cp_Operation : string;
  cp_Value : option AnyVal;
}.
#[global] Instance ConfigPatch_eq_dec : EqDecision ConfigPatch.
Proof. solve_decision. Defined.

Record EnvoyFilter := {
  ef_Priority : Z;
  ef_WorkloadSelector : option (gmap string string);
  ef_ConfigPatches : list ConfigPatch;
  ef_Other : AnyVal;
}.
#[global] Instance EnvoyFilter_eq_dec : EqDecision EnvoyFilter.
Proof. solve_decision. Defined.

(** ** Pods ([k8s.io/api/core/v1]) *)

Record EnvVar := { env_Name : string; env_Value : string; env_Other : AnyVal }.
#[global] Instance EnvVar_eq_dec : EqDecision EnvVar.
Proof. solve_decision. Defined.

(** An environment variable with a literal value. *)
Definition env_var (n v : string) : EnvVar :=
  {| env_Name := n; env_Value := v; env_Other := VNull |}.

Record EnvFromSource := { efs_SecretRef : option string; efs_Other : AnyVal }.
#[global] Instance EnvFromSource_eq_dec : EqDecision EnvFromSource.
Proof. solve_decision. Defined.

Record ContainerPort := {
  cport_ContainerPort : Z;
  cport_Name : string;
  cport_Protocol : string;
  cport_Other : AnyVal;
}.
#[global] Instance ContainerPort_eq_dec : EqDecision ContainerPort.
Proof. solve_decision. Defined.

(** [intstr.IntOrString]. *)
Inductive IntOrString := IOSInt (z : Z) (s : string) | IOSString (z : Z) (s : string).
#[global] Instance IntOrString_eq_dec : EqDecision IntOrString.
Proof. solve_decision. Defined.
Definition IntVal (p : IntOrString) : Z :=
  match p with IOSInt z _ | IOSString z _ => z end.

Record HTTPGetAction := {
  hg_Path : string;
  hg_Port : IntOrString;
  hg_Scheme : string;
  hg_Other : AnyVal;
}.

(** A pointer to an [int64] where the code compares the pointers themselves:
    its address and the value it points to. *)
Record Int64Ptr := { ptr_addr : Z; ptr_val : Z }.

Record Probe := {
  pr_HTTPGet : option HTTPGetAction;
  pr_InitialDelaySeconds : Z;
  pr_TimeoutSeconds : Z;
  pr_PeriodSeconds : Z;
  pr_SuccessThreshold : Z;
  pr_FailureThreshold : Z;
  pr_TerminationGracePeriodSeconds : option Int64Ptr;
}.

(** [resource.Quantity]: the value [resource.MustParse] returns, compared field by
    field. *)
Record Quantity := { q_repr : string }.
#[global] Instance Quantity_eq_dec : EqDecision Quantity.
Proof. solve_decision. Defined.

Record ResourceRequirements := {
  rr_Requests : gmap string Quantity;
  rr_Limits : gmap string Quantity;
}.
#[global] Instance ResourceRequirements_eq_dec : EqDecision ResourceRequirements.
Proof. solve_decision. Defined.

Record Capabilities := { cap_Add : list string; cap_Drop : list string }.
#[global] Instance Capabilities_eq_dec : EqDecision Capabilities.
Proof. solve_decision. Defined.

Record SecurityContext := {
  sctx_AllowPrivilegeEscalation : option bool;
  sctx_Capabilities : option Capabilities;
  sctx_Privileged : option bool;
  sctx_ReadOnlyRootFilesystem : option bool;
  sctx_RunAsGroup : option Z;
  sctx_RunAsNonRoot : option bool;
  sctx_RunAsUser : option Z;
  sctx_Other : AnyVal;
}.
#[global] Instance SecurityContext_eq_dec : EqDecision SecurityContext.
Proof. solve_decision. Defined.

Record VolumeMount := {
  vm_Name : string;
  vm_MountPath : string;
  vm_ReadOnly : bool;
  vm_Other : AnyVal;
}.

Record Container := {
  ctr_Name : string;
  ctr_Image : string;
  ctr_Args : list string;
  ctr_Env : list EnvVar;
  ctr_EnvFrom : slice EnvFromSource;
  ctr_Ports : list ContainerPort;
  ctr_Resources : ResourceRequirements;
  ctr_RestartPolicy : option string;
  ctr_SecurityContext : option SecurityContext;
  ctr_VolumeMounts : list VolumeMount;
  ctr_ReadinessProbe : option Probe;
  ctr_TerminationMessagePath : string;
  ctr_TerminationMessagePolicy : string;
  ctr_Other : AnyVal;
}.

(** A volume: its name and the name in its [ConfigMap] source, if it has one. *)
Record Volume := {
  vol_Name : string;
  vol_ConfigMap : option string;
  vol_Other : AnyVal;
}.

Record Pod := {
  pod_Meta : ObjectMeta;
  pod_InitContainers : list Container;
  pod_Containers : list Container;
  pod_Volumes : list Volume;
  pod_Other : AnyVal;
}.
