(* ===== verification/Api.v ===== *)
(** * The SecurityConfig API: [api/v1alpha/securityconfig_types.go] *)
From stdpp Require Import base gmap strings list.
From Stdlib Require Import ZArith.
From S2P Require Import Prelude Kube.

Abbreviation ResourceName := string (only parsing).
Abbreviation DataKey := string (only parsing).

Record AccessPolicyClient := {
  apc_Application : ResourceName;
  apc_Namespace : option ResourceName;
}.

Record AccessPolicySpec := {
  aps_InheritInboundRules : bool;
  aps_Clients : list AccessPolicyClient;
}.

Record TokenXSpec := {
  tx_Enabled : bool;
  tx_AccessPolicy : option AccessPolicySpec;
}.

Record ResourceRef := { rref_Name : ResourceName }.

Record SecretKeySelector := { sks_Name : ResourceName; sks_Key : DataKey }.

Record SecretRef := {
  sref_ClientID : SecretKeySelector;
  sref_ClientJWK : SecretKeySelector;
}.

Record MaskinportenScope := { ms_ConsumedScopes : list ConsumedScope }.

Record MaskinportenClientSpec := {
  mc_ClientName : string;
  mc_Scopes : option MaskinportenScope;
}.

Record MaskinportenSpec := {
  mp_Enabled : bool;
  mp_Client : option MaskinportenClientSpec;
  mp_ClientRef : option ResourceRef;
  mp_SecretRef : option SecretRef;
}.

Record AzureAdApplicationSpec := {
  aa_SecretName : string;
  aa_Groups : slice AzureAdGroup;
  aa_LogoutUrl : string;
  aa_PreAuthorizedApplications : list AccessPolicyInboundRule;
  aa_ReplyUrls : list AzureAdReplyUrl;
  aa_SinglePageApplication : option bool;
}.

Record EntraIDSpec := {
  ei_Enabled : bool;
  ei_Client : option AzureAdApplicationSpec;
  ei_ClientRef : option ResourceRef;
  ei_SecretRef : option SecretRef;
}.

Record KeyRef := { kr_Name : string; kr_Key : string }.

Record ValueFrom := {
  vf_ConfigMapKeyRef : option KeyRef;
  vf_SecretKeyRef : option KeyRef;
}.

Record AllowedAudience := {
  al_Value : option string;
  al_ValueFrom : option ValueFrom;
}.

Record IdPortenSpec := { ip_Enabled : bool; ip_AllowedAudience : AllowedAudience }.

Record AnsattportenSpec := { an_Enabled : bool; an_AllowedAudience : AllowedAudience }.

Record OpaRequestPolicyRequestBody := {
  rb_Include : bool;
  rb_MaxRequestBodyBytes : Z;
}.

Record OpaRequestPolicy := {
  rp_Enabled : bool;
  rp_Endpoint : string;
  rp_FailureMode : string;
  rp_RequestBody : option OpaRequestPolicyRequestBody;
}.

Record GitHubRepositorySource := {
  gh_Repository : string;
  gh_Workflow : string;
  gh_Ref : string;
}.

Record BundleSourceVerification := { bv_Source : GitHubRepositorySource }.

Record BundleSource := {
  bs_Name : DataKey;
  bs_URL : string;
  bs_Verification : option BundleSourceVerification;
}.

Record OpenPolicyAgentSpec := {
  opa_Enabled : bool;
  opa_BundleURLs : list BundleSource;
  opa_RequestPolicy : option OpaRequestPolicy;
}.

Record SecurityConfigSpec := {
  spec_Tokenx : option TokenXSpec;
  spec_Maskinporten : option MaskinportenSpec;
  spec_EntraID : option EntraIDSpec;
  spec_Idporten : option IdPortenSpec;
  spec_Ansattporten : option AnsattportenSpec;
  spec_Opa : option OpenPolicyAgentSpec;
  spec_ApplicationRef : ResourceName;
}.

(** The values of [Phase]; the zero value is the empty string. *)
Inductive Phase := PhaseUnset | PhasePending | PhaseReady | PhaseFailed | PhaseInvalid.
#[global] Instance Phase_eq_dec : EqDecision Phase.
Proof. solve_decision. Defined.

(** [OpaBundleSource] of [api/v1alpha] (the status of the OPA bundles). *)
Record StatusOpaBundleSource := {
  obs_ConfigMapName : string;
  obs_BundleNames : list string;
}.
#[global] Instance StatusOpaBundleSource_eq_dec : EqDecision StatusOpaBundleSource.
Proof. solve_decision. Defined.

Record SecurityConfigStatus := {
  st_ObservedGeneration : Z;
  st_Conditions : list Condition;
  st_Phase : Phase;
  st_Message : string;
  st_JwkerSecretName : string;
  st_MaskinportenSecretName : string;
  st_EntraIdSecretName : string;
  st_IdportenAudience : string;
  st_AnsattportenAudience : string;
  st_OpaBundleSource : option StatusOpaBundleSource;
  st_Ready : bool;
}.
#[global] Instance SecurityConfigStatus_eq_dec : EqDecision SecurityConfigStatus.
Proof. solve_decision. Defined.

Definition zero_status : SecurityConfigStatus :=
  {| st_ObservedGeneration := 0; st_Conditions := []; st_Phase := PhaseUnset;
     st_Message := ""; st_JwkerSecretName := ""; st_MaskinportenSecretName := "";
     st_EntraIdSecretName := ""; st_IdportenAudience := ""; st_AnsattportenAudience := "";
     st_OpaBundleSource := None; st_Ready := false |}.

(** [SecurityConfig]; its [metav1.TypeMeta] is the [Kind] only. *)
Record SecurityConfig := {
  sc_Kind : string;
  sc_Meta : ObjectMeta;
  sc_Spec : SecurityConfigSpec;
  sc_Status : SecurityConfigStatus;
}.

Definition sc_Name (sc : SecurityConfig) : string := m_Name (sc_Meta sc).
Definition sc_Namespace (sc : SecurityConfig) : string := m_Namespace (sc_Meta sc).

(** ** Updates of a status, one field at a time *)

Definition st_with_observed (s : SecurityConfigStatus) (g : Z) : SecurityConfigStatus :=
  {| st_ObservedGeneration := g; st_Conditions := st_Conditions s; st_Phase := st_Phase s;
     st_Message := st_Message s; st_JwkerSecretName := st_JwkerSecretName s;
     st_MaskinportenSecretName := st_MaskinportenSecretName s;
     st_EntraIdSecretName := st_EntraIdSecretName s;
     st_IdportenAudience := st_IdportenAudience s;
     st_AnsattportenAudience := st_AnsattportenAudience s;
     st_OpaBundleSource := st_OpaBundleSource s; st_Ready := st_Ready s |}.
Definition st_with_conditions (s : SecurityConfigStatus) (c : list Condition) :=
  {| st_ObservedGeneration := st_ObservedGeneration s; st_Conditions := c;
     st_Phase := st_Phase s; st_Message := st_Message s;
     st_JwkerSecretName := st_JwkerSecretName s;
     st_MaskinportenSecretName := st_MaskinportenSecretName s;
     st_EntraIdSecretName := st_EntraIdSecretName s;
     st_IdportenAudience := st_IdportenAudience s;
     st_AnsattportenAudience := st_AnsattportenAudience s;
     st_OpaBundleSource := st_OpaBundleSource s; st_Ready := st_Ready s |}.
(** The phase, the message and [Ready] together. *)
Definition st_with_phase (s : SecurityConfigStatus) (p : Phase) (msg : string) (r : bool) :=
  {| st_ObservedGeneration := st_ObservedGeneration s; st_Conditions := st_Conditions s;
     st_Phase := p; st_Message := msg; st_JwkerSecretName := st_JwkerSecretName s;
     st_MaskinportenSecretName := st_MaskinportenSecretName s;
     st_EntraIdSecretName := st_EntraIdSecretName s;
     st_IdportenAudience := st_IdportenAudience s;
     st_AnsattportenAudience := st_AnsattportenAudience s;
     st_OpaBundleSource := st_OpaBundleSource s; st_Ready := r |}.
Definition st_with_jwker (s : SecurityConfigStatus) (n : string) :=
  {| st_ObservedGeneration := st_ObservedGeneration s; st_Conditions := st_Conditions s;
     st_Phase := st_Phase s; st_Message := st_Message s; st_JwkerSecretName := n;
     st_MaskinportenSecretName := st_MaskinportenSecretName s;
     st_EntraIdSecretName := st_EntraIdSecretName s;
     st_IdportenAudience := st_IdportenAudience s;
     st_AnsattportenAudience := st_AnsattportenAudience s;
     st_OpaBundleSource := st_OpaBundleSource s; st_Ready := st_Ready s |}.
Definition st_with_maskinporten (s : SecurityConfigStatus) (n : string) :=
  {| st_ObservedGeneration := st_ObservedGeneration s; st_Conditions := st_Conditions s;
     st_Phase := st_Phase s; st_Message := st_Message s;
     st_JwkerSecretName := st_JwkerSecretName s; st_MaskinportenSecretName := n;
     st_EntraIdSecretName := st_EntraIdSecretName s;
     st_IdportenAudience := st_IdportenAudience s;
     st_AnsattportenAudience := st_AnsattportenAudience s;
     st_OpaBundleSource := st_OpaBundleSource s; st_Ready := st_Ready s |}.
Definition st_with_entraid (s : SecurityConfigStatus) (n : string) :=
  {| st_ObservedGeneration := st_ObservedGeneration s; st_Conditions := st_Conditions s;
     st_Phase := st_Phase s; st_Message := st_Message s;
     st_JwkerSecretName := st_JwkerSecretName s;
     st_MaskinportenSecretName := st_MaskinportenSecretName s; st_EntraIdSecretName := n;
     st_IdportenAudience := st_IdportenAudience s;
     st_AnsattportenAudience := st_AnsattportenAudience s;
     st_OpaBundleSource := st_OpaBundleSource s; st_Ready := st_Ready s |}.
Definition st_with_idporten (s : SecurityConfigStatus) (a : string) :=
  {| st_ObservedGeneration := st_ObservedGeneration s; st_Conditions := st_Conditions s;
     st_Phase := st_Phase s; st_Message := st_Message s;
     st_JwkerSecretName := st_JwkerSecretName s;
     st_MaskinportenSecretName := st_MaskinportenSecretName s;
     st_EntraIdSecretName := st_EntraIdSecretName s; st_IdportenAudience := a;
     st_AnsattportenAudience := st_AnsattportenAudience s;
     st_OpaBundleSource := st_OpaBundleSource s; st_Ready := st_Ready s |}.
Definition st_with_ansattporten (s : SecurityConfigStatus) (a : string) :=
  {| st_ObservedGeneration := st_ObservedGeneration s; st_Conditions := st_Conditions s;
     st_Phase := st_Phase s; st_Message := st_Message s;
     st_JwkerSecretName := st_JwkerSecretName s;
     st_MaskinportenSecretName := st_MaskinportenSecretName s;
     st_EntraIdSecretName := st_EntraIdSecretName s;
     st_IdportenAudience := st_IdportenAudience s; st_AnsattportenAudience := a;
     st_OpaBundleSource := st_OpaBundleSource s; st_Ready := st_Ready s |}.
Definition st_with_opa (s : SecurityConfigStatus) (o : option StatusOpaBundleSource) :=
  {| st_ObservedGeneration := st_ObservedGeneration s; st_Conditions := st_Conditions s;
     st_Phase := st_Phase s; st_Message := st_Message s;
     st_JwkerSecretName := st_JwkerSecretName s;
     st_MaskinportenSecretName := st_MaskinportenSecretName s;
     st_EntraIdSecretName := st_EntraIdSecretName s;
     st_IdportenAudience := st_IdportenAudience s;
     st_AnsattportenAudience := st_AnsattportenAudience s;
     st_OpaBundleSource := o; st_Ready := st_Ready s |}.

Definition sc_with_status (sc : SecurityConfig) (s : SecurityConfigStatus) : SecurityConfig :=
  {| sc_Kind := sc_Kind sc; sc_Meta := sc_Meta sc; sc_Spec := sc_Spec sc; sc_Status := s |}.
Definition sc_with_meta (sc : SecurityConfig) (m : ObjectMeta) : SecurityConfig :=
  {| sc_Kind := sc_Kind sc; sc_Meta := m; sc_Spec := sc_Spec sc; sc_Status := sc_Status sc |}.

(** The method [InitializeStatus].  A nil list of conditions becomes an
    empty one, which is the same list here. *)
Definition InitializeStatus (s : SecurityConfig) : SecurityConfig :=
  let st := st_with_observed (sc_Status s) (m_Generation (sc_Meta s)) in
  sc_with_status s (st_with_phase st PhasePending (st_Message st) false).

(** The setters of the phase. *)
Definition SetPhaseInvalid (s : SecurityConfigStatus) (msg : string) :=
  st_with_phase s PhaseInvalid msg false.
Definition SetPhasePending (s : SecurityConfigStatus) (msg : string) :=
  st_with_phase s PhasePending msg false.
Definition SetPhaseFailed (s : SecurityConfigStatus) (msg : string) :=
  st_with_phase s PhaseFailed msg false.
Definition SetPhaseReady (s : SecurityConfigStatus) (msg : string) :=
  st_with_phase s PhaseReady msg true.

(** The accessors that make a spec a [Config] of [utilities.DetermineConfigType]. *)
Definition MaskinportenSpec_GetClient (spec : MaskinportenSpec) := mp_Client spec.
Definition MaskinportenSpec_GetClientRef (spec : MaskinportenSpec) := mp_ClientRef spec.
Definition MaskinportenSpec_GetSecretRef (spec : MaskinportenSpec) := mp_SecretRef spec.
Definition EntraIDSpec_GetClient (spec : EntraIDSpec) := ei_Client spec.
Definition EntraIDSpec_GetClientRef (spec : EntraIDSpec) := ei_ClientRef spec.
Definition EntraIDSpec_GetSecretRef (spec : EntraIDSpec) := ei_SecretRef spec.

(** A status says that it is ready exactly when its phase does. *)
Definition status_coherent (s : SecurityConfigStatus) : Prop :=
  st_Ready s = true ↔ st_Phase s = PhaseReady.
