(* ===== verification/Model.v ===== *)
(** * OPA bundles and the ext_authz filter: [pkg/model/opa.go] *)
From stdpp Require Import base gmap strings list.
From Stdlib Require Import ZArith.
From S2P Require Import Prelude GoStrings Kube Api.

Inductive OpaRequestPolicyFailureMode :=
| OpaRequestPolicyFailureModeDeny
| OpaRequestPolicyFailureModeForward.
#[global] Instance OpaRequestPolicyFailureMode_eq_dec : EqDecision OpaRequestPolicyFailureMode.
Proof. solve_decision. Defined.

Definition OpaClusterName : string := "opa_ext_authz".

Record RequestBodyConfig := {
  rbc_IncludeRequestBody : bool;
  rbc_MaxRequestBodyBytes : Z;
}.

Record OpaEnvoyExtAuthzFilterConfig := {
  fc_OpaClusterName : string;
  fc_FailureMode : OpaRequestPolicyFailureMode;
  fc_RequestBodyConfig : RequestBodyConfig;
}.

Record OpaBundleSource := {
  src_Repository : string;
  src_Workflow : string;
  src_Ref : string;
}.
#[global] Instance OpaBundleSource_eq_dec : EqDecision OpaBundleSource.
Proof. solve_decision. Defined.

Record OpaBundle := {
  ob_Name : string;
  ob_URL : string;
  ob_BundleSource : OpaBundleSource;
}.

Definition ToOpaBundle (fromOpaBundle : BundleSource) : OpaBundle :=
  {| ob_Name := bs_Name fromOpaBundle;
     ob_URL := bs_URL fromOpaBundle;
     ob_BundleSource :=
       match bs_Verification fromOpaBundle with
       | Some v => {| src_Repository := gh_Repository (bv_Source v);
                      src_Workflow := gh_Workflow (bv_Source v);
                      src_Ref := gh_Ref (bv_Source v) |}
       | None => {| src_Repository := ""; src_Workflow := ""; src_Ref := "" |}
       end |}.

Definition ToOpaBundles (opaBundles : list BundleSource) : list OpaBundle :=
  map ToOpaBundle opaBundles.

Definition ToGitHubRepositoryURI (o : OpaBundleSource) : string :=
  "https://github.com/" +:+ src_Repository o.

Definition toOpaRequestPolicyFailureMode (fromFailureMode : string) :
    OpaRequestPolicyFailureMode :=
  let m := ToLower fromFailureMode in
  if bool_decide (m = "deny") then OpaRequestPolicyFailureModeDeny
  else if bool_decide (m = "forward") then OpaRequestPolicyFailureModeForward
  else OpaRequestPolicyFailureModeDeny.

Definition ToOpaEnvoyExtAuthzFilterConfig (requestPolicySpec : OpaRequestPolicy) :
    OpaEnvoyExtAuthzFilterConfig :=
  {| fc_OpaClusterName := OpaClusterName;
     fc_FailureMode := toOpaRequestPolicyFailureMode (rp_FailureMode requestPolicySpec);
     fc_RequestBodyConfig :=
       match rp_RequestBody requestPolicySpec with
       | None => {| rbc_IncludeRequestBody := false; rbc_MaxRequestBodyBytes := 0 |}
       | Some b =>
           {| rbc_IncludeRequestBody := rb_Include b;
              rbc_MaxRequestBodyBytes :=
                if rb_Include b then rb_MaxRequestBodyBytes b else 0 |}
       end |}.
