(* ===== verification/Cluster.v ===== *)
(** * The outside world: API objects, client calls, programs

    The controller and the webhooks talk to the Kubernetes API server (through
    the client of controller-runtime), to the event recorder, to the clock and to
    the OCI registry.  Every such call is an operation [Op]; a function of the
    source that makes calls is a [prog], a tree of operations that branches on
    the replies.  A theorem over all replies is a theorem over every API server
    and every interleaving with other writers. *)
From stdpp Require Import base gmap strings list.
From Stdlib Require Import ZArith Lia.
From S2P Require Import Prelude GoStrings Kube Api Model.
Open Scope go_scope.

(** ** Objects *)

(** The kinds of objects the program reads or writes, SecurityConfig aside. *)
Inductive Kind :=
| KJwker | KNetworkPolicy | KMaskinportenClient | KSecret | KServiceEntry
| KAzureAdApplication | KConfigMap | KEnvoyFilter | KApplication | KNamespace.
#[global] Instance Kind_eq_dec : EqDecision Kind.
Proof. solve_decision. Defined.

(** The Go type name of a kind, [reflect.TypeOf(obj).Elem().Name()]. *)
Definition kind_name (k : Kind) : string :=
  match k with
  | KJwker => "Jwker"
  | KNetworkPolicy => "NetworkPolicy"
  | KMaskinportenClient => "MaskinportenClient"
  | KSecret => "Secret"
  | KServiceEntry => "ServiceEntry"
  | KAzureAdApplication => "AzureAdApplication"
  | KConfigMap => "ConfigMap"
  | KEnvoyFilter => "EnvoyFilter"
  | KApplication => "Application"
  | KNamespace => "Namespace"
  end.

(** What an object of a kind holds besides its type and metadata. *)
Definition body (k : Kind) : Type :=
  match k with
  | KJwker => Jwker
  | KNetworkPolicy => NetworkPolicy
  | KMaskinportenClient => MaskinportenClient
  | KSecret => Secret
  | KServiceEntry => ServiceEntry
  | KAzureAdApplication => AzureAdApplication
  | KConfigMap => ConfigMap
  | KEnvoyFilter => EnvoyFilter
  | KApplication => Application
  | KNamespace => unit
  end.

(** An object: [TypeMeta.Kind], the metadata and the rest. *)
Record Object (k : Kind) := MkObject {
  o_Kind : string;
  o_Meta : ObjectMeta;
  o_Body : body k;
}.
Arguments MkObject {k}.
Arguments o_Kind {k}.
Arguments o_Meta {k}.
Arguments o_Body {k}.

(** A [client.Object] of any kind. *)
Inductive AnyObject := AnyObj (k : Kind) (o : Object k).

Abbreviation ObjectKey := (string * string)%type (only parsing).

Definition o_Name {k} (o : Object k) : string := m_Name (o_Meta o).
Definition o_Namespace {k} (o : Object k) : string := m_Namespace (o_Meta o).
Definition key_of {k} (o : Object k) : ObjectKey := (o_Namespace o, o_Name o).
Definition o_with_meta {k} (o : Object k) (m : ObjectMeta) : Object k :=
  MkObject (o_Kind o) m (o_Body o).

Definition zero_sync : SyncStatus :=
  {| SynchronizationState := ""; SynchronizationSecretName := "" |}.

(** The zero value of a Go object of a kind ([reflect.New]). *)
Definition zero_body (k : Kind) : body k :=
  match k with
  | KJwker => {| jwker_Spec := {| js_SecretName := ""; js_AccessPolicy := None |};
                 jwker_Status := zero_sync |}
  | KNetworkPolicy => {| netpol_PodSelector := match_labels ∅; netpol_Ingress := [];
                         netpol_Egress := []; netpol_PolicyTypes := [] |}
  | KMaskinportenClient =>
      {| mpc_Spec := {| nmc_ClientName := "";
                        nmc_Scopes := {| nms_ConsumedScopes := []; nms_ExposedScopes := [] |};
                        nmc_SecretName := "" |};
         mpc_Status := zero_sync |}
  | KSecret => {| sec_StringData := ∅; sec_Data := ∅; sec_Immutable := None; sec_Type := "" |}
  | KServiceEntry => {| se_ExportTo := []; se_Hosts := []; se_Ports := [];
                        se_Resolution := Resolution_NONE; se_Other := VNull |}
  | KAzureAdApplication =>
      {| aad_Spec := {| naa_SecretName := ""; naa_Claims := None; naa_LogoutUrl := "";
                        naa_PreAuthorizedApplications := []; naa_ReplyUrls := [];
                        naa_SinglePageApplication := None; naa_Other := VNull |};
         aad_Status := zero_sync |}
  | KConfigMap => {| cm_Data := ∅; cm_BinaryData := ∅; cm_Immutable := None |}
  | KEnvoyFilter => {| ef_Priority := 0; ef_WorkloadSelector := None;
                       ef_ConfigPatches := []; ef_Other := VNull |}
  | KApplication => {| app_AccessPolicy := None |}
  | KNamespace => tt
  end.

Definition new_object (k : Kind) (ns name : string) : Object k :=
  MkObject "" (named_meta ns name) (zero_body k).

(** ** Operations *)

(** A [labels.Selector] is used through its [Matches] method only. *)
Record Selector := { Matches : gmap string string → bool }.

(** [utilities.OciRepositoryAndDigest]: the registry and the repository of the
    [remote.Repository] (its [Reference]) and the digest. *)
Record OciRepositoryAndDigest := {
  oci_Registry : string;
  oci_Repository : string;
  oci_Digest : string;
}.

(** [ocispec.Descriptor]. *)
Record Descriptor := {
  desc_MediaType : string;
  desc_Digest : string;
  desc_ArtifactType : string;
  desc_Annotations : gomap string;
}.
#[global] Instance Descriptor_eq_dec : EqDecision Descriptor.
Proof. solve_decision. Defined.

Inductive Op : Type :=
| OpGet (k : Kind) (key : ObjectKey)
| OpCreate (k : Kind) (o : Object k)
| OpPatch (k : Kind) (before after : Object k)
| OpDelete (k : Kind) (o : Object k)
| OpUpdate (k : Kind) (o : Object k)
| OpUpdateObjectStatus (k : Kind) (o : Object k)
| OpListNamespaces (sel : Selector)
| OpGetSecurityConfig (key : ObjectKey)
| OpListSecurityConfigs (ns : string)
| OpPatchSecurityConfig (before after : SecurityConfig)
| OpUpdateStatus (sc : SecurityConfig)
| OpNow
| OpEvent (eventtype reason note : string)
| OpResolveOci (reference : string)
| OpFetchOpaBundleLayer (r : OciRepositoryAndDigest)
| OpListReferrers (r : OciRepositoryAndDigest) (mediaType : string)
| OpValidateSigstoreBundles (r : OciRepositoryAndDigest) (referrers : list Descriptor)
    (expectedSource : OpaBundleSource).

(** What an operation returns.  A created, patched or updated object comes back as the
    server stores it, and the client writes it over its argument. *)
Definition resp (op : Op) : Type :=
  match op with
  | OpGet k _ => outcome (Object k)
  | OpCreate k _ => outcome (Object k)
  | OpPatch k _ _ => outcome (Object k)
  | OpDelete _ _ => outcome unit
  | OpUpdate k _ => outcome (Object k)
  | OpUpdateObjectStatus k _ => outcome (Object k)
  | OpListNamespaces _ => outcome (list (Object KNamespace))
  | OpGetSecurityConfig _ => outcome SecurityConfig
  | OpListSecurityConfigs _ => outcome (list SecurityConfig)
  | OpPatchSecurityConfig _ _ => outcome SecurityConfig
  | OpUpdateStatus _ => outcome unit
  | OpNow => Time
  | OpEvent _ _ _ => unit
  | OpResolveOci _ => outcome OciRepositoryAndDigest
  | OpFetchOpaBundleLayer _ => outcome string
  | OpListReferrers _ _ => outcome (list Descriptor)
  | OpValidateSigstoreBundles _ _ _ => outcome unit
  end.

(** The operations that change the cluster. *)
Definition is_write (op : Op) : bool :=
  match op with
  | OpCreate _ _ | OpPatch _ _ _ | OpDelete _ _
  | OpUpdate _ _ | OpUpdateObjectStatus _ _
  | OpPatchSecurityConfig _ _ | OpUpdateStatus _ => true
  | _ => false
  end.

(** ** Programs *)

Inductive prog (A : Type) : Type :=
| Ret (a : A)
| Vis (op : Op) (k : resp op → prog A).
Arguments Ret {A} a.
Arguments Vis {A} op k.

Fixpoint prog_bind {A B : Type} (p : prog A) (f : A → prog B) : prog B :=
  match p with
  | Ret a => f a
  | Vis op k => Vis op (λ r, prog_bind (k r) f)
  end.

Definition call (op : Op) : prog (resp op) := Vis op Ret.

Notation "'let*' x := p 'in' q" := (prog_bind p (λ x, q))
  (at level 10, x pattern, p at level 100, q at level 200) : go_scope.

(** A function that makes calls and returns [(A, error)] or panics. *)
Abbreviation GoM A := (prog (outcome A)) (only parsing).

Definition gom_bind {A B : Type} (m : GoM A) (f : A → GoM B) : GoM B :=
  prog_bind m (λ r, match r with
                    | Ok a => f a
                    | Err e => Ret (Err e)
                    | Panic w => Ret (Panic w)
                    end).

Notation "'let!' x := m 'in' k" := (gom_bind m (λ x, k))
  (at level 10, x pattern, m at level 100, k at level 200) : go_scope.

Definition lift {A : Type} (o : outcome A) : GoM A := Ret o.

(** [if err != nil { return f(err) }] after a call. *)
Definition gom_on_err {A : Type} (f : error → error) (m : GoM A) : GoM A :=
  let* r := m in Ret (on_err f r).

(** [fn] run again, at most [n] more times, while it returns a conflict. *)
Fixpoint retry_conflict (is_conflict : error → bool) (n : nat) (fn : GoM unit) : GoM unit :=
  match n with
  | O => fn
  | S m => let* r := fn in
           match r with
           | Err e => if is_conflict e then retry_conflict is_conflict m fn else Ret (Err e)
           | _ => Ret r
           end
  end.

(** ** Libraries that are not part of the repository *)

(** The pure functions of third-party packages that the program calls. *)
Class Lib : Type := {
  (** [apierrors.IsNotFound], [apierrors.IsConflict]. *)
  IsNotFound : error → bool;
  IsConflict : error → bool;
  (** [metav1.IsControlledBy(obj, owner)]. *)
  IsControlledBy : ObjectMeta → ObjectMeta → bool;
  (** [ctrl.SetControllerReference(owner, controlled, scheme)]: the new
      metadata of [controlled]. *)
  SetControllerReference : ObjectMeta → ObjectMeta → outcome ObjectMeta;
  (** [k8sErrors.NewAggregate] of a non-empty list. *)
  NewAggregate : list error → error;
  (** [metav1.LabelSelectorAsSelector]. *)
  LabelSelectorAsSelector : LabelSelector → outcome Selector;
  (** [equality.Semantic.DeepEqual]. *)
  SemanticDeepEqual : ∀ {A : Type} {H : EqDecision A}, A → A → bool;
  (** [reflect.DeepEqual] on values that hold generated protobuf messages,
      whose unexported state it compares as well. *)
  ProtoDeepEqual : ∀ {A : Type} {H : EqDecision A}, A → A → bool;
  (** [structpb.NewStruct]. *)
  NewStruct : list (string * AnyVal) → outcome AnyVal;
  (** [resource.MustParse]. *)
  MustParse : string → outcome Quantity;
  (** [retry.RetryOnConflict(retry.DefaultBackoff, fn)]. *)
  RetryOnConflict : GoM unit → GoM unit;
}.

(** What the program relies on of these functions, as their documentation says. *)
Class LibLaws `{Lib} : Prop := {
  not_found_conflict : ∀ e, IsNotFound e = true → IsConflict e = false;
  controlled_no_owner : ∀ m owner, m_OwnerReferences m = [] → IsControlledBy m owner = false;
  controlled_owner_refs : ∀ m m' owner, m_OwnerReferences m = m_OwnerReferences m' →
    IsControlledBy m owner = IsControlledBy m' owner;
  controller_reference_set : ∀ owner m m', SetControllerReference owner m = Ok m' →
    IsControlledBy m' owner = true ∧ m_Name m' = m_Name m ∧ m_Namespace m' = m_Namespace m ∧
    m_Labels m' = m_Labels m ∧ m_Annotations m' = m_Annotations m;
  semantic_equal_spec : ∀ (A : Type) (H : EqDecision A) (a b : A),
    SemanticDeepEqual a b = true ↔ a = b;
  (** Equal messages may differ in unexported state; different ones are never equal. *)
  proto_equal_sound : ∀ (A : Type) (H : EqDecision A) (a b : A),
    ProtoDeepEqual a b = true → a = b;
  retry_spec : ∀ fn, ∃ n, RetryOnConflict fn = retry_conflict IsConflict n fn;
}.

(** ** Runs of a program against an arbitrary environment *)

Inductive event := Ev (op : Op) (r : resp op).
Definition ev_op (e : event) : Op := match e with Ev op _ => op end.
Abbreviation history := (list event) (only parsing).

(** [steps p h p']: [p] makes the calls of [h], gets the replies of [h], and
    [p'] is what is left of it. *)
Inductive steps {A : Type} : prog A → history → prog A → Prop :=
| steps_refl p : steps p [] p
| steps_op op k r h p' : steps (k r) h p' → steps (Vis op k) (Ev op r :: h) p'.

(** Every operation [p] performs is allowed by [I] after the history so far,
    whatever the replies are, and a run to the end satisfies [Q]. *)
Fixpoint wp {A : Type} (I : history → Op → Prop) (h : history) (p : prog A)
    (Q : history → A → Prop) : Prop :=
  match p with
  | Ret a => Q h a
  | Vis op k => I h op ∧ ∀ r, wp I (h ++ [Ev op r]) (k r) Q
  end.

(** Every operation of every run satisfies [P]. *)
Definition all_ops {A : Type} (P : Op → Prop) (p : prog A) : Prop :=
  ∀ h, wp (λ _, P) h p (λ _ _, True).

(** ** Runs against a given server *)

(** A server with states in [W]: how it answers, and what it stores. *)
Class Server (W : Type) := {
  perform : ∀ op : Op, W → resp op * W;
  find : W → ∀ k : Kind, ObjectKey → option (Object k);
}.

Fixpoint run {A W : Type} `{Server W} (p : prog A) (w : W) : A * W :=
  match p with
  | Ret a => (a, w)
  | Vis op k => let rw := perform op w in run (k rw.1) rw.2
  end.

(** Objects with the same content: the server may set the other metadata. *)
Definition same_content {k} (o o' : Object k) : Prop :=
  key_of o' = key_of o ∧ o_Body o' = o_Body o ∧
  m_Labels (o_Meta o') = m_Labels (o_Meta o) ∧
  m_Annotations (o_Meta o') = m_Annotations (o_Meta o) ∧
  m_OwnerReferences (o_Meta o') = m_OwnerReferences (o_Meta o).

(** The server stores the body it is given ([stringData] of a Secret is the
    exception, it is merged into [data]). *)
Definition stored_as_is {k} : body k → Prop :=
  match k with
  | KSecret => λ b, sec_StringData b = ∅
  | _ => λ _, True
  end.

(** What the program relies on of the API server; any call may fail. *)
Class ServerLaws (W : Type) `{Server W} `{Lib} : Prop := {
  get_reply : ∀ w k key r w', perform (OpGet k key) w = (r, w') → w' = w ∧
    match r with
    | Ok o => find w k key = Some o ∧ key_of o = key
    | Err e => IsNotFound e = true → find w k key = None
    | Panic _ => False
    end;
  create_reply : ∀ w k (o : Object k) r w', perform (OpCreate k o) w = (r, w') →
    stored_as_is (o_Body o) →
    match r with
    | Ok o' => find w k (key_of o) = None ∧ same_content o o' ∧
               find w' k (key_of o) = Some o' ∧
               ∀ k2 key2, (k2, key2) ≠ (k, key_of o) → find w' k2 key2 = find w k2 key2
    | Err _ => w' = w
    | Panic _ => False
    end;
  patch_reply : ∀ w k (b o : Object k) r w', perform (OpPatch k b o) w = (r, w') →
    find w k (key_of o) = Some b → stored_as_is (o_Body o) →
    match r with
    | Ok o' => same_content o o' ∧ find w' k (key_of o) = Some o' ∧
               ∀ k2 key2, (k2, key2) ≠ (k, key_of o) → find w' k2 key2 = find w k2 key2
    | Err _ => w' = w
    | Panic _ => False
    end;
  delete_reply : ∀ w k (o : Object k) r w', perform (OpDelete k o) w = (r, w') →
    match r with
    | Ok _ => (* gone, or kept by a finalizer and marked *)
              (find w' k (key_of o) = None ∨
               ∃ o', find w' k (key_of o) = Some o' ∧
                     m_DeletionTimestamp (o_Meta o') ≠ None) ∧
              ∀ k2 key2, (k2, key2) ≠ (k, key_of o) → find w' k2 key2 = find w k2 key2
    | Err _ => w' = w
    | Panic _ => False
    end;
  event_reply : ∀ w t re n r w', perform (OpEvent t re n) w = (r, w') →
    ∀ k key, find w' k key = find w k key;
}.

(** [b] with the status of [from]; the kinds without a status stay as they are. *)
Definition body_with_status {k} : body k → body k → body k :=
  match k with
  | KJwker => λ b from, {| jwker_Spec := jwker_Spec b; jwker_Status := jwker_Status from |}
  | KMaskinportenClient => λ b from, {| mpc_Spec := mpc_Spec b; mpc_Status := mpc_Status from |}
  | KAzureAdApplication => λ b from, {| aad_Spec := aad_Spec b; aad_Status := aad_Status from |}
  | _ => λ b _, b
  end.

(** What the mock controller relies on besides: an update replaces an object without a
    status, an update of the status changes nothing else. *)
Class ObjectUpdateLaws (W : Type) `{Server W} : Prop := {
  update_reply : ∀ w (o : Object KSecret) r w', perform (OpUpdate KSecret o) w = (r, w') →
    stored_as_is (o_Body o) →
    match r with
    | Ok o' => same_content o o' ∧ find w' KSecret (key_of o) = Some o' ∧
               ∀ k2 key2, (k2, key2) ≠ (KSecret, key_of o) → find w' k2 key2 = find w k2 key2
    | Err _ => ∀ k2 key2, find w' k2 key2 = find w k2 key2
    | Panic _ => False
    end;
  update_status_reply : ∀ w k (o : Object k) r w',
    perform (OpUpdateObjectStatus k o) w = (r, w') →
    match r with
    | Ok o' => ∃ old, find w k (key_of o) = Some old ∧
               o_Body o' = body_with_status (o_Body old) (o_Body o) ∧
               find w' k (key_of o) = Some o' ∧
               ∀ k2 key2, (k2, key2) ≠ (k, key_of o) → find w' k2 key2 = find w k2 key2
    | Err _ => ∀ k2 key2, find w' k2 key2 = find w k2 key2
    | Panic _ => False
    end;
}.
