(* ===== verification/ProgTheory.v ===== *)
(** * Reasoning about programs: rules for [wp], [all_ops], [steps] and [run] *)
From stdpp Require Import base gmap strings list.
From Stdlib Require Import ZArith Lia.
From S2P Require Import Prelude Kube Api Cluster.
Open Scope go_scope.

Create HintDb ops discriminated.

Section Wp.
Context {A : Type}.
Implicit Types (I : history → Op → Prop) (p : prog A).

Lemma wp_mono I (I' : history → Op → Prop) h p (Q Q' : history → A → Prop) :
  (∀ h op, I h op → I' h op) → (∀ h a, Q h a → Q' h a) →
  wp I h p Q → wp I' h p Q'.
Proof.
  intros HI HQ. revert h. induction p as [a|op k IH]; intros h; simpl; [auto|].
  intros [Hop Hk]. split; [auto|]. intros r. by apply IH.
Qed.

Lemma wp_true I h p : (∀ h op, I h op) → wp I h p (λ _ _, True).
Proof. intros HI. revert h. induction p as [a|op k IH]; intros h; simpl; auto. Qed.

(** The history only grows. *)
Lemma wp_grow I h p Q :
  wp I h p Q → wp I h p (λ h' a, Q h' a ∧ ∃ h2, h' = h ++ h2).
Proof.
  revert h. induction p as [a|op k IH]; intros h; simpl.
  - intros HQ. split; [done|]. exists []. by rewrite app_nil_r.
  - intros [Hop Hk]. split; [done|]. intros r. eapply wp_mono; [done| |apply IH, Hk].
    intros h' a [HQ [h2 ->]]. split; [done|]. exists (Ev op r :: h2). by rewrite <-app_assoc.
Qed.

(** The history at the end is the one at the start and a run of the program. *)
Lemma wp_steps I h p Q :
  wp I h p Q → wp I h p (λ h' a, Q h' a ∧ ∃ h2, h' = h ++ h2 ∧ steps p h2 (Ret a)).
Proof.
  revert h. induction p as [a|op k IH]; intros h; simpl.
  - intros HQ. split; [done|]. exists []. split; [by rewrite app_nil_r|constructor].
  - intros [Hop Hk]. split; [done|]. intros r. eapply wp_mono; [done| |apply IH, Hk].
    intros h' a [HQ (h2 & -> & Hs)]. split; [done|]. exists (Ev op r :: h2).
    split; [by rewrite <-app_assoc|by constructor].
Qed.

(** A program that was judged on its own calls is judged on the last part of a longer
    history. *)
Definition suffix_of (pre : history) (P : history → Prop) (h : history) : Prop :=
  ∃ h2, h = pre ++ h2 ∧ P h2.

Lemma wp_suffix I pre h p Q :
  wp I h p Q →
  wp (λ h op, suffix_of pre (λ h, I h op) h) (pre ++ h) p
    (λ h a, suffix_of pre (λ h, Q h a) h).
Proof.
  revert h. induction p as [a|op k IH]; intros h; simpl; [by exists h|].
  intros [Hop Hk]. split; [by exists h|]. intros r. rewrite <-app_assoc. apply IH, Hk.
Qed.

Lemma wp_and I I' h p Q Q' :
  wp I h p Q → wp I' h p Q' →
  wp (λ h op, I h op ∧ I' h op) h p (λ h a, Q h a ∧ Q' h a).
Proof.
  revert h. induction p as [a|op k IH]; intros h; simpl; [auto|].
  intros [H1 H2] [H3 H4]. split; [done|]. intros r. by apply IH.
Qed.

(** [wp] speaks of every state a run can reach: each call made was allowed by
    [I] after the calls before it, and the run that is left satisfies [wp]. *)
Lemma wp_adequate I p h p' h0 Q :
  wp I h0 p Q → steps p h p' →
  wp I (h0 ++ h) p' Q ∧
  ∀ h1 op r h2, h = h1 ++ Ev op r :: h2 → I (h0 ++ h1) op.
Proof.
  intros Hwp Hs. revert h0 Hwp. induction Hs as [p|op k r h p' Hs IH]; intros h0 Hwp.
  - rewrite app_nil_r. split; [done|]. by intros [|??].
  - destruct Hwp as [Hop Hk]. destruct (IH _ (Hk r)) as [Hwp' Hall].
    rewrite <-app_assoc in Hwp'. split; [done|].
    intros [|e h1] op' r' h2 Heq.
    + apply (f_equal (λ l, ev_op <$> head l)) in Heq. injection Heq as <-.
      by rewrite app_nil_r.
    + pose proof (f_equal tail Heq) as Ht. apply (f_equal head) in Heq.
      injection Heq as <-. specialize (Hall h1 op' r' h2 Ht).
      by rewrite <-app_assoc in Hall.
Qed.

Lemma steps_end_wp I p h a Q : wp I [] p Q → steps p h (Ret a) → Q h a.
Proof. intros Hwp Hs. by apply (wp_adequate _ _ _ _ _ _ Hwp Hs). Qed.

(** Every program ends: whatever the environment answers, some run of it
    reaches a result. *)
Lemma prog_terminates p (env : ∀ op, resp op) : ∃ h a, steps p h (Ret a).
Proof.
  induction p as [a|op k IH]; [exists [], a; constructor|].
  destruct (IH (env op)) as (h & a & Hs). eexists _, a. by constructor.
Qed.
End Wp.

Lemma wp_bind {A B : Type} (I : history → Op → Prop) h (p : prog A) (f : A → prog B) Q :
  wp I h (prog_bind p f) Q ↔ wp I h p (λ h' a, wp I h' (f a) Q).
Proof.
  revert h. induction p as [a|op k IH]; intros h; simpl; [done|].
  setoid_rewrite IH. done.
Qed.

(** A step that keeps an invariant of the history may be retried. *)
Lemma wp_retry (I : history → Op → Prop) (Inv : history → Prop) isc n (fn : GoM unit) h :
  (∀ h, Inv h → wp I h fn (λ h' _, Inv h')) → Inv h →
  wp I h (retry_conflict isc n fn) (λ h' _, Inv h').
Proof.
  intros Hfn. revert h. induction n as [|n IH]; intros h Hh; simpl; [by apply Hfn|].
  apply wp_bind. eapply wp_mono; [done| |by apply Hfn].
  intros h' [a|e|w] Hi; simpl; [done| |done]. destruct (isc e); [by apply IH|done].
Qed.

(** ** Inversion of runs *)

Lemma steps_inv {A : Type} (p p' : prog A) h :
  steps p h p' →
  match p with
  | Ret a => p' = Ret a ∧ h = []
  | Vis op k => (p' = Vis op k ∧ h = []) ∨ ∃ r h', h = Ev op r :: h' ∧ steps (k r) h' p'
  end.
Proof. destruct 1 as [[a|op k]|op k r h p' Hs]; eauto 10. Qed.

Lemma steps_Ret_inv {A : Type} (a b : A) h : steps (Ret a) h (Ret b) → a = b ∧ h = [].
Proof. by intros [[= <-] ->]%steps_inv. Qed.

Lemma steps_Vis_inv {A : Type} op (k : resp op → prog A) b h :
  steps (Vis op k) h (Ret b) → ∃ r h', h = Ev op r :: h' ∧ steps (k r) h' (Ret b).
Proof. by intros [[? _]|?]%steps_inv. Qed.

Lemma steps_bind {A B : Type} (p : prog A) (f : A → prog B) h b :
  steps (prog_bind p f) h (Ret b) ↔
  ∃ h1 a h2, h = h1 ++ h2 ∧ steps p h1 (Ret a) ∧ steps (f a) h2 (Ret b).
Proof.
  revert h. induction p as [a|op k IH]; intros h; simpl; split.
  - intros Hs. exists [], a, h. split_and!; [done|constructor|done].
  - by intros (h1 & a' & h2 & -> & [<- ->]%steps_Ret_inv & Hs).
  - intros (r & h' & -> & (h1 & a & h2 & -> & H1 & H2)%IH)%steps_Vis_inv.
    exists (Ev op r :: h1), a, h2. split_and!; [done|by constructor|done].
  - intros (h1 & a & h2 & -> & (r & h' & -> & H1)%steps_Vis_inv & H2).
    simpl. constructor. apply IH. eauto 10.
Qed.

Lemma gom_bind_steps {A B : Type} (m : GoM A) (f : A → GoM B) h b :
  steps (gom_bind m f) h (Ret (Ok b)) →
  ∃ h1 a h2, h = h1 ++ h2 ∧ steps m h1 (Ret (Ok a)) ∧ steps (f a) h2 (Ret (Ok b)).
Proof.
  intros (h1 & r & h2 & -> & H1 & H2)%steps_bind.
  destruct r as [a|e|w]; [by eauto 10|by apply steps_Ret_inv in H2 as [? _]..].
Qed.

Lemma gom_on_err_steps {A : Type} f (m : GoM A) h a :
  steps (gom_on_err f m) h (Ret (Ok a)) → steps m h (Ret (Ok a)).
Proof.
  intros (h1 & r & h2 & -> & H1 & H2)%steps_bind. apply steps_Ret_inv in H2 as [H2 ->].
  apply on_err_Ok in H2 as ->. by rewrite app_nil_r.
Qed.

Lemma call_steps op h r : steps (call op) h (Ret r) → h = [Ev op r].
Proof. by intros (r' & h' & -> & [<- ->]%steps_Ret_inv)%steps_Vis_inv. Qed.

(** The calls of one run are among those of the other. *)
Definition part_of (h h' : history) : Prop := ∀ e, e ∈ h → e ∈ h'.

Lemma part_of_app_l h1 h2 h : part_of h h1 → part_of h (h1 ++ h2).
Proof. intros Hp e He. apply elem_of_app. left. by apply Hp. Qed.
Lemma part_of_app_r h1 h2 h : part_of h h2 → part_of h (h1 ++ h2).
Proof. intros Hp e He. apply elem_of_app. right. by apply Hp. Qed.

Section AllOps.
Context (P : Op → Prop).

Lemma all_ops_Ret {A} (a : A) : all_ops P (Ret a).
Proof. by intros h. Qed.

Lemma all_ops_Vis {A} op (k : resp op → prog A) :
  P op → (∀ r, all_ops P (k r)) → all_ops P (Vis op k).
Proof. intros Hop Hk h. split; [done|]. intros r. apply Hk. Qed.

Lemma all_ops_bind {A B} (p : prog A) (f : A → prog B) :
  all_ops P p → (∀ a, all_ops P (f a)) → all_ops P (prog_bind p f).
Proof.
  intros Hp Hf h. apply wp_bind. eapply wp_mono; [..|apply Hp]; [auto|].
  intros h' a _. apply Hf.
Qed.

Lemma all_ops_call op : P op → all_ops P (call op).
Proof. intros Hop. apply all_ops_Vis; [done|]. intros r. apply all_ops_Ret. Qed.

Lemma all_ops_gom_bind {A B} (p : GoM A) (f : A → GoM B) :
  all_ops P p → (∀ a, all_ops P (f a)) → all_ops P (gom_bind p f).
Proof.
  intros Hp Hf. apply all_ops_bind; [done|]. intros [a|e|w]; auto using all_ops_Ret.
Qed.

Lemma all_ops_on_err {A} f (p : GoM A) : all_ops P p → all_ops P (gom_on_err f p).
Proof. intros Hp. apply all_ops_bind; auto using all_ops_Ret. Qed.

Lemma all_ops_retry isc n (fn : GoM unit) :
  all_ops P fn → all_ops P (retry_conflict isc n fn).
Proof.
  intros Hfn. induction n as [|n IH]; simpl; [done|]. apply all_ops_bind; [done|].
  intros [a|e|w]; [apply all_ops_Ret| |apply all_ops_Ret].
  destruct (isc e); auto using all_ops_Ret.
Qed.

(** [all_ops] speaks of the calls of every run. *)
Lemma all_ops_steps {A} (p p' : prog A) h e :
  all_ops P p → steps p h p' → e ∈ h → P (ev_op e).
Proof.
  intros Hp Hs He. apply list_elem_of_split in He as (h1 & h2 & ->).
  destruct e as [op r].
  exact (proj2 (wp_adequate _ _ _ _ [] _ (Hp []) Hs) h1 op r h2 eq_refl).
Qed.
End AllOps.

Lemma all_ops_mono {A} (P P' : Op → Prop) (p : prog A) :
  (∀ op, P op → P' op) → all_ops P p → all_ops P' p.
Proof. intros HP Hp h. eapply wp_mono; [..|apply Hp]; simpl; auto. Qed.

Lemma all_ops_wp {A} (P : Op → Prop) (I : history → Op → Prop) h (p : prog A) :
  (∀ h op, P op → I h op) → all_ops P p → wp I h p (λ _ _, True).
Proof. intros HP Hp. eapply wp_mono; [..|apply Hp]; simpl; auto. Qed.

#[export] Hint Resolve all_ops_Ret all_ops_bind all_ops_call all_ops_gom_bind
  all_ops_on_err all_ops_Vis : ops.

(** Case analysis on the replies of a program, then the leaves. *)
Ltac ops_tac :=
  repeat match goal with
  | |- all_ops _ (prog_bind _ _) => apply all_ops_bind; [|intros ?]
  | |- all_ops _ (gom_bind _ _) => apply all_ops_gom_bind; [|intros ?]
  | |- all_ops _ (gom_on_err _ _) => apply all_ops_on_err
  | |- all_ops _ (call _) => apply all_ops_call
  | |- all_ops _ (Ret _) => apply all_ops_Ret
  | |- all_ops _ (lift _) => apply all_ops_Ret
  | |- all_ops _ (Vis _ _) => apply all_ops_Vis; [|intros ?]
  | |- all_ops _ (match ?x with _ => _ end) => destruct x eqn:?
  | |- all_ops _ (let _ := _ in _) => cbv zeta
  end.

Section Run.
Context {W : Type} `{Server W}.

Lemma run_bind {A B} (p : prog A) (f : A → prog B) (w : W) :
  run (prog_bind p f) w = let aw := run p w in run (f aw.1) aw.2.
Proof. revert w. induction p as [a|op k IH]; intros w; simpl; [done|]. by rewrite IH. Qed.

Lemma run_call op (w : W) : run (call op) w = perform op w.
Proof. simpl. by destruct (perform op w). Qed.

(** A run against a server is one of the runs of the program. *)
Lemma run_steps {A} (p : prog A) (w : W) : ∃ h, steps p h (Ret (run p w).1).
Proof.
  revert w. induction p as [a|op k IH]; intros w; simpl; [exists []; constructor|].
  destruct (IH (perform op w).1 (perform op w).2) as [h Hs].
  exists (Ev op (perform op w).1 :: h). by constructor.
Qed.

(** The calls of that run. *)
Fixpoint trace {A} (p : prog A) (w : W) : history :=
  match p with
  | Ret _ => []
  | Vis op k => let rw := perform op w in Ev op rw.1 :: trace (k rw.1) rw.2
  end.

Lemma trace_steps {A} (p : prog A) (w : W) : steps p (trace p w) (Ret (run p w).1).
Proof. revert w. induction p as [a|op k IH]; intros w; simpl; by constructor. Qed.

Lemma trace_bind {A B} (p : prog A) (f : A → prog B) (w : W) :
  trace (prog_bind p f) w = trace p w ++ trace (f (run p w).1) (run p w).2.
Proof. revert w. induction p as [a|op k IH]; intros w; simpl; [done|]. by rewrite IH. Qed.

(** A call and what follows it. *)
Lemma run_call_bind {B} op (f : resp op → prog B) (w : W) :
  run (prog_bind (call op) f) w = run (f (perform op w).1) (perform op w).2.
Proof. reflexivity. Qed.
Lemma trace_call_bind {B} op (f : resp op → prog B) (w : W) :
  trace (prog_bind (call op) f) w =
  [Ev op (perform op w).1] ++ trace (f (perform op w).1) (perform op w).2.
Proof. reflexivity. Qed.

Lemma wp_run {A} I (p : prog A) (w : W) (Q : A → Prop) :
  wp I [] p (λ _ a, Q a) → Q (run p w).1.
Proof. intros Hwp. destruct (run_steps p w) as [h Hs]. by apply (steps_end_wp _ _ _ _ _ Hwp Hs). Qed.
End Run.

Lemma gom_bind_Ok {A B : Type} (a : A) (f : A → GoM B) : gom_bind (lift (Ok a)) f = f a.
Proof. reflexivity. Qed.

(** ** What a program returns, whatever the replies *)

(** Every result of the program that is a value satisfies [P]. *)
Definition yields {A : Type} (P : A → Prop) (p : GoM A) : Prop :=
  ∀ h, wp (λ _ _, True) h p (λ _ r, ∀ a, r = Ok a → P a).

Lemma yields_Ok {A} (P : A → Prop) a : P a → yields P (Ret (Ok a)).
Proof. intros Hp h b Heq. injection Heq as <-. exact Hp. Qed.

Lemma yields_Err {A} (P : A → Prop) e : yields P (Ret (Err e)).
Proof. intros h b. done. Qed.

Lemma yields_Panic {A} (P : A → Prop) w : yields P (Ret (Panic w)).
Proof. intros h b. done. Qed.

Lemma yields_lift {A} (P : A → Prop) (o : outcome A) :
  (∀ a, o = Ok a → P a) → yields P (lift o).
Proof. intros Hp h a. apply Hp. Qed.

Lemma yields_any {A} (p : GoM A) : yields (λ _, True) p.
Proof.
  intros h. apply (wp_mono (λ _ _, True) _ _ _ (λ _ _, True)); [done|done|].
  by apply wp_true.
Qed.

Lemma yields_mono {A} (P Q : A → Prop) (p : GoM A) :
  (∀ a, P a → Q a) → yields P p → yields Q p.
Proof. intros HPQ Hp h. eapply wp_mono; [done| |apply Hp]. simpl. eauto. Qed.

Lemma yields_bind {A B} (P : A → Prop) (Q : B → Prop) (p : GoM A) (f : A → GoM B) :
  yields P p → (∀ a, P a → yields Q (f a)) → yields Q (gom_bind p f).
Proof.
  intros Hp Hf h. apply wp_bind. eapply wp_mono; [done| |apply Hp].
  intros h' [a|e|w] Ha; simpl; [by apply Hf, Ha|done|done].
Qed.

Lemma yields_on_err {A} (P : A → Prop) f (p : GoM A) :
  yields P p → yields P (gom_on_err f p).
Proof.
  intros Hp h. apply wp_bind. eapply wp_mono; [done| |apply Hp].
  intros h' [a|e|w] Ha; simpl; [|done|done]. intros b [= <-]. by apply Ha.
Qed.

(** A bind whose first part is of no interest. *)
Lemma yields_bind_any {A B} (Q : B → Prop) (p : GoM A) (f : A → GoM B) :
  (∀ a, yields Q (f a)) → yields Q (gom_bind p f).
Proof. intros Hf. eapply yields_bind; [apply yields_any|auto]. Qed.

Lemma yields_steps {A} (P : A → Prop) (p : GoM A) h a :
  yields P p → steps p h (Ret (Ok a)) → P a.
Proof. intros Hp Hs. exact (steps_end_wp _ _ _ _ _ (Hp []) Hs a eq_refl). Qed.

(** *** Fixed replies *)

(** The result of a program when each call gets a fixed reply. *)
Fixpoint answered {A : Type} (answer : ∀ op, resp op) (p : prog A) : A :=
  match p with
  | Ret a => a
  | Vis op k => answered answer (k (answer op))
  end.

(** ** When a program succeeds *)

(** As long as every reply is one that [G] allows, the program ends with a value, and the
    value satisfies [Q]. *)
Fixpoint succeeds {A : Type} (G : ∀ op, resp op → Prop) (Q : A → Prop) (p : GoM A) : Prop :=
  match p with
  | Ret r => ∃ a, r = Ok a ∧ Q a
  | Vis op k => ∀ r, G op r → succeeds G Q (k r)
  end.

Section Succeeds.
Context (G : ∀ op, resp op → Prop).

(** The replies in a history are allowed. *)
Definition replied (h : history) : Prop :=
  ∀ op r, Ev op r ∈ h → G op r.

Lemma replied_Forall h :
  Forall (λ e, match e with Ev op r => G op r end) h → replied h.
Proof. intros Hall op r Hin. rewrite Forall_forall in Hall. exact (Hall _ Hin). Qed.

Lemma replied_nil : replied [].
Proof. by intros op r ?%not_elem_of_nil. Qed.

Lemma replied_cons op r h : G op r → replied h → replied (Ev op r :: h).
Proof. intros Hr Hh. by apply replied_Forall, Forall_cons; split; [|apply Forall_forall; intros []; apply Hh]. Qed.

Lemma succeeds_Ok {A} (Q : A → Prop) a : Q a → succeeds G Q (Ret (Ok a)).
Proof. simpl. eauto. Qed.

Lemma succeeds_lift {A} (Q : A → Prop) (o : outcome A) :
  (∃ a, o = Ok a ∧ Q a) → succeeds G Q (lift o).
Proof. intros Ho. exact Ho. Qed.

Lemma succeeds_mono {A} (P Q : A → Prop) (p : GoM A) :
  (∀ a, P a → Q a) → succeeds G P p → succeeds G Q p.
Proof. intros HPQ. induction p as [r|op k IH]; simpl; [naive_solver|auto]. Qed.

(** A bind that is not one of [GoM]. *)
Lemma succeeds_let {A B} (P : A → Prop) (Q : B → Prop) (p : GoM A) (f : outcome A → GoM B) :
  succeeds G P p → (∀ a, P a → succeeds G Q (f (Ok a))) → succeeds G Q (prog_bind p f).
Proof.
  intros Hp Hf. induction p as [r|op k IH]; simpl in *.
  - destruct Hp as (a & -> & Ha). by apply Hf.
  - intros r Hr. by apply IH, Hp.
Qed.

Lemma succeeds_bind {A B} (P : A → Prop) (Q : B → Prop) (p : GoM A) (f : A → GoM B) :
  succeeds G P p → (∀ a, P a → succeeds G Q (f a)) → succeeds G Q (gom_bind p f).
Proof.
  intros Hp Hf. unfold gom_bind. by eapply succeeds_let.
Qed.

Lemma succeeds_on_err {A} (Q : A → Prop) f (p : GoM A) :
  succeeds G Q p → succeeds G Q (gom_on_err f p).
Proof.
  intros Hp. unfold gom_on_err. induction p as [r|op k IH]; simpl in *.
  - destruct Hp as (a & -> & Ha). eauto.
  - intros r Hr. by apply IH, Hp.
Qed.

Lemma answered_steps {A} (answer : ∀ op, resp op) (p : prog A) :
  (∀ op, G op (answer op)) → ∃ h, steps p h (Ret (answered answer p)) ∧ replied h.
Proof.
  intros Ha. induction p as [a|op k IH]; simpl; [exists []; split; [constructor|apply replied_nil]|].
  destruct (IH (answer op)) as (h & Hs & Hr). exists (Ev op (answer op) :: h).
  split; [by constructor|by apply replied_cons].
Qed.

Lemma succeeds_steps {A} (Q : A → Prop) (p : GoM A) h r :
  succeeds G Q p → steps p h (Ret r) → replied h → ∃ a, r = Ok a ∧ Q a.
Proof.
  intros Hp Hs. remember (Ret r) as p' eqn:Hp'. induction Hs as [p|op k r' h p' Hs IH]; subst.
  - intros _. exact Hp.
  - intros Hr. apply IH; [|done|intros op' r1 Hin; apply Hr; by right].
    apply Hp, Hr. by left.
Qed.
End Succeeds.
