(* ===== verification/RefServer.v ===== *)
(** * A reference library and a reference server

    A concrete instance of [Lib] and of [Server] that satisfies the laws, so that
    theorems with these interfaces as hypotheses apply to something and their
    witnesses evaluate.  It does not model code of the repository. *)
From stdpp Require Import base gmap strings list.
From Stdlib Require Import ZArith Lia.
From S2P Require Import Prelude Kube Api Cluster ProgTheory.

(** ** The library *)

Fixpoint has_reason (reason : string) (e : error) : bool :=
  match e with
  | StatusError r _ => bool_decide (r = reason)
  | Wrapped _ inner => has_reason reason inner
  | _ => false
  end.

Definition controller_of (m : ObjectMeta) : option OwnerReference :=
  List.find (λ r, bool_decide (or_Controller r = Some true)) (m_OwnerReferences m).

Definition ref_controlled (m owner : ObjectMeta) : bool :=
  match controller_of m with
  | Some r => bool_decide (or_UID r = m_UID owner)
  | None => false
  end.

Definition with_owners (m : ObjectMeta) (l : list OwnerReference) : ObjectMeta :=
  {| m_Name := m_Name m; m_GenerateName := m_GenerateName m; m_Namespace := m_Namespace m;
     m_UID := m_UID m; m_ResourceVersion := m_ResourceVersion m;
     m_Generation := m_Generation m; m_DeletionTimestamp := m_DeletionTimestamp m;
     m_Labels := m_Labels m; m_Annotations := m_Annotations m; m_OwnerReferences := l |}.

Definition ref_set_controller (owner m : ObjectMeta) : outcome ObjectMeta :=
  match controller_of m with
  | Some r => if bool_decide (or_UID r = m_UID owner) then Ok m
              else Err (ErrorString "already owned by another controller")
  | None => Ok (with_owners m ({| or_Kind := "SecurityConfig"; or_Name := m_Name owner;
                                  or_UID := m_UID owner; or_Controller := Some true |}
                               :: m_OwnerReferences m))
  end.

#[export] Instance RefLib : Lib := {|
  IsNotFound := has_reason "NotFound";
  IsConflict := has_reason "Conflict";
  IsControlledBy := ref_controlled;
  SetControllerReference := ref_set_controller;
  NewAggregate := Joined;
  LabelSelectorAsSelector := λ s,
    Ok {| Matches := λ l, bool_decide (ls_MatchLabels s ⊆ l) |};
  SemanticDeepEqual := λ A H a b, bool_decide (a = b);
  ProtoDeepEqual := λ A H a b, bool_decide (a = b);
  NewStruct := λ fs, Ok (VMap fs);
  MustParse := λ s, if bool_decide (s = "") then Panic "cannot parse" else Ok {| q_repr := s |};
  RetryOnConflict := retry_conflict (has_reason "Conflict") 3;
|}.

(** ** The server *)

Record Store := {
  s_objs : ∀ k : Kind, gmap (string * string) (Object k);
  s_scs : gmap (string * string) SecurityConfig;
  s_namespaces : list (Object KNamespace);
  s_layers : gmap string string;
  s_referrers : list Descriptor;
  s_clock : Z;
  s_events : list (string * string * string);
}.

Definition empty_store : Store :=
  {| s_objs := λ k, ∅; s_scs := ∅; s_namespaces := []; s_layers := ∅;
     s_referrers := []; s_clock := 0;
     s_events := [] |}.

Definition upd_kind (k : Kind) (m : gmap (string * string) (Object k))
    (f : ∀ k, gmap (string * string) (Object k)) (k' : Kind) :
    gmap (string * string) (Object k') :=
  match decide (k = k') with
  | left e => eq_rect k (λ k, gmap (string * string) (Object k)) m k' e
  | right _ => f k'
  end.

Definition s_with_objs (s : Store) f : Store :=
  {| s_objs := f; s_scs := s_scs s; s_namespaces := s_namespaces s; s_layers := s_layers s;
     s_referrers := s_referrers s;
     s_clock := s_clock s; s_events := s_events s |}.
Definition s_with_scs (s : Store) m : Store :=
  {| s_objs := s_objs s; s_scs := m; s_namespaces := s_namespaces s; s_layers := s_layers s;
     s_referrers := s_referrers s;
     s_clock := s_clock s; s_events := s_events s |}.
Definition put {k} (s : Store) (o : Object k) : Store :=
  s_with_objs s (upd_kind k (<[key_of o := o]> (s_objs s k)) (s_objs s)).
Definition remove {k} (s : Store) (key : string * string) : Store :=
  s_with_objs s (upd_kind k (delete key (s_objs s k)) (s_objs s)).
Definition put_sc (s : Store) (sc : SecurityConfig) : Store :=
  s_with_scs s (<[(sc_Namespace sc, sc_Name sc) := sc]> (s_scs s)).

(** An object is stored under its own key. *)
Definition lookup_obj (s : Store) (k : Kind) (key : string * string) : option (Object k) :=
  o ← s_objs s k !! key; if decide (key_of o = key) then Some o else None.

Definition not_found : error := StatusError "NotFound" "not found".

Definition store_perform (op : Op) (s : Store) : resp op * Store :=
  match op return resp op * Store with
  | OpGet k key => (match lookup_obj s k key with
                    | Some o => Ok o
                    | None => Err not_found
                    end, s)
  | OpCreate k o =>
      match lookup_obj s k (key_of o) with
      | Some _ => (Err (StatusError "AlreadyExists" "already exists"), s)
      | None => let o' := MkObject (kind_name k) (o_Meta o) (o_Body o) in (Ok o', put s o')
      end
  | OpPatch k _ o =>
      match lookup_obj s k (key_of o) with
      | Some _ => let o' := MkObject (kind_name k) (o_Meta o) (o_Body o) in (Ok o', put s o')
      | None => (Err not_found, s)
      end
  | OpDelete k o =>
      match lookup_obj s k (key_of o) with
      | Some _ => (Ok tt, remove (k := k) s (key_of o))
      | None => (Err not_found, s)
      end
  | OpUpdate k o =>
      match lookup_obj s k (key_of o) with
      | Some _ => let o' := MkObject (kind_name k) (o_Meta o) (o_Body o) in (Ok o', put s o')
      | None => (Err not_found, s)
      end
  | OpUpdateObjectStatus k o =>
      match lookup_obj s k (key_of o) with
      | Some old =>
          let o' := MkObject (kind_name k) (o_Meta old) (body_with_status (o_Body old) (o_Body o)) in
          (Ok o', put s o')
      | None => (Err not_found, s)
      end
  | OpListNamespaces sel =>
      (Ok (List.filter (λ n, Matches sel (entries (m_Labels (o_Meta n)))) (s_namespaces s)), s)
  | OpGetSecurityConfig key => (match s_scs s !! key with
                                | Some sc => Ok sc
                                | None => Err not_found
                                end, s)
  | OpListSecurityConfigs ns =>
      (Ok (List.filter (λ sc, bool_decide (sc_Namespace sc = ns)) (snd <$> map_to_list (s_scs s))), s)
  | OpPatchSecurityConfig _ sc =>
      match s_scs s !! (sc_Namespace sc, sc_Name sc) with
      | Some old => let sc' := sc_with_status sc (sc_Status old) in (Ok sc', put_sc s sc')
      | None => (Err not_found, s)
      end
  | OpUpdateStatus sc =>
      match s_scs s !! (sc_Namespace sc, sc_Name sc) with
      | Some old => (Ok tt, put_sc s (sc_with_status old (sc_Status sc)))
      | None => (Err not_found, s)
      end
  | OpNow => (s_clock s, {| s_objs := s_objs s; s_scs := s_scs s;
                            s_namespaces := s_namespaces s; s_layers := s_layers s;
                            s_referrers := s_referrers s;
                            s_clock := s_clock s + 1; s_events := s_events s |})
  | OpEvent t r n => (tt, {| s_objs := s_objs s; s_scs := s_scs s;
                             s_namespaces := s_namespaces s; s_layers := s_layers s;
                             s_referrers := s_referrers s;
                             s_clock := s_clock s; s_events := (t, r, n) :: s_events s |})
  | OpResolveOci ref => (Ok {| oci_Registry := "r"; oci_Repository := ref; oci_Digest := ref |}, s)
  | OpFetchOpaBundleLayer r => (match s_layers s !! oci_Digest r with
                                | Some l => Ok l
                                | None => Err (ErrorString "no such layer")
                                end, s)
  | OpListReferrers r _ => (Ok (s_referrers s), s)
  | OpValidateSigstoreBundles _ [] _ => (Err (ErrorString "no such bundle"), s)
  | OpValidateSigstoreBundles _ _ _ => (Ok tt, s)
  end.

#[export] Instance StoreServer : Server Store :=
  {| perform := store_perform; find := lookup_obj |}.

(** ** Laws *)

Lemma ref_set_controller_spec owner m m' :
  ref_set_controller owner m = Ok m' →
  ref_controlled m' owner = true ∧ m_Name m' = m_Name m ∧ m_Namespace m' = m_Namespace m ∧
  m_Labels m' = m_Labels m ∧ m_Annotations m' = m_Annotations m.
Proof.
  unfold ref_set_controller. destruct (controller_of m) as [r|] eqn:Hr.
  - case_bool_decide as Hu; intros; simplify_eq. split_and!; try done.
    unfold ref_controlled. rewrite Hr. by apply bool_decide_eq_true.
  - intros [= <-]. split_and!; try done. unfold ref_controlled, controller_of. simpl.
    by rewrite !bool_decide_true.
Qed.

Lemma has_reason_excl e : has_reason "NotFound" e = true → has_reason "Conflict" e = false.
Proof. induction e; simpl; auto. by intros ->%bool_decide_eq_true. Qed.

#[export] Instance RefLibLaws : LibLaws.
Proof.
  split; simpl.
  - apply has_reason_excl.
  - intros m owner Hm. unfold ref_controlled, controller_of. by rewrite Hm.
  - intros m m' owner Hm. unfold ref_controlled, controller_of. by rewrite Hm.
  - apply ref_set_controller_spec.
  - intros A HA a b. apply bool_decide_eq_true.
  - intros A HA a b. apply bool_decide_eq_true.
  - intros fn. exists 3%nat. reflexivity.
Qed.

Lemma upd_kind_eq k m f : upd_kind k m f k = m.
Proof.
  unfold upd_kind. destruct (decide (k = k)) as [e|]; [|done].
  by rewrite (proof_irrel e eq_refl).
Qed.

Lemma upd_kind_ne k m f k' : k ≠ k' → upd_kind k m f k' = f k'.
Proof. intros Hne. unfold upd_kind. by destruct (decide (k = k')) as [e|]. Qed.

Lemma lookup_put {k} s (o : Object k) : lookup_obj (put s o) k (key_of o) = Some o.
Proof.
  unfold lookup_obj, put. simpl. rewrite upd_kind_eq, lookup_insert_eq. simpl.
  by rewrite decide_True.
Qed.

Lemma lookup_put_ne {k} s (o : Object k) k2 key2 :
  (k2, key2) ≠ (k, key_of o) → lookup_obj (put s o) k2 key2 = lookup_obj s k2 key2.
Proof.
  intros Hne. unfold lookup_obj, put. simpl. destruct (decide (k = k2)) as [<-|Hk].
  - rewrite upd_kind_eq, lookup_insert_ne; [done|]. congruence.
  - by rewrite upd_kind_ne.
Qed.

Lemma lookup_remove k s key : lookup_obj (remove (k := k) s key) k key = None.
Proof. unfold lookup_obj, remove. simpl. by rewrite upd_kind_eq, lookup_delete_eq. Qed.

Lemma lookup_remove_ne k s key k2 key2 :
  (k2, key2) ≠ (k, key) → lookup_obj (remove (k := k) s key) k2 key2 = lookup_obj s k2 key2.
Proof.
  intros Hne. unfold lookup_obj, remove. simpl. destruct (decide (k = k2)) as [<-|Hk].
  - rewrite upd_kind_eq, lookup_delete_ne; [done|]. congruence.
  - by rewrite upd_kind_ne.
Qed.

Lemma lookup_obj_key s k key o : lookup_obj s k key = Some o → key_of o = key.
Proof.
  unfold lookup_obj. intros (o' & _ & Ho)%bind_Some. by case_decide; simplify_eq.
Qed.

#[export] Instance StoreServerLaws : ServerLaws Store.
Proof.
  split; simpl.
  - intros w k key r w'. destruct (lookup_obj w k key) eqn:Hl; intros [= <- <-]; [|done].
    eauto using lookup_obj_key.
  - intros w k o r w'. destruct (lookup_obj w k (key_of o)) eqn:Hl; intros [= <- <-] _; [done|].
    set (o' := MkObject (kind_name k) (o_Meta o) (o_Body o)).
    change (key_of o) with (key_of o').
    split_and!; auto using lookup_put, lookup_put_ne. by split_and!.
  - intros w k b o r w' Hp Hf _. rewrite Hf in Hp. revert Hp. intros [= <- <-].
    set (o' := MkObject (kind_name k) (o_Meta o) (o_Body o)).
    change (key_of o) with (key_of o').
    split_and!; auto using lookup_put, lookup_put_ne. by split_and!.
  - intros w k o r w'. destruct (lookup_obj w k (key_of o)) eqn:Hl; intros [= <- <-]; [|done].
    split; [left; apply lookup_remove|auto using lookup_remove_ne].
  - by intros w t re n r w' [= <- <-].
Qed.

#[export] Instance StoreUpdateLaws : ObjectUpdateLaws Store.
Proof.
  split; simpl.
  - intros w o r w'. destruct (lookup_obj w KSecret (key_of o)); intros [= <- <-] _; [|done].
    set (o' := MkObject (kind_name KSecret) (o_Meta o) (o_Body o)).
    change (key_of o) with (key_of o').
    split_and!; auto using lookup_put, lookup_put_ne. by split_and!.
  - intros w k o r w'. destruct (lookup_obj w k (key_of o)) as [old|] eqn:Hl;
      intros [= <- <-]; [|done].
    pose proof (lookup_obj_key _ _ _ _ Hl) as Hk. exists old.
    set (o' := MkObject (kind_name k) (o_Meta old) (body_with_status (o_Body old) (o_Body o))).
    change (key_of old) with (key_of o') in Hk. rewrite <-Hk.
    split_and!; auto using lookup_put, lookup_put_ne.
Qed.
