(* ===== verification/Config.v ===== *)
(** * The configuration of the controller: [pkg/config/config.go]

    The package variables that [Load] sets and the rest of the program reads are
    one class, [Globals]; [Get()] is [appCfg]. *)
From stdpp Require Import base gmap strings list.
From Stdlib Require Import ZArith.
From S2P Require Import Prelude GoStrings Kube Api Model Cluster.
Open Scope go_scope.

Record Config := {
  cfg_RunsInProduction : option bool;
  cfg_ClusterName : string;
  cfg_TokenxEnabled : bool;
  cfg_TokenxName : string;
  cfg_TokenxNamespace : string;
  cfg_TexasImageName : string;
  cfg_TexasImageTag : string;
  cfg_TexasImageSha : string;
  cfg_TexasPort : Z;
  cfg_TexasProbePort : Z;
  cfg_TexasUrlEnvVarName : string;
  cfg_TexasCPURequest : string;
  cfg_TexasCPULimit : string;
  cfg_TexasMemoryRequest : string;
  cfg_TexasMemoryLimit : string;
  cfg_EntraTenantId : string;
  cfg_OpaEnabled : bool;
  cfg_OpaImageName : string;
  cfg_OpaImageTag : string;
  cfg_OpaImageSha : string;
  cfg_OpaPort : Z;
  cfg_OpaGrpcPort : Z;
  cfg_OpaUrlEnvVarName : string;
  cfg_OpaAllowedBundleRegistryUrlPrefixes : list string;
  cfg_OpaAllowedBundleSignatureSourceOrgs : list string;
  cfg_OpaSelfAuthorizationBundle : option OpaBundle;
  cfg_OpaCPURequest : string;
  cfg_OpaCPULimit : string;
  cfg_OpaMemoryRequest : string;
  cfg_OpaMemoryLimit : string;
  cfg_SigstoreTufCachePath : string;
}.

Class Globals : Type := {
  appCfg : Config;
  OpaSelfAuthorizationBundleBinaryData : gomap string;
}.

(** [config.Get()]. *)
Definition Get `{Globals} : Config := appCfg.

Section Resources.
Context `{Globals} `{Lib}.

Definition resource_requirements (cpuReq memReq cpuLim memLim : string) :
    outcome ResourceRequirements :=
  let? rc := MustParse cpuReq in
  let? rm := MustParse memReq in
  let? lc := MustParse cpuLim in
  let? lm := MustParse memLim in
  Ok {| rr_Requests := <["cpu" := rc]> (<["memory" := rm]> ∅);
        rr_Limits := <["cpu" := lc]> (<["memory" := lm]> ∅) |}.

Definition TexasResources : outcome ResourceRequirements :=
  resource_requirements (cfg_TexasCPURequest appCfg) (cfg_TexasMemoryRequest appCfg)
    (cfg_TexasCPULimit appCfg) (cfg_TexasMemoryLimit appCfg).

Definition OpaResources : outcome ResourceRequirements :=
  resource_requirements (cfg_OpaCPURequest appCfg) (cfg_OpaMemoryRequest appCfg)
    (cfg_OpaCPULimit appCfg) (cfg_OpaMemoryLimit appCfg).
End Resources.
