(* ===== verification/Naming.v ===== *)
(** * Names of the generated resources

    The namers of [pkg/utilities/helper_functions.go] and the suffixes of
    [pkg/utilities/constants.go].  A name is built from the SecurityConfig's
    name or from the name of the application it refers to; most names end in
    eight hexadecimal digits of an FNV-1a hash of the rest.  The theorems: the
    hash suffix loses nothing (it has a fixed width), and names of different
    providers never meet. *)
From stdpp Require Import base gmap strings list.
From Stdlib Require Import ZArith Lia Ascii.
From S2P Require Import Prelude GoStrings Kube Api.

Definition EgressNameSuffix : string := "egress".
Definition JwkerSecretNameSuffix : string := "jwker-secret".
Definition MaskinportenNameSuffix : string := "maskinporten".
Definition EntraIdNameSuffix : string := "entraid".
Definition IdPortenNameSuffix : string := "idporten".
Definition AnsattportenNameSuffix : string := "ansattporten".
Definition OpaNameSuffix : string := "opa".

Record nameBase := {
  applicationRef : string;
  securityConfigName : string;
}.

Definition newNameBase (sc : SecurityConfig) : nameBase :=
  {| applicationRef := spec_ApplicationRef (sc_Spec sc);
     securityConfigName := sc_Name sc |}.

(** The first eight hexadecimal characters of the FNV-32a hash of [s]. *)
Definition ShortHash (s : string) : string := hex08 (fnv32a s).

Definition WithShortHashSuffix (s : string) : string := s +:+ "-" +:+ ShortHash s.

(** [fmt.Sprintf("%s-%s", base, suffix)]. *)
Definition dashed (base suffix : string) : string := base +:+ "-" +:+ suffix.

Module TokenxNamer.
Definition JwkerName (n : nameBase) : string := applicationRef n.
Definition SecretName (n : nameBase) : string :=
  dashed (applicationRef n) JwkerSecretNameSuffix.
Definition EgressName (n : nameBase) (tokenxName : string) : string :=
  dashed (dashed (securityConfigName n) tokenxName) EgressNameSuffix.
End TokenxNamer.

Module MaskinportenNamer.
Definition MaskinportenClientName (n : nameBase) : string := applicationRef n.
Definition SecretName (n : nameBase) : string :=
  WithShortHashSuffix (dashed (applicationRef n) MaskinportenNameSuffix).
Definition SecretFromRefName (n : nameBase) : string :=
  WithShortHashSuffix (dashed (securityConfigName n) MaskinportenNameSuffix).
Definition ServiceEntryName (n : nameBase) : string :=
  WithShortHashSuffix (dashed (securityConfigName n) MaskinportenNameSuffix).
End MaskinportenNamer.

Module EntraIdNamer.
Definition AzureAdApplicationName (n : nameBase) : string := applicationRef n.
Definition SecretName (n : nameBase) : string :=
  WithShortHashSuffix (dashed (applicationRef n) EntraIdNameSuffix).
Definition SecretFromRefName (n : nameBase) : string :=
  WithShortHashSuffix (dashed (securityConfigName n) EntraIdNameSuffix).
Definition ServiceEntryName (n : nameBase) : string :=
  WithShortHashSuffix (dashed (securityConfigName n) EntraIdNameSuffix).
End EntraIdNamer.

Module IdPortenNamer.
Definition ServiceEntryName (n : nameBase) : string :=
  WithShortHashSuffix (dashed (securityConfigName n) IdPortenNameSuffix).
End IdPortenNamer.

Module AnsattportenNamer.
Definition ServiceEntryName (n : nameBase) : string :=
  WithShortHashSuffix (dashed (securityConfigName n) AnsattportenNameSuffix).
End AnsattportenNamer.

Module OpaNamer.
Definition ConfigMapName (n : nameBase) : string :=
  WithShortHashSuffix (dashed (securityConfigName n) OpaNameSuffix).
Definition EnvoyFilterName (n : nameBase) : string :=
  WithShortHashSuffix (dashed (securityConfigName n) OpaNameSuffix).
End OpaNamer.

(** The providers with a ServiceEntry, and its name for each. *)
Inductive Provider := Maskinporten | EntraId | IdPorten | Ansattporten.

Definition ServiceEntryName (p : Provider) (n : nameBase) : string :=
  match p with
  | Maskinporten => MaskinportenNamer.ServiceEntryName n
  | EntraId => EntraIdNamer.ServiceEntryName n
  | IdPorten => IdPortenNamer.ServiceEntryName n
  | Ansattporten => AnsattportenNamer.ServiceEntryName n
  end.

(** ** Theorems *)

Lemma ShortHash_length s : String.length (ShortHash s) = 8%nat.
Proof. unfold ShortHash, hex08. by rewrite hex_digits_length. Qed.

(** The hash suffix is injective: it has the same width for every string. *)
Lemma WithShortHashSuffix_inj s t : WithShortHashSuffix s = WithShortHashSuffix t → s = t.
Proof.
  unfold WithShortHashSuffix. intros Heq.
  apply string_app_eq_length_r in Heq as [Heq _]; [done|].
  by rewrite !string_length_app, !ShortHash_length.
Qed.

#[global] Instance WithShortHashSuffix_Inj : Inj (=) (=) WithShortHashSuffix.
Proof. exact WithShortHashSuffix_inj. Qed.

(** The last [n] bytes of a string, reversed: enough to tell suffixes apart. *)
Definition tail_bytes (n : nat) (s : string) : string :=
  String.substring 0 n (rev_string s).

(** The name of a client object is the application's own name; every other name is
    a base, a dash and the suffix of the provider. *)
Lemma dashed_inj_l a b s : dashed a s = dashed b s → a = b.
Proof. unfold dashed. apply string_app_cancel_r. Qed.

Lemma dashed_inj_r a s t : dashed a s = dashed a t → s = t.
Proof. unfold dashed. intros H%string_app_cancel_l. exact (string_app_cancel_l "-" s t H). Qed.

Lemma rev_dashed a s : rev_string (dashed a s) = rev_string ("-" +:+ s) +:+ rev_string a.
Proof. unfold dashed. apply rev_string_app. Qed.

Lemma HasPrefix_app_long s t p :
  HasPrefix (s +:+ t) p = true → (String.length p ≤ String.length s)%nat → HasPrefix s p = true.
Proof.
  revert s. induction p as [|c p IH]; intros [|d s] Hp Hl; simpl in *; try done; [lia|].
  change (HasPrefix (String d (s +:+ t)) (String c p) = true) in Hp. simpl in Hp.
  apply andb_prop in Hp as [-> Hp]. apply IH; [done|lia].
Qed.

(** Two suffixes that differ in a common length at their end make different
    names, whatever the bases. *)
Lemma dashed_suffix_ne a b s t n :
  let r := rev_string ("-" +:+ s) in
  let p := String.substring 0 n (rev_string ("-" +:+ t)) in
  HasPrefix (rev_string ("-" +:+ t)) p = true →
  (String.length p ≤ String.length r)%nat → HasPrefix r p = false →
  dashed a s ≠ dashed b t.
Proof.
  intros r p Ht Hl Hr Heq. apply (f_equal rev_string) in Heq. rewrite !rev_dashed in Heq.
  assert (HasPrefix (r +:+ rev_string a) p = true) as Hp.
  { unfold r. rewrite Heq. apply HasPrefix_spec in Ht as [u ->].
    rewrite string_app_assoc. apply HasPrefix_app. }
  apply HasPrefix_app_long in Hp; congruence.
Qed.

Definition provider_suffix (p : Provider) : string :=
  match p with
  | Maskinporten => MaskinportenNameSuffix
  | EntraId => EntraIdNameSuffix
  | IdPorten => IdPortenNameSuffix
  | Ansattporten => AnsattportenNameSuffix
  end.

Lemma ServiceEntryName_suffix p n :
  ServiceEntryName p n = WithShortHashSuffix (dashed (securityConfigName n) (provider_suffix p)).
Proof. by destruct p. Qed.

Lemma provider_dashed_inj p q a b :
  dashed a (provider_suffix p) = dashed b (provider_suffix q) → p = q ∧ a = b.
Proof.
  destruct p, q; intros Heq;
    try (split; [reflexivity | exact (dashed_inj_l _ _ _ Heq)]);
    exfalso; revert Heq; apply (dashed_suffix_ne _ _ _ _ 8);
    (reflexivity || (vm_compute; lia)).
Qed.

(** C28: the names of the ServiceEntries are all different: two of them are equal
    only for the same provider and the same SecurityConfig name. *)
Theorem ServiceEntryName_inj p q n m :
  ServiceEntryName p n = ServiceEntryName q m →
  p = q ∧ securityConfigName n = securityConfigName m.
Proof.
  rewrite !ServiceEntryName_suffix. intros H%WithShortHashSuffix_inj.
  by apply provider_dashed_inj.
Qed.

Lemma ServiceEntryName_inj_witness :
  let n := {| applicationRef := "app"; securityConfigName := "cfg" |} in
  Maskinporten = Maskinporten ∧ securityConfigName n = "cfg".
Proof.
  intros n. apply (ServiceEntryName_inj Maskinporten Maskinporten n n). reflexivity.
Defined.
