(* ===== verification/State.v ===== *)
(** * The scope of a reconciliation: [internal/state/securityconfig_state.go]

    A [Scope] carries the resolved configuration of one SecurityConfig and the
    list of its descendants, one entry per generated resource that was handled.
    The code mutates the scope through a pointer; here a function that changes it
    returns the new one (see [Reconciliation]). *)
From stdpp Require Import base gmap strings list.
From Stdlib Require Import ZArith.
From S2P Require Import Prelude Kube Api Cluster.

(** [ConfigType] is an [int] with four named values. *)
Inductive ConfigType :=
| CfgInlineClient | CfgClientRef | CfgSecretRef | CfgNone
| CfgOther (n : Z).
#[global] Instance ConfigType_eq_dec : EqDecision ConfigType.
Proof. solve_decision. Defined.

(** The number [%d] prints. *)
Definition ConfigType_int (t : ConfigType) : Z :=
  match t with
  | CfgInlineClient => 0 | CfgClientRef => 1 | CfgSecretRef => 2 | CfgNone => 3
  | CfgOther n => n
  end.

Record TokenXConfig := {
  txc_Enabled : bool;
  txc_ApplicationRef : string;
  txc_JwkerSpec : JwkerSpec;
}.

Record MaskinportenConfig := {
  mpc_Enabled : bool;
  mpc_Type : ConfigType;
  mpc_ClientSpec : option NaisMaskinportenClientSpec;
  mpc_ClientRef : option ResourceRef;
  mpc_SecretData : option (gmap string string);
}.

Record EntraIdConfig := {
  eic_Enabled : bool;
  eic_Type : ConfigType;
  eic_ClientSpec : option NaisAzureAdApplicationSpec;
  eic_ClientRef : option ResourceRef;
  eic_SecretData : option (gmap string string);
}.

Record IdPortenConfig := { ipc_Enabled : bool; ipc_Audience : string }.

Record AnsattportenConfig := { anc_Enabled : bool; anc_Audience : string }.

(** A [*structpb.Struct] is the JSON value it holds. *)
Record RequestPolicyConfig := {
  rpc_Enabled : bool;
  rpc_WorkloadLabels : gmap string string;
  rpc_ClusterConfigPatchValue : option AnyVal;
  rpc_ExternalAuthorizationConfigPatchValue : option AnyVal;
}.

Record OpaConfig := {
  opc_Enabled : bool;
  opc_BundleBinaryData : gomap string;
  opc_RequestPolicy : RequestPolicyConfig;
}.

Record Descendant := {
  d_ID : string;
  d_Object : AnyObject;
  d_ErrorMessage : option string;
  d_SuccessMessage : option string;
}.

Record Scope := {
  sp_SecurityConfig : SecurityConfig;
  sp_TokenXConfig : TokenXConfig;
  sp_MaskinportenConfig : MaskinportenConfig;
  sp_EntraIdConfig : EntraIdConfig;
  sp_IdPortenConfig : IdPortenConfig;
  sp_AnsattportenConfig : AnsattportenConfig;
  sp_OpaConfig : OpaConfig;
  sp_Descendants : list Descendant;
  sp_InvalidConfig : bool;
  sp_ValidationErrorMessage : option string;
}.

(** ** Assignments to a field of the scope *)

Definition sp_with_descendants (s : Scope) (ds : list Descendant) : Scope :=
  {| sp_SecurityConfig := sp_SecurityConfig s; sp_TokenXConfig := sp_TokenXConfig s;
     sp_MaskinportenConfig := sp_MaskinportenConfig s;
     sp_EntraIdConfig := sp_EntraIdConfig s; sp_IdPortenConfig := sp_IdPortenConfig s;
     sp_AnsattportenConfig := sp_AnsattportenConfig s; sp_OpaConfig := sp_OpaConfig s;
     sp_Descendants := ds; sp_InvalidConfig := sp_InvalidConfig s;
     sp_ValidationErrorMessage := sp_ValidationErrorMessage s |}.

Definition sp_with_sc (s : Scope) (sc : SecurityConfig) : Scope :=
  {| sp_SecurityConfig := sc; sp_TokenXConfig := sp_TokenXConfig s;
     sp_MaskinportenConfig := sp_MaskinportenConfig s;
     sp_EntraIdConfig := sp_EntraIdConfig s; sp_IdPortenConfig := sp_IdPortenConfig s;
     sp_AnsattportenConfig := sp_AnsattportenConfig s; sp_OpaConfig := sp_OpaConfig s;
     sp_Descendants := sp_Descendants s; sp_InvalidConfig := sp_InvalidConfig s;
     sp_ValidationErrorMessage := sp_ValidationErrorMessage s |}.

(** [scope.SecurityConfig.Status = ...]. *)
Definition sp_with_status (s : Scope) (st : SecurityConfigStatus) : Scope :=
  sp_with_sc s (sc_with_status (sp_SecurityConfig s) st).

(** ** Methods *)

(** The error messages of the descendants; a nil scope has none. *)
Definition GetErrors (s : option Scope) : list string :=
  match s with
  | Some s => omap d_ErrorMessage (sp_Descendants s)
  | None => []
  end.

Definition GetID (resourceKind resourceName : string) : string :=
  resourceKind +:+ "-" +:+ resourceName.

(** The loop of [ReplaceDescendant]: the first descendant with the ID of [d]
    becomes [d]; without one, [d] is appended. *)
Fixpoint replace_in (d : Descendant) (ds : list Descendant) : list Descendant :=
  match ds with
  | [] => [d]
  | x :: ds' => if bool_decide (d_ID x = d_ID d) then d :: ds' else x :: replace_in d ds'
  end.

(** [scope.ReplaceDescendant] on a scope that is not nil (the callers read
    the scope's SecurityConfig before). *)
Definition ReplaceDescendant (s : Scope) (obj : AnyObject)
    (errorMessage successMessage : option string) (resourceKind resourceName : string) : Scope :=
  sp_with_descendants s
    (replace_in {| d_ID := GetID resourceKind resourceName; d_Object := obj;
                   d_ErrorMessage := errorMessage; d_SuccessMessage := successMessage |}
       (sp_Descendants s)).

Definition IsMisconfigured (s : Scope) : bool := sp_InvalidConfig s.

(** What [ReplaceDescendant] leaves alone. *)
Definition same_but_descendants (s s' : Scope) : Prop :=
  sp_with_descendants s [] = sp_with_descendants s' [].

(** The descendant with an ID, if there is one. *)
Definition find_descendant (s : Scope) (id : string) : option Descendant :=
  List.find (λ d, bool_decide (d_ID d = id)) (sp_Descendants s).

(** ** Theorems *)

Lemma replace_in_ids d ds :
  d_ID <$> replace_in d ds =
  if bool_decide (d_ID d ∈ d_ID <$> ds) then d_ID <$> ds else (d_ID <$> ds) ++ [d_ID d].
Proof.
  induction ds as [|x ds IH]; [done|]. simpl replace_in.
  rewrite fmap_cons. destruct (decide (d_ID x = d_ID d)) as [Hx|Hx].
  - rewrite (bool_decide_true (d_ID x = d_ID d)) by done.
    rewrite bool_decide_true by (rewrite Hx; by left). by rewrite fmap_cons, Hx.
  - rewrite (bool_decide_false (d_ID x = d_ID d)) by done. rewrite fmap_cons, IH.
    destruct (decide (d_ID d ∈ d_ID <$> ds)) as [Hin|Hin].
    + rewrite !bool_decide_true; [done|by right|done].
    + rewrite !bool_decide_false; [done| |done]. by intros [?|?]%elem_of_cons.
Qed.

Lemma replace_in_NoDup d ds : NoDup (d_ID <$> ds) → NoDup (d_ID <$> replace_in d ds).
Proof.
  intros Hnd. rewrite replace_in_ids. case_bool_decide as Hin; [done|].
  apply NoDup_app. split_and!; [done| |apply NoDup_singleton].
  intros x Hx ->%list_elem_of_singleton. done.
Qed.

Lemma replace_in_length d ds :
  length (replace_in d ds) =
  if bool_decide (d_ID d ∈ d_ID <$> ds) then length ds else S (length ds).
Proof.
  rewrite <-(length_fmap d_ID), replace_in_ids. case_bool_decide.
  - by rewrite length_fmap.
  - rewrite length_app, length_fmap. simpl. lia.
Qed.

Lemma replace_in_elem d ds x :
  NoDup (d_ID <$> ds) → x ∈ replace_in d ds ↔ x = d ∨ (x ∈ ds ∧ d_ID x ≠ d_ID d).
Proof.
  induction ds as [|y ds IH]; simpl.
  - intros _. rewrite list_elem_of_singleton. set_solver.
  - intros [Hny Hnd]%NoDup_cons. case_bool_decide as Hy.
    + rewrite !elem_of_cons. split.
      * intros [->|Hx]; [by left|]. right. split; [by right|]. intros Heq.
        apply Hny. rewrite Hy, <-Heq. by apply list_elem_of_fmap_2.
      * intros [->|[[->|Hx] Hne]]; [by left|done|by right].
    + rewrite !elem_of_cons, IH by done. split.
      * intros [->|[->|[Hx Hne]]]; [right; by split; [left|]|by left|right; by split; [right|]].
      * intros [->|[[->|Hx] Hne]]; [by right; left|by left|right; right; done].
Qed.

Lemma find_descendant_elem s id d :
  NoDup (d_ID <$> sp_Descendants s) →
  find_descendant s id = Some d ↔ d ∈ sp_Descendants s ∧ d_ID d = id.
Proof.
  unfold find_descendant. induction (sp_Descendants s) as [|x ds IH]; simpl; intros Hnd.
  - split; [done|]. intros [[]%not_elem_of_nil _].
  - apply NoDup_cons in Hnd as [Hx Hnd]. case_bool_decide as Hid.
    + split; [intros [= ->]; by split; [left|]|]. intros [[->|Hd]%elem_of_cons <-]; [done|].
      destruct Hx. rewrite Hid. by apply list_elem_of_fmap_2.
    + rewrite IH by done. rewrite elem_of_cons. naive_solver.
Qed.

Lemma same_but_descendants_sc s s' :
  same_but_descendants s s' → sp_SecurityConfig s = sp_SecurityConfig s'.
Proof. intros H. exact (f_equal sp_SecurityConfig H). Qed.

#[global] Instance same_but_descendants_equiv : Equivalence same_but_descendants.
Proof. unfold same_but_descendants. split; red; congruence. Qed.

Lemma ReplaceDescendant_same s obj e m k n :
  same_but_descendants s (ReplaceDescendant s obj e m k n).
Proof. done. Qed.
#[export] Hint Resolve ReplaceDescendant_same : go.

Lemma ReplaceDescendant_NoDup s obj e m k n :
  NoDup (d_ID <$> sp_Descendants s) →
  NoDup (d_ID <$> sp_Descendants (ReplaceDescendant s obj e m k n)).
Proof. apply replace_in_NoDup. Qed.
#[export] Hint Resolve ReplaceDescendant_NoDup : go.

Lemma replace_in_absent d ds : d_ID d ∉ d_ID <$> ds → replace_in d ds = ds ++ [d].
Proof.
  induction ds as [|x ds IH]; simpl; [done|]. rewrite not_elem_of_cons. intros [Hx Hds].
  rewrite bool_decide_false by done. by rewrite IH.
Qed.

Lemma replace_in_present d before old after :
  d_ID old = d_ID d → d_ID d ∉ d_ID <$> before →
  replace_in d (before ++ old :: after) = before ++ d :: after.
Proof.
  intros Hold. induction before as [|x before IH]; simpl.
  - by rewrite bool_decide_true.
  - rewrite not_elem_of_cons. intros [Hx Hb]. rewrite bool_decide_false by done. by rewrite IH.
Qed.

(** C27: [ReplaceDescendant] changes only the list of descendants.  Without a descendant
    of the resource's ID the new one is appended; with one, the first of them is replaced
    at its place and all others stay where they are.  In a list without duplicate IDs there
    is then exactly one descendant with the ID, the new one, every other ID finds what it
    found before, and there are still no duplicates. *)
Theorem ReplaceDescendant_spec s obj e m kind name :
  let s' := ReplaceDescendant s obj e m kind name in
  let id := GetID kind name in
  let d := {| d_ID := id; d_Object := obj; d_ErrorMessage := e; d_SuccessMessage := m |} in
  same_but_descendants s s' ∧
  (id ∉ d_ID <$> sp_Descendants s → sp_Descendants s' = sp_Descendants s ++ [d]) ∧
  (∀ before old after, sp_Descendants s = before ++ old :: after → d_ID old = id →
     id ∉ d_ID <$> before → sp_Descendants s' = before ++ d :: after) ∧
  (NoDup (d_ID <$> sp_Descendants s) →
     NoDup (d_ID <$> sp_Descendants s') ∧ find_descendant s' id = Some d ∧
     ∀ id', id' ≠ id → find_descendant s' id' = find_descendant s id').
Proof.
  intros s' id d. split_and!; [done| | |].
  - intros Hid. by apply replace_in_absent.
  - intros before old after Hds Hold Hb. unfold s', ReplaceDescendant. simpl. rewrite Hds.
    by apply (replace_in_present d).
  - intros Hnd. assert (Hnd' := ReplaceDescendant_NoDup s obj e m kind name Hnd).
    split_and!; [done| |].
    + apply find_descendant_elem; [done|]. split; [|done].
      apply replace_in_elem; [done|]. by left.
    + intros id' Hne. apply option_eq. intros d'. rewrite !find_descendant_elem by done.
      unfold s', ReplaceDescendant. simpl. rewrite replace_in_elem by done.
      split; [intros [[->|[? ?]] ?]; [by destruct Hne|done] | intros [? <-]; naive_solver].
Qed.
