(* ===== verification/Utilities.v ===== *)
(** * Shared helpers: [pkg/utilities]

    The constants of [constants.go], the getters and the probe comparison of
    [helper_functions.go], [DetermineConfigType] of [config_type.go] and the Envoy
    configurations of [envoy.go]. *)
From stdpp Require Import base gmap strings list.
From Stdlib Require Import ZArith Lia.
From S2P Require Import Prelude GoStrings Kube Api Cluster ProgTheory Model State.
Open Scope go_scope.

(** ** Constants *)

Definition SkiperatorApplicationRefLabel : string := "application.skiperator.no/app-name".
Definition MaskinportenClientSynchronizationStateReady : string := "Synchronized".
Definition AzureAdApplicationSynchronizationStateReady : string := "Synchronized".
Definition JwkerSynchronizationStateReady : string := "RolloutComplete".

Definition MaskinportenProdHost : string := "maskinporten.no".
Definition MaskinportenProdIssuer : string := "https://maskinporten.no/".
Definition MaskinportenProdTokenEndpoint : string := "https://maskinporten.no/token".
Definition MaskinportenProdJwksUri : string := "https://maskinporten.no/jwk".
Definition MaskinportenTestHost : string := "test.maskinporten.no".
Definition MaskinportenTestIssuer : string := "https://test.maskinporten.no/".
Definition MaskinportenTestTokenEndpoint : string := "https://test.maskinporten.no/token".
Definition MaskinportenTestJwksUri : string := "https://test.maskinporten.no/jwk".

Definition EntraIdHost : string := "login.microsoftonline.com".
Definition IdPortenProdHost : string := "idporten.no".
Definition IdPortenProdWellKnownURL : string :=
  "https://idporten.no/.well-known/openid-configuration".
Definition IdPortenTestHost : string := "test.idporten.no".
Definition IdPortenTestWellKnownURL : string :=
  "https://test.idporten.no/.well-known/openid-configuration".
Definition AnsattportenProdHost : string := "ansattporten.no".
Definition AnsattportenProdWellKnownURL : string :=
  "https://ansattporten.no/.well-known/openid-configuration".
Definition AnsattportenTestHost : string := "test.ansattporten.no".
Definition AnsattportenTestWellKnownURL : string :=
  "https://test.ansattporten.no/.well-known/openid-configuration".
Definition IstioProbeRewritePort : Z := 15020.

Definition EntraIdIssuer (tenantId : string) : string :=
  "https://login.microsoftonline.com/" +:+ tenantId +:+ "/v2.0".
Definition EntraIdTokenEndpoint (tenantId : string) : string :=
  "https://login.microsoftonline.com/" +:+ tenantId +:+ "/oauth2/v2.0/token".
Definition EntraIdJwksUri (tenantId : string) : string :=
  "https://login.microsoftonline.com/" +:+ tenantId +:+ "/discovery/v2.0/keys".

(** The container that every injected init container starts from. *)
Definition CommonInitContainer : Container :=
  {| ctr_Name := ""; ctr_Image := ""; ctr_Args := []; ctr_Env := []; ctr_EnvFrom := None;
     ctr_Ports := []; ctr_Resources := {| rr_Requests := ∅; rr_Limits := ∅ |};
     ctr_RestartPolicy := Some "Always";
     ctr_SecurityContext :=
       Some {| sctx_AllowPrivilegeEscalation := Some false;
               sctx_Capabilities := Some {| cap_Add := ["NET_BIND_SERVICE"];
                                            cap_Drop := ["ALL"] |};
               sctx_Privileged := Some false; sctx_ReadOnlyRootFilesystem := Some true;
               sctx_RunAsGroup := Some 150; sctx_RunAsNonRoot := Some true;
               sctx_RunAsUser := Some 150; sctx_Other := VNull |};
     ctr_VolumeMounts := []; ctr_ReadinessProbe := None;
     ctr_TerminationMessagePath := "/dev/termination-log";
     ctr_TerminationMessagePolicy := "File"; ctr_Other := VNull |}%Z.

(** ** Results of a reconciliation *)

(** [ctrl.Result]: the delay, and the other fields, which are never set ([VNull]
    when they are zero); [IsZero] tells whether it is the zero value. *)
Record Result := { res_RequeueAfter : Z; res_Other : AnyVal }.
Definition zero_result : Result := {| res_RequeueAfter := 0; res_Other := VNull |}.
Definition IsZero (r : Result) : bool :=
  bool_decide (res_RequeueAfter r = 0%Z) && bool_decide (res_Other r = VNull).

Definition LowestNonZeroResult (i j : Result) : Result :=
  if IsZero i && IsZero j then zero_result
  else if IsZero i then j
  else if IsZero j then i
  else if negb (bool_decide (res_RequeueAfter i = 0%Z)) &&
          negb (bool_decide (res_RequeueAfter j = 0%Z)) then
    if (res_RequeueAfter i <? res_RequeueAfter j)%Z then i else j
  else if negb (bool_decide (res_RequeueAfter i = 0%Z)) then i
  else if negb (bool_decide (res_RequeueAfter j = 0%Z)) then j
  else zero_result.

(** ** Reading objects *)

(** The [GetX] helpers but [GetJwker] put the name before the namespace in
    their message. *)
Definition get_wrapped (k : Kind) (key : ObjectKey) : GoM (Object k) :=
  gom_on_err (wrapf ("failed to get " +:+ kind_name k +:+ " " +:+ key.2 +:+ "/" +:+ key.1 +:+ ": "))
    (call (OpGet k key)).

Definition GetJwker (key : ObjectKey) : GoM (Object KJwker) := call (OpGet KJwker key).
Definition GetSecret (key : ObjectKey) : GoM (Object KSecret) := get_wrapped KSecret key.
Definition GetConfigMap (key : ObjectKey) : GoM (Object KConfigMap) := get_wrapped KConfigMap key.
Definition GetMaskinportenClient (key : ObjectKey) : GoM (Object KMaskinportenClient) :=
  get_wrapped KMaskinportenClient key.
Definition GetAzureAdApplication (key : ObjectKey) : GoM (Object KAzureAdApplication) :=
  get_wrapped KAzureAdApplication key.

Definition GetSecretDataByKey (secretName namespace key : string) : GoM string :=
  let! secret :=
    gom_on_err (wrapf ("failed to fetch secret with name " +:+ namespace +:+ "/" +:+
                       secretName +:+ ": "))
      (GetSecret (namespace, secretName)) in
  match sec_Data (o_Body secret) !! key with
  | Some secretData => Ret (Ok secretData)
  | None => Ret (Err (ErrorString ("key " +:+ key +:+ " not found in secret with name " +:+
                                   namespace +:+ "/" +:+ secretName)))
  end.

(** ** Slices *)

(** The loop of [UniqueSliceElements]; [seen] are the keys of the map that are
    true. *)
Fixpoint unique_loop {T : Type} `{EqDecision T} (seen inputSlice : list T) : list T :=
  match inputSlice with
  | [] => []
  | element :: rest =>
      if bool_decide (element ∈ seen) then unique_loop seen rest
      else element :: unique_loop (element :: seen) rest
  end.

Definition UniqueSliceElements {T : Type} `{EqDecision T} (inputSlice : list T) : list T :=
  unique_loop [] inputSlice.

(** ** The configuration source of a client *)

(** The interface [Config\[T\]]: the three ways to configure a client. *)
Class ConfigSource (C T : Type) := {
  GetClient : C → option T;
  GetClientRef : C → option ResourceRef;
  GetSecretRef : C → option SecretRef;
}.

#[export] Instance MaskinportenSource : ConfigSource MaskinportenSpec MaskinportenClientSpec := {|
  GetClient := MaskinportenSpec_GetClient;
  GetClientRef := MaskinportenSpec_GetClientRef;
  GetSecretRef := MaskinportenSpec_GetSecretRef;
|}.

#[export] Instance EntraIDSource : ConfigSource EntraIDSpec AzureAdApplicationSpec := {|
  GetClient := EntraIDSpec_GetClient;
  GetClientRef := EntraIDSpec_GetClientRef;
  GetSecretRef := EntraIDSpec_GetSecretRef;
|}.

Definition multipleConfigsErr : error :=
  ErrorString "multiple config sources cannot be used at the same time".

Definition DetermineConfigType {C T : Type} `{ConfigSource C T} (config : C) :
    outcome ConfigType :=
  if is_some (GetClient config) then
    if is_some (GetClientRef config) || is_some (GetSecretRef config)
    then Err multipleConfigsErr else Ok CfgInlineClient
  else if is_some (GetClientRef config) then
    if is_some (GetClient config) || is_some (GetSecretRef config)
    then Err multipleConfigsErr else Ok CfgClientRef
  else if is_some (GetSecretRef config) then
    if is_some (GetClient config) || is_some (GetClientRef config)
    then Err multipleConfigsErr else Ok CfgSecretRef
  else Ok CfgNone.

(** ** Probes *)

(** Pointers are compared, not the numbers they point to. *)
Definition same_ptr (p q : option Int64Ptr) : bool :=
  bool_decide (ptr_addr <$> p = ptr_addr <$> q).

(** [expected != 0 && expected != actual]. *)
Definition differs (expected actual : Z) : bool :=
  negb (bool_decide (expected = 0%Z)) && negb (bool_decide (expected = actual)).

Definition AssertContainerProbe (containerName : string) (expected actual : option Probe) : bool :=
  match expected, actual with
  | Some e, Some a =>
      match pr_HTTPGet e, pr_HTTPGet a with
      | Some eg, Some ag =>
          if differs (pr_InitialDelaySeconds e) (pr_InitialDelaySeconds a) ||
             differs (pr_TimeoutSeconds e) (pr_TimeoutSeconds a) ||
             differs (pr_PeriodSeconds e) (pr_PeriodSeconds a) ||
             differs (pr_SuccessThreshold e) (pr_SuccessThreshold a) ||
             differs (pr_FailureThreshold e) (pr_FailureThreshold a) ||
             (is_some (pr_TerminationGracePeriodSeconds e) &&
              negb (same_ptr (pr_TerminationGracePeriodSeconds e)
                             (pr_TerminationGracePeriodSeconds a)))
          then false
          else if bool_decide (hg_Path ag = "/app-health/" +:+ containerName +:+ "/readyz") &&
                  bool_decide (IntVal (hg_Port ag) = IstioProbeRewritePort)
          then true
          else bool_decide (hg_Path eg = hg_Path ag) && bool_decide (hg_Port eg = hg_Port ag)
      | _, _ => false
      end
  | _, _ => false
  end.

(** ** Envoy *)

Definition GetExternalAuthorizationFilterConfig (filterConfig : OpaEnvoyExtAuthzFilterConfig) :
    list (string * AnyVal) :=
  let failureModeAllow :=
    bool_decide (fc_FailureMode filterConfig = OpaRequestPolicyFailureModeForward) in
  let typed_config :=
    [("@type", VStr "type.googleapis.com/envoy.extensions.filters.http.ext_authz.v3.ExtAuthz");
     ("transport_api_version", VStr "V3");
     ("grpc_service",
       VMap [("envoy_grpc", VMap [("cluster_name", VStr (fc_OpaClusterName filterConfig))]);
             ("timeout", VStr "1s")]);
     ("failure_mode_allow", VBool failureModeAllow);
     ("failure_mode_allow_header_add", VBool true)] in
  let with_request_body :=
    if rbc_IncludeRequestBody (fc_RequestBodyConfig filterConfig) then
      [("with_request_body",
         VMap [("max_request_bytes",
                 VNum (rbc_MaxRequestBodyBytes (fc_RequestBodyConfig filterConfig)));
               ("allow_partial_message", VBool false)])]
    else [] in
  [("name", VStr "envoy.filters.http.ext_authz");
   ("typed_config", VMap (typed_config ++ with_request_body))].

Definition GetLocalClusterConfig (clusterName : string) (port : Z) : list (string * AnyVal) :=
  let http_protocol_options := "envoy.extensions.upstreams.http.v3.HttpProtocolOptions" in
  [("name", VStr clusterName);
   ("type", VStr "STRICT_DNS");
   ("connect_timeout", VStr "1s");
   ("typed_extension_protocol_options",
     VMap [(http_protocol_options,
       VMap [("@type", VStr ("type.googleapis.com/" +:+ http_protocol_options));
             ("explicit_http_config", VMap [("http2_protocol_options", VMap [])])])]);
   ("load_assignment",
     VMap [("cluster_name", VStr clusterName);
           ("endpoints",
             VList [VMap [("lb_endpoints",
               VList [VMap [("endpoint",
                 VMap [("address",
                   VMap [("socket_address",
                     VMap [("address", VStr "127.0.0.1");
                           ("port_value", VNum port)])])])]])]])])].

(** ** Theorems *)

Lemma elem_of_unique_loop {T : Type} `{EqDecision T} (l seen : list T) x :
  x ∈ unique_loop seen l ↔ x ∈ l ∧ x ∉ seen.
Proof.
  revert seen. induction l as [|a l IH]; intros seen; simpl; [set_solver|].
  case_bool_decide as Ha.
  - rewrite IH. set_solver.
  - rewrite elem_of_cons, IH. destruct (decide (x = a)); set_solver.
Qed.

Lemma unique_loop_NoDup {T : Type} `{EqDecision T} (l seen : list T) :
  NoDup (unique_loop seen l).
Proof.
  revert seen. induction l as [|a l IH]; intros seen; simpl; [constructor|].
  case_bool_decide as Ha; [done|]. constructor; [|done].
  rewrite elem_of_unique_loop. set_solver.
Qed.

Lemma unique_loop_sublist {T : Type} `{EqDecision T} (l seen : list T) :
  sublist (unique_loop seen l) l.
Proof.
  revert seen. induction l as [|a l IH]; intros seen; simpl; [done|].
  case_bool_decide; [by apply sublist_cons|by apply sublist_skip].
Qed.

Lemma unique_loop_id {T : Type} `{EqDecision T} (l seen : list T) :
  NoDup l → (∀ x, x ∈ l → x ∉ seen) → unique_loop seen l = l.
Proof.
  revert seen. induction l as [|a l IH]; intros seen Hnd Hs; simpl; [done|].
  apply NoDup_cons in Hnd as [Ha Hnd].
  rewrite bool_decide_false by (apply Hs; by left). f_equal. apply IH; [done|].
  intros x Hx Hin. apply elem_of_cons in Hin as [->|Hin]; [done|].
  apply (Hs x); [by right|done].
Qed.

(** [UniqueSliceElements] returns the distinct elements of its argument, each
    once and in the order of the argument, and changes nothing when there are no
    duplicates. *)
Theorem UniqueSliceElements_spec {T : Type} `{EqDecision T} (l : list T) :
  (∀ x, x ∈ UniqueSliceElements l ↔ x ∈ l) ∧ NoDup (UniqueSliceElements l) ∧
  sublist (UniqueSliceElements l) l ∧
  UniqueSliceElements (UniqueSliceElements l) = UniqueSliceElements l.
Proof.
  unfold UniqueSliceElements. split_and!.
  - intros x. rewrite elem_of_unique_loop. set_solver.
  - apply unique_loop_NoDup.
  - apply unique_loop_sublist.
  - apply unique_loop_id; [apply unique_loop_NoDup|set_solver].
Qed.

(** The number of configuration sources that are set. *)
Definition sources_set {C T : Type} `{ConfigSource C T} (config : C) : nat :=
  Nat.b2n (is_some (GetClient config)) + Nat.b2n (is_some (GetClientRef config)) +
  Nat.b2n (is_some (GetSecretRef config)).

Lemma DetermineConfigType_cases {C T : Type} `{ConfigSource C T} (config : C) t :
  DetermineConfigType config = Ok t →
  match t with
  | CfgInlineClient => is_some (GetClient config)
  | CfgClientRef => is_some (GetClientRef config)
  | CfgSecretRef => is_some (GetSecretRef config)
  | CfgNone => true
  | CfgOther _ => false
  end = true.
Proof.
  unfold DetermineConfigType.
  destruct (GetClient config), (GetClientRef config), (GetSecretRef config);
    simpl; intros [= <-]; done.
Qed.

(** [DetermineConfigType] reports the one source that is set, [None] when no
    source is set, and an error exactly when two or more are set; it never returns
    another value of the integer type. *)
Theorem DetermineConfigType_spec {C T : Type} `{ConfigSource C T} (config : C) :
  match DetermineConfigType config with
  | Ok CfgInlineClient => sources_set config = 1%nat ∧ is_some (GetClient config) = true
  | Ok CfgClientRef => sources_set config = 1%nat ∧ is_some (GetClientRef config) = true
  | Ok CfgSecretRef => sources_set config = 1%nat ∧ is_some (GetSecretRef config) = true
  | Ok CfgNone => sources_set config = 0%nat
  | Ok (CfgOther _) => False
  | Err e => e = multipleConfigsErr ∧ (2 ≤ sources_set config)%nat
  | Panic _ => False
  end.
Proof.
  unfold DetermineConfigType, sources_set.
  destruct (GetClient config), (GetClientRef config), (GetSecretRef config); simpl; auto with lia.
Qed.

(** The fields of the expected probe that are set are the ones of the actual probe. *)
Definition probe_agrees (e a : Probe) : Prop :=
  Forall2 (λ x y, x = 0%Z ∨ x = y)
    [pr_InitialDelaySeconds e; pr_TimeoutSeconds e; pr_PeriodSeconds e;
     pr_SuccessThreshold e; pr_FailureThreshold e]
    [pr_InitialDelaySeconds a; pr_TimeoutSeconds a; pr_PeriodSeconds a;
     pr_SuccessThreshold a; pr_FailureThreshold a].

Lemma differs_false x y : differs x y = false ↔ x = 0%Z ∨ x = y.
Proof.
  unfold differs. rewrite andb_false_iff, !negb_false_iff, !bool_decide_eq_true. done.
Qed.

Lemma probe_agrees_bool e a :
  probe_agrees e a ↔
  (differs (pr_InitialDelaySeconds e) (pr_InitialDelaySeconds a) ||
   differs (pr_TimeoutSeconds e) (pr_TimeoutSeconds a) ||
   differs (pr_PeriodSeconds e) (pr_PeriodSeconds a) ||
   differs (pr_SuccessThreshold e) (pr_SuccessThreshold a) ||
   differs (pr_FailureThreshold e) (pr_FailureThreshold a)) = false.
Proof.
  unfold probe_agrees. rewrite !orb_false_iff, !differs_false, !Forall2_cons, Forall2_nil.
  tauto.
Qed.

(** A probe with a termination grace period is never accepted against a probe
    that was decoded separately, even when every value is the same: the comparison
    is on the pointers. *)
Theorem AssertContainerProbe_grace_period name e a pe pa :
  pr_TerminationGracePeriodSeconds e = Some pe →
  pr_TerminationGracePeriodSeconds a = Some pa →
  ptr_addr pe ≠ ptr_addr pa →
  AssertContainerProbe name (Some e) (Some a) = false.
Proof.
  intros He Ha Hne. unfold AssertContainerProbe.
  destruct (pr_HTTPGet e), (pr_HTTPGet a); try done.
  rewrite He, Ha. unfold same_ptr. simpl.
  rewrite (bool_decide_false (Some _ = Some _)) by congruence. by rewrite orb_true_r.
Qed.

Definition sample_probe (addr : Z) : Probe :=
  {| pr_HTTPGet := Some {| hg_Path := "/health"; hg_Port := IOSInt 8080 ""; hg_Scheme := "";
                           hg_Other := VNull |};
     pr_InitialDelaySeconds := 1; pr_TimeoutSeconds := 0; pr_PeriodSeconds := 0;
     pr_SuccessThreshold := 0; pr_FailureThreshold := 0;
     pr_TerminationGracePeriodSeconds := Some {| ptr_addr := addr; ptr_val := 30 |} |}.

Lemma AssertContainerProbe_grace_period_witness :
  AssertContainerProbe "texas" (Some (sample_probe 1)) (Some (sample_probe 2)) = false.
Proof.
  apply (AssertContainerProbe_grace_period "texas" (sample_probe 1) (sample_probe 2)
           {| ptr_addr := 1; ptr_val := 30 |} {| ptr_addr := 2; ptr_val := 30 |});
    [reflexivity|reflexivity|discriminate].
Defined.

(** Without a termination grace period, the probe is accepted exactly when both
    have an HTTP action, every timing that is expected is there, and the action is
    either the expected one or the one Istio puts in its place. *)
Theorem AssertContainerProbe_spec name e a :
  pr_TerminationGracePeriodSeconds e = None →
  AssertContainerProbe name (Some e) (Some a) = true ↔
  ∃ eg ag, pr_HTTPGet e = Some eg ∧ pr_HTTPGet a = Some ag ∧ probe_agrees e a ∧
    ((hg_Path ag = "/app-health/" +:+ name +:+ "/readyz" ∧
      IntVal (hg_Port ag) = IstioProbeRewritePort) ∨
     (hg_Path eg = hg_Path ag ∧ hg_Port eg = hg_Port ag)).
Proof.
  intros Hg. unfold AssertContainerProbe. setoid_rewrite probe_agrees_bool. rewrite Hg. simpl.
  destruct (pr_HTTPGet e) as [eg|], (pr_HTTPGet a) as [ag|]; [|naive_solver..].
  rewrite orb_false_r. case_match; [naive_solver|].
  rewrite <-!bool_decide_and. repeat case_bool_decide; naive_solver.
Qed.

Lemma AssertContainerProbe_spec_witness :
  let p := {| pr_HTTPGet := pr_HTTPGet (sample_probe 1); pr_InitialDelaySeconds := 1;
              pr_TimeoutSeconds := 0; pr_PeriodSeconds := 0; pr_SuccessThreshold := 0;
              pr_FailureThreshold := 0; pr_TerminationGracePeriodSeconds := None |} in
  AssertContainerProbe "texas" (Some p) (Some p) = true.
Proof.
  intros p. apply (AssertContainerProbe_spec "texas" p p eq_refl).
  eexists _, _. split; [reflexivity|]. split; [reflexivity|]. split.
  - repeat (apply Forall2_cons; split; [right; reflexivity|]). apply Forall2_nil. exact I.
  - right. split; reflexivity.
Defined.
