(* ===== verification/Reconciliation.v ===== *)
(** * Reconciling one resource: [pkg/reconciliation/reconciliation.go]

    The generic reconciliation of one generated object: read it, decide what to
    do, create, patch or delete it, and record the outcome in the scope.  The
    theorems: what each decision is (a table), which writes are possible against
    any API server, what is recorded, and what an API server that keeps its
    contract ends up storing. *)
From stdpp Require Import base gmap strings list.
From Stdlib Require Import ZArith Lia.
From S2P Require Import Prelude GoStrings Kube Api Cluster ProgTheory RefServer State Utilities.
Open Scope go_scope.

(** An [int] with four named values. *)
Inductive ReconcileAction :=
| RequiresCreateAction | RequiresUpdateAction | RequiresDeleteAction | RequiresNoAction
| UnknownAction (n : Z).

Definition Action (reconcileAction : ReconcileAction) : outcome string :=
  match reconcileAction with
  | RequiresCreateAction => Ok "creation"
  | RequiresUpdateAction => Ok "update"
  | RequiresDeleteAction => Ok "deletion"
  | RequiresNoAction => Ok "no action"
  | UnknownAction _ => Panic "Unknown reconcile action"
  end.

(** A function that uses the scope by pointer: it returns the scope it leaves,
    also when it fails. *)
Abbreviation ScopeM A := (Scope → prog (outcome A * Scope)) (only parsing).

(** [ResourceReconciler\[T\]] for the Go type of kind [k]; its scope is the one that
    is threaded.  [DesiredResource] is a pointer to a pointer; [UpdateFields]
    returns the [current] that it assigns to. *)
Record ResourceReconciler (k : Kind) := {
  rf_ResourceKind : string;
  rf_ResourceName : string;
  rf_DesiredResource : option (option (Object k));
  rf_ShouldUpdate : Object k → Object k → bool;
  rf_UpdateFields : Object k → Object k → Object k;
}.
Arguments rf_ResourceKind {k}.
Arguments rf_ResourceName {k}.
Arguments rf_DesiredResource {k}.
Arguments rf_ShouldUpdate {k}.
Arguments rf_UpdateFields {k}.

(** [desired == nil || *desired == nil] is the failure of this. *)
Definition rf_desired {k} (rf : ResourceReconciler k) : option (Object k) :=
  match rf_DesiredResource rf with
  | Some (Some d) => Some d
  | _ => None
  end.

(** The interface [ControllerResource] and its adapter for every kind. *)
Inductive ControllerResource := ControllerResourceAdapter (k : Kind) (rf : ResourceReconciler k).

Definition GetResourceKind (c : ControllerResource) : string :=
  match c with ControllerResourceAdapter k rf => rf_ResourceKind rf end.
Definition GetResourceName (c : ControllerResource) : string :=
  match c with ControllerResourceAdapter k rf => rf_ResourceName rf end.
Definition IsResourceNil (c : ControllerResource) : bool :=
  match c with
  | ControllerResourceAdapter k rf =>
      match rf_DesiredResource rf with
      | None => true
      | Some p => negb (is_some p)
      end
  end.

Definition CountNonNilResources (rfs : list ControllerResource) : nat :=
  foldl (λ count rf, if negb (IsResourceNil rf) then S count else count) O rfs.

Definition slash (ns name : string) : string := ns +:+ "/" +:+ name.

Section Reconcile.
Context `{Lib} {k : Kind}.
Implicit Types (current desired : Object k) (scope : Scope).

Definition DetermineReconcileAction (current : Object k) (desired : option (Object k))
    (isDesiredNil : bool) (shouldUpdate : Object k → Object k → bool)
    (currentExists currentIsOwnedBySecurityConfig : bool) : outcome ReconcileAction :=
  if isDesiredNil then
    if currentExists && currentIsOwnedBySecurityConfig then Ok RequiresDeleteAction
    else Ok RequiresNoAction
  else if negb currentExists then Ok RequiresCreateAction
  else if negb currentIsOwnedBySecurityConfig then
    Err (ErrorString ("cannot update " +:+ slash (o_Namespace current) (o_Name current) +:+
                      " as it is not owned by SecurityConfig"))
  else
    let? d := deref desired in
    if shouldUpdate current d then Ok RequiresUpdateAction else Ok RequiresNoAction.

(** [<verb> <kind> <ns>/<name><tail>]. *)
Definition about (verb kind ns name tail : string) : string :=
  verb +:+ " " +:+ kind +:+ " " +:+ slash ns name +:+ tail.

Definition sc_ref (scope : Scope) : string :=
  slash (sc_Namespace (sp_SecurityConfig scope)) (sc_Name (sp_SecurityConfig scope)).

Definition ReconcileOnUpdate (desired current : Object k)
    (updateFields : Object k → Object k → Object k)
    (currentIsOwnedBySecurityConfig : bool) : ScopeM Result := λ scope,
  let kind := kind_name k in
  if negb currentIsOwnedBySecurityConfig then
    let err := ErrorString (kind +:+ " " +:+ slash (o_Namespace current) (o_Name current) +:+
                            " is not owned by SecurityConfig " +:+ sc_ref scope) in
    let errMsg := about "Cannot update" kind (o_Namespace current) (o_Name current)
                    (" as it is not owned by SecurityConfig " +:+ sc_ref scope) in
    Ret (Err err,
         ReplaceDescendant scope (AnyObj k current) (Some errMsg) None kind (o_Name current))
  else
    let before := current in
    let current := updateFields current desired in
    let* patched := call (OpPatch k before current) in
    match patched with
    | Panic w => Ret (Panic w, scope)
    | Err patchErr =>
        let errorReason := about "Unable to patch" kind (o_Namespace desired) (o_Name desired) "" in
        Ret (Err patchErr,
             ReplaceDescendant scope (AnyObj k current) (Some errorReason) None kind
               (o_Name desired))
    | Ok current =>
        let successMessage :=
          about "Successfully updated" kind (o_Namespace desired) (o_Name desired) "." in
        Ret (Ok zero_result,
             ReplaceDescendant scope (AnyObj k current) None (Some successMessage) kind
               (o_Name desired))
    end.

Definition ReconcileOnCreate (desired : Object k) : ScopeM Result := λ scope,
  let kind := kind_name k in
  match SetControllerReference (sc_Meta (sp_SecurityConfig scope)) (o_Meta desired) with
  | Panic w => Ret (Panic w, scope)
  | Err controllerRefErr =>
      let errorReason :=
        about "Unable to set ownerReference on" kind (o_Namespace desired) (o_Name desired) "." in
      Ret (Err controllerRefErr,
           ReplaceDescendant scope (AnyObj k desired) (Some errorReason) None kind
             (o_Name desired))
  | Ok meta =>
      let desired := o_with_meta desired meta in
      let* created := call (OpCreate k desired) in
      match created with
      | Panic w => Ret (Panic w, scope)
      | Err createErr =>
          let errorReason :=
            about "Unable to create" kind (o_Namespace desired) (o_Name desired) "" in
          Ret (Err createErr,
               ReplaceDescendant scope (AnyObj k desired) (Some errorReason) None kind
                 (o_Name desired))
      | Ok desired =>
          let successMessage :=
            about "Successfully created" kind (o_Namespace desired) (o_Name desired) "." in
          Ret (Ok zero_result,
               ReplaceDescendant scope (AnyObj k desired) None (Some successMessage) kind
                 (o_Name desired))
      end
  end.

(** Here the kind in the messages and in the descendant's ID is the one in the
    object's [TypeMeta]. *)
Definition ReconcileOnDelete (current : Object k)
    (currentIsOwnedBySecurityConfig : bool) : ScopeM Result := λ scope,
  let kind := o_Kind current in
  if negb currentIsOwnedBySecurityConfig then
    let err := ErrorString (kind +:+ " " +:+ slash (o_Namespace current) (o_Name current) +:+
                            " is not owned by SecurityConfig " +:+ sc_ref scope) in
    let errMsg := about "Cannot delete" kind (o_Namespace current) (o_Name current)
                    (" as it is not owned by SecurityConfig " +:+ sc_ref scope) in
    Ret (Err err,
         ReplaceDescendant scope (AnyObj k current) (Some errMsg) None kind (o_Name current))
  else
    let* deleted := call (OpDelete k current) in
    match deleted with
    | Panic w => Ret (Panic w, scope)
    | Err deleteErr =>
        let deleteErrorMessage :=
          about "Failed to delete" kind (o_Namespace current) (o_Name current) "" in
        Ret (Err deleteErr,
             ReplaceDescendant scope (AnyObj k current) (Some deleteErrorMessage) None kind
               (o_Name current))
    | Ok _ => Ret (Ok zero_result, scope)
    end.

(** The part of [ReconcileControllerResource] after the read: [current] is
    what was read, or the empty object with the resource's name. *)
Definition reconcile_current (rf : ResourceReconciler k) (current : Object k)
    (currentExists : bool) : ScopeM Result := λ scope,
  let resourceKind := rf_ResourceKind rf in
  let resourceName := rf_ResourceName rf in
  let desired := rf_desired rf in
  let currentIsOwnedBySecurityConfig :=
    IsControlledBy (o_Meta current) (sc_Meta (sp_SecurityConfig scope)) in
  let desiredIsNil := negb (is_some desired) in
  match DetermineReconcileAction current desired desiredIsNil (rf_ShouldUpdate rf)
          currentExists currentIsOwnedBySecurityConfig with
  | Panic w => Ret (Panic w, scope)
  | Err err =>
      let errorReason := about "Failed to reconcile" resourceKind (o_Namespace current)
                           (o_Name current) (": " +:+ Error err) in
      Ret (Err err,
           ReplaceDescendant scope (AnyObj k current) (Some errorReason) None
             resourceKind resourceName)
  | Ok reconcileAction =>
      match Action reconcileAction with
      | Panic w => Ret (Panic w, scope)
      | Err err => Ret (Err err, scope)
      | Ok _ =>
          match reconcileAction, desired with
          | RequiresDeleteAction, _ =>
              ReconcileOnDelete current currentIsOwnedBySecurityConfig scope
          | RequiresCreateAction, Some d => ReconcileOnCreate d scope
          | RequiresUpdateAction, Some d =>
              ReconcileOnUpdate d current (rf_UpdateFields rf) currentIsOwnedBySecurityConfig
                scope
          | RequiresCreateAction, None | RequiresUpdateAction, None =>
              Ret (Panic "invalid memory address or nil pointer dereference", scope)
          | RequiresNoAction, _ =>
              let successMessage := about "Successfully reconciled" resourceKind
                                      (o_Namespace current) resourceName "." in
              Ret (Ok zero_result,
                   if negb desiredIsNil
                   then ReplaceDescendant scope (AnyObj k current) None (Some successMessage)
                          resourceKind resourceName
                   else scope)
          | UnknownAction _, _ =>
              Ret (Err (ErrorString
                ("encountered unknown reconcile action when determining reconcile action for "
                 +:+ resourceKind +:+ " " +:+ slash (o_Namespace current) (o_Name current))),
                scope)
          end
      end
  end.

Definition ReconcileControllerResource (rf : ResourceReconciler k) : ScopeM Result := λ scope,
  let current := new_object k (sc_Namespace (sp_SecurityConfig scope)) (rf_ResourceName rf) in
  let* got := call (OpGet k (key_of current)) in
  match got with
  | Ok current => reconcile_current rf current true scope
  | Err err =>
      if IsNotFound err then reconcile_current rf current false scope
      else
        let errorReason := about "Unable to get" (rf_ResourceKind rf) (o_Namespace current)
                             (o_Name current) "." in
        Ret (Err err,
             ReplaceDescendant scope (AnyObj k current) (Some errorReason) None
               (rf_ResourceKind rf) (rf_ResourceName rf))
  | Panic w => Ret (Panic w, scope)
  end.
End Reconcile.

(** [ControllerResourceAdapter.Reconcile]. *)
Definition Reconcile `{Lib} (c : ControllerResource) : ScopeM Result :=
  match c with ControllerResourceAdapter k rf => ReconcileControllerResource rf end.

(** ** Specifications *)

(** The last call of a history was a read of [key] that returned [r]. *)
Definition got (h : history) (k : Kind) (key : ObjectKey) (r : outcome (Object k)) : Prop :=
  ∃ h0, h = h0 ++ [Ev (OpGet k key) r].

(** What may be done to the object [name] of kind [k] in the namespace of the
    SecurityConfig with metadata [sc]: read it; create it after the server said
    that it does not exist, with the SecurityConfig as its controller; patch or
    delete the very object that was just read, if the SecurityConfig controls it. *)
Definition guarded `{Lib} (sc : ObjectMeta) (k : Kind) (name : string)
    (h : history) (op : Op) : Prop :=
  let key := (m_Namespace sc, name) in
  match op with
  | OpGet k' key' => k' = k ∧ key' = key
  | OpCreate k' o =>
      k' = k ∧ key_of o = key ∧ IsControlledBy (o_Meta o) sc = true ∧
      ∃ e, got h k' key (Err e) ∧ IsNotFound e = true
  | OpPatch k' before after =>
      k' = k ∧ got h k' key (Ok before) ∧ key_of after = key_of before ∧
      IsControlledBy (o_Meta before) sc = true ∧ IsControlledBy (o_Meta after) sc = true
  | OpDelete k' o =>
      k' = k ∧ got h k' key (Ok o) ∧ IsControlledBy (o_Meta o) sc = true
  | _ => False
  end.

(** An honest reply: the object that was asked for, or created, under its own name, and
    its type is the one of its kind if it is filled in. *)
Definition honest (e : event) : Prop :=
  match e with
  | Ev (OpGet k key) r =>
      match r with
      | Ok o => key_of o = key ∧ (o_Kind o = "" ∨ o_Kind o = kind_name k)
      | _ => True
      end
  | Ev (OpCreate k o) r => match r with Ok o' => key_of o' = key_of o | _ => True end
  | _ => True
  end.

(** What a resource promises to the reconciliation: its names fit together, and
    its update function keeps the identity of the object. *)
Class WellNamed {k} (ns : string) (rf : ResourceReconciler k) : Prop := {
  wn_kind : rf_ResourceKind rf = kind_name k;
  wn_desired : ∀ d, rf_desired rf = Some d → key_of d = (ns, rf_ResourceName rf);
  wn_update : ∀ c d, key_of (rf_UpdateFields rf c d) = key_of c ∧
    m_OwnerReferences (o_Meta (rf_UpdateFields rf c d)) = m_OwnerReferences (o_Meta c);
}.

(** What is recorded in the scope, for each outcome. *)
Definition recorded {k} (rf : ResourceReconciler k) (scope : Scope)
    (rs : outcome Result * Scope) : Prop :=
  match rs.1 with
  | Ok r =>
      r = zero_result ∧
      match rf_desired rf with
      | None => rs.2 = scope
      | Some _ => ∃ obj msg, rs.2 = ReplaceDescendant scope obj None (Some msg)
                                      (rf_ResourceKind rf) (rf_ResourceName rf)
      end
  | Err _ => ∃ obj msg kind, (kind = "" ∨ kind = rf_ResourceKind rf) ∧
               rs.2 = ReplaceDescendant scope obj (Some msg) None kind (rf_ResourceName rf)
  | Panic _ => rs.2 = scope
  end.

(** [agrees o d]: the object [o] is as the desired object [d] asks.  The functions
    of a resource are sound for it when an object that needs no update agrees,
    when an updated object agrees, and when the server may add to an object. *)
Class SoundFor {k} (rf : ResourceReconciler k) (agrees : Object k → Object k → Prop) : Prop := {
  sf_should : ∀ c d, rf_desired rf = Some d → rf_ShouldUpdate rf c d = false → agrees c d;
  sf_update : ∀ c d, rf_desired rf = Some d → agrees (rf_UpdateFields rf c d) d;
  sf_refl : ∀ d, rf_desired rf = Some d → agrees d d;
  sf_content : ∀ o o' d, m_Labels (o_Meta o') = m_Labels (o_Meta o) →
    m_Annotations (o_Meta o') = m_Annotations (o_Meta o) → o_Body o' = o_Body o →
    agrees o d → agrees o' d;
  sf_stored : ∀ d, rf_desired rf = Some d → stored_as_is (o_Body d) ∧
    ∀ c, stored_as_is (o_Body (rf_UpdateFields rf c d));
}.

(** An object that agrees needs no update: the case where equality is decided by
    content. *)
Definition settles {k} (rf : ResourceReconciler k) (agrees : Object k → Object k → Prop) : Prop :=
  ∀ c d, rf_desired rf = Some d → agrees c d → rf_ShouldUpdate rf c d = false.

(** The object of a resource is in its final state: a desired object exists, is
    controlled by the SecurityConfig and agrees; when none is desired, no object
    under the name is controlled by it, unless it is being deleted. *)
Definition converged {W} `{Lib} `{!Server W} (sc : ObjectMeta) {k} (rf : ResourceReconciler k)
    (agrees : Object k → Object k → Prop) (w : W) : Prop :=
  let found := find w k (m_Namespace sc, rf_ResourceName rf) in
  match rf_desired rf with
  | Some d => ∃ o, found = Some o ∧ IsControlledBy (o_Meta o) sc = true ∧ agrees o d
  | None => ∀ o, found = Some o → IsControlledBy (o_Meta o) sc = false ∨
                 m_DeletionTimestamp (o_Meta o) ≠ None
  end.

(** ** Theorems *)

Lemma CountNonNilResources_filter rfs :
  CountNonNilResources rfs = length (List.filter (λ c, negb (IsResourceNil c)) rfs).
Proof.
  unfold CountNonNilResources. change O with (O : nat) at 1.
  cut (∀ n, foldl (λ count rf, if negb (IsResourceNil rf) then S count else count) n rfs =
            (n + length (List.filter (λ c, negb (IsResourceNil c)) rfs))%nat); [auto|].
  induction rfs as [|c rfs IH]; intros n; simpl; [lia|]. rewrite IH.
  destruct (IsResourceNil c); simpl; lia.
Qed.

Lemma IsResourceNil_desired k (rf : ResourceReconciler k) :
  IsResourceNil (ControllerResourceAdapter k rf) = negb (is_some (rf_desired rf)).
Proof. unfold rf_desired. simpl. by destruct (rf_DesiredResource rf) as [[?|]|]. Qed.

Section Theorems.
Context `{LibLaws} {k : Kind}.
Implicit Types (rf : ResourceReconciler k) (scope : Scope).

(** The decision table of [DetermineReconcileAction]: deletion only of an
    existing object that the SecurityConfig owns, creation only of a missing one,
    update only of an owned one that differs, an error only for a foreign object
    that stands where a desired one should be; it never panics on the values it is
    called with. *)
Theorem DetermineReconcileAction_table (current : Object k) desired should exists_ owned :
  DetermineReconcileAction current desired (negb (is_some desired)) should exists_ owned =
  match desired with
  | None => Ok (if exists_ && owned then RequiresDeleteAction else RequiresNoAction)
  | Some d =>
      if exists_ then
        if owned then Ok (if should current d then RequiresUpdateAction else RequiresNoAction)
        else Err (ErrorString ("cannot update " +:+ slash (o_Namespace current) (o_Name current)
                               +:+ " as it is not owned by SecurityConfig"))
      else Ok RequiresCreateAction
  end.
Proof.
  unfold DetermineReconcileAction.
  destruct desired as [d|], exists_, owned; simpl; try done; by destruct (should current d).
Qed.

(** The branches of [reconcile_current], by the decision. *)
Lemma reconcile_current_cases rf (current : Object k) exists_ scope :
  reconcile_current rf current exists_ scope =
  let owned := IsControlledBy (o_Meta current) (sc_Meta (sp_SecurityConfig scope)) in
  match rf_desired rf with
  | None => if exists_ && owned then ReconcileOnDelete current true scope
            else Ret (Ok zero_result, scope)
  | Some d =>
      if exists_ then
        if owned then
          if rf_ShouldUpdate rf current d
          then ReconcileOnUpdate d current (rf_UpdateFields rf) true scope
          else Ret (Ok zero_result,
                 ReplaceDescendant scope (AnyObj k current) None
                   (Some (about "Successfully reconciled" (rf_ResourceKind rf)
                            (o_Namespace current) (rf_ResourceName rf) "."))
                   (rf_ResourceKind rf) (rf_ResourceName rf))
        else
          let err := ErrorString ("cannot update " +:+
                       slash (o_Namespace current) (o_Name current) +:+
                       " as it is not owned by SecurityConfig") in
          Ret (Err err,
               ReplaceDescendant scope (AnyObj k current)
                 (Some (about "Failed to reconcile" (rf_ResourceKind rf) (o_Namespace current)
                          (o_Name current) (": " +:+ Error err)))
                 None (rf_ResourceKind rf) (rf_ResourceName rf))
      else ReconcileOnCreate d scope
  end.
Proof.
  unfold reconcile_current, DetermineReconcileAction.
  destruct (rf_desired rf) as [d|]; simpl.
  - destruct exists_; simpl; [|done].
    destruct (IsControlledBy _ _); simpl; [|done]. by destruct (rf_ShouldUpdate rf current d).
  - destruct exists_; simpl; [|done]. by destruct (IsControlledBy _ _).
Qed.

Lemma recorded_error rf scope e obj msg kind name :
  kind = "" ∨ kind = rf_ResourceKind rf → name = rf_ResourceName rf →
  recorded rf scope (Err e, ReplaceDescendant scope obj (Some msg) None kind name).
Proof. intros Hk ->. unfold recorded. simpl. eauto. Qed.

Lemma recorded_success rf d scope obj msg kind name :
  rf_desired rf = Some d → kind = rf_ResourceKind rf → name = rf_ResourceName rf →
  recorded rf scope (Ok zero_result, ReplaceDescendant scope obj None (Some msg) kind name).
Proof. intros Hd -> ->. unfold recorded. simpl. rewrite Hd. eauto. Qed.

Hint Resolve recorded_error recorded_success : go.

Lemma got_last h key r : got (h ++ [Ev (OpGet k key) r]) k key r.
Proof. by exists h. Qed.

(** Reconciling a resource makes at most the calls that [guarded] allows, and
    records its outcome. *)
Lemma reconcile_wp rf scope h (Hwn : WellNamed (sc_Namespace (sp_SecurityConfig scope)) rf) :
  wp (guarded (sc_Meta (sp_SecurityConfig scope)) k (rf_ResourceName rf)) h
    (ReconcileControllerResource rf scope)
    (λ h' rs, Forall honest h' → recorded rf scope rs).
Proof.
  destruct Hwn as [Hkind Hdes Hupd].
  unfold ReconcileControllerResource. simpl. split; [done|]. intros [current|err|w].
  - rewrite reconcile_current_cases. cbv zeta.
    destruct (rf_desired rf) as [d|] eqn:Hd.
    + injection (Hdes d eq_refl) as Hns Hn.
      destruct (IsControlledBy _ _) eqn:Hown; [|intros _; apply recorded_error; auto].
      destruct (rf_ShouldUpdate rf current d); [|intros _; by eapply recorded_success].
      simpl. destruct (Hupd current d) as [Hkey Hrefs]. split.
      * split_and!; [done|apply got_last|done|done|].
        rewrite <-Hown. by apply controlled_owner_refs.
      * intros [o|e|w] _; simpl; [eapply recorded_success; eauto|apply recorded_error; auto|done].
    + destruct (IsControlledBy _ _) eqn:Hown.
      * simpl. split; [split_and!; [done|apply got_last|done]|].
        intros [[]|e|w] Hh; [|apply recorded_error|done].
        -- unfold recorded. simpl. by rewrite Hd.
        -- rewrite !Forall_app, !Forall_singleton in Hh. destruct Hh as [[_ [_ Hk]] _].
           rewrite Hkind. by destruct Hk; auto.
        -- rewrite !Forall_app, !Forall_singleton in Hh. destruct Hh as [[_ [Hk _]] _].
           by injection Hk.
      * intros _. unfold recorded. simpl. by rewrite Hd.
  - destruct (IsNotFound err) eqn:Hnf; [|intros _; apply recorded_error; auto].
    rewrite reconcile_current_cases. cbv zeta. simpl.
    destruct (rf_desired rf) as [d|] eqn:Hd; [|intros _; unfold recorded; simpl; by rewrite Hd].
    pose proof (Hdes d eq_refl) as Hdk. unfold ReconcileOnCreate.
    assert (o_Name d = rf_ResourceName rf) as Hdn by (by injection Hdk).
    destruct (SetControllerReference _ _) as [m|e|w] eqn:Href;
      [|intros _; apply recorded_error; auto|done].
    apply controller_reference_set in Href as (Hc & Hmn & Hmns & _). simpl.
    assert (key_of (o_with_meta d m) = (sc_Namespace (sp_SecurityConfig scope),
             rf_ResourceName rf)) as Hkey.
    { rewrite <-Hdk. unfold key_of, o_Name, o_Namespace. simpl. by rewrite Hmn, Hmns. }
    split.
    + split_and!; [done|exact Hkey|done|]. exists err. split; [apply got_last|done].
    + intros [o|e|w] Hh; simpl; [|apply recorded_error; [auto|by injection Hkey]|done].
      rewrite Forall_app, Forall_singleton in Hh. destruct Hh as [_ Hh].
      change (key_of o = key_of (o_with_meta d m)) in Hh.
      rewrite Hkey in Hh. injection Hh as _ Hn.
      eapply recorded_success; eauto.
  - done.
Qed.

(** C12: against any API server, and at any moment of the reconciliation of a
    resource, the calls made so far are reads of the resource's own object, its
    creation after the server said it does not exist, and a patch or a deletion of the
    object just read when the SecurityConfig controls it. *)
Theorem ReconcileControllerResource_safe rf scope h p'
    (Hwn : WellNamed (sc_Namespace (sp_SecurityConfig scope)) rf)
    (Hs : steps (ReconcileControllerResource rf scope) h p') h1 op r h2 :
  h = h1 ++ Ev op r :: h2 →
  guarded (sc_Meta (sp_SecurityConfig scope)) k (rf_ResourceName rf) h1 op.
Proof.
  intros Hh. exact (proj2 (wp_adequate _ _ _ _ [] _ (reconcile_wp rf scope [] Hwn) Hs)
                      h1 op r h2 Hh).
Qed.

(** Whatever the API server answers, a finished reconciliation of a resource
    leaves the scope with an error descendant if it failed, with a success descendant
    under the resource's own kind and name if a desired resource was reconciled, and
    unchanged if nothing is desired. *)
Theorem ReconcileControllerResource_records rf scope h rs
    (Hwn : WellNamed (sc_Namespace (sp_SecurityConfig scope)) rf)
    (Hs : steps (ReconcileControllerResource rf scope) h (Ret rs)) :
  Forall honest h → recorded rf scope rs.
Proof. exact (steps_end_wp _ _ _ _ _ (reconcile_wp rf scope [] Hwn) Hs). Qed.

Section Server.
Context {W : Type} `{!Server W} `{!ServerLaws W}.
Context (agrees : Object k → Object k → Prop).

(** No object but the resource's own is touched. *)
Definition only_key (k0 : Kind) (key : ObjectKey) (w w' : W) : Prop :=
  ∀ k2 key2, (k2, key2) ≠ (k0, key) → find w' k2 key2 = find w k2 key2.

Lemma create_converges rf d scope w rs w' :
  SoundFor rf agrees → rf_desired rf = Some d →
  key_of d = (sc_Namespace (sp_SecurityConfig scope), rf_ResourceName rf) →
  run (ReconcileOnCreate d scope) w = (rs, w') →
  only_key k (key_of d) w w' ∧
  (is_ok rs.1 = true → converged (sc_Meta (sp_SecurityConfig scope)) rf agrees w').
Proof.
  intros Hsf Hd Hdk. unfold ReconcileOnCreate.
  destruct (SetControllerReference _ _) as [m|e|p] eqn:Href; [|intros [= <- <-]; done..].
  apply controller_reference_set in Href as (Hc & Hmn & Hmns & Hml & Hma).
  assert (key_of (o_with_meta d m) = key_of d) as Hkey.
  { unfold key_of, o_Name, o_Namespace. simpl. by rewrite Hmn, Hmns. }
  simpl. destruct (perform _ w) as [r w1] eqn:Hp. simpl.
  apply create_reply in Hp; [|apply (sf_stored d Hd)]. rewrite Hkey in Hp.
  destruct r as [o|e|p]; simpl; intros [= <- <-]; [|by subst|done].
  destruct Hp as (_ & (Hk & Hb & Hl & Ha & Ho) & Hf & Hothers). simpl in *.
  split; [done|]. intros _. unfold converged. rewrite Hd. rewrite Hdk in Hf. exists o.
  split_and!; [exact Hf| |].
  - rewrite <-Hc. by apply controlled_owner_refs.
  - apply (sf_content d o d); [congruence|congruence|done|by apply sf_refl].
Qed.

Lemma update_converges rf d (current : Object k) scope w rs w' :
  SoundFor rf agrees → WellNamed (sc_Namespace (sp_SecurityConfig scope)) rf →
  rf_desired rf = Some d →
  key_of current = (sc_Namespace (sp_SecurityConfig scope), rf_ResourceName rf) →
  find w k (key_of current) = Some current →
  IsControlledBy (o_Meta current) (sc_Meta (sp_SecurityConfig scope)) = true →
  run (ReconcileOnUpdate d current (rf_UpdateFields rf) true scope) w = (rs, w') →
  only_key k (key_of current) w w' ∧
  (is_ok rs.1 = true → converged (sc_Meta (sp_SecurityConfig scope)) rf agrees w').
Proof.
  intros Hsf Hwn Hd Hck Hfind Hown. destruct (wn_update current d) as [Hku Hou].
  simpl. destruct (perform _ w) as [r w1] eqn:Hp. simpl.
  apply patch_reply in Hp; [|by rewrite Hku|by apply (sf_stored d Hd)]. rewrite Hku in Hp.
  destruct r as [o|e|p]; simpl; intros [= <- <-]; [|by subst|done].
  destruct Hp as ((Hk & Hb & Hl & Ha & Ho) & Hf & Hothers).
  split; [done|]. intros _. unfold converged. rewrite Hd. rewrite Hck in Hf. exists o.
  split_and!; [exact Hf| |].
  - rewrite <-Hown. apply controlled_owner_refs. congruence.
  - apply (sf_content (rf_UpdateFields rf current d) o d); auto. by apply sf_update.
Qed.

Lemma delete_converges rf (current : Object k) scope w rs w' :
  rf_desired rf = None →
  key_of current = (sc_Namespace (sp_SecurityConfig scope), rf_ResourceName rf) →
  run (ReconcileOnDelete current true scope) w = (rs, w') →
  only_key k (key_of current) w w' ∧
  (is_ok rs.1 = true → converged (sc_Meta (sp_SecurityConfig scope)) rf agrees w').
Proof.
  intros Hd Hck. simpl. destruct (perform _ w) as [r w1] eqn:Hp. simpl.
  apply delete_reply in Hp. destruct r as [[]|e|p]; simpl; intros [= <- <-]; simpl.
  - destruct Hp as [Hgone Hothers]. split; [done|]. intros _.
    unfold converged. rewrite Hd. unfold sc_Namespace in Hck. rewrite <-Hck. intros o Ho.
    destruct Hgone as [Hnone|(o' & Ho' & Hdel)]; right; congruence.
  - by subst.
  - done.
Qed.

(** The lemma behind [ReconcileControllerResource_converges]. *)
Lemma ReconcileControllerResource_runs rf scope w rs w'
    (Hwn : WellNamed (sc_Namespace (sp_SecurityConfig scope)) rf) (Hsf : SoundFor rf agrees) :
  run (ReconcileControllerResource rf scope) w = (rs, w') →
  only_key k (sc_Namespace (sp_SecurityConfig scope), rf_ResourceName rf) w w' ∧
  (is_ok rs.1 = true → converged (sc_Meta (sp_SecurityConfig scope)) rf agrees w').
Proof.
  unfold ReconcileControllerResource. cbv zeta.
  change (key_of (new_object k _ _))
    with (sc_Namespace (sp_SecurityConfig scope), rf_ResourceName rf). simpl.
  destruct (perform _ w) as [r w1] eqn:Hp. simpl. apply get_reply in Hp as [-> Hr].
  destruct r as [current|e|p]; [|destruct (IsNotFound e) eqn:Hnf|done]; simpl.
  - destruct Hr as [Hfind Hck]. rewrite reconcile_current_cases. cbv zeta.
    destruct (rf_desired rf) as [d|] eqn:Hd.
    + destruct (IsControlledBy _ _) eqn:Hown; [|by intros [= <- <-]].
      destruct (rf_ShouldUpdate rf current d) eqn:Hsh.
      * intros Hrun. rewrite <-Hck. eapply update_converges; eauto. by rewrite Hck.
      * intros [= <- <-]. split; [done|]. intros _. unfold converged. rewrite Hd.
        exists current. split_and!; [done|done|by apply sf_should].
    + destruct (IsControlledBy _ _) eqn:Hown; cbn [andb].
      * intros Hrun. rewrite <-Hck. by eapply delete_converges.
      * intros [= <- <-]. split; [done|]. intros _. unfold converged. rewrite Hd.
        intros o Ho. left. unfold sc_Namespace in Hfind. congruence.
  - rewrite reconcile_current_cases. cbv zeta. simpl.
    destruct (rf_desired rf) as [d|] eqn:Hd.
    + intros Hrun. rewrite <-(wn_desired d Hd). eapply create_converges; eauto.
      by apply wn_desired.
    + intros [= <- <-]. split; [done|]. intros _. unfold converged. rewrite Hd.
      intros o Ho. unfold sc_Namespace in Hr. by rewrite (Hr eq_refl) in Ho.
  - intros [= <- <-]. done.
Qed.

(** C13: against an API server that keeps its contract, a reconciliation that
    returns no error leaves the resource's object in its final state: present,
    controlled by the SecurityConfig and as desired, or not controlled (or being
    deleted) when nothing is desired.  No other object is touched, also when it
    fails. *)
Theorem ReconcileControllerResource_converges rf scope w rs w'
    (Hwn : WellNamed (sc_Namespace (sp_SecurityConfig scope)) rf) (Hsf : SoundFor rf agrees) :
  run (ReconcileControllerResource rf scope) w = (rs, w') →
  only_key k (sc_Namespace (sp_SecurityConfig scope), rf_ResourceName rf) w w' ∧
  (is_ok rs.1 = true → converged (sc_Meta (sp_SecurityConfig scope)) rf agrees w').
Proof. by apply ReconcileControllerResource_runs. Qed.

(** Once the object is in its final state, reconciling the resource again
    changes nothing on the server: it is a read and no write, for every resource
    whose equality test is by content. *)
Theorem ReconcileControllerResource_idempotent rf scope w rs w' o
    (Hset : settles rf agrees)
    (Hconv : converged (sc_Meta (sp_SecurityConfig scope)) rf agrees w)
    (Hd : is_some (rf_desired rf) = true)
    (Hget : perform (OpGet k (sc_Namespace (sp_SecurityConfig scope), rf_ResourceName rf)) w =
            (Ok o, w)) :
  run (ReconcileControllerResource rf scope) w = (rs, w') →
  w' = w ∧ rs.1 = Ok zero_result.
Proof.
  unfold ReconcileControllerResource. simpl. unfold key_of, o_Name, o_Namespace. simpl.
  unfold sc_Namespace in Hget. unfold sc_Namespace. rewrite Hget. simpl.
  apply get_reply in Hget as [_ [Hfind Hkey]].
  rewrite reconcile_current_cases. cbv zeta. unfold converged in Hconv.
  destruct (rf_desired rf) as [d|] eqn:Hdes; [|done].
  destruct Hconv as (o' & Hf & Hown & Hag). unfold sc_Namespace in Hfind.
  rewrite Hfind in Hf. injection Hf as <-. rewrite Hown, (Hset _ _ Hdes Hag).
  by intros [= <- <-].
Qed.
End Server.
End Theorems.
