(* ===== verification/Generators.v ===== *)
(** * The generated resources: [pkg/resourcegenerators], [pkg/labels], [pkg/annotations]

    One Module per package of [pkg/resourcegenerators]; each [GetDesired] returns
    the object that should exist, or nothing.  A dereference of a nil pointer in
    the configuration panics. *)
From stdpp Require Import base gmap strings list.
From Stdlib Require Import ZArith.
From S2P Require Import Prelude GoStrings Kube Api Model Cluster State Utilities Config.
Open Scope go_scope.

(** ** Labels and annotations *)

Definition ManagedByLabelKey : string := "app.kubernetes.io/managed-by".
Definition ControllerLabelKey : string := "accesserator.kartverket.no/controller".
Definition ManagedByLabelValue : string := "accesserator".
Definition SecurityConfigControllerLabelValue : string := "securityconfig".

Definition SecurityConfigStandardLabels : gmap string string :=
  <[ManagedByLabelKey := ManagedByLabelValue]>
    (<[ControllerLabelKey := SecurityConfigControllerLabelValue]> ∅).

Definition ReloaderMatchAnnotationKey : string := "reloader.stakater.com/match".
Definition ReloaderMatchAnnotationValue : string := "true".
Definition ReloaderMatchAnnotation : gmap string string :=
  {[ReloaderMatchAnnotationKey := ReloaderMatchAnnotationValue]}.

(** The part that the generators of ServiceEntries share: HTTPS to one host,
    visible in the namespace only. *)
Definition https_entry (objectMeta : ObjectMeta) (host : string) : Object KServiceEntry :=
  @MkObject KServiceEntry "" objectMeta
    {| se_ExportTo := ["."]; se_Hosts := [host];
       se_Ports := [{| sp_Number := 443; sp_Protocol := "HTTPS"; sp_Name := "https";
                       sp_TargetPort := 0 |}];
       se_Resolution := Resolution_DNS; se_Other := VNull |}.

Definition opaque_secret (objectMeta : ObjectMeta) (data : gmap string string) :
    Object KSecret :=
  @MkObject KSecret "" objectMeta
    {| sec_StringData := ∅; sec_Data := data; sec_Immutable := None; sec_Type := "Opaque" |}.

(** [*config.Get().RunsInProduction] chooses the host. *)
Definition host_for `{Globals} (prod test : string) : outcome string :=
  let? p := deref (cfg_RunsInProduction Get) in
  Ok (if p : bool then prod else test).

(** The types of configuration for which the client is created here. *)
Definition is_managed (t : ConfigType) : bool :=
  bool_decide (t = CfgInlineClient) || bool_decide (t = CfgNone).

Module jwker.
Definition GetDesired (objectMeta : ObjectMeta) (tokenxConfig : TokenXConfig) :
    option (Object KJwker) :=
  if negb (txc_Enabled tokenxConfig) then None
  else Some (@MkObject KJwker "" objectMeta
               {| jwker_Spec := txc_JwkerSpec tokenxConfig; jwker_Status := zero_sync |}).
End jwker.

Module egress.
Section GetDesired.
Context `{Globals}.
Definition GetDesired (objectMeta : ObjectMeta) (tokenxConfig : TokenXConfig) :
    option (Object KNetworkPolicy) :=
  if negb (txc_Enabled tokenxConfig) then None
  else
    let fromApp := txc_ApplicationRef tokenxConfig in
    let toNamespace := cfg_TokenxNamespace Get in
    let toApp := cfg_TokenxName Get in
    Some (@MkObject KNetworkPolicy "" objectMeta
      {| netpol_PodSelector := match_labels {["app" := fromApp]};
         netpol_Ingress := [];
         netpol_PolicyTypes := ["Egress"];
         netpol_Egress :=
           [{| ner_Ports := [];
               ner_To :=
                 [{| np_NamespaceSelector :=
                       Some (match_labels {["kubernetes.io/metadata.name" := toNamespace]});
                     np_PodSelector := Some (match_labels {["app" := toApp]});
                     np_IPBlock := None |}] |}] |}).
End GetDesired.
End egress.

Module maskinportenclient.
Definition GetDesired (objectMeta : ObjectMeta) (maskinportenConfig : MaskinportenConfig) :
    outcome (option (Object KMaskinportenClient)) :=
  if negb (mpc_Enabled maskinportenConfig) || negb (is_managed (mpc_Type maskinportenConfig))
  then Ok None
  else
    let? spec := deref (mpc_ClientSpec maskinportenConfig) in
    Ok (Some (@MkObject KMaskinportenClient "" objectMeta
                {| mpc_Spec := spec; mpc_Status := zero_sync |})).
End maskinportenclient.

Module maskinportensecret.
Definition GetDesired (objectMeta : ObjectMeta) (maskinportenConfig : MaskinportenConfig) :
    outcome (option (Object KSecret)) :=
  if negb (mpc_Enabled maskinportenConfig) ||
     negb (bool_decide (mpc_Type maskinportenConfig = CfgSecretRef))
  then Ok None
  else
    let? data := deref (mpc_SecretData maskinportenConfig) in
    Ok (Some (opaque_secret objectMeta data)).
End maskinportensecret.

Module maskinportenserviceentry.
Section GetDesired.
Context `{Globals}.
Definition GetDesired (objectMeta : ObjectMeta) (maskinportenConfig : MaskinportenConfig) :
    outcome (option (Object KServiceEntry)) :=
  if negb (mpc_Enabled maskinportenConfig) then Ok None
  else
    let? maskinportenHost := host_for MaskinportenProdHost MaskinportenTestHost in
    Ok (Some (https_entry objectMeta maskinportenHost)).
End GetDesired.
End maskinportenserviceentry.

Module azureadapplication.
Definition GetDesired (objectMeta : ObjectMeta) (entraIdConfig : EntraIdConfig) :
    outcome (option (Object KAzureAdApplication)) :=
  if negb (eic_Enabled entraIdConfig) || negb (is_managed (eic_Type entraIdConfig))
  then Ok None
  else
    let? spec := deref (eic_ClientSpec entraIdConfig) in
    Ok (Some (@MkObject KAzureAdApplication "" objectMeta
                {| aad_Spec := spec; aad_Status := zero_sync |})).
End azureadapplication.

Module azureadsecret.
Definition GetDesired (objectMeta : ObjectMeta) (entraIdConfig : EntraIdConfig) :
    outcome (option (Object KSecret)) :=
  if negb (eic_Enabled entraIdConfig) ||
     negb (bool_decide (eic_Type entraIdConfig = CfgSecretRef))
  then Ok None
  else
    let? data := deref (eic_SecretData entraIdConfig) in
    Ok (Some (opaque_secret objectMeta data)).
End azureadsecret.

Module azureadserviceentry.
Definition GetDesired (objectMeta : ObjectMeta) (entraIdConfig : EntraIdConfig) :
    option (Object KServiceEntry) :=
  if negb (eic_Enabled entraIdConfig) then None
  else Some (https_entry objectMeta EntraIdHost).
End azureadserviceentry.

Module idportenserviceentry.
Section GetDesired.
Context `{Globals}.
Definition GetDesired (objectMeta : ObjectMeta) (idPortenConfig : IdPortenConfig) :
    outcome (option (Object KServiceEntry)) :=
  if negb (ipc_Enabled idPortenConfig) then Ok None
  else
    let? idPortenHost := host_for IdPortenProdHost IdPortenTestHost in
    Ok (Some (https_entry objectMeta idPortenHost)).
End GetDesired.
End idportenserviceentry.

Module ansattportenserviceentry.
Section GetDesired.
Context `{Globals}.
Definition GetDesired (objectMeta : ObjectMeta) (ansattportenConfig : AnsattportenConfig) :
    outcome (option (Object KServiceEntry)) :=
  if negb (anc_Enabled ansattportenConfig) then Ok None
  else
    let? ansattportenHost := host_for AnsattportenProdHost AnsattportenTestHost in
    Ok (Some (https_entry objectMeta ansattportenHost)).
End GetDesired.
End ansattportenserviceentry.

Module opaconfigmap.
Definition GetDesired (objectMeta : ObjectMeta) (opaConfig : OpaConfig) :
    option (Object KConfigMap) :=
  if negb (opc_Enabled opaConfig) then None
  else Some (@MkObject KConfigMap "" objectMeta
               {| cm_Data := ∅; cm_BinaryData := entries (opc_BundleBinaryData opaConfig);
                  cm_Immutable := None |}).
End opaconfigmap.

Module opaenvoyfilter.
Definition Priority : Z := 1000.

Definition GetClusterConfigPatch (clusterConfigPatchValue : option AnyVal) : ConfigPatch :=
  {| cp_ApplyTo := "CLUSTER"; cp_MatchContext := "SIDECAR_INBOUND"; cp_Listener := None;
     cp_Operation := "ADD"; cp_Value := clusterConfigPatchValue |}.

Definition GetExternalAuthorizationConfigPatch
    (externalAuthorizationConfigPatchValue : option AnyVal) : ConfigPatch :=
  {| cp_ApplyTo := "HTTP_FILTER"; cp_MatchContext := "SIDECAR_INBOUND";
     cp_Listener := Some ("envoy.filters.network.http_connection_manager",
                          "envoy.filters.http.router");
     cp_Operation := "INSERT_BEFORE"; cp_Value := externalAuthorizationConfigPatchValue |}.

Definition GetDesired (objectMeta : ObjectMeta) (opaConfig : OpaConfig) :
    option (Object KEnvoyFilter) :=
  let policy := opc_RequestPolicy opaConfig in
  if negb (opc_Enabled opaConfig) || negb (rpc_Enabled policy) then None
  else Some (@MkObject KEnvoyFilter "" objectMeta
    {| ef_Priority := Priority;
       ef_WorkloadSelector := Some (rpc_WorkloadLabels policy);
       ef_ConfigPatches :=
         [GetClusterConfigPatch (rpc_ClusterConfigPatchValue policy);
          GetExternalAuthorizationConfigPatch
            (rpc_ExternalAuthorizationConfigPatchValue policy)];
       ef_Other := VNull |}).
End opaenvoyfilter.
