(* ===== verification/Resources.v ===== *)
(** * The resources of a SecurityConfig: [internal/reconciler/resources.go]

    The twelve resources that are reconciled for a SecurityConfig, with the
    functions that decide whether an existing object differs from the desired one
    and that bring it in line.  The theorems discharge, for each of them, what
    [Reconciliation] asks of a resource. *)
From stdpp Require Import base gmap strings list.
From Stdlib Require Import ZArith Lia.
From S2P Require Import Prelude GoStrings Kube Api Model Cluster ProgTheory RefServer Config Naming State Utilities Reconciliation Generators.
Open Scope go_scope.

(** The loop shared by [labelsNeedUpdate] and [annotationsNeedUpdate]: some
    desired entry is missing from [current] or has another value there. *)
Definition entries_differ (current desired : gomap string) : bool :=
  existsb (λ kv, match entries current !! kv.1 with
                 | None => true
                 | Some currentValue => negb (bool_decide (currentValue = kv.2))
                 end) (map_to_list (entries desired)).

Definition labelsNeedUpdate {k} (current desired : Object k) : bool :=
  entries_differ (m_Labels (o_Meta current)) (m_Labels (o_Meta desired)).
Definition annotationsNeedUpdate {k} (current desired : Object k) : bool :=
  entries_differ (m_Annotations (o_Meta current)) (m_Annotations (o_Meta desired)).

(** [current.Labels = desired.Labels], [current.Annotations = desired.Annotations]. *)
Definition set_labels_of {k} (current desired : Object k) : ObjectMeta :=
  with_labels (o_Meta current) (m_Labels (o_Meta desired)).
Definition set_annotations_of {k} (m : ObjectMeta) (desired : Object k) : ObjectMeta :=
  with_annotations m (m_Annotations (o_Meta desired)).

Section Compare.
Context `{Lib}.

Definition jwkerShouldUpdate (current desired : Object KJwker) : bool :=
  negb (SemanticDeepEqual (jwker_Spec (o_Body current)) (jwker_Spec (o_Body desired))) ||
  labelsNeedUpdate current desired.
Definition jwkerUpdateFields (current desired : Object KJwker) : Object KJwker :=
  @MkObject KJwker (o_Kind current) (set_labels_of current desired)
    {| jwker_Spec := jwker_Spec (o_Body desired); jwker_Status := jwker_Status (o_Body current) |}.

(** The four fields are the whole [NetworkPolicySpec]. *)
Definition netpolShouldUpdate (current desired : Object KNetworkPolicy) : bool :=
  negb (SemanticDeepEqual (o_Body current : NetworkPolicy) (o_Body desired)) ||
  labelsNeedUpdate current desired.
Definition netpolUpdateFields (current desired : Object KNetworkPolicy) : Object KNetworkPolicy :=
  @MkObject KNetworkPolicy (o_Kind current) (set_labels_of current desired) (o_Body desired).

Definition maskinportenClientShouldUpdate (current desired : Object KMaskinportenClient) : bool :=
  negb (SemanticDeepEqual (mpc_Spec (o_Body current)) (mpc_Spec (o_Body desired))) ||
  labelsNeedUpdate current desired.
Definition maskinportenClientUpdateFields (current desired : Object KMaskinportenClient) :
    Object KMaskinportenClient :=
  @MkObject KMaskinportenClient (o_Kind current) (set_labels_of current desired)
    {| mpc_Spec := mpc_Spec (o_Body desired); mpc_Status := mpc_Status (o_Body current) |}.

Definition azureAdApplicationShouldUpdate (current desired : Object KAzureAdApplication) : bool :=
  negb (SemanticDeepEqual (aad_Spec (o_Body current)) (aad_Spec (o_Body desired))) ||
  labelsNeedUpdate current desired.
Definition azureAdApplicationUpdateFields (current desired : Object KAzureAdApplication) :
    Object KAzureAdApplication :=
  @MkObject KAzureAdApplication (o_Kind current) (set_labels_of current desired)
    {| aad_Spec := aad_Spec (o_Body desired); aad_Status := aad_Status (o_Body current) |}.

Definition EnvoyFilterShouldUpdate (current desired : Object KEnvoyFilter) : bool :=
  negb (bool_decide (ef_Priority (o_Body current) = ef_Priority (o_Body desired))) ||
  negb (ProtoDeepEqual (ef_WorkloadSelector (o_Body current))
                       (ef_WorkloadSelector (o_Body desired))) ||
  negb (ProtoDeepEqual (ef_ConfigPatches (o_Body current))
                       (ef_ConfigPatches (o_Body desired))) ||
  labelsNeedUpdate current desired.
Definition EnvoyFilterUpdateFields (current desired : Object KEnvoyFilter) :
    Object KEnvoyFilter :=
  @MkObject KEnvoyFilter (o_Kind current) (set_labels_of current desired)
    {| ef_Priority := ef_Priority (o_Body desired);
       ef_WorkloadSelector := ef_WorkloadSelector (o_Body desired);
       ef_ConfigPatches := ef_ConfigPatches (o_Body desired);
       ef_Other := ef_Other (o_Body current) |}.

Definition ConfigMapShouldUpdateFunc (current desired : Object KConfigMap) : bool :=
  negb (SemanticDeepEqual (cm_BinaryData (o_Body current)) (cm_BinaryData (o_Body desired))) ||
  negb (SemanticDeepEqual (cm_Data (o_Body current)) (cm_Data (o_Body desired))) ||
  negb (SemanticDeepEqual (cm_Immutable (o_Body current)) (cm_Immutable (o_Body desired))) ||
  labelsNeedUpdate current desired || annotationsNeedUpdate current desired.
Definition configMapUpdateFieldsFunc (current desired : Object KConfigMap) :
    Object KConfigMap :=
  @MkObject KConfigMap (o_Kind current)
    (set_annotations_of (set_labels_of current desired) desired)
    {| cm_Data := cm_Data (o_Body desired); cm_BinaryData := cm_BinaryData (o_Body desired);
       cm_Immutable := cm_Immutable (o_Body desired) |}.

Definition SecretShouldUpdateFunc (current desired : Object KSecret) : bool :=
  negb (SemanticDeepEqual (sec_StringData (o_Body current)) (sec_StringData (o_Body desired))) ||
  negb (SemanticDeepEqual (sec_Data (o_Body current)) (sec_Data (o_Body desired))) ||
  negb (SemanticDeepEqual (sec_Immutable (o_Body current)) (sec_Immutable (o_Body desired))) ||
  labelsNeedUpdate current desired || annotationsNeedUpdate current desired.
Definition secretUpdateFieldsFunc (current desired : Object KSecret) : Object KSecret :=
  @MkObject KSecret (o_Kind current)
    (set_annotations_of (set_labels_of current desired) desired)
    {| sec_StringData := sec_StringData (o_Body desired);
       sec_Data := sec_Data (o_Body desired);
       sec_Immutable := sec_Immutable (o_Body desired);
       sec_Type := sec_Type (o_Body desired) |}.

(** [GetExportTo] and [GetHosts] are slices of strings, [GetResolution] is a
    number, [GetPorts] a slice of messages. *)
Definition ServiceEntryShouldUpdateFunc (current desired : Object KServiceEntry) : bool :=
  negb (bool_decide (se_ExportTo (o_Body current) = se_ExportTo (o_Body desired))) ||
  negb (bool_decide (se_Hosts (o_Body current) = se_Hosts (o_Body desired))) ||
  negb (ProtoDeepEqual (se_Ports (o_Body current)) (se_Ports (o_Body desired))) ||
  negb (bool_decide (se_Resolution (o_Body current) = se_Resolution (o_Body desired))) ||
  labelsNeedUpdate current desired.
Definition serviceEntryUpdateFieldsFunc (current desired : Object KServiceEntry) :
    Object KServiceEntry :=
  @MkObject KServiceEntry (o_Kind current) (set_labels_of current desired)
    {| se_ExportTo := se_ExportTo (o_Body desired); se_Hosts := se_Hosts (o_Body desired);
       se_Ports := se_Ports (o_Body desired);
       se_Resolution := se_Resolution (o_Body desired);
       se_Other := se_Other (o_Body current) |}.
End Compare.

(** ** The twelve resources *)

(** The [metav1.ObjectMeta] literal of a generator: name, namespace, the standard
    labels, and for Secrets and ConfigMaps the annotation. *)
Definition resource_meta (scope : Scope) (name : string) (annotations : gomap string) :
    ObjectMeta :=
  with_annotations
    (with_labels (named_meta (sc_Namespace (sp_SecurityConfig scope)) name)
       (Some SecurityConfigStandardLabels)) annotations.

Definition adapter {k : Kind} (kind : string) (meta : ObjectMeta) (desired : option (Object k))
    (should : Object k → Object k → bool) (update : Object k → Object k → Object k) :
    ControllerResource :=
  ControllerResourceAdapter k
    {| rf_ResourceKind := kind; rf_ResourceName := m_Name meta;
       rf_DesiredResource := Some desired; rf_ShouldUpdate := should;
       rf_UpdateFields := update |}.

Section Resources.
Context `{Lib} `{Globals}.
Implicit Types scope : Scope.

Definition jwkerControllerResource scope : outcome ControllerResource :=
  let names := newNameBase (sp_SecurityConfig scope) in
  let meta := resource_meta scope (TokenxNamer.JwkerName names) None in
  let desired := jwker.GetDesired meta (sp_TokenXConfig scope) in
  Ok (adapter "Jwker" meta desired jwkerShouldUpdate jwkerUpdateFields).

Definition tokenxEgressControllerResource scope : outcome ControllerResource :=
  let names := newNameBase (sp_SecurityConfig scope) in
  let meta := resource_meta scope (TokenxNamer.EgressName names (cfg_TokenxName Get)) None in
  let desired := egress.GetDesired meta (sp_TokenXConfig scope) in
  Ok (adapter "NetworkPolicy" meta desired netpolShouldUpdate netpolUpdateFields).

Definition maskinportenClientControllerResource scope : outcome ControllerResource :=
  let names := newNameBase (sp_SecurityConfig scope) in
  let meta := resource_meta scope (MaskinportenNamer.MaskinportenClientName names) None in
  let? desired := maskinportenclient.GetDesired meta (sp_MaskinportenConfig scope) in
  Ok (adapter "MaskinportenClient" meta desired maskinportenClientShouldUpdate
        maskinportenClientUpdateFields).

Definition maskinportenSecretControllerResource scope : outcome ControllerResource :=
  let names := newNameBase (sp_SecurityConfig scope) in
  let meta := resource_meta scope (MaskinportenNamer.SecretFromRefName names)
                (Some ReloaderMatchAnnotation) in
  let? desired := maskinportensecret.GetDesired meta (sp_MaskinportenConfig scope) in
  Ok (adapter "Secret" meta desired SecretShouldUpdateFunc secretUpdateFieldsFunc).

Definition maskinportenServiceEntryControllerResource scope : outcome ControllerResource :=
  let names := newNameBase (sp_SecurityConfig scope) in
  let meta := resource_meta scope (MaskinportenNamer.ServiceEntryName names) None in
  let? desired := maskinportenserviceentry.GetDesired meta (sp_MaskinportenConfig scope) in
  Ok (adapter "ServiceEntry" meta desired ServiceEntryShouldUpdateFunc
        serviceEntryUpdateFieldsFunc).

Definition azureAdApplicationControllerResource scope : outcome ControllerResource :=
  let names := newNameBase (sp_SecurityConfig scope) in
  let meta := resource_meta scope (EntraIdNamer.AzureAdApplicationName names) None in
  let? desired := azureadapplication.GetDesired meta (sp_EntraIdConfig scope) in
  Ok (adapter "AzureAdApplication" meta desired azureAdApplicationShouldUpdate
        azureAdApplicationUpdateFields).

Definition azureAdSecretControllerResource scope : outcome ControllerResource :=
  let names := newNameBase (sp_SecurityConfig scope) in
  let meta := resource_meta scope (EntraIdNamer.SecretFromRefName names)
                (Some ReloaderMatchAnnotation) in
  let? desired := azureadsecret.GetDesired meta (sp_EntraIdConfig scope) in
  Ok (adapter "Secret" meta desired SecretShouldUpdateFunc secretUpdateFieldsFunc).

Definition azureAdServiceEntryControllerResource scope : outcome ControllerResource :=
  let names := newNameBase (sp_SecurityConfig scope) in
  let meta := resource_meta scope (EntraIdNamer.ServiceEntryName names) None in
  let desired := azureadserviceentry.GetDesired meta (sp_EntraIdConfig scope) in
  Ok (adapter "ServiceEntry" meta desired ServiceEntryShouldUpdateFunc
        serviceEntryUpdateFieldsFunc).

Definition idportenServiceEntryControllerResource scope : outcome ControllerResource :=
  let names := newNameBase (sp_SecurityConfig scope) in
  let meta := resource_meta scope (IdPortenNamer.ServiceEntryName names) None in
  let? desired := idportenserviceentry.GetDesired meta (sp_IdPortenConfig scope) in
  Ok (adapter "ServiceEntry" meta desired ServiceEntryShouldUpdateFunc
        serviceEntryUpdateFieldsFunc).

Definition ansattportenServiceEntryControllerResource scope : outcome ControllerResource :=
  let names := newNameBase (sp_SecurityConfig scope) in
  let meta := resource_meta scope (AnsattportenNamer.ServiceEntryName names) None in
  let? desired := ansattportenserviceentry.GetDesired meta (sp_AnsattportenConfig scope) in
  Ok (adapter "ServiceEntry" meta desired ServiceEntryShouldUpdateFunc
        serviceEntryUpdateFieldsFunc).

Definition opaConfigMapControllerResource scope : outcome ControllerResource :=
  let names := newNameBase (sp_SecurityConfig scope) in
  let meta := resource_meta scope (OpaNamer.ConfigMapName names)
                (Some ReloaderMatchAnnotation) in
  let desired := opaconfigmap.GetDesired meta (sp_OpaConfig scope) in
  Ok (adapter "ConfigMap" meta desired ConfigMapShouldUpdateFunc configMapUpdateFieldsFunc).

Definition opaEnvoyFilterControllerResource scope : outcome ControllerResource :=
  let names := newNameBase (sp_SecurityConfig scope) in
  let meta := resource_meta scope (OpaNamer.EnvoyFilterName names) None in
  let desired := opaenvoyfilter.GetDesired meta (sp_OpaConfig scope) in
  Ok (adapter "EnvoyFilter" meta desired EnvoyFilterShouldUpdate EnvoyFilterUpdateFields).

(** The elements of a slice literal are evaluated in order. *)
Definition ControllerResources scope : outcome (list ControllerResource) :=
  if sp_InvalidConfig scope then Ok []
  else
    let? r1 := jwkerControllerResource scope in
    let? r2 := tokenxEgressControllerResource scope in
    let? r3 := maskinportenClientControllerResource scope in
    let? r4 := maskinportenSecretControllerResource scope in
    let? r5 := maskinportenServiceEntryControllerResource scope in
    let? r6 := azureAdApplicationControllerResource scope in
    let? r7 := azureAdSecretControllerResource scope in
    let? r8 := azureAdServiceEntryControllerResource scope in
    let? r9 := idportenServiceEntryControllerResource scope in
    let? r10 := ansattportenServiceEntryControllerResource scope in
    let? r11 := opaConfigMapControllerResource scope in
    let? r12 := opaEnvoyFilterControllerResource scope in
    Ok [r1; r2; r3; r4; r5; r6; r7; r8; r9; r10; r11; r12].
End Resources.

(** ** What agreement means, per kind *)

(** The parts of a body that are compared and updated. *)
Definition same_spec {k : Kind} : body k → body k → Prop :=
  match k with
  | KJwker => λ b d, jwker_Spec b = jwker_Spec d
  | KNetworkPolicy => λ b d, b = d
  | KMaskinportenClient => λ b d, mpc_Spec b = mpc_Spec d
  | KAzureAdApplication => λ b d, aad_Spec b = aad_Spec d
  | KSecret => λ b d, sec_StringData b = sec_StringData d ∧ sec_Data b = sec_Data d ∧
                      sec_Immutable b = sec_Immutable d
  | KConfigMap => λ b d, cm_BinaryData b = cm_BinaryData d ∧ cm_Data b = cm_Data d ∧
                         cm_Immutable b = cm_Immutable d
  | KServiceEntry => λ b d, se_ExportTo b = se_ExportTo d ∧ se_Hosts b = se_Hosts d ∧
                            se_Ports b = se_Ports d ∧ se_Resolution b = se_Resolution d
  | KEnvoyFilter => λ b d, ef_Priority b = ef_Priority d ∧
                           ef_WorkloadSelector b = ef_WorkloadSelector d ∧
                           ef_ConfigPatches b = ef_ConfigPatches d
  | KApplication | KNamespace => λ _ _, True
  end.

(** The kinds whose annotations are compared. *)
Definition annotated (k : Kind) : bool :=
  match k with KSecret | KConfigMap => true | _ => false end.

(** The kinds that hold protobuf messages. *)
Definition has_messages (k : Kind) : bool :=
  match k with KServiceEntry | KEnvoyFilter => true | _ => false end.

(** The comparison of objects of the kind is by content: it holds no messages, or equal
    messages always compare equal. *)
Definition compared_by_content `{Lib} (k : Kind) : Prop :=
  has_messages k = false ∨
  ∀ (A : Type) (H : EqDecision A) (a : A), ProtoDeepEqual a a = true.

(** The object has the desired content and at least the desired labels (and
    annotations). *)
Definition agrees {k} (o d : Object k) : Prop :=
  same_spec (o_Body o) (o_Body d) ∧
  entries (m_Labels (o_Meta d)) ⊆ entries (m_Labels (o_Meta o)) ∧
  (annotated k = true →
   entries (m_Annotations (o_Meta d)) ⊆ entries (m_Annotations (o_Meta o))).

(** The laws that tie a pair of comparison and update functions to [agrees]. *)
Class UpdateLaws `{Lib} {k} (should : Object k → Object k → bool)
    (update : Object k → Object k → Object k) : Prop := {
  ul_sound : ∀ c d, should c d = false → agrees c d;
  ul_complete : ∀ c d, compared_by_content k → agrees c d → should c d = false;
  ul_update : ∀ c d, agrees (update c d) d;
  ul_kept : ∀ c d, key_of (update c d) = key_of c ∧
    m_OwnerReferences (o_Meta (update c d)) = m_OwnerReferences (o_Meta c);
  ul_stored : ∀ c d, stored_as_is (o_Body d) → stored_as_is (o_Body (update c d));
}.

(** A resource of a scope: it meets what [Reconciliation] asks for. *)
Definition resource_ok `{Lib} (scope : Scope) (c : ControllerResource) : Prop :=
  match c with
  | ControllerResourceAdapter k rf =>
      WellNamed (sc_Namespace (sp_SecurityConfig scope)) rf ∧ SoundFor rf agrees ∧
      (compared_by_content k → settles rf agrees)
  end.

(** ** Theorems *)

Lemma entries_differ_spec current desired :
  entries_differ current desired = false ↔ entries desired ⊆ entries current.
Proof.
  unfold entries_differ. rewrite existsb_false_forall, map_subseteq_spec. split.
  - intros Hall i x Hx. specialize (Hall (i, x)). simpl in Hall.
    rewrite elem_of_map_to_list in Hall. specialize (Hall Hx).
    destruct (entries current !! i) as [y|]; [|done].
    apply negb_false_iff, bool_decide_eq_true in Hall. congruence.
  - intros Hsub [i x] Hx%elem_of_map_to_list. simpl. rewrite (Hsub i x Hx).
    by rewrite bool_decide_true.
Qed.

Lemma labelsNeedUpdate_spec {k} (c d : Object k) :
  labelsNeedUpdate c d = false ↔ entries (m_Labels (o_Meta d)) ⊆ entries (m_Labels (o_Meta c)).
Proof. apply entries_differ_spec. Qed.

Lemma annotationsNeedUpdate_spec {k} (c d : Object k) :
  annotationsNeedUpdate c d = false ↔
  entries (m_Annotations (o_Meta d)) ⊆ entries (m_Annotations (o_Meta c)).
Proof. apply entries_differ_spec. Qed.

Section Laws.
Context `{LibLaws}.

Lemma semantic_false {A} `{EqDecision A} (a b : A) :
  negb (SemanticDeepEqual a b) = false ↔ a = b.
Proof. rewrite negb_false_iff. apply semantic_equal_spec. Qed.

Lemma proto_false {A} `{EqDecision A} (a b : A) :
  negb (ProtoDeepEqual a b) = false → a = b.
Proof. rewrite negb_false_iff. apply proto_equal_sound. Qed.

Lemma proto_complete {A} `{EqDecision A} (a b : A) :
  (∀ a : A, ProtoDeepEqual a a = true) → a = b → negb (ProtoDeepEqual a b) = false.
Proof. by intros Hr <-; rewrite Hr. Qed.

Lemma plain_false {A} `{EqDecision A} (a b : A) :
  negb (bool_decide (a = b)) = false ↔ a = b.
Proof. by rewrite negb_false_iff, bool_decide_eq_true. Qed.
End Laws.

(** Prove the laws of one pair of functions. *)
Ltac update_laws :=
  split;
  [ intros c d; unfold agrees, same_spec; rewrite ?orb_false_iff, ?semantic_false,
      ?plain_false, ?labelsNeedUpdate_spec, ?annotationsNeedUpdate_spec;
    intros; destruct_and?; split_and!; intros; try done; by apply proto_false
  | intros c d Hm; unfold agrees, same_spec;
    rewrite ?orb_false_iff, ?semantic_false, ?plain_false, ?labelsNeedUpdate_spec,
      ?annotationsNeedUpdate_spec; intros; destruct_and?; split_and!; try done;
    first [by auto|apply proto_complete; [destruct Hm as [Hm|Hm]; [discriminate Hm|apply Hm]|done]|naive_solver]
  | intros c d; unfold agrees, same_spec; simpl; split_and!; intros; try done; reflexivity
  | intros c d; split; reflexivity
  | intros c d; simpl; auto ].

Section Instances.
Context `{LibLaws}.

#[global] Instance jwker_laws : UpdateLaws jwkerShouldUpdate jwkerUpdateFields.
Proof. unfold jwkerShouldUpdate, jwkerUpdateFields. update_laws. Qed.
#[global] Instance netpol_laws : UpdateLaws netpolShouldUpdate netpolUpdateFields.
Proof. unfold netpolShouldUpdate, netpolUpdateFields. update_laws. Qed.
#[global] Instance maskinportenClient_laws :
  UpdateLaws maskinportenClientShouldUpdate maskinportenClientUpdateFields.
Proof. unfold maskinportenClientShouldUpdate, maskinportenClientUpdateFields. update_laws. Qed.
#[global] Instance azureAdApplication_laws :
  UpdateLaws azureAdApplicationShouldUpdate azureAdApplicationUpdateFields.
Proof. unfold azureAdApplicationShouldUpdate, azureAdApplicationUpdateFields. update_laws. Qed.
#[global] Instance secret_laws : UpdateLaws SecretShouldUpdateFunc secretUpdateFieldsFunc.
Proof. unfold SecretShouldUpdateFunc, secretUpdateFieldsFunc. update_laws. Qed.
#[global] Instance configMap_laws :
  UpdateLaws ConfigMapShouldUpdateFunc configMapUpdateFieldsFunc.
Proof. unfold ConfigMapShouldUpdateFunc, configMapUpdateFieldsFunc. update_laws. Qed.
#[global] Instance serviceEntry_laws :
  UpdateLaws ServiceEntryShouldUpdateFunc serviceEntryUpdateFieldsFunc.
Proof. unfold ServiceEntryShouldUpdateFunc, serviceEntryUpdateFieldsFunc. update_laws. Qed.
#[global] Instance envoyFilter_laws :
  UpdateLaws EnvoyFilterShouldUpdate EnvoyFilterUpdateFields.
Proof. unfold EnvoyFilterShouldUpdate, EnvoyFilterUpdateFields. update_laws. Qed.
End Instances.

Section Adapter.
Context `{LibLaws}.

Lemma adapter_ok {k} scope kind name ann (desired : option (Object k)) should update
    `{!UpdateLaws should update} :
  kind = kind_name k →
  (∀ d, desired = Some d → o_Meta d = resource_meta scope name ann ∧ stored_as_is (o_Body d)) →
  resource_ok scope (adapter kind (resource_meta scope name ann) desired should update).
Proof.
  intros Hkind Hd. unfold resource_ok, adapter. split_and!.
  - split; unfold rf_desired; simpl; [done| |apply ul_kept].
    intros d Hdd. destruct desired as [d'|]; simplify_eq/=.
    destruct (Hd d eq_refl) as [Hm _]. unfold key_of, o_Name, o_Namespace. by rewrite Hm.
  - split; unfold rf_desired; simpl; intros.
    + by apply ul_sound.
    + apply ul_update.
    + unfold agrees. split_and!; intros; try reflexivity. by destruct k.
    + unfold agrees in *. match goal with E : o_Body _ = _ |- _ => rewrite E end.
      repeat match goal with E : m_Labels _ = _ |- _ => rewrite E; clear E
                        | E : m_Annotations _ = _ |- _ => rewrite E; clear E end. done.
    + destruct desired as [d'|]; simplify_eq/=. destruct (Hd d eq_refl) as [_ Hst].
      split; [done|]. intros c. by apply ul_stored.
  - intros Hm c d _ Hag. simpl. by apply ul_complete.
Qed.

Context `{Globals}.

(** Case analysis on a generator: what it returns has the given metadata. *)
Ltac generated :=
  intros ? ?; repeat (case_match; simplify_eq/=); done.

(** A resource function returns an adapter, with a fixed kind and name, that is
    as [Reconciliation] asks. *)
Definition returns_ok (scope : Scope) (o : outcome ControllerResource)
    (kind name : string) : Prop :=
  ∀ c, o = Ok c → resource_ok scope c ∧ GetResourceKind c = kind ∧ GetResourceName c = name.

Ltac resource_tac laws :=
  intros c; unfold returns_ok; intros Hc;
  repeat (apply outcome_bind_Ok in Hc as (? & ? & Hc)); injection Hc as <-;
  split_and!; [|done..]; apply adapter_ok; [exact laws|done|];
  intros d Hd; subst.

Lemma jwker_ok scope :
  returns_ok scope (jwkerControllerResource scope) "Jwker"
    (TokenxNamer.JwkerName (newNameBase (sp_SecurityConfig scope))).
Proof.
  resource_tac jwker_laws. unfold jwker.GetDesired in Hd. by case_match; simplify_eq.
Qed.

Lemma egress_ok scope :
  returns_ok scope (tokenxEgressControllerResource scope) "NetworkPolicy"
    (TokenxNamer.EgressName (newNameBase (sp_SecurityConfig scope)) (cfg_TokenxName Get)).
Proof.
  resource_tac netpol_laws. unfold egress.GetDesired in Hd. by case_match; simplify_eq.
Qed.

(** The value of a generator that dereferences pointers. *)
Ltac fallible E := unfold maskinportenclient.GetDesired, maskinportensecret.GetDesired,
  maskinportenserviceentry.GetDesired, azureadapplication.GetDesired,
  azureadsecret.GetDesired, idportenserviceentry.GetDesired,
  ansattportenserviceentry.GetDesired in E;
  case_match; [by simplify_eq|];
  apply outcome_bind_Ok in E as (? & _ & E); by simplify_eq.

Lemma maskinportenClient_ok scope :
  returns_ok scope (maskinportenClientControllerResource scope) "MaskinportenClient"
    (MaskinportenNamer.MaskinportenClientName (newNameBase (sp_SecurityConfig scope))).
Proof. resource_tac maskinportenClient_laws. by fallible H2. Qed.

Lemma maskinportenSecret_ok scope :
  returns_ok scope (maskinportenSecretControllerResource scope) "Secret"
    (MaskinportenNamer.SecretFromRefName (newNameBase (sp_SecurityConfig scope))).
Proof. resource_tac secret_laws. by fallible H2. Qed.

Lemma maskinportenServiceEntry_ok scope :
  returns_ok scope (maskinportenServiceEntryControllerResource scope) "ServiceEntry"
    (MaskinportenNamer.ServiceEntryName (newNameBase (sp_SecurityConfig scope))).
Proof. resource_tac serviceEntry_laws. by fallible H2. Qed.

Lemma azureAdApplication_ok scope :
  returns_ok scope (azureAdApplicationControllerResource scope) "AzureAdApplication"
    (EntraIdNamer.AzureAdApplicationName (newNameBase (sp_SecurityConfig scope))).
Proof. resource_tac azureAdApplication_laws. by fallible H2. Qed.

Lemma azureAdSecret_ok scope :
  returns_ok scope (azureAdSecretControllerResource scope) "Secret"
    (EntraIdNamer.SecretFromRefName (newNameBase (sp_SecurityConfig scope))).
Proof. resource_tac secret_laws. by fallible H2. Qed.

Lemma azureAdServiceEntry_ok scope :
  returns_ok scope (azureAdServiceEntryControllerResource scope) "ServiceEntry"
    (EntraIdNamer.ServiceEntryName (newNameBase (sp_SecurityConfig scope))).
Proof.
  resource_tac serviceEntry_laws. unfold azureadserviceentry.GetDesired in Hd.
  by case_match; simplify_eq.
Qed.

Lemma idportenServiceEntry_ok scope :
  returns_ok scope (idportenServiceEntryControllerResource scope) "ServiceEntry"
    (IdPortenNamer.ServiceEntryName (newNameBase (sp_SecurityConfig scope))).
Proof. resource_tac serviceEntry_laws. by fallible H2. Qed.

Lemma ansattportenServiceEntry_ok scope :
  returns_ok scope (ansattportenServiceEntryControllerResource scope) "ServiceEntry"
    (AnsattportenNamer.ServiceEntryName (newNameBase (sp_SecurityConfig scope))).
Proof. resource_tac serviceEntry_laws. by fallible H2. Qed.

Lemma opaConfigMap_ok scope :
  returns_ok scope (opaConfigMapControllerResource scope) "ConfigMap"
    (OpaNamer.ConfigMapName (newNameBase (sp_SecurityConfig scope))).
Proof.
  resource_tac configMap_laws. unfold opaconfigmap.GetDesired in Hd. by case_match; simplify_eq.
Qed.

Lemma opaEnvoyFilter_ok scope :
  returns_ok scope (opaEnvoyFilterControllerResource scope) "EnvoyFilter"
    (OpaNamer.EnvoyFilterName (newNameBase (sp_SecurityConfig scope))).
Proof.
  resource_tac envoyFilter_laws. unfold opaenvoyfilter.GetDesired in Hd.
  by case_match; simplify_eq.
Qed.
End Adapter.

(** ** All of them together *)

Fixpoint no_dash (s : string) : bool :=
  match s with
  | EmptyString => true
  | String c s' => negb (bool_decide (c = Ascii.ascii_of_nat 45)) && no_dash s'
  end.

Lemma GetID_inj k1 k2 n1 n2 :
  no_dash k1 = true → no_dash k2 = true → GetID k1 n1 = GetID k2 n2 → k1 = k2 ∧ n1 = n2.
Proof.
  unfold GetID. revert k2. induction k1 as [|c k1 IH]; intros [|d k2] H1 H2 Heq; simpl in *.
  - split; [done|]. by injection Heq.
  - injection Heq as <- _. by rewrite bool_decide_true in H2.
  - injection Heq as -> _. by rewrite bool_decide_true in H1.
  - injection Heq as -> Heq. apply andb_prop in H1 as [_ H1], H2 as [_ H2].
    by destruct (IH k2 H1 H2 Heq) as [-> ->].
Qed.

(** Kind and name of a resource; its ID in the list of descendants. *)
Definition kind_and_name (c : ControllerResource) : string * string :=
  (GetResourceKind c, GetResourceName c).
Definition resource_id (c : ControllerResource) : string :=
  GetID (GetResourceKind c) (GetResourceName c).

(** Kinds and names of the resources of a SecurityConfig. *)
Definition resource_names `{Globals} (sc : SecurityConfig) : list (string * string) :=
  let n := newNameBase sc in
  [("Jwker", TokenxNamer.JwkerName n);
   ("NetworkPolicy", TokenxNamer.EgressName n (cfg_TokenxName Get));
   ("MaskinportenClient", MaskinportenNamer.MaskinportenClientName n);
   ("Secret", MaskinportenNamer.SecretFromRefName n);
   ("ServiceEntry", MaskinportenNamer.ServiceEntryName n);
   ("AzureAdApplication", EntraIdNamer.AzureAdApplicationName n);
   ("Secret", EntraIdNamer.SecretFromRefName n);
   ("ServiceEntry", EntraIdNamer.ServiceEntryName n);
   ("ServiceEntry", IdPortenNamer.ServiceEntryName n);
   ("ServiceEntry", AnsattportenNamer.ServiceEntryName n);
   ("ConfigMap", OpaNamer.ConfigMapName n);
   ("EnvoyFilter", OpaNamer.EnvoyFilterName n)].

Lemma resource_names_NoDup `{Globals} sc : NoDup (resource_names sc).
Proof.
  unfold resource_names. set (n := newNameBase _).
  assert (∀ p q, p ≠ q → ServiceEntryName p n ≠ ServiceEntryName q n) as Hse.
  { intros p q Hne Heq. rewrite !ServiceEntryName_suffix in Heq.
    apply WithShortHashSuffix_inj, provider_dashed_inj in Heq as [? _]. done. }
  pose proof (Hse Maskinporten EntraId ltac:(done)).
  pose proof (Hse Maskinporten IdPorten ltac:(done)).
  pose proof (Hse Maskinporten Ansattporten ltac:(done)).
  pose proof (Hse EntraId IdPorten ltac:(done)).
  pose proof (Hse EntraId Ansattporten ltac:(done)).
  pose proof (Hse IdPorten Ansattporten ltac:(done)). clear Hse.
  repeat (apply NoDup_cons; split);
    [rewrite ?not_elem_of_cons; split_and?; try apply not_elem_of_nil; intros [=]; done..|
     apply NoDup_nil_2].
Qed.

Lemma resource_names_kinds `{Globals} sc p :
  p ∈ resource_names sc → no_dash p.1 = true.
Proof.
  unfold resource_names. rewrite !elem_of_cons, elem_of_nil.
  intros Hp. by destruct_or?; subst.
Qed.

Lemma ids_NoDup (l : list (string * string)) :
  (∀ p, p ∈ l → no_dash p.1 = true) → NoDup l → NoDup ((λ p, GetID p.1 p.2) <$> l).
Proof.
  intros Hk Hnd. induction Hnd as [|[a b] l Hnotin Hnd IH]; [by apply NoDup_nil_2|].
  rewrite fmap_cons. apply NoDup_cons. split.
  - intros ([c d] & Heq & Hin)%list_elem_of_fmap. simpl in *.
    apply GetID_inj in Heq as [-> ->]; [done| |].
    + apply (Hk (a, b)). by left.
    + apply (Hk (c, d)). by right.
  - apply IH. intros p Hp. apply Hk. by right.
Qed.

Section All.
Context `{LibLaws} `{Globals}.

Lemma returns_ok_bind scope o kind name
    (f : ControllerResource → outcome (list ControllerResource)) rfs :
  returns_ok scope o kind name → outcome_bind o f = Ok rfs →
  ∃ c, resource_ok scope c ∧ kind_and_name c = (kind, name) ∧ f c = Ok rfs.
Proof.
  intros Hok (c & Ho & Hf)%outcome_bind_Ok. destruct (Hok c Ho) as (Hr & Hk & Hn).
  exists c. split_and!; [done| |done]. unfold kind_and_name. by rewrite Hk, Hn.
Qed.

Lemma ControllerResources_names scope rfs :
  ControllerResources scope = Ok rfs →
  Forall (resource_ok scope) rfs ∧
  (rfs = [] ∧ sp_InvalidConfig scope = true ∨
   kind_and_name <$> rfs = resource_names (sp_SecurityConfig scope) ∧ sp_InvalidConfig scope = false).
Proof.
  unfold ControllerResources. destruct (sp_InvalidConfig scope); intros Hc.
  { injection Hc as <-. by auto. }
  apply (returns_ok_bind _ _ _ _ _ _ (jwker_ok scope)) in Hc as (c1 & ? & E1 & Hc).
  apply (returns_ok_bind _ _ _ _ _ _ (egress_ok scope)) in Hc as (c2 & ? & E2 & Hc).
  apply (returns_ok_bind _ _ _ _ _ _ (maskinportenClient_ok scope)) in Hc as (c3 & ? & E3 & Hc).
  apply (returns_ok_bind _ _ _ _ _ _ (maskinportenSecret_ok scope)) in Hc as (c4 & ? & E4 & Hc).
  apply (returns_ok_bind _ _ _ _ _ _ (maskinportenServiceEntry_ok scope))
    in Hc as (c5 & ? & E5 & Hc).
  apply (returns_ok_bind _ _ _ _ _ _ (azureAdApplication_ok scope)) in Hc as (c6 & ? & E6 & Hc).
  apply (returns_ok_bind _ _ _ _ _ _ (azureAdSecret_ok scope)) in Hc as (c7 & ? & E7 & Hc).
  apply (returns_ok_bind _ _ _ _ _ _ (azureAdServiceEntry_ok scope)) in Hc as (c8 & ? & E8 & Hc).
  apply (returns_ok_bind _ _ _ _ _ _ (idportenServiceEntry_ok scope)) in Hc as (c9 & ? & E9 & Hc).
  apply (returns_ok_bind _ _ _ _ _ _ (ansattportenServiceEntry_ok scope))
    in Hc as (c10 & ? & E10 & Hc).
  apply (returns_ok_bind _ _ _ _ _ _ (opaConfigMap_ok scope)) in Hc as (c11 & ? & E11 & Hc).
  apply (returns_ok_bind _ _ _ _ _ _ (opaEnvoyFilter_ok scope)) in Hc as (c12 & ? & E12 & Hc).
  injection Hc as <-. split; [by repeat constructor|]. right. split; [|done].
  unfold resource_names. rewrite !fmap_cons, fmap_nil. congruence.
Qed.

(** C14: the resources of a SecurityConfig have pairwise different IDs (kind and
    name), so that no two of them ever reconcile the same object or overwrite each
    other's status, and each of them meets the laws that the reconciliation of a resource
    relies on. *)
Theorem ControllerResources_ids scope rfs :
  ControllerResources scope = Ok rfs →
  NoDup (resource_id <$> rfs) ∧ Forall (resource_ok scope) rfs ∧
  length rfs = if sp_InvalidConfig scope then 0%nat else 12%nat.
Proof.
  intros (Hok & [[-> Hinv]|[Hn Hinv]])%ControllerResources_names; rewrite Hinv.
  { split_and!; [apply NoDup_nil_2|done|done]. }
  split_and!; [|done|by rewrite <-(length_fmap kind_and_name), Hn].
  replace (resource_id <$> rfs) with ((λ p, GetID p.1 p.2) <$> (kind_and_name <$> rfs))
    by (by rewrite <-list_fmap_compose).
  rewrite Hn. apply ids_NoDup; [apply resource_names_kinds|apply resource_names_NoDup].
Qed.

(** What the resolvers guarantee of the configurations in a scope. *)
Definition scope_wf (scope : Scope) : Prop :=
  let m := sp_MaskinportenConfig scope in
  let e := sp_EntraIdConfig scope in
  is_some (cfg_RunsInProduction Get) = true ∧
  (mpc_Enabled m = true → is_managed (mpc_Type m) = true → is_some (mpc_ClientSpec m) = true) ∧
  (mpc_Enabled m = true → mpc_Type m = CfgSecretRef → is_some (mpc_SecretData m) = true) ∧
  (eic_Enabled e = true → is_managed (eic_Type e) = true → is_some (eic_ClientSpec e) = true) ∧
  (eic_Enabled e = true → eic_Type e = CfgSecretRef → is_some (eic_SecretData e) = true).

Lemma deref_some {A} (p : option A) : is_some p = true → ∃ a, deref p = Ok a.
Proof. destruct p as [a|]; [by exists a|done]. Qed.

Lemma resources_exist scope :
  scope_wf scope → ∃ rfs, ControllerResources scope = Ok rfs.
Proof.
  intros (Hp & Hm & Hms & He & Hes). unfold ControllerResources.
  destruct (sp_InvalidConfig scope); [by eexists|].
  unfold maskinportenClientControllerResource, maskinportenSecretControllerResource,
    maskinportenServiceEntryControllerResource, azureAdApplicationControllerResource,
    azureAdSecretControllerResource, idportenServiceEntryControllerResource,
    ansattportenServiceEntryControllerResource, maskinportenclient.GetDesired,
    maskinportensecret.GetDesired, maskinportenserviceentry.GetDesired,
    azureadapplication.GetDesired, azureadsecret.GetDesired,
    idportenserviceentry.GetDesired, ansattportenserviceentry.GetDesired, host_for.
  destruct (deref_some _ Hp) as [prod ->].
  destruct (mpc_Enabled _) eqn:Hme, (eic_Enabled _) eqn:Hee,
    (ipc_Enabled _), (anc_Enabled _); simpl;
    repeat match goal with
    | |- context [is_managed ?t] => destruct (is_managed t) eqn:?; simpl
    | |- context [bool_decide ?P] => destruct (bool_decide_reflect P); simpl
    | |- context [deref (mpc_ClientSpec _)] =>
        destruct (deref_some _ (Hm eq_refl ltac:(done))) as [? ->]; simpl
    | |- context [deref (mpc_SecretData _)] =>
        destruct (deref_some _ (Hms eq_refl ltac:(done))) as [? ->]; simpl
    | |- context [deref (eic_ClientSpec _)] =>
        destruct (deref_some _ (He eq_refl ltac:(done))) as [? ->]; simpl
    | |- context [deref (eic_SecretData _)] =>
        destruct (deref_some _ (Hes eq_refl ltac:(done))) as [? ->]; simpl
    end; by eexists.
Qed.

(** C15: on the configurations that the resolvers produce, the twelve generators
    never dereference a nil pointer. *)
Theorem ControllerResources_total scope :
  scope_wf scope → ∃ rfs, ControllerResources scope = Ok rfs.
Proof. apply resources_exist. Qed.
End All.
