(* ===== verification/Samples.v ===== *)
(** * Concrete inputs

    A configuration of the controller, a SecurityConfig and a scope on which the
    theorems with hypotheses are applied, and the applications for the theorems of
    [Reconciliation].  Nothing here models code. *)
From stdpp Require Import base gmap strings list.
From Stdlib Require Import ZArith Lia.
From S2P Require Import Prelude GoStrings Kube Api Model Cluster ProgTheory RefServer Config Naming State Utilities Reconciliation Generators Resources.
Open Scope go_scope.

#[export] Instance SampleGlobals : Globals := {|
  appCfg :=
    {| cfg_RunsInProduction := Some false; cfg_ClusterName := "dev";
       cfg_TokenxEnabled := true; cfg_TokenxName := "tokendings";
       cfg_TokenxNamespace := "obo"; cfg_TexasImageName := "texas";
       cfg_TexasImageTag := "1"; cfg_TexasImageSha := "abc"; cfg_TexasPort := 3000;
       cfg_TexasProbePort := 3001; cfg_TexasUrlEnvVarName := "TEXAS_URL";
       cfg_TexasCPURequest := "10m"; cfg_TexasCPULimit := "1"; cfg_TexasMemoryRequest := "32Mi";
       cfg_TexasMemoryLimit := "64Mi"; cfg_EntraTenantId := "tenant"; cfg_OpaEnabled := true;
       cfg_OpaImageName := "opa"; cfg_OpaImageTag := "1"; cfg_OpaImageSha := "def";
       cfg_OpaPort := 8181; cfg_OpaGrpcPort := 9191; cfg_OpaUrlEnvVarName := "OPA_URL";
       cfg_OpaAllowedBundleRegistryUrlPrefixes := ["ghcr.io/kartverket"];
       cfg_OpaAllowedBundleSignatureSourceOrgs := ["kartverket"];
       cfg_OpaSelfAuthorizationBundle := None; cfg_OpaCPURequest := "10m";
       cfg_OpaCPULimit := "1"; cfg_OpaMemoryRequest := "32Mi"; cfg_OpaMemoryLimit := "64Mi";
       cfg_SigstoreTufCachePath := "/tmp" |};
  OpaSelfAuthorizationBundleBinaryData := Some {["self" := "bundle"]};
|}%Z.

Definition sample_meta : ObjectMeta :=
  {| m_Name := "cfg"; m_GenerateName := ""; m_Namespace := "team"; m_UID := "u1";
     m_ResourceVersion := "7"; m_Generation := 3; m_DeletionTimestamp := None;
     m_Labels := None; m_Annotations := None; m_OwnerReferences := [] |}.

(** TokenX for the clients [a] (here) and [b] (elsewhere), nothing else. *)
Definition sample_spec : SecurityConfigSpec :=
  {| spec_Tokenx := Some {| tx_Enabled := true;
       tx_AccessPolicy := Some {| aps_InheritInboundRules := true;
         aps_Clients := [{| apc_Application := "a"; apc_Namespace := None |};
                         {| apc_Application := "b"; apc_Namespace := Some "other" |}] |} |};
     spec_Maskinporten := None; spec_EntraID := None; spec_Idporten := None;
     spec_Ansattporten := None; spec_Opa := None; spec_ApplicationRef := "app" |}.

Definition sample_sc : SecurityConfig :=
  {| sc_Kind := "SecurityConfig"; sc_Meta := sample_meta; sc_Spec := sample_spec;
     sc_Status := zero_status |}.

Definition sample_scope : Scope :=
  {| sp_SecurityConfig := sample_sc;
     sp_TokenXConfig := {| txc_Enabled := true; txc_ApplicationRef := "app";
       txc_JwkerSpec := {| js_SecretName := "app-jwker-secret"; js_AccessPolicy := None |} |};
     sp_MaskinportenConfig := {| mpc_Enabled := false; mpc_Type := CfgInlineClient;
       mpc_ClientSpec := None; mpc_ClientRef := None; mpc_SecretData := None |};
     sp_EntraIdConfig := {| eic_Enabled := false; eic_Type := CfgInlineClient;
       eic_ClientSpec := None; eic_ClientRef := None; eic_SecretData := None |};
     sp_IdPortenConfig := {| ipc_Enabled := true; ipc_Audience := "aud" |};
     sp_AnsattportenConfig := {| anc_Enabled := false; anc_Audience := "" |};
     sp_OpaConfig := {| opc_Enabled := false; opc_BundleBinaryData := None;
       opc_RequestPolicy := {| rpc_Enabled := false; rpc_WorkloadLabels := ∅;
         rpc_ClusterConfigPatchValue := None;
         rpc_ExternalAuthorizationConfigPatchValue := None |} |};
     sp_Descendants := []; sp_InvalidConfig := false; sp_ValidationErrorMessage := None |}.

(** The Jwker of the sample, and its resource. *)
Definition sample_jwker : Object KJwker :=
  @MkObject KJwker "" (resource_meta sample_scope "app" None)
    {| jwker_Spec := txc_JwkerSpec (sp_TokenXConfig sample_scope); jwker_Status := zero_sync |}.
Definition sample_rf : ResourceReconciler KJwker :=
  {| rf_ResourceKind := "Jwker"; rf_ResourceName := "app";
     rf_DesiredResource := Some (Some sample_jwker);
     rf_ShouldUpdate := jwkerShouldUpdate; rf_UpdateFields := jwkerUpdateFields |}.

(** ** Applications *)

Lemma sample_rf_ok : resource_ok sample_scope (ControllerResourceAdapter KJwker sample_rf).
Proof. by apply (jwker_ok sample_scope). Qed.

(** The Jwker as it is created, and as the server stores it. *)
Definition sample_created : Object KJwker :=
  o_with_meta sample_jwker
    (with_owners (o_Meta sample_jwker)
       [{| or_Kind := "SecurityConfig"; or_Name := "cfg"; or_UID := "u1";
           or_Controller := Some true |}]).
Definition sample_stored : Object KJwker :=
  MkObject "Jwker" (o_Meta sample_created) (o_Body sample_created).
Definition sample_store : Store := put empty_store sample_stored.

(** Not found, then created. *)
Definition sample_history : history :=
  [Ev (OpGet KJwker ("team", "app")) (Err not_found);
   Ev (OpCreate KJwker sample_created) (Ok sample_stored)].

Lemma ReconcileControllerResource_safe_witness :
  guarded sample_meta KJwker "app" (take 1 sample_history) (OpCreate KJwker sample_created).
Proof.
  eapply (ReconcileControllerResource_safe sample_rf sample_scope sample_history _
            (proj1 sample_rf_ok)).
  - do 2 apply steps_op. apply steps_refl.
  - reflexivity.
Defined.

Lemma ReconcileControllerResource_records_witness :
  ∃ rs, recorded sample_rf sample_scope rs ∧ is_ok rs.1 = true.
Proof.
  eexists. split.
  - eapply (ReconcileControllerResource_records sample_rf sample_scope sample_history _
              (proj1 sample_rf_ok)).
    + do 2 apply steps_op. apply steps_refl.
    + constructor; [exact I|]. constructor; [reflexivity|constructor].
  - reflexivity.
Defined.

Lemma ReconcileControllerResource_converges_witness :
  let rsw := run (ReconcileControllerResource sample_rf sample_scope) empty_store in
  converged sample_meta sample_rf agrees rsw.2.
Proof.
  intros rsw.
  apply (ReconcileControllerResource_converges agrees sample_rf sample_scope empty_store
           rsw.1 rsw.2 (proj1 sample_rf_ok) (proj1 (proj2 sample_rf_ok))).
  - apply surjective_pairing.
  - vm_compute. reflexivity.
Defined.

Lemma sample_store_converged : converged sample_meta sample_rf agrees sample_store.
Proof.
  unfold converged. exists sample_stored. split_and!; [by vm_compute|by vm_compute|].
  unfold agrees. by split_and!.
Qed.

Lemma ReconcileControllerResource_idempotent_witness :
  let rsw := run (ReconcileControllerResource sample_rf sample_scope) sample_store in
  rsw.2 = sample_store ∧ rsw.1.1 = Ok zero_result.
Proof.
  intros rsw.
  eapply (ReconcileControllerResource_idempotent agrees sample_rf sample_scope sample_store
            rsw.1 rsw.2 sample_stored (proj2 (proj2 sample_rf_ok) (or_introl eq_refl))
            sample_store_converged eq_refl).
  - vm_compute. reflexivity.
  - apply surjective_pairing.
Defined.

Lemma ReplaceDescendant_spec_witness :
  let s' := ReplaceDescendant sample_scope (AnyObj KJwker sample_jwker) None (Some "ok")
              "Jwker" "app" in
  find_descendant s' "Jwker-app" =
  Some {| d_ID := "Jwker-app"; d_Object := AnyObj KJwker sample_jwker;
          d_ErrorMessage := None; d_SuccessMessage := Some "ok" |}.
Proof.
  destruct (ReplaceDescendant_spec sample_scope (AnyObj KJwker sample_jwker) None (Some "ok")
              "Jwker" "app") as (_ & _ & _ & Hnd).
  apply (Hnd NoDup_nil_2).
Defined.

Definition sample_resources : list ControllerResource :=
  match ControllerResources sample_scope with Ok l => l | _ => [] end.

Lemma ControllerResources_ids_witness :
  NoDup (resource_id <$> sample_resources) ∧ length sample_resources = 12%nat.
Proof.
  destruct (ControllerResources_ids sample_scope sample_resources) as (H1 & _ & H2);
    [reflexivity|]. split; [exact H1|exact H2].
Defined.

Lemma ControllerResources_total_witness : ∃ rfs, ControllerResources sample_scope = Ok rfs.
Proof.
  apply (ControllerResources_total sample_scope). unfold scope_wf. by split_and!.
Defined.

(** A decision procedure for honest histories. *)
Definition honestb (e : event) : bool :=
  match e with
  | Ev (OpGet k key) r =>
      match r with
      | Ok o => bool_decide (key_of o = key) &&
                (bool_decide (o_Kind o = "") || bool_decide (o_Kind o = kind_name k))
      | _ => true
      end
  | Ev (OpCreate k o) r => match r with Ok o' => bool_decide (key_of o' = key_of o) | _ => true end
  | _ => true
  end.

Lemma honestb_honest h : forallb honestb h = true → Forall honest h.
Proof.
  intros Hh. rewrite forallb_forall in Hh. apply Forall_forall. intros [op r] Hin.
  specialize (Hh _ (proj1 (list_elem_of_In _ _) Hin)).
  destruct op; try exact I; destruct r as [o'|e|w]; try exact I; simpl in *.
  - apply andb_prop in Hh as [Hk Ho]. apply bool_decide_eq_true in Hk. split; [done|].
    apply orb_prop in Ho as [Ho|Ho]; apply bool_decide_eq_true in Ho; auto.
  - by apply bool_decide_eq_true in Hh.
Qed.
