(* ===== verification/Resolver.v ===== *)
(** * Resolving a SecurityConfig: [internal/resolver]

    Each resolver turns one part of the spec into a configuration of the scope,
    reading Applications, Namespaces, Secrets, ConfigMaps and OCI layers.  The
    theorems: the resolvers write nothing; what they return is well formed, so that
    no generator panics on it; the rules of TokenX are complete and free of
    duplicates; an audience is never empty. *)
From stdpp Require Import base gmap strings list.
From Stdlib Require Import ZArith Lia.
From S2P Require Import Prelude GoStrings Kube Api Model Cluster ProgTheory RefServer Config Naming State Utilities Reconciliation Generators Resources Samples.
Open Scope go_scope.

(** [const] blocks of [maskinporten_resolver.go] and [entraid_resolver.go]. *)
Definition MaskinportenIssuerEnvVar : string := "MASKINPORTEN_ISSUER".
Definition MaskinportenTokenEndpointEnvVar : string := "MASKINPORTEN_TOKEN_ENDPOINT".
Definition MaskinportenJwksUriEnvVar : string := "MASKINPORTEN_JWKS_URI".
Definition MaskinportenClientIdEnvVar : string := "MASKINPORTEN_CLIENT_ID".
Definition MaskinportenClientJwkEnvVar : string := "MASKINPORTEN_CLIENT_JWK".
Definition AzureOpenidConfigIssuerEnvVar : string := "AZURE_OPENID_CONFIG_ISSUER".
Definition AzureOpenidConfigTokenEndpointEnvVar : string := "AZURE_OPENID_CONFIG_TOKEN_ENDPOINT".
Definition AzureOpenidConfigJwksUriEnvVar : string := "AZURE_OPENID_CONFIG_JWKS_URI".
Definition AzureAppClientIdEnvVar : string := "AZURE_APP_CLIENT_ID".
Definition AzureAppClientJwkEnvVar : string := "AZURE_APP_JWK".

(** A loop over a slice whose body may fail: the results in order. *)
Fixpoint gom_mapM {A B : Type} (f : A → GoM B) (l : list A) : GoM (list B) :=
  match l with
  | [] => Ret (Ok [])
  | a :: l' => let! b := f a in let! bs := gom_mapM f l' in Ret (Ok (b :: bs))
  end.

Section Resolvers.
Context `{Lib} `{Globals}.

(** ** TokenX *)

(** The namespace list is empty when there is an error. *)
Definition getNamespacesByLabel (rule : InternalRule) : GoM (list (Object KNamespace)) :=
  match LabelSelectorAsSelector (match_labels (ir_NamespacesByLabel rule)) with
  | Panic w => Ret (Panic w)
  | Err err => Ret (Err (wrapf "failed to create label selector: " err))
  | Ok selectorString =>
      gom_on_err (wrapf "failed to list namespaces: ") (call (OpListNamespaces selectorString))
  end.

(** The list of namespaces and the list of errors. *)
Definition getNamespaceListForInboundRule (rule : InternalRule)
    (securityConfigNamespace : string) : GoM (list string * list error) :=
  if negb (bool_decide (ir_Namespace rule = "")) then
    Ret (Ok (Sort [ir_Namespace rule], []))
  else if negb (bool_decide (ir_NamespacesByLabel rule = ∅)) then
    let* namespaces := getNamespacesByLabel rule in
    match namespaces with
    | Ok items => Ret (Ok (Sort (map o_Name items), []))
    | Err err => Ret (Ok (Sort [], [err]))
    | Panic w => Ret (Panic w)
    end
  else Ret (Ok (Sort [securityConfigNamespace], [])).

Definition inbound_rule (application namespace : string) : AccessPolicyInboundRule :=
  {| air_AccessPolicyRule := {| apr_Application := application; apr_Namespace := namespace;
                                apr_Cluster := cfg_ClusterName Get |};
     air_Permissions := None |}.

(** The rules inherited from one rule of the Application. *)
Definition inherited_rules (securityConfigNamespace : string) (rule : InternalRule) :
    GoM (list AccessPolicyInboundRule) :=
  let! r := getNamespaceListForInboundRule rule securityConfigNamespace in
  let (namespaceList, errs) := r : list string * list error in
  match errs with
  | [] => Ret (Ok (map (inbound_rule (ir_Application rule)) namespaceList))
  | _ => Ret (Err (wrapf "failed to resolve Namespaces: " (Joined errs)))
  end.

(** [Spec.AccessPolicy.Inbound.Rules] of the Application, empty if any part is nil. *)
Definition application_rules (skiperatorApplication : Application) : list InternalRule :=
  match app_AccessPolicy skiperatorApplication with
  | Some p => match sap_Inbound p with Some i => ip_Rules i | None => [] end
  | None => []
  end.

Definition client_rule (securityConfigNamespace : string) (c : AccessPolicyClient) :
    AccessPolicyInboundRule :=
  inbound_rule (apc_Application c) (default securityConfigNamespace (apc_Namespace c)).

Definition resolveJwkerInboundRules (securityConfig : SecurityConfig) (tokenx : TokenXSpec)
    (skiperatorApplication : Application) : GoM (list AccessPolicyInboundRule) :=
  match tx_AccessPolicy tokenx with
  | None => Ret (Ok [])
  | Some policy =>
      let! inherited :=
        (if aps_InheritInboundRules policy
         then gom_mapM (inherited_rules (sc_Namespace securityConfig))
                (application_rules skiperatorApplication)
         else Ret (Ok [])) in
      let clients := map (client_rule (sc_Namespace securityConfig)) (aps_Clients policy) in
      Ret (Ok (UniqueSliceElements (concat inherited ++ clients)))
  end.

Definition zero_jwker_spec : JwkerSpec := {| js_SecretName := ""; js_AccessPolicy := None |}.

Definition ResolveTokenXConfig (securityConfig : SecurityConfig) : GoM TokenXConfig :=
  let spec := sc_Spec securityConfig in
  if is_some (spec_Tokenx spec) && negb (cfg_TokenxEnabled Get) then
    Ret (Err (ErrorString
      "TokenX is not enabled on this cluster and 'spec.tokenx' can therefore not be set"))
  else
    match spec_Tokenx spec with
    | Some tokenx =>
        if tx_Enabled tokenx then
          let! application :=
            gom_on_err (wrapf ("failed to fetch Application resource named " +:+
                               spec_ApplicationRef spec +:+ ": "))
              (call (OpGet KApplication (sc_Namespace securityConfig, spec_ApplicationRef spec))) in
          let! rules := resolveJwkerInboundRules securityConfig tokenx (o_Body application) in
          Ret (Ok
            {| txc_Enabled := true; txc_ApplicationRef := spec_ApplicationRef spec;
               txc_JwkerSpec :=
                 {| js_SecretName := TokenxNamer.SecretName (newNameBase securityConfig);
                    js_AccessPolicy :=
                      Some {| ap_Inbound := Some rules;
                              ap_Outbound := Some {| apo_Rules := []; apo_External := [] |} |} |} |})
        else Ret (Ok {| txc_Enabled := false; txc_ApplicationRef := "";
                        txc_JwkerSpec := zero_jwker_spec |})
    | None => Ret (Ok {| txc_Enabled := false; txc_ApplicationRef := "";
                         txc_JwkerSpec := zero_jwker_spec |})
    end.

(** ** Maskinporten *)

(** The client id and the JWK, each from its Secret. *)
Definition secret_pair (secretRef : SecretRef) (namespace : string) : GoM (string * string) :=
  let! clientIdData := GetSecretDataByKey (sks_Name (sref_ClientID secretRef)) namespace
                         (sks_Key (sref_ClientID secretRef)) in
  let! clientJwkData := GetSecretDataByKey (sks_Name (sref_ClientJWK secretRef)) namespace
                          (sks_Key (sref_ClientJWK secretRef)) in
  Ret (Ok (clientIdData, clientJwkData)).

Definition GetMaskinportenSecretData (secretRef : SecretRef) (namespace : string) :
    GoM (gmap string string) :=
  let! data := secret_pair secretRef namespace in
  let secretData : gmap string string :=
    <[MaskinportenClientIdEnvVar := data.1]> (<[MaskinportenClientJwkEnvVar := data.2]> ∅) in
  let! production := lift (deref (cfg_RunsInProduction Get)) in
  if production : bool then
    Ret (Ok (<[MaskinportenJwksUriEnvVar := MaskinportenProdJwksUri]>
            (<[MaskinportenTokenEndpointEnvVar := MaskinportenProdTokenEndpoint]>
            (<[MaskinportenIssuerEnvVar := MaskinportenProdIssuer]> secretData))))
  else
    Ret (Ok (<[MaskinportenJwksUriEnvVar := MaskinportenTestJwksUri]>
            (<[MaskinportenTokenEndpointEnvVar := MaskinportenTestTokenEndpoint]>
            (<[MaskinportenIssuerEnvVar := MaskinportenTestIssuer]> secretData)))).

Definition maskinporten_off : MaskinportenConfig :=
  {| mpc_Enabled := false; mpc_Type := CfgInlineClient; mpc_ClientSpec := None;
     mpc_ClientRef := None; mpc_SecretData := None |}.

Definition ResolveMaskinportenConfig (securityConfig : SecurityConfig) : GoM MaskinportenConfig :=
  let names := newNameBase securityConfig in
  match spec_Maskinporten (sc_Spec securityConfig) with
  | None => Ret (Ok maskinporten_off)
  | Some spec =>
    if negb (mp_Enabled spec) then Ret (Ok maskinporten_off)
    else
      let! maskinportenConfigType := lift (DetermineConfigType spec) in
      match maskinportenConfigType with
      | CfgInlineClient =>
          let! client := lift (deref (mp_Client spec)) in
          let consumedScopes :=
            match mc_Scopes client with Some s => ms_ConsumedScopes s | None => [] end in
          Ret (Ok {| mpc_Enabled := true; mpc_Type := maskinportenConfigType;
                     mpc_ClientSpec :=
                       Some {| nmc_ClientName := mc_ClientName client;
                               nmc_Scopes := {| nms_ConsumedScopes := consumedScopes;
                                                nms_ExposedScopes := [] |};
                               nmc_SecretName := MaskinportenNamer.SecretName names |};
                     mpc_ClientRef := None; mpc_SecretData := None |})
      | CfgClientRef =>
          Ret (Ok {| mpc_Enabled := true; mpc_Type := maskinportenConfigType;
                     mpc_ClientSpec := None; mpc_ClientRef := mp_ClientRef spec;
                     mpc_SecretData := None |})
      | CfgSecretRef =>
          let! secretRef := lift (deref (mp_SecretRef spec)) in
          let! maskinportenSecretData :=
            gom_on_err (wrapf "failed to get Maskinporten secret data: ")
              (GetMaskinportenSecretData secretRef (sc_Namespace securityConfig)) in
          Ret (Ok {| mpc_Enabled := true; mpc_Type := maskinportenConfigType;
                     mpc_ClientSpec := None; mpc_ClientRef := None;
                     mpc_SecretData := Some maskinportenSecretData |})
      | CfgNone =>
          Ret (Ok {| mpc_Enabled := true; mpc_Type := maskinportenConfigType;
                     mpc_ClientSpec :=
                       Some {| nmc_ClientName := MaskinportenNamer.MaskinportenClientName names;
                               nmc_Scopes := {| nms_ConsumedScopes := [];
                                                nms_ExposedScopes := [] |};
                               nmc_SecretName := MaskinportenNamer.SecretName names |};
                     mpc_ClientRef := None; mpc_SecretData := None |})
      | CfgOther n =>
          Ret (Err (ErrorString ("unrecognized Maskinporten config type: " +:+ itoa n)))
      end
  end.

(** ** Entra ID *)

Definition secretNameOrDefault (securityConfig : SecurityConfig)
    (client : AzureAdApplicationSpec) : string :=
  if bool_decide (aa_SecretName client = "")
  then EntraIdNamer.SecretName (newNameBase securityConfig)
  else aa_SecretName client.

Definition GetEntraIdSecretData (secretRef : SecretRef) (namespace : string) :
    GoM (gmap string string) :=
  let! data := secret_pair secretRef namespace in
  let tenantId := cfg_EntraTenantId Get in
  Ret (Ok (<[AzureAppClientIdEnvVar := data.1]>
          (<[AzureAppClientJwkEnvVar := data.2]>
          (<[AzureOpenidConfigIssuerEnvVar := EntraIdIssuer tenantId]>
          (<[AzureOpenidConfigTokenEndpointEnvVar := EntraIdTokenEndpoint tenantId]>
          (<[AzureOpenidConfigJwksUriEnvVar := EntraIdJwksUri tenantId]> ∅)))))).

Definition entraid_off : EntraIdConfig :=
  {| eic_Enabled := false; eic_Type := CfgInlineClient; eic_ClientSpec := None;
     eic_ClientRef := None; eic_SecretData := None |}.

(** An [AzureAdApplicationSpec] with nothing but a secret name. *)
Definition azure_spec (secretName : string) : NaisAzureAdApplicationSpec :=
  {| naa_SecretName := secretName; naa_Claims := None; naa_LogoutUrl := "";
     naa_PreAuthorizedApplications := []; naa_ReplyUrls := [];
     naa_SinglePageApplication := None; naa_Other := VNull |}.

Definition ResolveEntraIdConfig (securityConfig : SecurityConfig) : GoM EntraIdConfig :=
  let names := newNameBase securityConfig in
  match spec_EntraID (sc_Spec securityConfig) with
  | None => Ret (Ok entraid_off)
  | Some spec =>
    if negb (ei_Enabled spec) then Ret (Ok entraid_off)
    else
      let! entraIdConfigType := lift (DetermineConfigType spec) in
      match entraIdConfigType with
      | CfgInlineClient =>
          let! client := lift (deref (ei_Client spec)) in
          let claims :=
            match aa_Groups client with
            | Some groups => Some {| aac_Groups := groups; aac_Extra := [] |}
            | None => None
            end in
          Ret (Ok {| eic_Enabled := true; eic_Type := entraIdConfigType;
                     eic_ClientSpec :=
                       Some {| naa_SecretName := secretNameOrDefault securityConfig client;
                               naa_Claims := claims; naa_LogoutUrl := aa_LogoutUrl client;
                               naa_PreAuthorizedApplications :=
                                 aa_PreAuthorizedApplications client;
                               naa_ReplyUrls := aa_ReplyUrls client;
                               naa_SinglePageApplication := aa_SinglePageApplication client;
                               naa_Other := VNull |};
                     eic_ClientRef := None; eic_SecretData := None |})
      | CfgClientRef =>
          Ret (Ok {| eic_Enabled := true; eic_Type := entraIdConfigType;
                     eic_ClientSpec := None; eic_ClientRef := ei_ClientRef spec;
                     eic_SecretData := None |})
      | CfgSecretRef =>
          let! secretRef := lift (deref (ei_SecretRef spec)) in
          let! entraIdSecretData :=
            gom_on_err (wrapf "failed to get Entra ID secret data: ")
              (GetEntraIdSecretData secretRef (sc_Namespace securityConfig)) in
          Ret (Ok {| eic_Enabled := true; eic_Type := entraIdConfigType;
                     eic_ClientSpec := None; eic_ClientRef := None;
                     eic_SecretData := Some entraIdSecretData |})
      | CfgNone =>
          Ret (Ok {| eic_Enabled := true; eic_Type := entraIdConfigType;
                     eic_ClientSpec := Some (azure_spec (EntraIdNamer.SecretName names));
                     eic_ClientRef := None; eic_SecretData := None |})
      | CfgOther n =>
          Ret (Err (ErrorString ("unrecognized Entra ID config type: " +:+ itoa n)))
      end
  end.

(** ** Audiences: ID-porten and Ansattporten *)

Definition resolveAudienceRef (namespace : string) (valueFrom : ValueFrom) : GoM string :=
  if is_some (vf_ConfigMapKeyRef valueFrom) && is_some (vf_SecretKeyRef valueFrom) then
    Ret (Err (ErrorString "cannot get value from both ConfigMap and Secret"))
  else match vf_ConfigMapKeyRef valueFrom with
  | Some ref =>
      let! configMap :=
        gom_on_err (λ _, ErrorString ("configmap " +:+ slash namespace (kr_Name ref) +:+
                                      " was not found"))
          (GetConfigMap (namespace, kr_Name ref)) in
      let value := default "" (cm_Data (o_Body configMap) !! kr_Key ref) in
      if bool_decide (value = "") then
        Ret (Err (ErrorString ("audience value from configmap " +:+ slash namespace (kr_Name ref)
                               +:+ " key " +:+ kr_Key ref +:+ " is empty or missing")))
      else Ret (Ok value)
  | None =>
      match vf_SecretKeyRef valueFrom with
      | None => Ret (Err (ErrorString "both configMapKeyRef and secretKeyRef cannot be nil"))
      | Some ref =>
          let! secret :=
            gom_on_err (λ _, ErrorString ("secret " +:+ slash namespace (kr_Name ref) +:+
                                          " was not found"))
              (GetSecret (namespace, kr_Name ref)) in
          let value := default "" (sec_Data (o_Body secret) !! kr_Key ref) in
          if bool_decide (value = "") then
            Ret (Err (ErrorString ("audience value from secret " +:+ slash namespace (kr_Name ref)
                                   +:+ " key " +:+ kr_Key ref +:+ " is empty or missing")))
          else Ret (Ok value)
      end
  end.

(** One turn of the loop of [ResolveAudiences]: the audiences it appends. *)
Definition resolve_audience (namespace : string) (audience : AllowedAudience) :
    GoM (list string) :=
  if is_some (al_Value audience) && is_some (al_ValueFrom audience) then
    Ret (Err (ErrorString "cannot define an audience as both string and ConfigMap/Secret ref"))
  else match al_Value audience with
  | Some value =>
      if bool_decide (value = "") then Ret (Err (ErrorString "audience value cannot be empty"))
      else Ret (Ok [value])
  | None =>
      match al_ValueFrom audience with
      | Some valueFrom =>
          let! resolved := gom_on_err (wrapf "failed to resolve audience reference: ")
                             (resolveAudienceRef namespace valueFrom) in
          Ret (Ok [resolved])
      | None => Ret (Ok [])
      end
  end.

Definition ResolveAudiences (namespace : string) (allowedAudiences : list AllowedAudience) :
    GoM (list string) :=
  let! resolvedAudiences := gom_mapM (resolve_audience namespace) allowedAudiences in
  Ret (Ok (concat resolvedAudiences)).

(** [len(list) != 1] is an error, else the one element. *)
Definition exactly_one (provider : string) (l : list string) : outcome string :=
  match l with
  | [a] => Ok a
  | _ => Err (ErrorString (provider +:+ " requires exactly one allowed audience, got " +:+
                           itoa (Z.of_nat (length l))))
  end.

Definition ResolveIdPortenConfig (securityConfig : SecurityConfig) : GoM IdPortenConfig :=
  match spec_Idporten (sc_Spec securityConfig) with
  | None => Ret (Ok {| ipc_Enabled := false; ipc_Audience := "" |})
  | Some spec =>
    if negb (ip_Enabled spec) then Ret (Ok {| ipc_Enabled := false; ipc_Audience := "" |})
    else
      let! resolvedAudiences :=
        gom_on_err (wrapf "failed to resolve ID-porten allowed audiences: ")
          (ResolveAudiences (sc_Namespace securityConfig) [ip_AllowedAudience spec]) in
      let! audience := lift (exactly_one "idporten" resolvedAudiences) in
      Ret (Ok {| ipc_Enabled := true; ipc_Audience := audience |})
  end.

Definition ResolveAnsattportenConfig (securityConfig : SecurityConfig) : GoM AnsattportenConfig :=
  match spec_Ansattporten (sc_Spec securityConfig) with
  | None => Ret (Ok {| anc_Enabled := false; anc_Audience := "" |})
  | Some spec =>
    if negb (an_Enabled spec) then Ret (Ok {| anc_Enabled := false; anc_Audience := "" |})
    else
      let! resolvedAudiences :=
        gom_on_err (wrapf "failed to resolve Ansattporten allowed audiences: ")
          (ResolveAudiences (sc_Namespace securityConfig) [an_AllowedAudience spec]) in
      let! audience := lift (exactly_one "ansattporten" resolvedAudiences) in
      Ret (Ok {| anc_Enabled := true; anc_Audience := audience |})
  end.

(** ** OPA *)

Definition zero_request_policy : RequestPolicyConfig :=
  {| rpc_Enabled := false; rpc_WorkloadLabels := ∅; rpc_ClusterConfigPatchValue := None;
     rpc_ExternalAuthorizationConfigPatchValue := None |}.

Definition ResolveOpaRequestPolicy (skiperatorAppName : string)
    (requestPolicySpec : OpaRequestPolicy) : outcome RequestPolicyConfig :=
  let labels : gmap string string := {[SkiperatorApplicationRefLabel := skiperatorAppName]} in
  if negb (rp_Enabled requestPolicySpec) then
    Ok {| rpc_Enabled := rp_Enabled requestPolicySpec; rpc_WorkloadLabels := labels;
          rpc_ClusterConfigPatchValue := None;
          rpc_ExternalAuthorizationConfigPatchValue := None |}
  else
    let filterConfig := ToOpaEnvoyExtAuthzFilterConfig requestPolicySpec in
    let? localOpaClusterConfigAsProtobufStruct :=
      on_err (wrapf "failed to parse envoy cluster config for local OPA as protobuf struct: ")
        (NewStruct (GetLocalClusterConfig (fc_OpaClusterName filterConfig) (cfg_OpaGrpcPort Get))) in
    let? externalAuthorizationFilterConfig :=
      on_err (wrapf
        "failed to parse envoy external authorization filter config as protobuf struct: ")
        (NewStruct (GetExternalAuthorizationFilterConfig filterConfig)) in
    Ok {| rpc_Enabled := rp_Enabled requestPolicySpec; rpc_WorkloadLabels := labels;
          rpc_ClusterConfigPatchValue := Some localOpaClusterConfigAsProtobufStruct;
          rpc_ExternalAuthorizationConfigPatchValue := Some externalAuthorizationFilterConfig |}.

(** The fetcher is [DefaultOpaBundleFetcher], the registry. *)
Definition resolveOpaBundle (bundle : OpaBundle) : GoM string :=
  let! ociRepoAndDigest :=
    gom_on_err (wrapf ("failed to resolve OCI bundle digest for " +:+ ob_URL bundle +:+ ": "))
      (call (OpResolveOci (ob_URL bundle))) in
  gom_on_err (wrapf ("failed to fetch OCI bundle layer for " +:+ ob_URL bundle +:+ ": "))
    (call (OpFetchOpaBundleLayer ociRepoAndDigest)).

(** [m\[key\] = value]: panics on a nil map. *)
Definition assign {V : Type} (m : gomap V) (key : string) (value : V) : outcome (gomap V) :=
  match m with
  | Some m => Ok (Some (<[key := value]> m))
  | None => Panic "assignment to entry in nil map"
  end.

(** The loop that fetches the bundles into the map. *)
Fixpoint resolve_bundles (data : gomap string) (bundles : list OpaBundle) : GoM (gomap string) :=
  match bundles with
  | [] => Ret (Ok data)
  | bundle :: rest =>
      let! layer := resolveOpaBundle bundle in
      let! data := lift (assign data (ob_Name bundle) layer) in
      resolve_bundles data rest
  end.

Definition ResolveOpaConfig (securityConfig : SecurityConfig) : GoM OpaConfig :=
  let spec := sc_Spec securityConfig in
  let off := {| opc_Enabled := false; opc_BundleBinaryData := None;
                opc_RequestPolicy := zero_request_policy |} in
  if is_some (spec_Opa spec) && negb (cfg_OpaEnabled Get) then
    Ret (Err (ErrorString
      "OPA is not enabled on this cluster and 'spec.opa' can therefore not be set"))
  else match spec_Opa spec with
  | None => Ret (Ok off)
  | Some opa =>
    if negb (opa_Enabled opa) then Ret (Ok off)
    else match opa_BundleURLs opa with
    | [] => Ret (Err (ErrorString
              ("no OPA bundle URLs found in SecurityConfig " +:+
               slash (sc_Namespace securityConfig) (sc_Name securityConfig))))
    | urls =>
      let bundles := ToOpaBundles urls in
      let! data := resolve_bundles OpaSelfAuthorizationBundleBinaryData bundles in
      match opa_RequestPolicy opa with
      | None => Ret (Ok {| opc_Enabled := true; opc_BundleBinaryData := data;
                           opc_RequestPolicy := zero_request_policy |})
      | Some policy =>
        let! requestAuthorizationConfig :=
          lift (on_err (wrapf "failed to resolve OPA request authorization config: ")
                  (ResolveOpaRequestPolicy (spec_ApplicationRef spec) policy)) in
        Ret (Ok {| opc_Enabled := true; opc_BundleBinaryData := data;
                   opc_RequestPolicy := requestAuthorizationConfig |})
      end
    end
  end.

(** ** The whole SecurityConfig *)

Definition ResolveSecurityConfig (securityConfig : SecurityConfig) : GoM Scope :=
  let! tokenxConfig := gom_on_err (wrapf "failed to resolve TokenX config: ")
                         (ResolveTokenXConfig securityConfig) in
  let! maskinportenConfig := gom_on_err (wrapf "failed to resolve Maskinporten config: ")
                               (ResolveMaskinportenConfig securityConfig) in
  let! entraIdConfig := gom_on_err (wrapf "failed to resolve Entra ID config: ")
                          (ResolveEntraIdConfig securityConfig) in
  let! idPortenConfig := gom_on_err (wrapf "failed to resolve ID-porten config: ")
                           (ResolveIdPortenConfig securityConfig) in
  let! ansattportenConfig := gom_on_err (wrapf "failed to resolve Ansattporten config: ")
                               (ResolveAnsattportenConfig securityConfig) in
  let! opaConfig := gom_on_err (wrapf "failed to resolve OPA config: ")
                      (ResolveOpaConfig securityConfig) in
  Ret (Ok {| sp_SecurityConfig := securityConfig; sp_TokenXConfig := tokenxConfig;
             sp_MaskinportenConfig := maskinportenConfig; sp_EntraIdConfig := entraIdConfig;
             sp_IdPortenConfig := idPortenConfig; sp_AnsattportenConfig := ansattportenConfig;
             sp_OpaConfig := opaConfig; sp_Descendants := []; sp_InvalidConfig := false;
             sp_ValidationErrorMessage := None |}).
End Resolvers.

(** ** Specifications *)

(** The names of the Secrets and of the ConfigMaps that a spec refers to. *)
Definition secret_ref_names (r : option SecretRef) : list string :=
  match r with
  | Some r => [sks_Name (sref_ClientID r); sks_Name (sref_ClientJWK r)]
  | None => []
  end.
Definition key_ref_names (r : option KeyRef) : list string :=
  match r with Some r => [kr_Name r] | None => [] end.
Definition audience_refs (f : ValueFrom → option KeyRef) (a : AllowedAudience) : list string :=
  match al_ValueFrom a with Some v => key_ref_names (f v) | None => [] end.

Definition audience_sources (f : ValueFrom → option KeyRef) (s : SecurityConfigSpec) :
    list string :=
  match spec_Idporten s with
  | Some i => audience_refs f (ip_AllowedAudience i) | None => [] end ++
  match spec_Ansattporten s with
  | Some a => audience_refs f (an_AllowedAudience a) | None => [] end.

Definition secret_sources (s : SecurityConfigSpec) : list string :=
  match spec_Maskinporten s with
  | Some m => secret_ref_names (mp_SecretRef m) | None => [] end ++
  match spec_EntraID s with
  | Some e => secret_ref_names (ei_SecretRef e) | None => [] end ++
  audience_sources vf_SecretKeyRef s.

Definition configmap_sources (s : SecurityConfigSpec) : list string :=
  audience_sources vf_ConfigMapKeyRef s.

(** The calls a resolver of [sc] may make: reads of the referenced objects in its own
    namespace, the list of namespaces, and the registry. *)
Definition resolver_read (sc : SecurityConfig) (op : Op) : Prop :=
  match op with
  | OpGet KApplication key => key = (sc_Namespace sc, spec_ApplicationRef (sc_Spec sc))
  | OpGet KSecret key => key.1 = sc_Namespace sc ∧ key.2 ∈ secret_sources (sc_Spec sc)
  | OpGet KConfigMap key => key.1 = sc_Namespace sc ∧ key.2 ∈ configmap_sources (sc_Spec sc)
  | OpListNamespaces _ | OpResolveOci _ | OpFetchOpaBundleLayer _ => True
  | _ => False
  end.

(** A scope as the resolvers return it. *)
Definition resolved (sc : SecurityConfig) (scope : Scope) : Prop :=
  sp_SecurityConfig scope = sc ∧ sp_Descendants scope = [] ∧ sp_InvalidConfig scope = false ∧
  (ipc_Enabled (sp_IdPortenConfig scope) = true → ipc_Audience (sp_IdPortenConfig scope) ≠ "") ∧
  (anc_Enabled (sp_AnsattportenConfig scope) = true →
   anc_Audience (sp_AnsattportenConfig scope) ≠ "").

Definition maskinporten_wf (m : MaskinportenConfig) : Prop :=
  mpc_Enabled m = true →
  (is_managed (mpc_Type m) = true → is_some (mpc_ClientSpec m) = true) ∧
  (mpc_Type m = CfgSecretRef → is_some (mpc_SecretData m) = true) ∧
  (mpc_Type m = CfgClientRef → is_some (mpc_ClientRef m) = true) ∧
  ∀ n, mpc_Type m ≠ CfgOther n.

Definition entraid_wf (e : EntraIdConfig) : Prop :=
  eic_Enabled e = true →
  (is_managed (eic_Type e) = true → is_some (eic_ClientSpec e) = true) ∧
  (eic_Type e = CfgSecretRef → is_some (eic_SecretData e) = true) ∧
  (eic_Type e = CfgClientRef → is_some (eic_ClientRef e) = true) ∧
  ∀ n, eic_Type e ≠ CfgOther n.

(** ** Theorems *)

Lemma all_ops_mapM {A B} (P : Op → Prop) (f : A → GoM B) l :
  (∀ a, a ∈ l → all_ops P (f a)) → all_ops P (gom_mapM f l).
Proof.
  induction l as [|a l IH]; simpl; intros Hf; [apply all_ops_Ret|].
  apply all_ops_gom_bind; [apply Hf; by left|]. intros b.
  apply all_ops_gom_bind; [apply IH; intros; apply Hf; by right|]. intros bs.
  apply all_ops_Ret.
Qed.

Lemma yields_mapM {A B} (R : A → B → Prop) (f : A → GoM B) l :
  (∀ a, a ∈ l → yields (R a) (f a)) → yields (Forall2 R l) (gom_mapM f l).
Proof.
  induction l as [|a l IH]; simpl; intros Hf; [by apply yields_Ok|].
  eapply yields_bind; [apply Hf; by left|]. intros b Hb.
  eapply yields_bind; [apply IH; intros; apply Hf; by right|]. intros bs Hbs.
  apply yields_Ok. by constructor.
Qed.

Section Reads.
Context `{Lib} `{Globals} (sc : SecurityConfig).

Ltac reads_tac :=
  ops_tac; try exact I; try done.

Lemma tokenx_reads : all_ops (resolver_read sc) (ResolveTokenXConfig sc).
Proof.
  unfold ResolveTokenXConfig, resolveJwkerInboundRules. reads_tac.
  apply all_ops_mapM. intros r _. unfold inherited_rules, getNamespaceListForInboundRule,
    getNamespacesByLabel. reads_tac.
Qed.

Lemma GetSecretDataByKey_reads name key :
  name ∈ secret_sources (sc_Spec sc) →
  all_ops (resolver_read sc) (GetSecretDataByKey name (sc_Namespace sc) key).
Proof. intros Hin. unfold GetSecretDataByKey, GetSecret, get_wrapped. reads_tac. Qed.

Lemma secret_pair_reads r :
  (∀ n, n ∈ secret_ref_names (Some r) → n ∈ secret_sources (sc_Spec sc)) →
  all_ops (resolver_read sc) (secret_pair r (sc_Namespace sc)).
Proof.
  intros Hr. unfold secret_pair.
  reads_tac; apply GetSecretDataByKey_reads, Hr; simpl; set_solver.
Qed.

Lemma maskinporten_reads : all_ops (resolver_read sc) (ResolveMaskinportenConfig sc).
Proof.
  unfold ResolveMaskinportenConfig, GetMaskinportenSecretData.
  destruct (spec_Maskinporten (sc_Spec sc)) as [spec|] eqn:Hs; [|apply all_ops_Ret].
  destruct (negb (mp_Enabled spec)); [apply all_ops_Ret|].
  apply all_ops_gom_bind; [apply all_ops_Ret|]. intros []; try solve [reads_tac].
  destruct (mp_SecretRef spec) as [r|] eqn:Hr; [|apply all_ops_Ret].
  change (deref (Some r)) with (Ok r). rewrite gom_bind_Ok. reads_tac.
  apply secret_pair_reads. intros n Hn. unfold secret_sources. rewrite Hs, Hr. set_solver.
Qed.

Lemma entraid_reads : all_ops (resolver_read sc) (ResolveEntraIdConfig sc).
Proof.
  unfold ResolveEntraIdConfig, GetEntraIdSecretData.
  destruct (spec_EntraID (sc_Spec sc)) as [spec|] eqn:Hs; [|apply all_ops_Ret].
  destruct (negb (ei_Enabled spec)); [apply all_ops_Ret|].
  apply all_ops_gom_bind; [apply all_ops_Ret|]. intros []; try solve [reads_tac].
  destruct (ei_SecretRef spec) as [r|] eqn:Hr; [|apply all_ops_Ret].
  change (deref (Some r)) with (Ok r). rewrite gom_bind_Ok. reads_tac.
  apply secret_pair_reads. intros n Hn. unfold secret_sources. rewrite Hs, Hr. set_solver.
Qed.
Lemma audience_reads a :
  (∀ n, n ∈ audience_refs vf_SecretKeyRef a → n ∈ secret_sources (sc_Spec sc)) →
  (∀ n, n ∈ audience_refs vf_ConfigMapKeyRef a → n ∈ configmap_sources (sc_Spec sc)) →
  all_ops (resolver_read sc) (ResolveAudiences (sc_Namespace sc) [a]).
Proof.
  unfold audience_refs. intros Hs Hc. unfold ResolveAudiences.
  apply all_ops_gom_bind; [|intros; apply all_ops_Ret].
  apply all_ops_mapM. intros a' ->%list_elem_of_singleton.
  unfold resolve_audience, resolveAudienceRef, GetSecret, GetConfigMap, get_wrapped.
  destruct (al_ValueFrom a) as [v|]; [|reads_tac].
  destruct (vf_ConfigMapKeyRef v) as [r|] eqn:Hr; [|destruct (vf_SecretKeyRef v) as [r|] eqn:Hk];
    reads_tac; (split; [done|]); simpl in *; set_solver.
Qed.

Lemma idporten_reads : all_ops (resolver_read sc) (ResolveIdPortenConfig sc).
Proof.
  unfold ResolveIdPortenConfig.
  destruct (spec_Idporten (sc_Spec sc)) as [spec|] eqn:Hs; [|apply all_ops_Ret].
  reads_tac. apply audience_reads; intros n Hn;
    unfold secret_sources, configmap_sources, audience_sources; rewrite Hs; set_solver.
Qed.

Lemma ansattporten_reads : all_ops (resolver_read sc) (ResolveAnsattportenConfig sc).
Proof.
  unfold ResolveAnsattportenConfig.
  destruct (spec_Ansattporten (sc_Spec sc)) as [spec|] eqn:Hs; [|apply all_ops_Ret].
  reads_tac. apply audience_reads; intros n Hn;
    unfold secret_sources, configmap_sources, audience_sources; rewrite Hs; set_solver.
Qed.

Lemma opa_reads : all_ops (resolver_read sc) (ResolveOpaConfig sc).
Proof.
  assert (∀ bundles data, all_ops (resolver_read sc) (resolve_bundles data bundles)) as Hb.
  { induction bundles as [|b bundles IH]; intros data; simpl; [apply all_ops_Ret|].
    by unfold resolveOpaBundle; reads_tac. }
  by unfold ResolveOpaConfig; reads_tac.
Qed.

Lemma ResolveSecurityConfig_reads : all_ops (resolver_read sc) (ResolveSecurityConfig sc).
Proof.
  unfold ResolveSecurityConfig. reads_tac.
  - apply tokenx_reads.
  - apply maskinporten_reads.
  - apply entraid_reads.
  - apply idporten_reads.
  - apply ansattporten_reads.
  - apply opa_reads.
Qed.

(** C19: resolving a SecurityConfig changes nothing in the cluster, whatever the
    replies are, and reads only the Application, the Secrets and the ConfigMaps
    that its spec refers to, in its own namespace (besides namespaces and OCI layers). *)
Theorem ResolveSecurityConfig_readonly h p' e :
  steps (ResolveSecurityConfig sc) h p' → e ∈ h →
  is_write (ev_op e) = false ∧ resolver_read sc (ev_op e).
Proof.
  intros Hs He. pose proof (all_ops_steps _ _ _ _ _ ResolveSecurityConfig_reads Hs He) as Hr.
  split; [|done]. by destruct (ev_op e).
Qed.
End Reads.

Section Results.
Context `{Lib} `{Globals} (sc : SecurityConfig).

Lemma maskinporten_yields : yields maskinporten_wf (ResolveMaskinportenConfig sc).
Proof.
  unfold ResolveMaskinportenConfig.
  destruct (spec_Maskinporten _) as [spec|]; [|by apply yields_Ok].
  destruct (negb (mp_Enabled spec)); [by apply yields_Ok|].
  eapply yields_bind; [apply yields_lift, DetermineConfigType_cases|].
  intros [] Ht; simpl in Ht.
  - apply yields_bind_any. intros client. by apply yields_Ok.
  - apply yields_Ok. intros _. by split_and!.
  - apply yields_bind_any. intros r. apply yields_bind_any. intros data. by apply yields_Ok.
  - by apply yields_Ok.
  - done.
Qed.

Lemma entraid_yields : yields entraid_wf (ResolveEntraIdConfig sc).
Proof.
  unfold ResolveEntraIdConfig.
  destruct (spec_EntraID _) as [spec|]; [|by apply yields_Ok].
  destruct (negb (ei_Enabled spec)); [by apply yields_Ok|].
  eapply yields_bind; [apply yields_lift, DetermineConfigType_cases|].
  intros [] Ht; simpl in Ht.
  - apply yields_bind_any. intros client. by apply yields_Ok.
  - apply yields_Ok. intros _. by split_and!.
  - apply yields_bind_any. intros r. apply yields_bind_any. intros data. by apply yields_Ok.
  - by apply yields_Ok.
  - done.
Qed.

Ltac not_empty :=
  match goal with
  | E : bool_decide (?x = "") = false |- ?x ≠ "" => exact (proj1 (bool_decide_eq_false _) E)
  end.

(** Every audience that [ResolveAudiences] returns is a non-empty string. *)
Lemma audiences_yields ns l : yields (Forall (λ a, a ≠ "")) (ResolveAudiences ns l).
Proof.
  unfold ResolveAudiences. eapply yields_bind.
  - apply (yields_mapM (λ _ bs, Forall (λ a, a ≠ "") bs)). intros a _.
    unfold resolve_audience. repeat case_match; try apply yields_Err.
    + apply yields_Ok. constructor; [not_empty|constructor].
    + apply (yields_bind (λ s, s ≠ "")); [|intros s Hs; apply yields_Ok; by repeat constructor].
      apply yields_on_err. unfold resolveAudienceRef.
      repeat case_match; try apply yields_Err;
        apply yields_bind_any; intros o; cbv zeta; case_match eqn:Hv;
        try apply yields_Err; apply yields_Ok; not_empty.
    + by apply yields_Ok.
  - intros bss Hall. apply yields_Ok. apply Forall_concat.
    induction Hall; by constructor.
Qed.
Lemma exactly_one_spec provider l a :
  Forall (λ a, a ≠ "") l → exactly_one provider l = Ok a → a ≠ "".
Proof.
  intros Hl. unfold exactly_one. destruct l as [|b [|]]; try done. intros [= <-].
  by apply Forall_cons in Hl as [Hb _].
Qed.

Lemma idporten_yields :
  yields (λ c, ipc_Enabled c = true → ipc_Audience c ≠ "") (ResolveIdPortenConfig sc).
Proof.
  unfold ResolveIdPortenConfig. repeat case_match; try by apply yields_Ok.
  eapply yields_bind; [apply yields_on_err, audiences_yields|]. intros l Hl.
  eapply yields_bind; [apply yields_lift; intros x; by apply exactly_one_spec|].
  intros x Hx. by apply yields_Ok.
Qed.

Lemma ansattporten_yields :
  yields (λ c, anc_Enabled c = true → anc_Audience c ≠ "") (ResolveAnsattportenConfig sc).
Proof.
  unfold ResolveAnsattportenConfig. repeat case_match; try by apply yields_Ok.
  eapply yields_bind; [apply yields_on_err, audiences_yields|]. intros l Hl.
  eapply yields_bind; [apply yields_lift; intros x; by apply exactly_one_spec|].
  intros x Hx. by apply yields_Ok.
Qed.

Lemma ResolveSecurityConfig_yields :
  yields (λ scope, resolved sc scope ∧ maskinporten_wf (sp_MaskinportenConfig scope) ∧
                   entraid_wf (sp_EntraIdConfig scope)) (ResolveSecurityConfig sc).
Proof.
  unfold ResolveSecurityConfig.
  apply yields_bind_any. intros tokenx.
  eapply yields_bind; [apply yields_on_err, maskinporten_yields|]. intros m Hm.
  eapply yields_bind; [apply yields_on_err, entraid_yields|]. intros e He.
  eapply yields_bind; [apply yields_on_err, idporten_yields|]. intros i Hi.
  eapply yields_bind; [apply yields_on_err, ansattporten_yields|]. intros a Ha.
  apply yields_bind_any. intros o. apply yields_Ok. by split_and!.
Qed.

Lemma resolved_wf h scope :
  is_some (cfg_RunsInProduction Get) = true →
  steps (ResolveSecurityConfig sc) h (Ret (Ok scope)) →
  resolved sc scope ∧ scope_wf scope.
Proof.
  intros Hp Hs. destruct (yields_steps _ _ _ _ ResolveSecurityConfig_yields Hs) as (Hr & Hm & He).
  split; [done|]. unfold scope_wf. unfold maskinporten_wf, entraid_wf in *.
  split_and!; [done|intros Hx; by apply Hm in Hx as (?&?&?)..|
    intros Hx; by apply He in Hx as (?&?&?)|intros Hx; by apply He in Hx as (?&?&?)].
Qed.

(** C16: a resolved scope belongs to the SecurityConfig that was resolved, starts
    with no descendants, has a non-empty audience for ID-porten and Ansattporten
    where they are enabled, and is well formed: its twelve resources can be built
    without a panic. *)
Theorem ResolveSecurityConfig_wf h scope :
  is_some (cfg_RunsInProduction Get) = true →
  steps (ResolveSecurityConfig sc) h (Ret (Ok scope)) →
  resolved sc scope ∧ scope_wf scope.
Proof. apply resolved_wf. Qed.

(** ** TokenX *)

(** The replies of an API server with the namespaces [cluster]: a list that succeeds gives
    those whose labels the selector matches. *)
Definition namespaces_listed (cluster : list (Object KNamespace)) (h : history) : Prop :=
  ∀ sel items, Ev (OpListNamespaces sel) (Ok items) ∈ h →
    items = List.filter (λ n, Matches sel (entries (m_Labels (o_Meta n)))) cluster.

(** The namespaces that a rule of the Application speaks of: the one that it names; or else
    those that its labels select; or else, without labels, the SecurityConfig's own. *)
Definition rule_namespace (cluster : list (Object KNamespace)) (rule : InternalRule)
    (ns : string) : Prop :=
  if bool_decide (ir_Namespace rule = "") then
    if bool_decide (ir_NamespacesByLabel rule = ∅) then ns = sc_Namespace sc
    else ∃ sel n, LabelSelectorAsSelector (match_labels (ir_NamespacesByLabel rule)) = Ok sel ∧
           n ∈ cluster ∧ Matches sel (entries (m_Labels (o_Meta n))) = true ∧ o_Name n = ns
  else ns = ir_Namespace rule.

(** Lets [application] of the namespace [ns] in, on this cluster. *)
Definition admits (application ns : string) : AccessPolicyInboundRule :=
  {| air_AccessPolicyRule := {| apr_Application := application; apr_Namespace := ns;
                                apr_Cluster := cfg_ClusterName Get |};
     air_Permissions := None |}.

(** The rules are free of duplicates, and they are just those of the clients of the spec
    and, if inheritance is on, one for every rule of the Application and each of its
    namespaces. *)
Definition rules_ok (cluster : list (Object KNamespace)) (policy : AccessPolicySpec)
    (app : Application) (rules : list AccessPolicyInboundRule) : Prop :=
  NoDup rules ∧
  ∀ r, r ∈ rules ↔
    (∃ c, c ∈ aps_Clients policy ∧
       r = admits (apc_Application c)
             match apc_Namespace c with Some ns => ns | None => sc_Namespace sc end) ∨
    (aps_InheritInboundRules policy = true ∧
     ∃ rule ns, rule ∈ application_rules app ∧ rule_namespace cluster rule ns ∧
       r = admits (ir_Application rule) ns).

Lemma gom_mapM_steps {A B} (f : A → GoM B) l h bs :
  steps (gom_mapM f l) h (Ret (Ok bs)) →
  Forall2 (λ a b, ∃ h', part_of h' h ∧ steps (f a) h' (Ret (Ok b))) l bs.
Proof.
  revert h bs. induction l as [|a l IH]; intros h bs; cbn [gom_mapM].
  - intros [[= <-] _]%steps_Ret_inv. constructor.
  - intros (h1 & b & h2 & -> & H1 & H2)%gom_bind_steps.
    apply gom_bind_steps in H2 as (h3 & bs' & h4 & -> & H3 & [[= <-] ->]%steps_Ret_inv).
    rewrite app_nil_r. constructor.
    + exists h1. split; [|done]. by apply part_of_app_l.
    + eapply Forall2_impl; [apply (IH _ _ H3)|]. intros x y (h' & Hp & Hs). exists h'.
      split; [|done]. by apply part_of_app_r.
Qed.

(** The rules inherited from one rule of the Application. *)
Lemma inherited_rules_steps cluster rule h l :
  namespaces_listed cluster h →
  steps (inherited_rules (sc_Namespace sc) rule) h (Ret (Ok l)) →
  ∀ r, r ∈ l ↔ ∃ ns, rule_namespace cluster rule ns ∧ r = admits (ir_Application rule) ns.
Proof.
  intros Hl. unfold inherited_rules, getNamespaceListForInboundRule, rule_namespace.
  assert (∀ x r, r ∈ map (inbound_rule (ir_Application rule)) (Sort [x]) ↔
            ∃ ns, ns = x ∧ r = admits (ir_Application rule) ns) as Hone.
  { intros x r. setoid_rewrite list_elem_of_fmap. setoid_rewrite Sort_Permutation.
    setoid_rewrite list_elem_of_singleton. naive_solver. }
  destruct (bool_decide_reflect (ir_Namespace rule = "")) as [Hns|Hns]; cbn [negb].
  2: { intros [[= <-] _]%steps_Ret_inv. apply Hone. }
  destruct (bool_decide_reflect (ir_NamespacesByLabel rule = ∅)) as [Hlb|Hlb]; cbn [negb].
  { intros [[= <-] _]%steps_Ret_inv. apply Hone. }
  intros (h1 & [names errs] & h2 & -> & H1 & H2)%gom_bind_steps.
  apply steps_bind in H1 as (h3 & res & h4 & -> & H3 & H4).
  unfold getNamespacesByLabel in H3.
  destruct res as [items|e|w]; [| |by apply steps_Ret_inv in H4 as [? _]];
    apply steps_Ret_inv in H4 as [[= <- <-] ->];
    apply steps_Ret_inv in H2 as [[=] ->]; subst l.
  destruct (LabelSelectorAsSelector _) as [sel|e|w]; try by apply steps_Ret_inv in H3 as [? _].
  apply gom_on_err_steps, (call_steps (OpListNamespaces sel)) in H3 as ->.
  rewrite (Hl sel items) by set_solver. intros r. setoid_rewrite list_elem_of_fmap.
  setoid_rewrite Sort_Permutation. setoid_rewrite list_elem_of_fmap.
  setoid_rewrite list_elem_of_In. setoid_rewrite filter_In.
  split; [intros (ns & -> & n & -> & Hn & Hm); eauto 10|].
  intros (ns & (sel' & n & [= <-] & Hn & Hm & <-) & ->). eauto 10.
Qed.

Lemma jwker_rules_steps cluster tokenx app policy h rules :
  tx_AccessPolicy tokenx = Some policy → namespaces_listed cluster h →
  steps (resolveJwkerInboundRules sc tokenx app) h (Ret (Ok rules)) →
  rules_ok cluster policy app rules.
Proof.
  intros Hpol Hl. unfold resolveJwkerInboundRules. rewrite Hpol.
  intros (h1 & inh & h2 & -> & H1 & [[= <-] ->]%steps_Ret_inv)%gom_bind_steps.
  split; [apply unique_loop_NoDup|]. intros r. unfold UniqueSliceElements.
  rewrite elem_of_unique_loop, elem_of_app.
  assert (r ∈ concat inh ↔ aps_InheritInboundRules policy = true ∧ ∃ rule ns,
    rule ∈ application_rules app ∧ rule_namespace cluster rule ns ∧
    r = admits (ir_Application rule) ns) as Hinh.
  { destruct (aps_InheritInboundRules policy).
    2: { apply steps_Ret_inv in H1 as [[= <-] _]. simpl. rewrite elem_of_nil. naive_solver. }
    apply gom_mapM_steps in H1. rewrite app_nil_r in Hl.
    assert (Forall2 (λ rule l, ∀ r, r ∈ l ↔ ∃ ns, rule_namespace cluster rule ns ∧
              r = admits (ir_Application rule) ns) (application_rules app) inh) as Hall.
    { eapply Forall2_impl; [exact H1|]. intros rule l (h' & Hp & Hs).
      eapply inherited_rules_steps; [|exact Hs]. intros sel items Hin. by apply Hl, Hp. }
    clear H1. induction Hall as [|rule l rules ls Hone _ IH]; simpl.
    { rewrite elem_of_nil. split; [done|]. intros (_ & rule & ns & Hr & _).
      by apply not_elem_of_nil in Hr. }
    rewrite elem_of_app, Hone, IH. setoid_rewrite elem_of_cons. naive_solver. }
  rewrite Hinh, list_elem_of_fmap. unfold client_rule.
  split; [|intros [(c & Hc & ->)|Hi]; (split; [|apply not_elem_of_nil]); [right|by left]].
  - intros [[Hi|(c & -> & Hc)] _]; [by right|left]. exists c. split; [done|].
    by destruct (apc_Namespace c).
  - exists c. split; [|done]. by destruct (apc_Namespace c).
Qed.

(** C23: the inbound rules of the Jwker are free of duplicates and are just these: one for
    every client of the spec, in the client's namespace or, without one, in the
    SecurityConfig's; and, if inheritance is on, one for every rule of the Application in
    each of its namespaces, which are the one that the rule names, or those of the cluster
    that its labels select, or the SecurityConfig's.  The API server is taken to list the
    namespaces that a selector matches. *)
Theorem resolveJwkerInboundRules_spec cluster tokenx app policy h rules :
  tx_AccessPolicy tokenx = Some policy → namespaces_listed cluster h →
  steps (resolveJwkerInboundRules sc tokenx app) h (Ret (Ok rules)) →
  rules_ok cluster policy app rules.
Proof. apply jwker_rules_steps. Qed.

(** ** OPA *)

Lemma assign_Ok {V : Type} (m : gomap V) key value m' :
  assign m key value = Ok m' → entries m' = <[key := value]> (entries m).
Proof. destruct m; [|done]. by intros [= <-]. Qed.

(** What the loop over the bundles leaves in the map. *)
Lemma resolve_bundles_layers bundles data h data' :
  steps (resolve_bundles data bundles) h (Ret (Ok data')) →
  NoDup (map ob_Name bundles) →
  (∀ k, k ∉ map ob_Name bundles → entries data' !! k = entries data !! k) ∧
  (∀ b, b ∈ bundles → ∃ repo layer, entries data' !! ob_Name b = Some layer ∧
     Ev (OpResolveOci (ob_URL b)) (Ok repo) ∈ h ∧
     Ev (OpFetchOpaBundleLayer repo) (Ok layer) ∈ h).
Proof.
  revert data h. induction bundles as [|b bundles IH]; intros data h; cbn [resolve_bundles map].
  - intros [[= <-] ->]%steps_Ret_inv _. split; [done|]. intros b Hb. by apply elem_of_nil in Hb.
  - intros (h1 & layer & h2 & -> & H1 & H2)%gom_bind_steps [Hb Hnd]%NoDup_cons.
    apply gom_bind_steps in H1 as (h3 & repo & h4 & -> & H3%gom_on_err_steps & H4%gom_on_err_steps).
    apply (call_steps (OpResolveOci _)) in H3 as ->.
    apply (call_steps (OpFetchOpaBundleLayer _)) in H4 as ->.
    apply gom_bind_steps in H2 as (h5 & data1 & h6 & -> & [Ha ->]%steps_Ret_inv & H6).
    apply assign_Ok in Ha. destruct (IH _ _ H6 Hnd) as [Hkeep Hall]. split.
    + intros k Hk. rewrite Hkeep by set_solver. rewrite Ha, lookup_insert_ne; [done|set_solver].
    + intros b' [->|Hb']%elem_of_cons.
      * exists repo, layer. rewrite (Hkeep _ Hb), Ha, lookup_insert_eq. set_solver.
      * destruct (Hall b' Hb') as (repo' & layer' & Hl & Hr & Hf).
        exists repo', layer'. rewrite !elem_of_app. auto 10.
Qed.

(** The run of [ResolveOpaConfig] when OPA is enabled. *)
Lemma opa_steps opa h cfg :
  spec_Opa (sc_Spec sc) = Some opa → opa_Enabled opa = true →
  steps (ResolveOpaConfig sc) h (Ret (Ok cfg)) →
  opc_Enabled cfg = true ∧ opa_BundleURLs opa ≠ [] ∧
  rpc_Enabled (opc_RequestPolicy cfg) =
    match opa_RequestPolicy opa with Some p => rp_Enabled p | None => false end ∧
  ∃ h1, part_of h1 h ∧
    steps (resolve_bundles OpaSelfAuthorizationBundleBinaryData (ToOpaBundles (opa_BundleURLs opa)))
      h1 (Ret (Ok (opc_BundleBinaryData cfg))).
Proof.
  intros Hopa Hen. unfold ResolveOpaConfig. rewrite Hopa, Hen. cbn [is_some negb andb].
  destruct (negb (cfg_OpaEnabled Get)); [by intros [? _]%steps_Ret_inv|].
  destruct (opa_BundleURLs opa) as [|url urls] eqn:Hurls; [by intros [? _]%steps_Ret_inv|].
  cbv zeta. rewrite <-Hurls. intros (h1 & data & h2 & -> & H1 & H2)%gom_bind_steps.
  assert (part_of h1 (h1 ++ h2)) as Hp by by apply part_of_app_l.
  destruct (opa_RequestPolicy opa) as [policy|].
  - apply gom_bind_steps in H2 as (h3 & c & h4 & -> & [Hc%on_err_Ok _]%steps_Ret_inv & H4).
    apply steps_Ret_inv in H4 as [[= <-] _]. split_and!; [done|by rewrite Hurls| |by exists h1].
    unfold ResolveOpaRequestPolicy in Hc. simpl.
    destruct (rp_Enabled policy) eqn:Hrp; simpl in Hc; [|by simplify_eq].
    apply outcome_bind_Ok in Hc as (x & _ & Hc).
    apply outcome_bind_Ok in Hc as (y & _ & Hc). by simplify_eq.
  - apply steps_Ret_inv in H2 as [[= <-] _]. split_and!; [done|by rewrite Hurls|done|by exists h1].
Qed.

(** A bundle was fetched in the history: its URL was resolved, and the layer came from what
    it resolved to. *)
Definition fetched (h : history) (url layer : string) : Prop :=
  ∃ repo, Ev (OpResolveOci url) (Ok repo) ∈ h ∧ Ev (OpFetchOpaBundleLayer repo) (Ok layer) ∈ h.

(** C24: when OPA is enabled, the data for the ConfigMap holds, under the name of each
    bundle of the spec, the layer that was fetched for the bundle's URL; under every other
    name it holds just what the data of the bundle for self authorization holds; and the
    request policy is enabled exactly when the spec asks for it.  The names of the bundles
    are distinct, as the schema demands. *)
Theorem ResolveOpaConfig_bundles opa h cfg :
  spec_Opa (sc_Spec sc) = Some opa → opa_Enabled opa = true →
  NoDup (map bs_Name (opa_BundleURLs opa)) →
  steps (ResolveOpaConfig sc) h (Ret (Ok cfg)) →
  let data := entries (opc_BundleBinaryData cfg) in
  opc_Enabled cfg = true ∧ opa_BundleURLs opa ≠ [] ∧
  (∀ b, b ∈ opa_BundleURLs opa → ∃ layer,
     data !! bs_Name b = Some layer ∧ fetched h (bs_URL b) layer) ∧
  (∀ name, name ∉ map bs_Name (opa_BundleURLs opa) →
     data !! name = entries OpaSelfAuthorizationBundleBinaryData !! name) ∧
  rpc_Enabled (opc_RequestPolicy cfg) =
    match opa_RequestPolicy opa with Some p => rp_Enabled p | None => false end.
Proof.
  intros Hopa Hen Hnd Hs data.
  destruct (opa_steps opa h cfg Hopa Hen Hs) as (Hon & Hne & Hrp & h1 & Hpart & Hloop).
  assert (map ob_Name (ToOpaBundles (opa_BundleURLs opa)) = map bs_Name (opa_BundleURLs opa))
    as Hn by (unfold ToOpaBundles; by rewrite map_map).
  apply resolve_bundles_layers in Hloop as [Hkeep Hall]; [|by rewrite Hn].
  rewrite Hn in Hkeep. split_and!; [done|done| |done|done].
  intros b Hb. destruct (Hall (ToOpaBundle b)) as (repo & layer & Hl & Hr & Hf).
  { unfold ToOpaBundles. apply list_elem_of_fmap. by exists b. }
  exists layer. split; [exact Hl|]. exists repo. split; by apply Hpart.
Qed.
End Results.

(** ** Applications *)

(** The Application of the sample: it lets [c] of the namespace [ns2] in. *)
Definition sample_app : Object KApplication :=
  @MkObject KApplication "Application" (named_meta "team" "app")
    {| app_AccessPolicy := Some {| sap_Inbound := Some
         {| ip_Rules := [{| ir_Application := "c"; ir_Namespace := "ns2";
                            ir_NamespacesByLabel := ∅ |}] |} |} |}.

Definition sample_resolution : history :=
  [Ev (OpGet KApplication ("team", "app")) (Ok sample_app)].

Lemma ResolveSecurityConfig_readonly_witness :
  resolver_read sample_sc (OpGet KApplication ("team", "app")).
Proof.
  eapply (ResolveSecurityConfig_readonly sample_sc sample_resolution _
            (Ev (OpGet KApplication ("team", "app")) (Ok sample_app))).
  - apply steps_op. apply steps_refl.
  - left.
Defined.

Lemma ResolveSecurityConfig_wf_witness : ∃ scope, resolved sample_sc scope ∧ scope_wf scope.
Proof.
  eexists. eapply (ResolveSecurityConfig_wf sample_sc sample_resolution).
  - reflexivity.
  - apply steps_op. apply steps_refl.
Defined.

Definition sample_tokenx : TokenXSpec :=
  {| tx_Enabled := true;
     tx_AccessPolicy := Some {| aps_InheritInboundRules := true;
       aps_Clients := [{| apc_Application := "a"; apc_Namespace := None |}] |} |}.

(** An Application whose second rule selects namespaces by a label, and a cluster in which
    one namespace has it. *)
Definition sample_inbound : Application :=
  {| app_AccessPolicy := Some {| sap_Inbound := Some
       {| ip_Rules := [{| ir_Application := "c"; ir_Namespace := "ns2";
                          ir_NamespacesByLabel := ∅ |};
                       {| ir_Application := "d"; ir_Namespace := "";
                          ir_NamespacesByLabel := {["tier" := "web"]} |}] |} |} |}.
Definition sample_namespace (name : string) (labels : gmap string string) : Object KNamespace :=
  @MkObject KNamespace "Namespace" (with_labels (named_meta "" name) (Some labels)) tt.
Definition sample_cluster : list (Object KNamespace) :=
  [sample_namespace "front" {["tier" := "web"]}; sample_namespace "back" {["tier" := "db"]}].
Definition sample_selector : Selector :=
  {| Matches := λ l, bool_decide (ls_MatchLabels (match_labels {["tier" := "web"]}) ⊆ l) |}.
Definition sample_selected : history :=
  [Ev (OpListNamespaces sample_selector) (Ok [sample_namespace "front" {["tier" := "web"]}])].

Lemma sample_selected_listed : namespaces_listed sample_cluster sample_selected.
Proof.
  intros sel items Hin%list_elem_of_singleton.
  assert (sel = sample_selector) as -> by (by injection Hin).
  apply (f_equal (λ e, match e with
    | Ev (OpListNamespaces _) r => match r return list (Object KNamespace) with
                                   | Ok l => l | _ => [] end
    | _ => [] end)) in Hin.
  rewrite Hin. symmetry. vm_compute. reflexivity.
Qed.

Lemma resolveJwkerInboundRules_spec_witness :
  rules_ok sample_sc sample_cluster
    {| aps_InheritInboundRules := true;
       aps_Clients := [{| apc_Application := "a"; apc_Namespace := None |}] |}
    sample_inbound [inbound_rule "c" "ns2"; inbound_rule "d" "front"; inbound_rule "a" "team"].
Proof.
  apply (resolveJwkerInboundRules_spec sample_sc sample_cluster sample_tokenx sample_inbound _
           sample_selected).
  - reflexivity.
  - exact sample_selected_listed.
  - apply steps_op. apply steps_refl.
Defined.

Definition sample_opa_sc : SecurityConfig :=
  {| sc_Kind := "SecurityConfig"; sc_Meta := sample_meta;
     sc_Spec :=
       {| spec_Tokenx := None; spec_Maskinporten := None; spec_EntraID := None;
          spec_Idporten := None; spec_Ansattporten := None;
          spec_Opa := Some {| opa_Enabled := true;
            opa_BundleURLs := [{| bs_Name := "authz"; bs_URL := "ghcr.io/kartverket/b:1";
                                  bs_Verification := None |}];
            opa_RequestPolicy := None |};
          spec_ApplicationRef := "app" |};
     sc_Status := zero_status |}.

Definition sample_fetched_repo : OciRepositoryAndDigest :=
  {| oci_Registry := "ghcr.io"; oci_Repository := "kartverket/b"; oci_Digest := "sha256:1" |}.
Definition sample_fetch : history :=
  [Ev (OpResolveOci "ghcr.io/kartverket/b:1") (Ok sample_fetched_repo);
   Ev (OpFetchOpaBundleLayer sample_fetched_repo) (Ok "layer")].

Lemma ResolveOpaConfig_bundles_witness :
  ∃ cfg layer, entries (opc_BundleBinaryData cfg) !! "authz" = Some layer ∧
    fetched sample_fetch "ghcr.io/kartverket/b:1" layer.
Proof.
  pose (b := {| bs_Name := "authz"; bs_URL := "ghcr.io/kartverket/b:1"; bs_Verification := None |}).
  eexists.
  edestruct (ResolveOpaConfig_bundles sample_opa_sc
    {| opa_Enabled := true; opa_BundleURLs := [b]; opa_RequestPolicy := None |} sample_fetch)
    as (_ & _ & Hall & _ & _).
  - reflexivity.
  - reflexivity.
  - apply NoDup_singleton.
  - do 2 apply steps_op. apply steps_refl.
  - destruct (Hall b) as (layer & Hl & Hf); [left|]. exists layer. split; [exact Hl|exact Hf].
Defined.
