(* ===== verification/Events.v ===== *)
(** * Event handlers: [internal/eventhandler]

    When an object changes that a SecurityConfig refers to, the SecurityConfig is
    queued for reconciliation.  The theorem that matters: every Secret, ConfigMap and
    Application that resolving a SecurityConfig reads is one whose events queue that
    SecurityConfig. *)
From stdpp Require Import base gmap strings list.
From Stdlib Require Import ZArith Lia.
From S2P Require Import Prelude GoStrings Kube Api Model Cluster ProgTheory RefServer Config Naming State Utilities Reconciliation Generators Resources Samples Resolver.
Open Scope go_scope.

(** A [reconcile.Request]: namespace and name. *)
Abbreviation Request := ObjectKey (only parsing).
Definition request_of (sc : SecurityConfig) : Request := (sc_Namespace sc, sc_Name sc).

(** The body that the handlers share: list the SecurityConfigs of the namespace and
    return a request for each one that [referenced] selects; no request if the list fails. *)
Definition enqueue (namespace : string) (referenced : SecurityConfig → bool) :
    GoM (list Request) :=
  let* securityConfigList := call (OpListSecurityConfigs namespace) in
  match securityConfigList with
  | Ok items => Ret (Ok (map request_of (List.filter referenced items)))
  | Err _ => Ret (Ok [])
  | Panic w => Ret (Panic w)
  end.

Definition referencesSecretRef (secretRef : option SecretRef) (secretName : string) : bool :=
  match secretRef with
  | None => false
  | Some r => bool_decide (sks_Name (sref_ClientID r) = secretName) ||
              bool_decide (sks_Name (sref_ClientJWK r) = secretName)
  end.

Definition referencesSecret (allowedAudience : AllowedAudience) (secretName : string) : bool :=
  match al_ValueFrom allowedAudience with
  | Some v => match vf_SecretKeyRef v with
              | Some r => bool_decide (kr_Name r = secretName)
              | None => false
              end
  | None => false
  end.

Definition referencesConfigMap (allowedAudience : AllowedAudience) (configMapName : string) :
    bool :=
  match al_ValueFrom allowedAudience with
  | Some v => match vf_ConfigMapKeyRef v with
              | Some r => bool_decide (kr_Name r = configMapName)
              | None => false
              end
  | None => false
  end.

Definition secret_referenced (name : string) (securityConfig : SecurityConfig) : bool :=
  let spec := sc_Spec securityConfig in
  let isReferencedInMaskinportenSpec :=
    match spec_Maskinporten spec with
    | Some m => referencesSecretRef (MaskinportenSpec_GetSecretRef m) name | None => false end in
  let isReferencedInEntraIDSpec :=
    match spec_EntraID spec with
    | Some e => referencesSecretRef (EntraIDSpec_GetSecretRef e) name | None => false end in
  let isReferencedInIdportenSpec :=
    match spec_Idporten spec with
    | Some i => referencesSecret (ip_AllowedAudience i) name | None => false end in
  let isReferencedInAnsattportenSpec :=
    match spec_Ansattporten spec with
    | Some a => referencesSecret (an_AllowedAudience a) name | None => false end in
  isReferencedInMaskinportenSpec || isReferencedInEntraIDSpec ||
  isReferencedInIdportenSpec || isReferencedInAnsattportenSpec.

Definition configmap_referenced (name : string) (securityConfig : SecurityConfig) : bool :=
  let spec := sc_Spec securityConfig in
  let isReferencedInIdportenSpec :=
    match spec_Idporten spec with
    | Some i => referencesConfigMap (ip_AllowedAudience i) name | None => false end in
  let isReferencedInAnsattportenSpec :=
    match spec_Ansattporten spec with
    | Some a => referencesConfigMap (an_AllowedAudience a) name | None => false end in
  isReferencedInIdportenSpec || isReferencedInAnsattportenSpec.

(** The handlers: the object has the type the handler watches, or nothing is
    queued. *)
Definition HandleSecretEvent (obj : AnyObject) : GoM (list Request) :=
  match obj with
  | AnyObj KSecret secret => enqueue (o_Namespace secret) (secret_referenced (o_Name secret))
  | _ => Ret (Ok [])
  end.

Definition HandleConfigMapEvent (obj : AnyObject) : GoM (list Request) :=
  match obj with
  | AnyObj KConfigMap configMap =>
      enqueue (o_Namespace configMap) (configmap_referenced (o_Name configMap))
  | _ => Ret (Ok [])
  end.

Definition HandleSkiperatorApplicationEvent (obj : AnyObject) : GoM (list Request) :=
  match obj with
  | AnyObj KApplication app =>
      enqueue (o_Namespace app) (λ sc, bool_decide (spec_ApplicationRef (sc_Spec sc) = o_Name app))
  | _ => Ret (Ok [])
  end.

Definition HandleMaskinportenClientEvent (obj : AnyObject) : GoM (list Request) :=
  match obj with
  | AnyObj KMaskinportenClient c =>
      enqueue (o_Namespace c) (λ sc,
        match spec_Maskinporten (sc_Spec sc) with
        | Some m => match mp_ClientRef m with
                    | Some r => bool_decide (rref_Name r = o_Name c)
                    | None => false
                    end
        | None => false
        end)
  | _ => Ret (Ok [])
  end.

Definition HandleAzureAdApplicationEvent (obj : AnyObject) : GoM (list Request) :=
  match obj with
  | AnyObj KAzureAdApplication a =>
      enqueue (o_Namespace a) (λ sc,
        match spec_EntraID (sc_Spec sc) with
        | Some e => match ei_ClientRef e with
                    | Some r => bool_decide (rref_Name r = o_Name a)
                    | None => false
                    end
        | None => false
        end)
  | _ => Ret (Ok [])
  end.

(** The handler of each watched kind ([SetupWithManager]). *)
Definition watch (k : Kind) : AnyObject → GoM (list Request) :=
  match k with
  | KApplication => HandleSkiperatorApplicationEvent
  | KMaskinportenClient => HandleMaskinportenClientEvent
  | KAzureAdApplication => HandleAzureAdApplicationEvent
  | KSecret => HandleSecretEvent
  | KConfigMap => HandleConfigMapEvent
  | _ => λ _, Ret (Ok [])
  end.

(** ** Theorems *)

Lemma referencesSecretRef_spec r n : referencesSecretRef r n = true ↔ n ∈ secret_ref_names r.
Proof.
  destruct r as [r|]; simpl; [|by rewrite elem_of_nil].
  rewrite orb_true_iff, !bool_decide_eq_true, !elem_of_cons, elem_of_nil. naive_solver.
Qed.

Lemma referencesSecret_spec a n :
  referencesSecret a n = true ↔ n ∈ audience_refs vf_SecretKeyRef a.
Proof.
  unfold referencesSecret, audience_refs, key_ref_names.
  repeat case_match; rewrite ?bool_decide_eq_true, ?elem_of_cons, ?elem_of_nil; naive_solver.
Qed.

(** A part of a spec that is absent refers to nothing. *)
Lemma absent_part {A : Type} (f : A → bool) (l : A → list string) (o : option A) n :
  (∀ a, f a = true ↔ n ∈ l a) →
  match o with Some a => f a | None => false end = true ↔
  n ∈ match o with Some a => l a | None => [] end.
Proof. intros Hf. destruct o; [apply Hf|]. by rewrite elem_of_nil. Qed.

Lemma secret_referenced_spec n sc :
  secret_referenced n sc = true ↔ n ∈ secret_sources (sc_Spec sc).
Proof.
  unfold secret_referenced, secret_sources, audience_sources. cbv zeta.
  rewrite !orb_true_iff, !elem_of_app.
  rewrite (absent_part _ (λ m, secret_ref_names (mp_SecretRef m)));
    [|intros; apply referencesSecretRef_spec].
  rewrite (absent_part _ (λ e, secret_ref_names (ei_SecretRef e)));
    [|intros; apply referencesSecretRef_spec].
  rewrite (absent_part _ (λ i, audience_refs vf_SecretKeyRef (ip_AllowedAudience i)));
    [|intros; apply referencesSecret_spec].
  rewrite (absent_part _ (λ a, audience_refs vf_SecretKeyRef (an_AllowedAudience a)));
    [|intros; apply referencesSecret_spec].
  tauto.
Qed.

Lemma configmap_referenced_spec n sc :
  configmap_referenced n sc = true ↔ n ∈ configmap_sources (sc_Spec sc).
Proof.
  unfold configmap_referenced, configmap_sources, audience_sources, audience_refs,
    referencesConfigMap, key_ref_names. cbv zeta. rewrite orb_true_iff, elem_of_app.
  repeat case_match; rewrite ?bool_decide_eq_true, ?elem_of_cons, ?elem_of_nil; naive_solver.
Qed.

Lemma elem_of_filter_list {A} (f : A → bool) l x :
  x ∈ List.filter f l ↔ x ∈ l ∧ f x = true.
Proof. by rewrite !list_elem_of_In, filter_In. Qed.

(** What it means for a SecurityConfig to refer to the object [name] of a watched kind. *)
Definition refers (k : Kind) (name : string) (sc : SecurityConfig) : Prop :=
  match k with
  | KSecret => name ∈ secret_sources (sc_Spec sc)
  | KConfigMap => name ∈ configmap_sources (sc_Spec sc)
  | KApplication => spec_ApplicationRef (sc_Spec sc) = name
  | KMaskinportenClient => ∃ m r, spec_Maskinporten (sc_Spec sc) = Some m ∧
      mp_ClientRef m = Some r ∧ rref_Name r = name
  | KAzureAdApplication => ∃ e r, spec_EntraID (sc_Spec sc) = Some e ∧
      ei_ClientRef e = Some r ∧ rref_Name r = name
  | _ => False
  end.

(** The replies of an API server that holds the SecurityConfigs [cluster]: a list in a
    namespace returns those of that namespace. *)
Definition listed (cluster : list SecurityConfig) (h : history) : Prop :=
  ∀ ns r, Ev (OpListSecurityConfigs ns) r ∈ h →
          r = Ok (List.filter (λ sc, bool_decide (sc_Namespace sc = ns)) cluster).

(** A watch is a list in the namespace of the object and the selection of those that refer
    to it; no other kind is watched. *)
Lemma watch_enqueue k (o : Object k) :
  (∃ f, watch k (AnyObj k o) = enqueue (o_Namespace o) f ∧
        ∀ sc, f sc = true ↔ refers k (o_Name o) sc) ∨
  (watch k (AnyObj k o) = Ret (Ok []) ∧ ∀ sc, ¬ refers k (o_Name o) sc).
Proof.
  destruct k; try (right; split; [done|by intros sc []]); left; eexists;
    (split; [reflexivity|]); intros sc; simpl.
  - split.
    + destruct (spec_Maskinporten _) as [m|]; [|done]. destruct (mp_ClientRef m) as [r|] eqn:Hr;
        [|done]. intros Hn%bool_decide_eq_true. eauto.
    + intros (m & r & -> & -> & <-). by apply bool_decide_eq_true.
  - apply secret_referenced_spec.
  - split.
    + destruct (spec_EntraID _) as [m|]; [|done]. destruct (ei_ClientRef m) as [r|] eqn:Hr;
        [|done]. intros Hn%bool_decide_eq_true. eauto.
    + intros (m & r & -> & -> & <-). by apply bool_decide_eq_true.
  - apply configmap_referenced_spec.
  - apply bool_decide_eq_true.
Qed.

(** The calls of a handler, and what it queues. *)
Lemma watch_steps cluster k (o : Object k) h out :
  steps (watch k (AnyObj k o)) h (Ret out) →
  (∀ e, e ∈ h → ev_op e = OpListSecurityConfigs (o_Namespace o)) ∧
  (listed cluster h → ∃ reqs, out = Ok reqs ∧
     ∀ req, req ∈ reqs ↔ ∃ sc, sc ∈ cluster ∧ sc_Namespace sc = o_Namespace o ∧
                               refers k (o_Name o) sc ∧ req = request_of sc).
Proof.
  destruct (watch_enqueue k o) as [(f & -> & Hf)|[-> Hf]].
  - intros (r & h' & -> & Hs)%steps_Vis_inv. split.
    + intros e [->|He]%elem_of_cons; [done|].
      by destruct r; apply steps_Ret_inv in Hs as [_ ->]; apply not_elem_of_nil in He.
    + intros Hl. rewrite (Hl (o_Namespace o) r ltac:(by left)) in Hs.
      apply steps_Ret_inv in Hs as [<- _]. eexists. split; [reflexivity|]. intros req.
      rewrite list_elem_of_fmap. setoid_rewrite elem_of_filter_list.
      setoid_rewrite elem_of_filter_list. setoid_rewrite bool_decide_eq_true.
      setoid_rewrite Hf. naive_solver.
  - intros [<- ->]%steps_Ret_inv. split; [by intros e ?%not_elem_of_nil|].
    intros _. exists []. split; [done|]. intros req.
    split; [by intros ?%not_elem_of_nil|]. intros (sc & _ & _ & Hr & _). by destruct (Hf sc).
Qed.

(** What resolving a SecurityConfig reads is in its namespace and it refers to it. *)
Lemma reads_refer sc k key :
  resolver_read sc (OpGet k key) → key.1 = sc_Namespace sc ∧ refers k key.2 sc.
Proof. destruct k; try done. by intros ->. Qed.

(** C20: a Secret, ConfigMap or Application that is read while a SecurityConfig is
    resolved has a watch, and the handler of an event for it, when the API server lists the
    SecurityConfigs of the namespace that it is asked for, queues the SecurityConfig. *)
Theorem watches_complete `{Lib} `{Globals} sc h p' k key r (o : Object k) cluster h' out :
  steps (ResolveSecurityConfig sc) h p' → Ev (OpGet k key) r ∈ h → key_of o = key →
  sc ∈ cluster → steps (watch k (AnyObj k o)) h' (Ret out) → listed cluster h' →
  ∃ reqs, out = Ok reqs ∧ request_of sc ∈ reqs.
Proof.
  intros Hs He <- Hin Hw Hl.
  destruct (reads_refer _ _ _ (all_ops_steps _ _ _ _ _ (ResolveSecurityConfig_reads sc) Hs He))
    as [Hns Href].
  destruct (watch_steps cluster k o h' out Hw) as [_ Hq].
  destruct (Hq Hl) as (reqs & -> & Hreqs). exists reqs. split; [done|]. apply Hreqs.
  exists sc. by split_and!.
Qed.

(** C21: all a handler does is to list the SecurityConfigs in the namespace of its object,
    and, when the API server lists those of the namespace that it is asked for, it queues
    exactly the SecurityConfigs of the object's own namespace that refer to the object. *)
Theorem watches_sound cluster k (o : Object k) h out :
  steps (watch k (AnyObj k o)) h (Ret out) →
  (∀ e, e ∈ h → ev_op e = OpListSecurityConfigs (o_Namespace o)) ∧
  (listed cluster h → ∃ reqs, out = Ok reqs ∧
     ∀ req, req ∈ reqs ↔ ∃ sc, sc ∈ cluster ∧ sc_Namespace sc = o_Namespace o ∧
                               refers k (o_Name o) sc ∧ req = request_of sc).
Proof. apply watch_steps. Qed.

(** The sample's SecurityConfig, listed. *)
Definition sample_listing : history := [Ev (OpListSecurityConfigs "team") (Ok [sample_sc])].

Lemma sample_listed : listed [sample_sc] sample_listing.
Proof.
  intros ns r Hin%list_elem_of_singleton. assert (ns = "team") as -> by (by injection Hin).
  apply (f_equal (λ e, match e with Ev (OpListSecurityConfigs _) r => r | _ => Ok [] end)) in Hin.
  exact Hin.
Qed.

Lemma watches_complete_witness :
  ∃ reqs, (Ok [("team", "cfg")] : outcome (list Request)) = Ok reqs ∧ ("team", "cfg") ∈ reqs.
Proof.
  eapply (watches_complete sample_sc sample_resolution _ KApplication ("team", "app")
            (Ok sample_app) sample_app [sample_sc] sample_listing).
  - apply steps_op. apply steps_refl.
  - left.
  - reflexivity.
  - left.
  - apply steps_op. apply steps_refl.
  - exact sample_listed.
Defined.

Lemma watches_sound_witness :
  ∃ sc, sc ∈ [sample_sc] ∧ sc_Namespace sc = "team" ∧
        refers KApplication "app" sc ∧ ("team", "cfg") = request_of sc.
Proof.
  destruct (watches_sound [sample_sc] KApplication sample_app sample_listing
              (Ok [("team", "cfg")])) as [_ Hq].
  - apply steps_op. apply steps_refl.
  - destruct (Hq sample_listed) as (reqs & [= <-] & Hreqs). apply Hreqs. left.
Defined.
