(* ===== verification/Status.v ===== *)
(** * The status of a SecurityConfig: [internal/statusmanager]

    The conditions, the phase and the message are computed from the descendants
    in the scope and from the synchronisation state of the clients; the status is
    written only when it changed, and again after a conflict. *)
From stdpp Require Import base gmap strings list.
From Stdlib Require Import ZArith Lia.
From S2P Require Import Prelude GoStrings Kube Api Model Cluster ProgTheory RefServer Config Naming State Utilities Reconciliation Generators Resources Samples.
Open Scope go_scope.

Inductive ReconciliationState :=
| StateInvalid | StatePending | StateWaitingForJwker | StateWaitingForMaskinportenClient
| StateWaitingForAzureAdApplication | StateFailed | StateReady.
#[global] Instance ReconciliationState_eq_dec : EqDecision ReconciliationState.
Proof. solve_decision. Defined.

Definition ReconciliationPending : string := "ReconciliationPending".

(** ** Conditions: [condition_builder.go] *)

Definition isLogicallyEqualCondition (existing cond : Condition) : bool :=
  bool_decide (c_Type existing = c_Type cond) && bool_decide (c_Status existing = c_Status cond) &&
  bool_decide (c_Reason existing = c_Reason cond) &&
  bool_decide (c_Message existing = c_Message cond).

(** The loop at the end of each builder: the first existing condition that says the
    same gives its transition time. *)
Definition preserve_time (existingConditions : list Condition) (condition : Condition) :
    Condition :=
  match List.find (λ existing, isLogicallyEqualCondition existing condition)
          existingConditions with
  | Some existing =>
      {| c_Type := c_Type condition; c_Status := c_Status condition;
         c_Reason := c_Reason condition; c_Message := c_Message condition;
         c_LastTransitionTime := c_LastTransitionTime existing |}
  | None => condition
  end.

(** A condition of now. *)
Definition condition_at (type status reason message : string) (now : Time) : Condition :=
  {| c_Type := type; c_Status := status; c_Reason := reason; c_Message := message;
     c_LastTransitionTime := now |}.

(** Status, reason and message of the SecurityConfig's own condition. *)
Definition state_condition (reconciliationState : ReconciliationState)
    (validationErrorMessage : option string) : outcome (string * string * string) :=
  match reconciliationState with
  | StateInvalid =>
      let? message := deref validationErrorMessage in
      Ok ("False", "InvalidConfiguration", message)
  | StatePending =>
      Ok ("Unknown", ReconciliationPending, "Descendants of SecurityConfig are not yet reconciled.")
  | StateWaitingForJwker =>
      Ok ("Unknown", ReconciliationPending, "Jwker resource has not finished reconciliation.")
  | StateWaitingForMaskinportenClient =>
      Ok ("Unknown", ReconciliationPending, "MaskinportenClient has not finished reconciliation.")
  | StateWaitingForAzureAdApplication =>
      Ok ("Unknown", ReconciliationPending, "AzureAdApplication has not finished reconciliation.")
  | StateFailed =>
      Ok ("False", "ReconciliationFailed",
          "Descendants of SecurityConfig failed during reconciliation.")
  | StateReady =>
      Ok ("True", "ReconciliationSuccess", "Descendants of SecurityConfig reconciled successfully.")
  end.

Definition BuildSecurityConfigCondition (securityConfig : SecurityConfig)
    (reconciliationState : ReconciliationState) (validationErrorMessage : option string)
    (existingConditions : list Condition) : GoM Condition :=
  let conditionType := GetID (TrimPrefix (sc_Kind securityConfig) "*") (sc_Name securityConfig) in
  let* now := call OpNow in
  match state_condition reconciliationState validationErrorMessage with
  | Ok (status, reason, message) =>
      Ret (Ok (preserve_time existingConditions
                 (condition_at conditionType status reason message now)))
  | Err e => Ret (Err e)
  | Panic w => Ret (Panic w)
  end.

(** Status, reason and message for a descendant. *)
Definition descendant_condition (d : Descendant) : string * string * string :=
  match d_ErrorMessage d with
  | Some m => ("False", "Error", m)
  | None => match d_SuccessMessage d with
            | Some m => ("True", "Success", m)
            | None => ("Unknown", "Unknown", "No status message set")
            end
  end.

Fixpoint BuildDescendantConditions (descendants : list Descendant)
    (existingConditions : list Condition) : prog (list Condition) :=
  match descendants with
  | [] => Ret []
  | d :: rest =>
      let* now := call OpNow in
      let '(status, reason, message) := descendant_condition d in
      let condition :=
        preserve_time existingConditions (condition_at (d_ID d) status reason message now) in
      let* conditions := BuildDescendantConditions rest existingConditions in
      Ret (condition :: conditions)
  end.

(** The resources that should have a descendant and have none. *)
Definition missing (descendants : list Descendant) (c : ControllerResource) : bool :=
  negb (IsResourceNil c) &&
  negb (bool_decide (GetID (GetResourceKind c) (GetResourceName c) ∈ d_ID <$> descendants)).

Fixpoint BuildMissingResourceConditions (descendants : list Descendant)
    (controllerResources : list ControllerResource) (existingConditions : list Condition) :
    prog (list Condition) :=
  match controllerResources with
  | [] => Ret []
  | controllerResource :: rest =>
      if missing descendants controllerResource then
        let* now := call OpNow in
        let message := "Expected resource " +:+ GetResourceName controllerResource +:+
                       " of kind " +:+ GetResourceKind controllerResource +:+
                       " was not created" in
        let condition :=
          preserve_time existingConditions
            (condition_at (GetID (GetResourceKind controllerResource)
                                 (GetResourceName controllerResource))
                          "False" "NotFound" message now) in
        let* conditions := BuildMissingResourceConditions descendants rest existingConditions in
        Ret (condition :: conditions)
      else BuildMissingResourceConditions descendants rest existingConditions
  end.

Definition BuildConditions (securityConfig : SecurityConfig)
    (reconciliationState : ReconciliationState) (validationErrorMessage : option string)
    (descendants : list Descendant) (controllerResources : list ControllerResource)
    (existingConditions : list Condition) : GoM (list Condition) :=
  let! securityConfigCondition :=
    BuildSecurityConfigCondition securityConfig reconciliationState validationErrorMessage
      existingConditions in
  let* descendantConditions := BuildDescendantConditions descendants existingConditions in
  let* missingResourceConditions :=
    BuildMissingResourceConditions descendants controllerResources existingConditions in
  Ret (Ok ([securityConfigCondition] ++ descendantConditions ++ missingResourceConditions)).

(** ** Phase, readiness and message: [status_manager.go] *)

Definition determinePhase (reconciliationState : ReconciliationState) : Phase :=
  match reconciliationState with
  | StateInvalid => PhaseInvalid
  | StatePending | StateWaitingForJwker | StateWaitingForMaskinportenClient
  | StateWaitingForAzureAdApplication => PhasePending
  | StateFailed => PhaseFailed
  | StateReady => PhaseReady
  end.

Definition determineReadiness (reconciliationState : ReconciliationState) : bool :=
  match reconciliationState with
  | StateInvalid | StatePending | StateWaitingForJwker | StateWaitingForMaskinportenClient
  | StateWaitingForAzureAdApplication | StateFailed => false
  | StateReady => true
  end.

Definition statusMessage (reconciliationState : ReconciliationState)
    (validationErrorMessage : option string) : outcome string :=
  match reconciliationState with
  | StateInvalid => deref validationErrorMessage
  | StatePending => Ok "SecurityConfig pending due to missing Descendants."
  | StateWaitingForJwker => Ok "SecurityConfig pending, waiting for Jwker to be ready."
  | StateWaitingForMaskinportenClient =>
      Ok "SecurityConfig pending, waiting for MaskinportenClient to be ready."
  | StateWaitingForAzureAdApplication =>
      Ok "SecurityConfig pending, waiting for AzureAdApplication to be ready."
  | StateFailed => Ok "SecurityConfig failed."
  | StateReady => Ok "SecurityConfig ready."
  end.

(** [scope.SecurityConfig.Status.f = v]. *)
Definition upd_status (scope : Scope) (f : SecurityConfigStatus → SecurityConfigStatus) : Scope :=
  sp_with_status scope (f (sc_Status (sp_SecurityConfig scope))).

Section Determine.
Context `{Lib}.

(** One of the three parts of [DetermineReconciliationState] that ask whether
    a client is synchronised: whether to wait for it. *)
Definition check_jwker : ScopeM bool := λ scope,
  if txc_Enabled (sp_TokenXConfig scope) then
    let sc := sp_SecurityConfig scope in
    let jwkerObjectKey := (sc_Namespace sc, TokenxNamer.JwkerName (newNameBase sc)) in
    let* got := GetJwker jwkerObjectKey in
    match got with
    | Ok o =>
        let status := jwker_Status (o_Body o) in
        Ret (Ok (negb (bool_decide (SynchronizationState status = JwkerSynchronizationStateReady))),
             upd_status scope (λ s, st_with_jwker s (SynchronizationSecretName status)))
    | Err e => Ret (Err (wrapf ("failed to get Jwker resource " +:+
                                slash jwkerObjectKey.1 jwkerObjectKey.2 +:+ ": ") e), scope)
    | Panic w => Ret (Panic w, scope)
    end
  else Ret (Ok false, scope).

(** The name of the client object of a configuration type other than [SecretRef]. *)
Definition client_name (t : ConfigType) (managed : string) (clientRef : outcome string) :
    outcome string :=
  match t with
  | CfgInlineClient | CfgNone => Ok managed
  | CfgClientRef => clientRef
  | t => Err (ErrorString ("encountered invalid ConfigType " +:+ itoa (ConfigType_int t)))
  end.

Definition check_maskinporten : ScopeM bool := λ scope,
  let cfg := sp_MaskinportenConfig scope in
  let sc := sp_SecurityConfig scope in
  if mpc_Enabled cfg then
    if bool_decide (mpc_Type cfg = CfgSecretRef) then
      Ret (Ok false, upd_status scope (λ s,
             st_with_maskinporten s (MaskinportenNamer.SecretFromRefName (newNameBase sc))))
    else
      match client_name (mpc_Type cfg) (MaskinportenNamer.MaskinportenClientName (newNameBase sc))
              (let? m := deref (spec_Maskinporten (sc_Spec sc)) in
               let? r := deref (mp_ClientRef m) in Ok (rref_Name r)) with
      | Panic w => Ret (Panic w, scope)
      | Err e => Ret (Err e, scope)
      | Ok maskinportenClientName =>
          let* got := GetMaskinportenClient (sc_Namespace sc, maskinportenClientName) in
          match got with
          | Ok o =>
              let status := mpc_Status (o_Body o) in
              Ret (Ok (negb (bool_decide (SynchronizationState status =
                                          MaskinportenClientSynchronizationStateReady))),
                   upd_status scope (λ s,
                     st_with_maskinporten s (SynchronizationSecretName status)))
          | Err e => Ret (Err (wrapf ("failed to get MaskinportenClient resource " +:+
                                 slash (sc_Namespace sc) maskinportenClientName +:+ ": ") e), scope)
          | Panic w => Ret (Panic w, scope)
          end
      end
  else Ret (Ok false, scope).

Definition check_entraid : ScopeM bool := λ scope,
  let cfg := sp_EntraIdConfig scope in
  let sc := sp_SecurityConfig scope in
  if eic_Enabled cfg then
    if bool_decide (eic_Type cfg = CfgSecretRef) then
      Ret (Ok false, upd_status scope (λ s,
             st_with_entraid s (EntraIdNamer.SecretFromRefName (newNameBase sc))))
    else
      match client_name (eic_Type cfg) (EntraIdNamer.AzureAdApplicationName (newNameBase sc))
              (let? m := deref (spec_EntraID (sc_Spec sc)) in
               let? r := deref (ei_ClientRef m) in Ok (rref_Name r)) with
      | Panic w => Ret (Panic w, scope)
      | Err e => Ret (Err e, scope)
      | Ok azureAdApplicationName =>
          let* got := GetAzureAdApplication (sc_Namespace sc, azureAdApplicationName) in
          match got with
          | Ok o =>
              let status := aad_Status (o_Body o) in
              Ret (Ok (negb (bool_decide (SynchronizationState status =
                                          AzureAdApplicationSynchronizationStateReady))),
                   upd_status scope (λ s, st_with_entraid s (SynchronizationSecretName status)))
          | Err e => Ret (Err (wrapf ("failed to get AzureAdApplication resource " +:+
                                 slash (sc_Namespace sc) azureAdApplicationName +:+ ": ") e), scope)
          | Panic w => Ret (Panic w, scope)
          end
      end
  else Ret (Ok false, scope).

(** Sequencing of functions on the scope. *)
Definition scope_bind {A B : Type} (m : ScopeM A) (f : A → ScopeM B) : ScopeM B := λ scope,
  let* rs := m scope in
  match rs.1 with
  | Ok a => f a rs.2
  | Err e => Ret (Err e, rs.2)
  | Panic w => Ret (Panic w, rs.2)
  end.

(** The audiences of the enabled validators go into the status. *)
Definition set_audiences (scope : Scope) : Scope :=
  let i := sp_IdPortenConfig scope in
  let a := sp_AnsattportenConfig scope in
  let scope := if ipc_Enabled i
               then upd_status scope (λ s, st_with_idporten s (ipc_Audience i)) else scope in
  if anc_Enabled a
  then upd_status scope (λ s, st_with_ansattporten s (anc_Audience a)) else scope.

Definition DetermineReconciliationState (controllerResources : list ControllerResource) :
    ScopeM ReconciliationState := λ scope,
  if sp_InvalidConfig scope then Ret (Ok StateInvalid, scope)
  else if (0 <? length (GetErrors (Some scope)))%nat then Ret (Ok StateFailed, scope)
  else if negb (length (sp_Descendants scope) =? CountNonNilResources controllerResources)%nat
  then Ret (Ok StatePending, scope)
  else
    scope_bind check_jwker (λ waitingForJwker,
    scope_bind check_maskinporten (λ waitingForMaskinportenClient,
    scope_bind check_entraid (λ waitingForAzureAdApplication scope,
      let scope := set_audiences scope in
      Ret (Ok (if waitingForJwker : bool then StateWaitingForJwker
               else if waitingForMaskinportenClient : bool then StateWaitingForMaskinportenClient
               else if waitingForAzureAdApplication : bool then StateWaitingForAzureAdApplication
               else StateReady), scope)))) scope.

(** ** Writing the status *)

Definition UpdateStatus (securityConfig : SecurityConfig) : GoM unit :=
  RetryOnConflict
    (let! latest := call (OpGetSecurityConfig (sc_Namespace securityConfig,
                                               sc_Name securityConfig)) in
     call (OpUpdateStatus (sc_with_status latest (sc_Status securityConfig)))).

(** [recorder.Eventf]; the fixed arguments are dropped. *)
Definition record_event (eventtype reason note : string) : prog unit :=
  call (OpEvent eventtype reason note).

(** The names of the bundles in the data, sorted. *)
Definition bundle_names (data : gomap string) : list string :=
  Sort (map fst (map_to_list (entries data))).

(** [if scope.OpaConfig.Enabled { sc.Status.OpaBundleSource = ... }]. *)
Definition set_bundle_source (scope : Scope) : Scope :=
  if opc_Enabled (sp_OpaConfig scope) then
    upd_status scope (λ s, st_with_opa s (Some
      {| obs_ConfigMapName := OpaNamer.ConfigMapName (newNameBase (sp_SecurityConfig scope));
         obs_BundleNames := bundle_names (opc_BundleBinaryData (sp_OpaConfig scope)) |}))
  else scope.

(** The assignments of the generation, the phase, the readiness and the message. *)
Definition set_state (scope : Scope) (state : ReconciliationState) (message : string) : Scope :=
  upd_status scope (λ s,
    st_with_phase (st_with_observed s (m_Generation (sc_Meta (sp_SecurityConfig scope))))
      (determinePhase state) message (determineReadiness state)).

Definition UpdateSecurityConfigStatus (originalSecurityConfig : SecurityConfig)
    (controllerResources : list ControllerResource) : ScopeM unit := λ scope,
  let* _ := record_event "Normal" "StatusUpdateStarted"
              "Status update of SecurityConfig started." in
  let* rs := DetermineReconciliationState controllerResources scope in
  let scope := rs.2 in
  match rs.1 with
  | Panic w => Ret (Panic w, scope)
  | Err err =>
      let* _ := record_event "Warning" "StatusUpdateFailed"
                  ("Failed to determine reconciliation state: " +:+ Error err) in
      Ret (Ok tt, scope)
  | Ok reconciliationState =>
      match statusMessage reconciliationState (sp_ValidationErrorMessage scope) with
      | Err e => Ret (Err e, scope)
      | Panic w => Ret (Panic w, scope)
      | Ok message =>
          let scope := set_state scope reconciliationState message in
          let* conditions := BuildConditions (sp_SecurityConfig scope) reconciliationState
            (sp_ValidationErrorMessage scope) (sp_Descendants scope) controllerResources
            (st_Conditions (sc_Status originalSecurityConfig)) in
          match conditions with
          | Err e => Ret (Err e, scope)
          | Panic w => Ret (Panic w, scope)
          | Ok conditions =>
              let scope := set_bundle_source
                             (upd_status scope (λ s, st_with_conditions s conditions)) in
              let sc := sp_SecurityConfig scope in
              if negb (SemanticDeepEqual (sc_Status originalSecurityConfig) (sc_Status sc)) then
                let* updated := UpdateStatus sc in
                match updated with
                | Panic w => Ret (Panic w, scope)
                | Err _ =>
                    let* _ := record_event "Warning" "StatusUpdateFailed"
                                "Status update of SecurityConfig failed." in
                    Ret (Ok tt, scope)
                | Ok _ =>
                    let* _ := record_event "Normal" "StatusUpdateSuccess"
                                "Status update of SecurityConfig updated successfully." in
                    Ret (Ok tt, scope)
                end
              else Ret (Ok tt, scope)
          end
      end
  end.
End Determine.

(** ** Specifications *)

(** Everything of a scope but the status of its SecurityConfig. *)
Definition same_but_status (s s' : Scope) : Prop :=
  sp_with_status s zero_status = sp_with_status s' zero_status.

#[global] Instance same_but_status_equiv : Equivalence same_but_status.
Proof. unfold same_but_status. split; red; congruence. Qed.

(** The history holds the read of a client that is in the given state. *)
Definition synced (h : history) (k : Kind) (status : body k → SyncStatus) (ready : string)
    (ok_key : ObjectKey → Prop) : Prop :=
  ∃ key (o : Object k), Ev (OpGet k key) (Ok o) ∈ h ∧ ok_key key ∧
    SynchronizationState (status (o_Body o)) = ready.

(** The clients of a scope, by namespace and name: the Jwker, and the client objects of the
    types other than a secret reference, which a client reference names itself. *)
Definition jwker_key (scope : Scope) (key : ObjectKey) : Prop :=
  let sc := sp_SecurityConfig scope in
  txc_Enabled (sp_TokenXConfig scope) = true ∧
  key = (sc_Namespace sc, TokenxNamer.JwkerName (newNameBase sc)).

Definition maskinporten_key (scope : Scope) (key : ObjectKey) : Prop :=
  let sc := sp_SecurityConfig scope in
  mpc_Enabled (sp_MaskinportenConfig scope) = true ∧ key.1 = sc_Namespace sc ∧
  match mpc_Type (sp_MaskinportenConfig scope) with
  | CfgInlineClient | CfgNone =>
      key.2 = MaskinportenNamer.MaskinportenClientName (newNameBase sc)
  | CfgClientRef => ∃ m r, spec_Maskinporten (sc_Spec sc) = Some m ∧
                           mp_ClientRef m = Some r ∧ key.2 = rref_Name r
  | _ => False
  end.

Definition entraid_key (scope : Scope) (key : ObjectKey) : Prop :=
  let sc := sp_SecurityConfig scope in
  eic_Enabled (sp_EntraIdConfig scope) = true ∧ key.1 = sc_Namespace sc ∧
  match eic_Type (sp_EntraIdConfig scope) with
  | CfgInlineClient | CfgNone =>
      key.2 = EntraIdNamer.AzureAdApplicationName (newNameBase sc)
  | CfgClientRef => ∃ e r, spec_EntraID (sc_Spec sc) = Some e ∧
                           ei_ClientRef e = Some r ∧ key.2 = rref_Name r
  | _ => False
  end.

Definition jwker_synced (scope : Scope) (h : history) : Prop :=
  txc_Enabled (sp_TokenXConfig scope) = true →
  synced h KJwker jwker_Status JwkerSynchronizationStateReady (jwker_key scope).

Definition maskinporten_synced (scope : Scope) (h : history) : Prop :=
  mpc_Enabled (sp_MaskinportenConfig scope) = true →
  mpc_Type (sp_MaskinportenConfig scope) ≠ CfgSecretRef →
  synced h KMaskinportenClient mpc_Status MaskinportenClientSynchronizationStateReady
    (maskinporten_key scope).

Definition entraid_synced (scope : Scope) (h : history) : Prop :=
  eic_Enabled (sp_EntraIdConfig scope) = true →
  eic_Type (sp_EntraIdConfig scope) ≠ CfgSecretRef →
  synced h KAzureAdApplication aad_Status AzureAdApplicationSynchronizationStateReady
    (entraid_key scope).

(** What must have happened before a SecurityConfig is called ready. *)
Definition ready_evidence (scope : Scope) (crs : list ControllerResource) (h : history) : Prop :=
  sp_InvalidConfig scope = false ∧ GetErrors (Some scope) = [] ∧
  length (sp_Descendants scope) = CountNonNilResources crs ∧
  jwker_synced scope h ∧ maskinporten_synced scope h ∧ entraid_synced scope h.

(** The write of a status of [sc]: of the object that was read just before under the key
    of [sc], with nothing but its status changed; the status is coherent and of the
    generation of [sc]; and it says [Ready] only if the calls before that read are
    [evidence]. *)
Definition own_status_write (sc : SecurityConfig) (evidence : history → Prop)
    (h : history) (written : SecurityConfig) : Prop :=
  ∃ h0 latest, h = h0 ++ [Ev (OpGetSecurityConfig (sc_Namespace sc, sc_Name sc)) (Ok latest)] ∧
    written = sc_with_status latest (sc_Status written) ∧
    status_coherent (sc_Status written) ∧
    st_ObservedGeneration (sc_Status written) = m_Generation (sc_Meta sc) ∧
    (st_Ready (sc_Status written) = true → evidence h0).

(** The calls a status update may make: it reads the enabled clients and the
    SecurityConfig, each under its own key, and it writes the status of the SecurityConfig
    that it just read. *)
Definition status_call (scope : Scope) (crs : list ControllerResource) (h : history) (op : Op) :
    Prop :=
  let sc := sp_SecurityConfig scope in
  match op with
  | OpUpdateStatus written => own_status_write sc (ready_evidence scope crs) h written
  | OpGet KJwker key => jwker_key scope key
  | OpGet KMaskinportenClient key => maskinporten_key scope key
  | OpGet KAzureAdApplication key => entraid_key scope key
  | OpGetSecurityConfig key => key = (sc_Namespace sc, sc_Name sc)
  | OpNow | OpEvent _ _ _ => True
  | _ => False
  end.

(** ** Theorems *)

Lemma synced_grow h h2 k status ready ok_key :
  synced h k status ready ok_key → synced (h ++ h2) k status ready ok_key.
Proof.
  intros (key & o & Hin & Hrest). exists key, o. split; [|done]. apply elem_of_app. by left.
Qed.

Lemma ready_evidence_grow scope crs h h2 :
  ready_evidence scope crs h → ready_evidence scope crs (h ++ h2).
Proof.
  intros (H1 & H2 & H3 & H4 & H5 & H6). unfold ready_evidence.
  split_and!; try done; repeat intro; apply synced_grow; auto.
Qed.

(** The calls of [UpdateStatus]. *)
Definition write_call (own : SecurityConfig) (evidence : history → Prop) (h : history)
    (op : Op) : Prop :=
  match op with
  | OpGetSecurityConfig key => key = (sc_Namespace own, sc_Name own)
  | OpUpdateStatus written => own_status_write own evidence h written
  | _ => False
  end.

Lemma UpdateStatus_wp `{LibLaws} own (evidence : history → Prop) h sc :
  (∀ h1 h2, evidence h1 → evidence (h1 ++ h2)) →
  (sc_Namespace sc, sc_Name sc) = (sc_Namespace own, sc_Name own) →
  status_coherent (sc_Status sc) →
  st_ObservedGeneration (sc_Status sc) = m_Generation (sc_Meta own) →
  (st_Ready (sc_Status sc) = true → evidence h) →
  wp (write_call own evidence) h (UpdateStatus sc) (λ _ _, True).
Proof.
  intros Hgrow Hkey Hco Hgen Hready. unfold UpdateStatus.
  match goal with |- wp _ _ (RetryOnConflict ?fn) _ => destruct (retry_spec fn) as [n ->] end.
  eapply wp_mono; [done| |apply (wp_retry _ (λ h, st_Ready (sc_Status sc) = true →
                                              evidence h)); [|done]]; [done|].
  intros h1 Hev. simpl. split; [done|]. intros [latest|e|w]; simpl; [|auto..].
  split; [|auto 10]. exists h1, latest. split_and!; try done. by rewrite Hkey.
Qed.

Section Ready.
Context `{LibLaws} (scope0 : Scope) (crs : list ControllerResource).

(** After a check: the scope differs in the status only, the history has grown, and if
    the answer is that there is nothing to wait for, there is a reason. *)
Definition checked (reason : Scope → history → Prop) (h : history) (s : Scope)
    (h' : history) (rs : outcome bool * Scope) : Prop :=
  same_but_status s rs.2 ∧ (∃ h2, h' = h ++ h2) ∧ (rs.1 = Ok false → reason s h').

Lemma checked_pure reason h s o s' :
  same_but_status s s' → (o = Ok false → reason s h) → checked reason h s h (o, s').
Proof. intros Hs Ho. split; [done|]. split; [exists []; by rewrite app_nil_r|done]. Qed.

Lemma checked_read reason h s k (op := λ key, OpGet k key) key (r : outcome (Object k)) o s' :
  same_but_status s s' → (o = Ok false → reason s (h ++ [Ev (OpGet k key) r])) →
  checked reason h s (h ++ [Ev (OpGet k key) r]) (o, s').
Proof. intros Hs Ho. split; [done|]. split; [by eexists|done]. Qed.

Lemma synced_last h k status ready (ok_key : ObjectKey → Prop) key (o : Object k) b :
  ok_key key → b = negb (bool_decide (SynchronizationState (status (o_Body o)) = ready)) →
  b = false → synced (h ++ [Ev (OpGet k key) (Ok o)]) k status ready ok_key.
Proof.
  intros Hkey -> Hb%negb_false_iff%bool_decide_eq_true. exists key, o.
  split; [|done]. apply elem_of_app. right. by apply list_elem_of_singleton.
Qed.

(** What is said of a scope and not of its status holds of both. *)
Lemma key_transfer (s s' : Scope) key :
  same_but_status s s' →
  (jwker_key s key → jwker_key s' key) ∧ (maskinporten_key s key → maskinporten_key s' key) ∧
  (entraid_key s key → entraid_key s' key).
Proof.
  intros Hs. split_and!.
  - change (jwker_key (sp_with_status s zero_status) key → jwker_key s' key). by rewrite Hs.
  - change (maskinporten_key (sp_with_status s zero_status) key → maskinporten_key s' key).
    by rewrite Hs.
  - change (entraid_key (sp_with_status s zero_status) key → entraid_key s' key). by rewrite Hs.
Qed.

Lemma synced_transfer (s s' : Scope) h :
  same_but_status s s' →
  (jwker_synced s h → jwker_synced s' h) ∧
  (maskinporten_synced s h → maskinporten_synced s' h) ∧
  (entraid_synced s h → entraid_synced s' h).
Proof.
  intros Hs. split_and!.
  - change (jwker_synced (sp_with_status s zero_status) h → jwker_synced s' h).
    by rewrite Hs.
  - change (maskinporten_synced (sp_with_status s zero_status) h → maskinporten_synced s' h).
    by rewrite Hs.
  - change (entraid_synced (sp_with_status s zero_status) h → entraid_synced s' h).
    by rewrite Hs.
Qed.

Lemma check_jwker_wp h s :
  same_but_status scope0 s →
  wp (status_call scope0 crs) h (check_jwker s) (checked jwker_synced h s).
Proof.
  intros Hs. unfold check_jwker. destruct (txc_Enabled _) eqn:He.
  - assert (∀ key, key = (sc_Namespace (sp_SecurityConfig s),
              TokenxNamer.JwkerName (newNameBase (sp_SecurityConfig s))) → jwker_key s key)
      as Hkey by (intros key ->; by split).
    simpl. split; [by apply (key_transfer s), Hkey|].
    intros [o|e|w]; simpl; apply checked_read; try done.
    intros [= Hb] _. eapply synced_last; [by apply Hkey|done..].
  - apply checked_pure; [done|]. intros _. unfold jwker_synced. by rewrite He.
Qed.

Lemma maskinporten_client_key s name :
  mpc_Enabled (sp_MaskinportenConfig s) = true →
  client_name (mpc_Type (sp_MaskinportenConfig s))
    (MaskinportenNamer.MaskinportenClientName (newNameBase (sp_SecurityConfig s)))
    (let? m := deref (spec_Maskinporten (sc_Spec (sp_SecurityConfig s))) in
     let? r := deref (mp_ClientRef m) in Ok (rref_Name r)) = Ok name →
  maskinporten_key s (sc_Namespace (sp_SecurityConfig s), name).
Proof.
  intros He Hn. split_and!; [done..|]. cbn [fst snd].
  destruct (mpc_Type _) in *; cbn [client_name] in Hn; try discriminate Hn;
    [by injection Hn| |by injection Hn].
  destruct (spec_Maskinporten _) as [m|]; [|done]. cbn [deref outcome_bind] in Hn.
  destruct (mp_ClientRef m) as [r|] eqn:Hr; [|done]. injection Hn as <-. by exists m, r.
Qed.

Lemma check_maskinporten_wp h s :
  same_but_status scope0 s →
  wp (status_call scope0 crs) h (check_maskinporten s) (checked maskinporten_synced h s).
Proof.
  intros Hs. unfold check_maskinporten. destruct (mpc_Enabled _) eqn:He.
  - destruct (bool_decide_reflect (mpc_Type (sp_MaskinportenConfig s) = CfgSecretRef)).
    + apply checked_pure; [done|]. by intros _ _ Hne.
    + destruct (client_name _ _ _) as [name|e|w] eqn:Hn; [|by apply checked_pure..].
      apply (maskinporten_client_key s name He) in Hn as Hkey.
      simpl. split; [by apply (key_transfer s)|].
      intros [o|e|w]; simpl; apply checked_read; try done.
      intros [= Hb] _ _. by eapply synced_last.
  - apply checked_pure; [done|]. intros _. unfold maskinporten_synced. by rewrite He.
Qed.

Lemma entraid_client_key s name :
  eic_Enabled (sp_EntraIdConfig s) = true →
  client_name (eic_Type (sp_EntraIdConfig s))
    (EntraIdNamer.AzureAdApplicationName (newNameBase (sp_SecurityConfig s)))
    (let? m := deref (spec_EntraID (sc_Spec (sp_SecurityConfig s))) in
     let? r := deref (ei_ClientRef m) in Ok (rref_Name r)) = Ok name →
  entraid_key s (sc_Namespace (sp_SecurityConfig s), name).
Proof.
  intros He Hn. split_and!; [done..|]. cbn [fst snd].
  destruct (eic_Type _) in *; cbn [client_name] in Hn; try discriminate Hn;
    [by injection Hn| |by injection Hn].
  destruct (spec_EntraID _) as [m|]; [|done]. cbn [deref outcome_bind] in Hn.
  destruct (ei_ClientRef m) as [r|] eqn:Hr; [|done]. injection Hn as <-. by exists m, r.
Qed.

Lemma check_entraid_wp h s :
  same_but_status scope0 s →
  wp (status_call scope0 crs) h (check_entraid s) (checked entraid_synced h s).
Proof.
  intros Hs. unfold check_entraid. destruct (eic_Enabled _) eqn:He.
  - destruct (bool_decide_reflect (eic_Type (sp_EntraIdConfig s) = CfgSecretRef)).
    + apply checked_pure; [done|]. by intros _ _ Hne.
    + destruct (client_name _ _ _) as [name|e|w] eqn:Hn; [|by apply checked_pure..].
      apply (entraid_client_key s name He) in Hn as Hkey.
      simpl. split; [by apply (key_transfer s)|].
      intros [o|e|w]; simpl; apply checked_read; try done.
      intros [= Hb] _ _. by eapply synced_last.
  - apply checked_pure; [done|]. intros _. unfold entraid_synced. by rewrite He.
Qed.

Lemma set_audiences_same s : same_but_status s (set_audiences s).
Proof.
  unfold set_audiences. by destruct (ipc_Enabled _), (anc_Enabled _).
Qed.

(** The state that is determined: the scope differs in the status only, and the state
    is [StateReady] only on evidence. *)
Lemma DetermineReconciliationState_wp h :
  wp (status_call scope0 crs) h (DetermineReconciliationState crs scope0)
    (λ h' rs, same_but_status scope0 rs.2 ∧
              (rs.1 = Ok StateReady → ready_evidence scope0 crs h')).
Proof.
  unfold DetermineReconciliationState.
  destruct (sp_InvalidConfig scope0) eqn:Hinv; [by split|].
  destruct (Nat.ltb_spec 0 (length (GetErrors (Some scope0)))) as [|Herr]; [by split|].
  destruct (Nat.eqb_spec (length (sp_Descendants scope0)) (CountNonNilResources crs))
    as [Hcount|]; [|by split]. cbn [negb].
  assert (GetErrors (Some scope0) = []) as Hnone by (apply length_zero_iff_nil; lia).
  clear Herr. unfold scope_bind. apply wp_bind.
  eapply wp_mono; [done| |by apply check_jwker_wp].
  intros h1 [[b1|e|w] s1] (Hs1 & (d1 & ->) & Hj); simpl in *; [|by split..].
  apply wp_bind. eapply wp_mono; [done| |by apply check_maskinporten_wp].
  intros h2 [[b2|e|w] s2] (Hs2 & (d2 & ->) & Hm); simpl in *;
    [|by split; [etransitivity|]..].
  apply wp_bind. eapply wp_mono; [done| |apply check_entraid_wp; by etransitivity].
  intros h3 [[b3|e|w] s3] (Hs3 & (d3 & ->) & He); simpl in *;
    [|by split; [etransitivity; [|etransitivity]|]..].
  assert (same_but_status scope0 s2) as Hs02 by (by etransitivity).
  split; [etransitivity; [exact Hs02|]; etransitivity; [exact Hs3|]; apply set_audiences_same|].
  destruct b1, b2, b3; try done. intros _. unfold ready_evidence.
  split_and!; [done..| | |].
  - specialize (Hj eq_refl). intros Hx. by apply synced_grow, synced_grow, Hj.
  - specialize (Hm eq_refl). apply (proj1 (proj2 (synced_transfer s1 scope0 _ ltac:(done)))) in Hm.
    intros Hx Hy. by apply synced_grow, Hm.
  - apply (synced_transfer s2 scope0); [done|]. by apply He.
Qed.
(** Building conditions asks for the time and nothing else. *)
Lemma BuildConditions_calls sc st v ds existing :
  all_ops (λ op, op = OpNow) (BuildConditions sc st v ds crs existing).
Proof.
  unfold BuildConditions, BuildSecurityConfigCondition. ops_tac; try done.
  - induction ds as [|d ds IH]; simpl; ops_tac; done.
  - induction crs as [|c l IH]; simpl; ops_tac; done.
Qed.

Lemma state_coherent state :
  determineReadiness state = true ↔ determinePhase state = PhaseReady.
Proof. by destruct state. Qed.

Lemma set_bundle_source_same s :
  same_but_status s (set_bundle_source s) ∧
  ∃ o, sc_Status (sp_SecurityConfig (set_bundle_source s)) =
       st_with_opa (sc_Status (sp_SecurityConfig s)) o.
Proof.
  unfold set_bundle_source. case_match; (split; [done|]); [by eexists|].
  exists (st_OpaBundleSource (sc_Status (sp_SecurityConfig s))).
  by destruct (sc_Status (sp_SecurityConfig s)).
Qed.

Lemma record_event_wp {A} h t re n (f : unit → prog A) Q :
  wp (status_call scope0 crs) (h ++ [Ev (OpEvent t re n) tt]) (f tt) Q →
  wp (status_call scope0 crs) h (prog_bind (record_event t re n) f) Q.
Proof. intros Hf. split; [done|]. by intros []. Qed.

Lemma UpdateSecurityConfigStatus_wp h original :
  wp (status_call scope0 crs) h (UpdateSecurityConfigStatus original crs scope0)
    (λ _ rs, same_but_status scope0 rs.2).
Proof.
  unfold UpdateSecurityConfigStatus. apply record_event_wp, wp_bind.
  eapply wp_mono; [done| |apply DetermineReconciliationState_wp].
  intros h1 [[state|e|w] s] [Hs Hev]; cbn [fst snd] in *;
    [|by apply record_event_wp|done].
  destruct (statusMessage _ _) as [message|e|w]; [|done..]. cbv zeta.
  set (s1 := set_state s state message). apply wp_bind.
  eapply wp_mono; [done| |apply wp_grow, (all_ops_wp (λ op, op = OpNow));
                          [by intros ? ? ->|apply BuildConditions_calls]].
  intros h2 [conditions|e|w] [_ (d & ->)]; [|done..].
  set (s2 := upd_status s1 (λ s, st_with_conditions s conditions)).
  destruct (set_bundle_source_same s2) as [Hs3 [o Hst]].
  set (s3 := set_bundle_source s2) in *.
  assert (same_but_status scope0 s3) as Hs' by (transitivity s; [done|exact Hs3]).
  destruct (negb _); [|done].
  apply wp_bind. eapply wp_mono; [| |apply (UpdateStatus_wp (sp_SecurityConfig scope0)
                                             (ready_evidence scope0 crs))]; cycle 1.
  - intros h3 [u|e|w] _; [by apply record_event_wp..|done].
  - intros h3 h4. apply ready_evidence_grow.
  - exact (f_equal (λ s, (sc_Namespace (sp_SecurityConfig s), sc_Name (sp_SecurityConfig s)))
             (eq_sym Hs')).
  - rewrite Hst. exact (state_coherent state).
  - rewrite Hst. exact (f_equal (λ s, m_Generation (sc_Meta (sp_SecurityConfig s))) (eq_sym Hs)).
  - rewrite Hst. intros Hr. apply ready_evidence_grow, Hev. f_equal.
    change (determineReadiness state = true) in Hr. by destruct state.
  - by intros h3 [].
Qed.

(** C11: whatever the API server answers, a status update reads the enabled clients, each
    under its own namespace and name, and the SecurityConfig under its own key, and all it
    writes is the object that it just read there, with nothing but the status changed; every
    status it writes says [Ready] exactly when its phase is [Ready] and carries the
    generation that was reconciled; and it says [Ready] only after no descendant failed,
    every expected resource has a descendant, and each enabled client that is reconciled by
    another operator was read, under its own key, in its synchronised state. *)
Theorem UpdateSecurityConfigStatus_safe original h p' h1 op r h2 :
  steps (UpdateSecurityConfigStatus original crs scope0) h p' →
  h = h1 ++ Ev op r :: h2 → status_call scope0 crs h1 op.
Proof.
  intros Hs Hh.
  exact (proj2 (wp_adequate _ _ _ _ [] _ (UpdateSecurityConfigStatus_wp [] original) Hs)
           h1 op r h2 Hh).
Qed.
End Ready.

(** ** Conditions *)

(** A condition without its time. *)
Definition content (c : Condition) : string * string * string * string :=
  (c_Type c, c_Status c, c_Reason c, c_Message c).

Definition own_type (sc : SecurityConfig) : string :=
  GetID (TrimPrefix (sc_Kind sc) "*") (sc_Name sc).

(** The time of a new condition is the one of an existing condition that says the
    same, if there is one. *)
Definition time_kept (existing : list Condition) (c : Condition) : Prop :=
  ∀ e, List.find (λ e, isLogicallyEqualCondition e c) existing = Some e →
       c_LastTransitionTime c = c_LastTransitionTime e.

(** What the conditions say, whatever the time. *)
Definition descendant_content (d : Descendant) : string * string * string * string :=
  let '(status, reason, message) := descendant_condition d in (d_ID d, status, reason, message).
Definition missing_content (c : ControllerResource) : string * string * string * string :=
  (GetID (GetResourceKind c) (GetResourceName c), "False", "NotFound",
   "Expected resource " +:+ GetResourceName c +:+ " of kind " +:+ GetResourceKind c +:+
   " was not created").

(** The contents of all conditions, in order, after the SecurityConfig's own [own]. *)
Definition contents (own : string * string * string * string) (ds : list Descendant)
    (crs : list ControllerResource) : list (string * string * string * string) :=
  own :: (descendant_content <$> ds) ++ (missing_content <$> List.filter (missing ds) crs).

Lemma isLogicallyEqual_content a b :
  isLogicallyEqualCondition a b = true ↔ content a = content b.
Proof.
  unfold isLogicallyEqualCondition, content. rewrite !andb_true_iff, !bool_decide_eq_true.
  split; [intros [[[-> ->] ->] ->]; done|]. by intros [= -> -> -> ->].
Qed.

Lemma preserve_time_content existing c : content (preserve_time existing c) = content c.
Proof. unfold preserve_time. by case_match. Qed.

Lemma find_content c c' existing :
  content c = content c' →
  List.find (λ e, isLogicallyEqualCondition e c) existing =
  List.find (λ e, isLogicallyEqualCondition e c') existing.
Proof.
  intros [= H1 H2 H3 H4]. unfold isLogicallyEqualCondition. by rewrite H1, H2, H3, H4.
Qed.

Lemma preserve_time_kept existing c : time_kept existing (preserve_time existing c).
Proof.
  intros e. rewrite (find_content _ c existing) by apply preserve_time_content.
  unfold preserve_time. intros Hf. by rewrite Hf.
Qed.

(** A list of conditions with the given contents, and times kept. *)
Definition built (existing : list Condition) (l : list (string * string * string * string))
    (cs : list Condition) : Prop :=
  content <$> cs = l ∧ Forall (time_kept existing) cs.

Lemma built_cons existing c l cs :
  built existing l cs →
  built existing (content c :: l) (preserve_time existing c :: cs).
Proof.
  intros [Hl Hk]. split; [by rewrite fmap_cons, preserve_time_content, Hl|].
  constructor; [apply preserve_time_kept|done].
Qed.

Lemma descendants_built existing ds h :
  wp (λ _ _, True) h (BuildDescendantConditions ds existing)
    (λ _ cs, built existing (descendant_content <$> ds) cs).
Proof.
  revert h. induction ds as [|d ds IH]; intros h; [by split|].
  rewrite fmap_cons. split; [done|]. intros now. unfold descendant_content at 1. simpl.
  destruct (descendant_condition d) as [[status reason] message].
  apply wp_bind. eapply wp_mono; [done| |apply IH]. intros h' cs Hcs. simpl.
  exact (built_cons _ (condition_at (d_ID d) status reason message now) _ _ Hcs).
Qed.

Lemma missing_built existing ds crs h :
  wp (λ _ _, True) h (BuildMissingResourceConditions ds crs existing)
    (λ _ cs, built existing (missing_content <$> List.filter (missing ds) crs) cs).
Proof.
  revert h. induction crs as [|c crs IH]; intros h; simpl; [by split|].
  destruct (missing ds c); [|apply IH]. simpl. split; [done|]. intros now.
  apply wp_bind. eapply wp_mono; [done| |apply IH]. intros h' cs Hcs. simpl.
  exact (built_cons _ (condition_at _ "False" "NotFound" _ now) _ _ Hcs).
Qed.

Lemma conditions_built sc st v ds crs existing :
  yields (λ cs, ∃ status reason message, state_condition st v = Ok (status, reason, message) ∧
            built existing (contents (own_type sc, status, reason, message) ds crs) cs)
    (BuildConditions sc st v ds crs existing).
Proof.
  intros h. unfold BuildConditions, BuildSecurityConfigCondition, gom_bind. simpl.
  split; [done|]. intros now.
  destruct (state_condition st v) as [[[status reason] message]|e|w]; simpl; [|done..].
  apply wp_bind. eapply wp_mono; [done| |apply descendants_built]. intros h1 dcs [Hd1 Hd2].
  apply wp_bind. eapply wp_mono; [done| |apply missing_built]. intros h2 mcs [Hm1 Hm2].
  simpl. intros cs [= <-]. exists status, reason, message. split; [done|].
  apply (built_cons existing (condition_at (own_type sc) status reason message now)).
  split; [by rewrite fmap_app, Hd1, Hm1|by apply Forall_app].
Qed.

(** With one condition per type, building the same contents again on top of a list
    gives the list itself. *)
Lemma built_again existing l cs cs' :
  NoDup (c_Type <$> cs) → built existing l cs → built cs l cs' → cs' = cs.
Proof.
  intros Hnd [Hl _] [Hl' Hk]. rewrite <-Hl in Hl'. clear Hl l.
  assert (∀ c c', c ∈ cs → content c' = content c → time_kept cs c' → c' = c) as Hone.
  { intros c c' Hin Heq Hkeep. unfold time_kept in Hkeep.
    destruct (List.find _ cs) as [e|] eqn:Hf.
    - pose proof (find_some _ _ Hf) as [He Hle%isLogicallyEqual_content].
      apply list_elem_of_In in He. specialize (Hkeep e eq_refl).
      assert (e = c) as ->.
      { apply list_elem_of_lookup in Hin as [i Hi], He as [j Hj].
        assert (c_Type e = c_Type c) as Ht by (unfold content in *; congruence).
        assert (i = j) as <-; [|congruence].
        eapply NoDup_lookup; [exact Hnd| |]; rewrite list_lookup_fmap.
        - by rewrite Hi.
        - rewrite Hj. simpl. by rewrite Ht. }
      destruct c, c'; unfold content in *; simpl in *; congruence.
    - apply list_elem_of_In in Hin. apply (find_none _ _ Hf) in Hin.
      apply not_true_iff_false in Hin. destruct Hin. by apply isLogicallyEqual_content. }
  clear Hnd. revert cs' Hl' Hk. revert Hone. generalize cs at 2 4 as all. intros all.
  induction cs as [|c cs IH]; intros Hone [|c' cs'] Hl' Hk; try done.
  rewrite !fmap_cons in Hl'. injection Hl' as Hc1 Hc2 Hc3 Hc4 Hl'.
  apply Forall_cons in Hk as [Hk1 Hk2]. f_equal.
  - apply Hone; [by left| |done]. unfold content. congruence.
  - apply IH; [|done|done]. intros d d' Hd. apply Hone. by right.
Qed.

(** C26: the conditions are the SecurityConfig's own, then one per descendant that
    tells its error or its success, then one per expected resource without a
    descendant; a condition that says what an existing one says keeps its transition
    time. *)
Theorem BuildConditions_spec sc st v ds crs existing h cs :
  steps (BuildConditions sc st v ds crs existing) h (Ret (Ok cs)) →
  ∃ status reason message, state_condition st v = Ok (status, reason, message) ∧
    content <$> cs = contents (own_type sc, status, reason, message) ds crs ∧
    Forall (time_kept existing) cs.
Proof. apply (yields_steps _ _ _ _ (conditions_built sc st v ds crs existing)). Qed.

(** C25: building the conditions again in the same state, on top of the ones that were
    built before, gives the same list, times included: an unchanged SecurityConfig
    gets an unchanged status. *)
Theorem BuildConditions_stable sc st v ds crs existing h cs h' cs' :
  NoDup (c_Type <$> cs) →
  steps (BuildConditions sc st v ds crs existing) h (Ret (Ok cs)) →
  steps (BuildConditions sc st v ds crs cs) h' (Ret (Ok cs')) →
  cs' = cs.
Proof.
  intros Hnd H1 H2.
  destruct (yields_steps _ _ _ _ (conditions_built sc st v ds crs existing) H1)
    as (s1 & r1 & m1 & E1 & Hb1).
  destruct (yields_steps _ _ _ _ (conditions_built sc st v ds crs cs) H2)
    as (s2 & r2 & m2 & E2 & Hb2).
  rewrite E1 in E2. injection E2 as <- <- <-. by eapply built_again.
Qed.

(** ** Applications *)

Definition sample_descendant : Descendant :=
  {| d_ID := "Jwker-app"; d_Object := AnyObj KJwker sample_jwker; d_ErrorMessage := None;
     d_SuccessMessage := Some "done" |}.

(** The conditions of the sample, at times [t1] and [t2]. *)
Definition sample_times (t1 t2 : Time) : history := [Ev OpNow t1; Ev OpNow t2].

Lemma BuildConditions_spec_witness :
  ∃ cs, content <$> cs =
    [("SecurityConfig-cfg", "True", "ReconciliationSuccess",
      "Descendants of SecurityConfig reconciled successfully.");
     ("Jwker-app", "True", "Success", "done")].
Proof.
  eexists.
  edestruct (BuildConditions_spec sample_sc StateReady None [sample_descendant] [] []
               (sample_times 5 6)) as (s & r & m & E & Hc & _).
  - do 2 apply steps_op. apply steps_refl.
  - rewrite Hc. by injection E as <- <- <-.
Defined.

Definition sample_condition (type reason message : string) (t : Time) : Condition :=
  {| c_Type := type; c_Status := "True"; c_Reason := reason; c_Message := message;
     c_LastTransitionTime := t |}.
Definition sample_conditions : list Condition :=
  [sample_condition "SecurityConfig-cfg" "ReconciliationSuccess"
     "Descendants of SecurityConfig reconciled successfully." 5;
   sample_condition "Jwker-app" "Success" "done" 6].

Lemma BuildConditions_stable_witness :
  ∃ cs', steps (BuildConditions sample_sc StateReady None [sample_descendant] []
                  sample_conditions) (sample_times 7 8) (Ret (Ok cs')) ∧
         cs' = sample_conditions.
Proof.
  assert (steps (BuildConditions sample_sc StateReady None [sample_descendant] []
            sample_conditions) (sample_times 7 8) (Ret (Ok sample_conditions))) as Hs.
  { do 2 apply steps_op. apply steps_refl. }
  eexists. split; [exact Hs|].
  eapply (BuildConditions_stable sample_sc StateReady None [sample_descendant] [] []
            (sample_times 5 6) sample_conditions (sample_times 7 8)).
  - vm_compute. apply NoDup_cons. split; [|apply NoDup_singleton].
    by intros ?%list_elem_of_singleton.
  - do 2 apply steps_op. apply steps_refl.
  - exact Hs.
Defined.

Definition sample_synced : Object KJwker :=
  @MkObject KJwker "Jwker" (o_Meta sample_created)
    {| jwker_Spec := jwker_Spec (o_Body sample_created);
       jwker_Status := {| SynchronizationState := JwkerSynchronizationStateReady;
                          SynchronizationSecretName := "app-jwker-secret" |} |}.

(** The calls of a status update that finds the Jwker synchronised. *)
Definition sample_status_history : history :=
  [Ev (OpEvent "Normal" "StatusUpdateStarted" "Status update of SecurityConfig started.") tt;
   Ev (OpGet KJwker ("team", "app")) (Ok sample_synced);
   Ev OpNow 5%Z;
   Ev (OpGetSecurityConfig ("team", "cfg")) (Ok sample_sc)].

Lemma UpdateSecurityConfigStatus_safe_witness :
  ∃ sc, st_Ready (sc_Status sc) = true ∧
        status_call sample_scope [] sample_status_history (OpUpdateStatus sc).
Proof.
  eexists. split; cycle 1.
  - eapply (UpdateSecurityConfigStatus_safe sample_scope [] sample_sc
      (sample_status_history ++ [Ev (OpUpdateStatus _) (Ok tt)]) _ sample_status_history
      (OpUpdateStatus _) (Ok tt) []).
    + do 4 apply steps_op. apply (steps_op (OpUpdateStatus _)). apply steps_refl.
    + reflexivity.
  - reflexivity.
Defined.
