(* ===== verification/Controller.v ===== *)
(** * The controller: [internal/controller/securityconfig_controller.go]

    [doReconcile] reconciles every resource and collects the errors; [Reconcile]
    is the whole reaction to a request.  The theorems: what a reconciliation may
    do to the cluster, whatever the API server answers; that the recorded
    descendants tell success and failure apart; and what is left alone. *)
From stdpp Require Import base gmap strings list.
From Stdlib Require Import ZArith Lia.
From S2P Require Import Prelude GoStrings Kube Api Model Cluster ProgTheory RefServer Config Naming State Utilities Reconciliation Generators Resources Samples Resolver Events Status.
Open Scope go_scope.

Section Controller.
Context `{Lib} `{Globals}.

(** The event for one resource. *)
Definition resource_event (rf : ControllerResource) (failed : bool) : prog unit :=
  if failed
  then record_event "Warning" (GetResourceKind rf +:+ "ReconcileFailed")
         (GetResourceKind rf +:+ " with name " +:+ GetResourceName rf +:+
          " failed during reconciliation.")
  else record_event "Normal" (GetResourceKind rf +:+ "ReconciledSuccessfully")
         (GetResourceKind rf +:+ " with name " +:+ GetResourceName rf +:+
          " reconciled successfully.").

(** The loop of [doReconcile]: the result and the errors so far.  A panic of a
    resource ends it. *)
Fixpoint reconcile_loop (controllerResources : list ControllerResource) (result : Result)
    (errs : list error) : ScopeM (Result * list error) := λ scope,
  match controllerResources with
  | [] => Ret (Ok (result, errs), scope)
  | rf :: rest =>
      let* rs := Reconciliation.Reconcile rf scope in
      match rs.1 with
      | Panic w => Ret (Panic w, rs.2)
      | Err err =>
          let* _ := resource_event rf true in
          reconcile_loop rest result (errs ++ [err]) rs.2
      | Ok reconcileResult =>
          let* _ := resource_event rf false in
          reconcile_loop rest
            (if (0 <? length errs)%nat then result else LowestNonZeroResult result reconcileResult)
            errs rs.2
      end
  end.

Definition doReconcile (controllerResources : list ControllerResource) : ScopeM Result := λ scope,
  let* rs := reconcile_loop controllerResources zero_result [] scope in
  match rs.1 with
  | Panic w => Ret (Panic w, rs.2)
  | Err e => Ret (Err e, rs.2)
  | Ok (result, errs) =>
      if (0 <? length errs)%nat then
        let* _ := record_event "Warning" "ReconcileFailed"
                    "SecurityConfig failed during reconciliation" in
        Ret (Err (NewAggregate errs), rs.2)
      else
        let* _ := record_event "Normal" "ReconcileSuccess"
                    "SecurityConfig reconciled successfully" in
        Ret (Ok result, rs.2)
  end.

(** [maps.Copy(labels, SecurityConfigStandardLabels())] on a map that is made first
    if it is nil: an entry of the standard labels wins. *)
Definition standard_labels (labels : gomap string) : gomap string :=
  Some (SecurityConfigStandardLabels ∪ entries labels).

(** [defer UpdateSecurityConfigStatus(...)] around [doReconcile]: it also runs
    when [doReconcile] panics; its own panic ends the reconciliation. *)
Definition reconcile_resources (original : SecurityConfig)
    (controllerResources : list ControllerResource) (scope : Scope) : GoM Result :=
  let* rs := doReconcile controllerResources scope in
  let* us := UpdateSecurityConfigStatus original controllerResources rs.2 in
  match us.1 with
  | Panic w => Ret (Panic w)
  | _ => Ret rs.1
  end.

(** From the resolution on: [securityConfig] is resolved, the status is compared with
    the one of [deepCopiedSecurityConfig]. *)
Definition reconcile_resolved (securityConfig deepCopiedSecurityConfig : SecurityConfig) :
    GoM Result :=
  let* resolution := ResolveSecurityConfig securityConfig in
  match resolution with
  | Panic w => Ret (Panic w)
  | Err err =>
      let failed := sc_with_status securityConfig
        (st_with_phase (sc_Status securityConfig) PhaseFailed (Error err)
           (st_Ready (sc_Status securityConfig))) in
      let! _ := UpdateStatus failed in
      Ret (Err err)
  | Ok scope =>
      match ControllerResources scope with
      | Panic w => Ret (Panic w)
      | Err e => Ret (Err e)
      | Ok controllerResources =>
          reconcile_resources deepCopiedSecurityConfig controllerResources scope
      end
  end.

Definition Reconcile (req : Request) : GoM Result :=
  let* got := call (OpGetSecurityConfig req) in
  match got with
  | Panic w => Ret (Panic w)
  | Err err => if IsNotFound err then Ret (Ok zero_result) else Ret (Err err)
  | Ok found =>
      let* _ := record_event "Normal" "ReconcileStarted"
                  ("SecurityConfig with name " +:+ slash req.1 req.2 +:+ " started.") in
      let securityConfig := InitializeStatus found in
      if is_some (m_DeletionTimestamp (sc_Meta securityConfig)) then Ret (Ok zero_result)
      else
        let deepCopied := sc_with_meta securityConfig
          (with_labels (sc_Meta securityConfig)
             (standard_labels (m_Labels (sc_Meta securityConfig)))) in
        if negb (bool_decide (entries (m_Labels (sc_Meta deepCopied)) =
                              entries (m_Labels (sc_Meta securityConfig)))) then
          let! deepCopied := call (OpPatchSecurityConfig securityConfig deepCopied) in
          reconcile_resolved securityConfig deepCopied
        else reconcile_resolved securityConfig deepCopied
  end.
End Controller.

(** ** Specifications *)

(** A call that the reconciliation of one of the resources may make, or an event. *)
Definition resources_call `{Lib} (sc : ObjectMeta) (rfs : list ControllerResource)
    (h : history) (op : Op) : Prop :=
  match op with
  | OpEvent _ _ _ => True
  | _ => ∃ k rf, ControllerResourceAdapter k rf ∈ rfs ∧ guarded sc k (rf_ResourceName rf) h op
  end.

(** How the calls of a reconciliation of [sc] begin: the read, the event, and the patch of
    the labels if there was one. *)
Definition labelled (sc : SecurityConfig) : SecurityConfig :=
  sc_with_meta sc (with_labels (sc_Meta sc) (standard_labels (m_Labels (sc_Meta sc)))).
Definition first_calls (req : Request) (sc : SecurityConfig) : history :=
  [Ev (OpGetSecurityConfig req) (Ok sc);
   Ev (OpEvent "Normal" "ReconcileStarted"
         ("SecurityConfig with name " +:+ slash req.1 req.2 +:+ " started.")) tt].
Definition begun (req : Request) (sc : SecurityConfig) (h : history) : Prop :=
  h = first_calls req sc ∨
  ∃ d, h = first_calls req sc ++
           [Ev (OpPatchSecurityConfig (InitializeStatus sc) (labelled (InitializeStatus sc))) (Ok d)].

(** The evidence for [Ready] in the calls of a reconciliation: this very run resolved [sc]
    to a scope and reconciled the resources of that scope, which left the scope [rs.2]; and
    that scope, with the reads of the clients that followed, is [ready_evidence]. *)
Definition ready_run `{Lib} `{Globals} (req : Request) (sc : SecurityConfig) (h : history) : Prop :=
  ∃ pre h1 h2 h3 scope crs rs, h = pre ++ h1 ++ h2 ++ h3 ∧ begun req sc pre ∧
    steps (ResolveSecurityConfig (InitializeStatus sc)) h1 (Ret (Ok scope)) ∧
    ControllerResources scope = Ok crs ∧ steps (doReconcile crs scope) h2 (Ret rs) ∧
    ready_evidence rs.2 crs h3.

(** The clients that the specification of [sc] refers to. *)
Definition client_refs (sc : SecurityConfig) : list (Kind * string) :=
  match spec_Maskinporten (sc_Spec sc) with
  | Some m => match mp_ClientRef m with
              | Some r => [(KMaskinportenClient, rref_Name r)] | None => [] end
  | None => []
  end ++
  match spec_EntraID (sc_Spec sc) with
  | Some e => match ei_ClientRef e with
              | Some r => [(KAzureAdApplication, rref_Name r)] | None => [] end
  | None => []
  end.

(** The calls of a whole reconciliation of [sc], after the SecurityConfig was read.  A
    write is: labels on the SecurityConfig itself, once and only if they differ; its
    status, over the object that was just read under its key, and [Ready] only on the
    evidence of this run; or a guarded write of one of its twelve objects.  A read is of
    one of the twelve, of a client it refers to, of what its resolution reads, or of the
    SecurityConfig itself. *)
Definition reconcile_call `{Lib} `{Globals} (req : Request) (sc : SecurityConfig)
    (h : history) (op : Op) : Prop :=
  match op with
  | OpPatchSecurityConfig before after =>
      h = first_calls req sc ∧ before = InitializeStatus sc ∧ after = labelled before ∧
      entries (m_Labels (sc_Meta after)) ≠ entries (m_Labels (sc_Meta before))
  | OpUpdateStatus written => own_status_write sc (ready_run req sc) h written
  | OpCreate _ _ | OpPatch _ _ _ | OpDelete _ _ =>
      ∃ k name, (kind_name k, name) ∈ resource_names sc ∧ guarded (sc_Meta sc) k name h op
  | OpGet k key =>
      (key.1 = sc_Namespace sc ∧ (kind_name k, key.2) ∈ resource_names sc) ∨
      (key.1 = sc_Namespace sc ∧ (k, key.2) ∈ client_refs sc) ∨
      resolver_read (InitializeStatus sc) op
  | OpGetSecurityConfig key => key = (sc_Namespace sc, sc_Name sc)
  | OpListNamespaces _ | OpResolveOci _ | OpFetchOpaBundleLayer _ | OpNow | OpEvent _ _ _ => True
  | OpUpdate _ _ | OpUpdateObjectStatus _ _ | OpListSecurityConfigs _
  | OpListReferrers _ _ | OpValidateSigstoreBundles _ _ _ => False
  end.

(** ** Theorems *)

Lemma guarded_write `{Lib} sc k name h op :
  guarded sc k name h op →
  match op with
  | OpGet _ _ | OpCreate _ _ | OpPatch _ _ _ | OpDelete _ _ => True
  | _ => False
  end.
Proof. by destruct op. Qed.

Section Loop.
Context `{LibLaws} `{Globals}.

Lemma reconcile_one_wp rf scope h :
  resource_ok scope rf →
  wp (resources_call (sc_Meta (sp_SecurityConfig scope)) [rf]) h
    (Reconciliation.Reconcile rf scope)
    (λ h' rs, (Forall honest h' →
       match rf with ControllerResourceAdapter k r => recorded r scope rs end)).
Proof.
  destruct rf as [k rf]. intros [Hwn _]. cbn [Reconciliation.Reconcile].
  eapply wp_mono; [| |apply reconcile_wp; exact Hwn]; [|done].
  intros h' op Hg. pose proof (guarded_write _ _ _ _ _ Hg) as Hw.
  destruct op; try done; exists k, rf; (split; [by left|done]).
Qed.
(** The IDs of the resources of a list that are desired. *)
Definition desired_ids (rfs : list ControllerResource) : list string :=
  resource_id <$> List.filter (λ c, negb (IsResourceNil c)) rfs.

(** A descendant whose condition says that its resource was reconciled. *)
Definition tells_success (d : Descendant) : Prop :=
  ∃ message, descendant_condition d = ("True", "Success", message).

(** After the resources [done_]: no ID occurs twice, every descendant belongs to a
    resource that was handled; without errors so far there is exactly one descendant per
    desired resource, each tells its success, and with an error there is one that tells. *)
Definition loop_inv (scope0 : Scope) (done_ : list ControllerResource) (errs : list error)
    (scope : Scope) : Prop :=
  same_but_descendants scope0 scope ∧
  NoDup (d_ID <$> sp_Descendants scope) ∧
  (∀ id, id ∈ d_ID <$> sp_Descendants scope →
     ∃ c, c ∈ done_ ∧ (id = resource_id c ∨ id = GetID "" (GetResourceName c))) ∧
  (errs = [] → d_ID <$> sp_Descendants scope = desired_ids done_ ∧
               Forall tells_success (sp_Descendants scope)) ∧
  (errs ≠ [] → GetErrors (Some scope) ≠ []).

Lemma GetErrors_replace_error scope obj msg kind name :
  GetErrors (Some (ReplaceDescendant scope obj (Some msg) None kind name)) ≠ [].
Proof.
  unfold GetErrors, ReplaceDescendant. simpl.
  set (d := {| d_ID := _ |}). induction (sp_Descendants scope) as [|x ds IH]; simpl; [done|].
  case_bool_decide; simpl; [done|]. by destruct (d_ErrorMessage x).
Qed.

Lemma GetErrors_success scope :
  Forall tells_success (sp_Descendants scope) → GetErrors (Some scope) = [].
Proof.
  unfold GetErrors. induction 1 as [|d ds [m Hd] _ IH]; simpl; [done|].
  unfold descendant_condition in Hd. by destruct (d_ErrorMessage d).
Qed.

Lemma ids_replace scope obj e m kind name id :
  id ∈ d_ID <$> sp_Descendants (ReplaceDescendant scope obj e m kind name) →
  id = GetID kind name ∨ id ∈ d_ID <$> sp_Descendants scope.
Proof.
  unfold ReplaceDescendant. simpl. rewrite replace_in_ids. case_bool_decide; [by right|].
  intros [Hin|Hin%list_elem_of_singleton]%elem_of_app; [by right|by left].
Qed.

(** A resource whose ID is new: neither one of the handled resources nor the ID of a failed
    deletion of an untyped object. *)
Definition fresh_for (done_ : list ControllerResource) (c : ControllerResource) : Prop :=
  ∀ c', c' ∈ done_ → resource_id c ≠ resource_id c' ∧
                     resource_id c ≠ GetID "" (GetResourceName c').

Lemma desired_ids_snoc done_ c :
  desired_ids (done_ ++ [c]) =
  desired_ids done_ ++ (if IsResourceNil c then [] else [resource_id c]).
Proof.
  unfold desired_ids. rewrite List.filter_app, fmap_app. simpl. by destruct (IsResourceNil c).
Qed.

Lemma loop_inv_step scope0 done_ errs scope k (rf : ResourceReconciler k) rs :
  let c := ControllerResourceAdapter k rf in
  fresh_for done_ c → loop_inv scope0 done_ errs scope → recorded rf scope rs →
  match rs.1 with
  | Ok _ => loop_inv scope0 (done_ ++ [c]) errs rs.2
  | Err e => loop_inv scope0 (done_ ++ [c]) (errs ++ [e]) rs.2
  | Panic _ => True
  end.
Proof.
  intros c Hfresh (Hsame & Hnd & Hids & Hnone & Hsome) Hrec. unfold recorded in Hrec.
  assert (∀ id, id ∈ d_ID <$> sp_Descendants scope → ∃ c', c' ∈ done_ ++ [c] ∧
            (id = resource_id c' ∨ id = GetID "" (GetResourceName c'))) as Hids'.
  { intros id Hid. destruct (Hids id Hid) as (c' & Hc' & Hor). exists c'.
    split; [|done]. apply elem_of_app. by left. }
  assert (c ∈ done_ ++ [c]) as Hc by (apply elem_of_app; right; by apply list_elem_of_singleton).
  destruct rs as [[r|e|w] scope']; simpl in *; [| |done].
  - destruct Hrec as [-> Hrec]. destruct (rf_desired rf) as [d|] eqn:Hd.
    + destruct Hrec as (obj & msg & ->).
      assert (GetID (rf_ResourceKind rf) (rf_ResourceName rf) ∉ d_ID <$> sp_Descendants scope)
        as Hnew.
      { intros Hin. destruct (Hids _ Hin) as (c' & Hc' & Hor).
        destruct (Hfresh c' Hc') as [H2 H3]. by destruct Hor. }
      split_and!; [done|by apply ReplaceDescendant_NoDup| | |].
      * intros id [->|Hid]%ids_replace; [exists c; split; [done|by left]|by apply Hids'].
      * intros He. destruct (Hnone He) as [Hd1 Hd2]. unfold ReplaceDescendant in *. simpl in *.
        rewrite replace_in_absent by done. rewrite fmap_app, Hd1, desired_ids_snoc.
        unfold c. rewrite IsResourceNil_desired, Hd. split; [done|].
        apply Forall_app. split; [done|]. constructor; [by exists msg|constructor].
      * intros He. specialize (Hsome He). unfold ReplaceDescendant in *. simpl in *.
        rewrite replace_in_absent by done. rewrite omap_app. intros [? ?]%app_eq_nil. done.
    + subst scope'. split_and!; try done. intros He. destruct (Hnone He) as [Hd1 Hd2].
      split; [|done]. rewrite Hd1, desired_ids_snoc. unfold c.
      rewrite IsResourceNil_desired, Hd. simpl. by rewrite app_nil_r.
  - destruct Hrec as (obj & msg & kind & Hkind & ->).
    split_and!; [done|by apply ReplaceDescendant_NoDup| | |].
    + intros id [->|Hid]%ids_replace; [|by apply Hids']. exists c. split; [done|].
      destruct Hkind as [->| ->]; [by right|by left].
    + intros He. by apply app_eq_nil in He as [_ ?].
    + intros _. apply GetErrors_replace_error.
Qed.
Lemma resource_ok_same scope scope' c :
  same_but_descendants scope scope' → resource_ok scope c → resource_ok scope' c.
Proof. intros Hs%same_but_descendants_sc. destruct c. unfold resource_ok. by rewrite Hs. Qed.

Lemma recorded_same k (rf : ResourceReconciler k) scope rs :
  recorded rf scope rs → same_but_descendants scope rs.2.
Proof.
  unfold recorded. destruct rs as [[r|e|w] scope']; simpl.
  - intros [_ Hr]. destruct (rf_desired rf); [by destruct Hr as (?&?&->)|by subst].
  - by intros (?&?&?&_&->).
  - by intros ->.
Qed.

Lemma resource_event_wp {A} I h rf b (f : unit → prog A) Q :
  (∀ t re n, I h (OpEvent t re n)) →
  (∀ e, honest e → wp I (h ++ [e]) (f tt) Q) →
  wp I h (prog_bind (resource_event rf b) f) Q.
Proof. intros HI Hf. unfold resource_event. destruct b; (split; [apply HI|]); intros []; by apply Hf. Qed.

(** The reconciliation of one resource, from any scope with the same SecurityConfig: it
    changes the descendants only. *)
Lemma reconcile_same_wp rf scope h :
  wp (λ _ _, True) h (Reconciliation.Reconcile rf scope)
    (λ _ rs, same_but_descendants scope rs.2).
Proof.
  destruct rf as [k rf]. simpl. split; [done|].
  intros [current|err|w]; [rewrite reconcile_current_cases|
                           destruct (IsNotFound err); [rewrite reconcile_current_cases|]|];
    cbv zeta; unfold ReconcileOnCreate; repeat case_match; simpl; try done;
    (split; [done|]); by intros [].
Qed.

Lemma loop_wp scope0 all done_ rest result errs scope h :
  all = done_ ++ rest →
  (∀ d c r, all = d ++ c :: r → fresh_for d c) →
  Forall (resource_ok scope0) all → same_but_descendants scope0 scope →
  wp (resources_call (sc_Meta (sp_SecurityConfig scope0)) all) h
    (reconcile_loop rest result errs scope)
    (λ h' rs, same_but_descendants scope0 rs.2 ∧ (∀ e, rs.1 ≠ Err e) ∧
       (Forall honest h' → loop_inv scope0 done_ errs scope →
        match rs.1 with Ok (_, errs') => loop_inv scope0 all errs' rs.2 | _ => True end)).
Proof.
  intros Hall Hfresh Hok. revert done_ result errs scope h Hall.
  induction rest as [|c rest IH]; intros done_ result errs scope h Hall Hsame.
  { simpl. rewrite app_nil_r in Hall. by subst. }
  cbn [reconcile_loop]. apply wp_bind.
  assert (resource_ok scope c) as Hc.
  { eapply resource_ok_same; [exact Hsame|]. subst all.
    apply Forall_app in Hok as [_ Hok]. by apply Forall_cons in Hok as [Hok _]. }
  eapply wp_mono; [| |apply wp_grow, wp_and; [apply (reconcile_one_wp c scope h Hc)|
                                              apply (reconcile_same_wp c scope h)]].
  { intros h1 op [Hop _]. rewrite <-(same_but_descendants_sc _ _ Hsame) in Hop.
    destruct op; try exact Hop; destruct Hop as (k0 & rf & Hin%list_elem_of_singleton & Hg);
      exists k0, rf; (split; [|done]); rewrite Hin; subst all; apply elem_of_app; right; by left. }
  intros h1 rs [[Hrec Hsame1] (d1 & ->)].
  assert (same_but_descendants scope0 rs.2) as Hsame2 by (by etransitivity).
  assert (all = (done_ ++ [c]) ++ rest) as Hall' by (by rewrite <-app_assoc).
  assert (∀ h2, Forall honest ((h ++ d1) ++ h2) → loop_inv scope0 done_ errs scope →
    match rs.1 with
    | Ok _ => loop_inv scope0 (done_ ++ [c]) errs rs.2
    | Err e => loop_inv scope0 (done_ ++ [c]) (errs ++ [e]) rs.2
    | Panic _ => True
    end) as Hstep.
  { intros h2 [Hh _]%Forall_app Hinv. specialize (Hrec Hh). destruct c as [k rf].
    eapply loop_inv_step; [|exact Hinv|exact Hrec]. by eapply Hfresh. }
  destruct rs as [[r|e|w] s1]; cbn [fst snd] in *; [| |by split].
  - apply resource_event_wp; [done|]. intros ev Hev.
    eapply wp_mono; [done| |apply wp_grow, (IH _ _ errs s1 _ Hall' Hsame2)].
    intros h2 rs' [(Hs2 & Hne & Hrest) (d2 & ->)]. split_and!; [done..|]. intros Hh Hinv.
    apply Hrest; [done|]. rewrite <-app_assoc in Hh. by apply (Hstep _ Hh).
  - apply resource_event_wp; [done|]. intros ev Hev.
    eapply wp_mono; [done| |apply wp_grow, (IH _ _ (errs ++ [e]) s1 _ Hall' Hsame2)].
    intros h2 rs' [(Hs2 & Hne & Hrest) (d2 & ->)]. split_and!; [done..|]. intros Hh Hinv.
    apply Hrest; [done|]. rewrite <-app_assoc in Hh. by apply (Hstep _ Hh).
Qed.

(** What a list of resources must be like: different IDs, each resource in order. *)
Lemma resources_fresh rfs :
  NoDup (resource_id <$> rfs) →
  (∀ c, c ∈ rfs → no_dash (GetResourceKind c) = true ∧ GetResourceKind c ≠ "") →
  ∀ d c r, rfs = d ++ c :: r → fresh_for d c.
Proof.
  intros Hnd Hkinds d c r -> c' Hc'. split.
  - intros Heq. rewrite fmap_app in Hnd. apply NoDup_app in Hnd as (_ & Hdis & _).
    apply (Hdis (resource_id c')); [by apply list_elem_of_fmap_2|]. rewrite fmap_cons, <-Heq.
    by left.
  - destruct (Hkinds c) as [Hdash Hne]; [apply elem_of_app; right; by left|].
    intros Heq. by apply (GetID_inj _ "") in Heq as [? _].
Qed.
Lemma doReconcile_wp scope rfs h :
  (∀ d c r, rfs = d ++ c :: r → fresh_for d c) → Forall (resource_ok scope) rfs →
  wp (resources_call (sc_Meta (sp_SecurityConfig scope)) rfs) h (doReconcile rfs scope)
    (λ h' rs, same_but_descendants scope rs.2 ∧
       (Forall honest h' → sp_Descendants scope = [] →
        match rs.1 with
        | Ok _ => loop_inv scope rfs [] rs.2
        | Err _ => GetErrors (Some rs.2) ≠ []
        | Panic _ => True
        end)).
Proof.
  intros Hfresh Hok. unfold doReconcile. apply wp_bind.
  eapply wp_mono; [done| |apply (loop_wp scope rfs [] rfs); auto; reflexivity].
  intros h1 [[[result errs]|e|w] s1] (Hsame & Hne & Hinv); cbn [fst snd] in *;
    [|by destruct (Hne e)|by split].
  assert (∀ e, Forall honest (h1 ++ [e]) → sp_Descendants scope = [] →
          loop_inv scope rfs errs s1) as Hinv'.
  { intros e [Hh _]%Forall_app Hds. apply Hinv; [done|]. unfold loop_inv. rewrite Hds.
    split_and!; try done; [apply NoDup_nil_2|by intros id ?%not_elem_of_nil]. }
  destruct (Nat.ltb_spec 0 (length errs)) as [Hlt|Hle]; (split; [done|]); intros [];
    (split; [done|]); intros Hh Hds; specialize (Hinv' _ Hh Hds); cbn [fst snd] in *.
  - apply Hinv'. by destruct errs; [simpl in Hlt; lia|].
  - by destruct errs; [|simpl in Hle; lia].
Qed.
(** The resources of a scope are as [doReconcile] needs them. *)
Lemma ControllerResources_fresh scope rfs :
  ControllerResources scope = Ok rfs →
  (∀ d c r, rfs = d ++ c :: r → fresh_for d c) ∧ Forall (resource_ok scope) rfs.
Proof.
  intros Hc. destruct (ControllerResources_names _ _ Hc) as [Hok Hn]. split; [|done].
  assert (resource_id <$> rfs = (λ p, GetID p.1 p.2) <$> (kind_and_name <$> rfs)) as Hids
    by (by rewrite <-list_fmap_compose).
  apply resources_fresh.
  - rewrite Hids. destruct Hn as [[-> _]|[-> _]]; [apply NoDup_nil_2|].
    apply ids_NoDup; [apply resource_names_kinds|apply resource_names_NoDup].
  - intros c Hin. assert (kind_and_name c ∈ kind_and_name <$> rfs) as Hk
      by (by apply list_elem_of_fmap_2).
    destruct Hn as [[-> _]|[Hn _]]; [by apply not_elem_of_nil in Hin|]. rewrite Hn in Hk.
    split; [by apply (resource_names_kinds _ _ Hk)|].
    intros Hnil. unfold kind_and_name in Hk. rewrite Hnil in Hk.
    unfold resource_names in Hk. rewrite !elem_of_cons, elem_of_nil in Hk.
    repeat destruct Hk as [[=]|Hk]; done.
Qed.

(** What a run leaves in the scope. *)
Lemma doReconcile_outcome scope rfs h rs :
  ControllerResources scope = Ok rfs → sp_Descendants scope = [] →
  steps (doReconcile rfs scope) h (Ret rs) → Forall honest h →
  same_but_descendants scope rs.2 ∧
  match rs.1 with
  | Ok _ => GetErrors (Some rs.2) = [] ∧ d_ID <$> sp_Descendants rs.2 = desired_ids rfs ∧
            Forall tells_success (sp_Descendants rs.2) ∧
            length (sp_Descendants rs.2) = CountNonNilResources rfs
  | Err _ => GetErrors (Some rs.2) ≠ []
  | Panic _ => True
  end.
Proof.
  intros Hc Hds Hs Hh. destruct (ControllerResources_fresh _ _ Hc) as [Hfresh Hok].
  destruct (steps_end_wp _ _ _ _ _ (doReconcile_wp scope rfs [] Hfresh Hok) Hs) as [Hsame Hpost].
  specialize (Hpost Hh Hds). split; [done|].
  destruct rs as [[r|e|w] s]; cbn [fst snd] in *; [|done|done].
  destruct Hpost as (_ & _ & _ & Hnone & _). destruct (Hnone eq_refl) as [H2 H3].
  split_and!; [by apply GetErrors_success|done..|]. rewrite <-(length_fmap d_ID), H2, CountNonNilResources_filter.
  unfold desired_ids. by rewrite length_fmap.
Qed.

(** C9: whatever the API server answers, the scope tells whether [doReconcile] failed:
    after an honest run that returns an error, some descendant tells an error, and the
    status that follows is [Failed]; after one that succeeds, there is exactly one
    descendant per desired resource, in their order, the condition of each is ["True"] with
    reason ["Success"], and there is no error, so that the status is neither [Failed] nor
    [Pending] for missing descendants. *)
Theorem doReconcile_reports scope rfs h rs :
  ControllerResources scope = Ok rfs → sp_InvalidConfig scope = false →
  sp_Descendants scope = [] → steps (doReconcile rfs scope) h (Ret rs) → Forall honest h →
  match rs.1 with
  | Ok _ => GetErrors (Some rs.2) = [] ∧ d_ID <$> sp_Descendants rs.2 = desired_ids rfs ∧
            Forall tells_success (sp_Descendants rs.2) ∧
            length (sp_Descendants rs.2) = CountNonNilResources rfs
  | Err _ => DetermineReconciliationState rfs rs.2 = Ret (Ok StateFailed, rs.2)
  | Panic _ => True
  end.
Proof.
  intros Hc Hinv Hds Hs Hh. destruct (doReconcile_outcome _ _ _ _ Hc Hds Hs Hh) as [Hsame Hpost].
  destruct rs as [[r|e|w] s]; cbn [fst snd] in *; [done| |done].
  unfold DetermineReconciliationState. unfold same_but_descendants in Hsame.
  assert (sp_InvalidConfig s = false) as ->
    by (rewrite <-Hinv; exact (f_equal sp_InvalidConfig (eq_sym Hsame))).
  by destruct (GetErrors (Some s)).
Qed.

(** ** Convergence of all resources *)

Section Server.
Context {W : Type} `{!Server W} `{!ServerLaws W}.

(** The object that a resource owns. *)
Definition owned_key (sc : ObjectMeta) (c : ControllerResource) : Kind * ObjectKey :=
  match c with ControllerResourceAdapter k rf => (k, (m_Namespace sc, rf_ResourceName rf)) end.

Definition resource_converged (sc : ObjectMeta) (w : W) (c : ControllerResource) : Prop :=
  match c with ControllerResourceAdapter k rf => converged sc rf agrees w end.

Definition unchanged (w w' : W) (p : Kind * ObjectKey) : Prop :=
  find w' p.1 p.2 = find w p.1 p.2.

Lemma converged_unchanged sc c w w' :
  unchanged w w' (owned_key sc c) → resource_converged sc w c → resource_converged sc w' c.
Proof.
  destruct c as [k rf]. unfold unchanged. simpl. unfold converged. by intros ->.
Qed.

Lemma one_converges c scope w rs w' :
  resource_ok scope c → run (Reconciliation.Reconcile c scope) w = (rs, w') →
  (∀ p, p ≠ owned_key (sc_Meta (sp_SecurityConfig scope)) c → unchanged w w' p) ∧
  (is_ok rs.1 = true → resource_converged (sc_Meta (sp_SecurityConfig scope)) w' c) ∧
  same_but_descendants scope rs.2.
Proof.
  intros Hok Hrun. assert (same_but_descendants scope rs.2) as Hsame.
  { pose proof (wp_run _ _ w _ (reconcile_same_wp c scope [])) as Hs. by rewrite Hrun in Hs. }
  destruct c as [k rf]. destruct Hok as (Hwn & Hsf & _).
  destruct (ReconcileControllerResource_runs agrees rf scope w rs w' Hwn Hsf Hrun) as [H2 H3].
  split_and!; [|done|done]. intros [k2 key2] Hne. by apply H2.
Qed.

Lemma event_unchanged t re n (w : W) p : unchanged w (perform (OpEvent t re n) w).2 p.
Proof. unfold unchanged. eapply event_reply. apply surjective_pairing. Qed.
Lemma loop_converges rfs result errs scope w o s' w' :
  Forall (resource_ok scope) rfs →
  NoDup (owned_key (sc_Meta (sp_SecurityConfig scope)) <$> rfs) →
  run (reconcile_loop rfs result errs scope) w = ((o, s'), w') →
  (∀ p, p ∉ owned_key (sc_Meta (sp_SecurityConfig scope)) <$> rfs → unchanged w w' p) ∧
  (∀ r errs', o = Ok (r, errs') → (∃ new, errs' = errs ++ new) ∧
     (errs' = errs → Forall (resource_converged (sc_Meta (sp_SecurityConfig scope)) w') rfs)).
Proof.
  revert result errs scope w. induction rfs as [|c rfs IH]; intros result errs scope w Hok Hnd.
  { simpl. intros [= <- <- <-]. split; [done|]. intros r errs' [= -> ->].
    split; [exists []; by rewrite app_nil_r|done]. }
  apply Forall_cons in Hok as [Hc Hok].
  rewrite fmap_cons in Hnd. apply NoDup_cons in Hnd as [Hnotin Hnd].
  cbn [reconcile_loop]. rewrite run_bind.
  destruct (run (Reconciliation.Reconcile c scope) w) as [rs w1] eqn:Hrun. cbn [fst snd].
  destruct (one_converges _ _ _ _ _ Hc Hrun) as (Hun1 & Hconv1 & Hsame).
  pose proof (same_but_descendants_sc _ _ Hsame) as Hsc.
  assert (Forall (resource_ok rs.2) rfs) as Hok2
    by (eapply Forall_impl; [exact Hok|]; intros; by eapply resource_ok_same).
  set (keys := owned_key (sc_Meta (sp_SecurityConfig scope)) <$> rfs) in *.
  assert (∀ b rest_errs result' w2, w2 = (perform (OpEvent (if b : bool then "Warning" else "Normal")
            (GetResourceKind c +:+ (if b then "ReconcileFailed" else "ReconciledSuccessfully"))
            (GetResourceKind c +:+ " with name " +:+ GetResourceName c +:+
             (if b then " failed during reconciliation." else " reconciled successfully."))) w1).2 →
          run (reconcile_loop rfs result' rest_errs rs.2) w2 = ((o, s'), w') →
          (∀ p, p ∉ owned_key (sc_Meta (sp_SecurityConfig scope)) <$> (c :: rfs) → unchanged w w' p) ∧
          unchanged w1 w' (owned_key (sc_Meta (sp_SecurityConfig scope)) c) ∧
          (∀ r errs', o = Ok (r, errs') → (∃ new, errs' = rest_errs ++ new) ∧
             (errs' = rest_errs →
              Forall (resource_converged (sc_Meta (sp_SecurityConfig scope)) w') rfs))) as Hrest.
  { intros b rest_errs result' w2 -> Hrun2.
    destruct (IH result' rest_errs rs.2 _ Hok2 ltac:(by rewrite <-Hsc) Hrun2) as [Hun2 Hconv2].
    rewrite <-Hsc in *. fold keys in Hun2.
    assert (∀ p, p ∉ keys → unchanged w1 w' p) as Hun12.
    { intros p Hp. unfold unchanged. rewrite (Hun2 p Hp). apply event_unchanged. }
    split_and!; [|by apply Hun12|exact Hconv2].
    intros p Hp. rewrite fmap_cons in Hp. apply not_elem_of_cons in Hp as [Hp1 Hp2].
    unfold unchanged. rewrite (Hun12 p Hp2). by apply Hun1. }
  destruct rs as [[r|e|p] s1]; cbn [fst snd] in *.
  - intros Hrun2. destruct (Hrest false errs _ _ eq_refl Hrun2) as (Hu & Huc & Hcv).
    split; [done|]. intros r' errs' Ho. destruct (Hcv r' errs' Ho) as [Hnew Hall].
    split; [done|]. intros He. constructor; [|by apply Hall].
    eapply converged_unchanged; [exact Huc|by apply Hconv1].
  - intros Hrun2. destruct (Hrest true (errs ++ [e]) _ _ eq_refl Hrun2) as (Hu & Huc & Hcv).
    split; [done|]. intros r' errs' Ho. destruct (Hcv r' errs' Ho) as [[new ->] _].
    split; [exists (e :: new); by rewrite <-app_assoc|].
    intros He. apply (f_equal length) in He. rewrite !length_app in He. simpl in He. lia.
  - intros [= <- <- <-]. split; [|done]. intros q Hq. apply Hun1.
    rewrite fmap_cons in Hq. by apply not_elem_of_cons in Hq as [? _].
Qed.

Lemma owned_keys_NoDup sc rfs :
  (∀ c, c ∈ rfs → match c with ControllerResourceAdapter k rf => rf_ResourceKind rf = kind_name k
                  end) →
  NoDup (kind_and_name <$> rfs) → NoDup (owned_key sc <$> rfs).
Proof.
  intros Hk. induction rfs as [|c rfs IH]; [intros; apply NoDup_nil_2|].
  rewrite !fmap_cons, !NoDup_cons. intros [Hnotin Hnd]. split.
  - intros (c' & Heq & Hc')%list_elem_of_fmap. destruct Hnotin.
    apply list_elem_of_fmap. exists c'. split; [|done].
    pose proof (Hk c ltac:(by left)) as H2. pose proof (Hk c' ltac:(by right)) as H3.
    destruct c as [k rf], c' as [k' rf']. unfold owned_key in Heq. injection Heq as E1 E2.
    unfold kind_and_name. simpl. by rewrite H2, H3, (f_equal kind_name E1), E2.
  - apply IH; [|done]. intros c' Hc'. apply Hk. by right.
Qed.

(** The resources of a scope own different objects. *)
Lemma ControllerResources_keys scope rfs :
  ControllerResources scope = Ok rfs →
  NoDup (owned_key (sc_Meta (sp_SecurityConfig scope)) <$> rfs).
Proof.
  intros Hc. destruct (ControllerResources_names _ _ Hc) as [Hok Hn].
  apply owned_keys_NoDup.
  - intros c Hin. rewrite Forall_forall in Hok. specialize (Hok c Hin).
    destruct c as [k rf]. by destruct Hok as [[? _ _] _].
  - destruct Hn as [[-> _]|[-> _]]; [apply NoDup_nil_2|apply resource_names_NoDup].
Qed.

(** How [doReconcile] leaves the objects. *)
Lemma doReconcile_runs scope rfs w rs w' :
  ControllerResources scope = Ok rfs → run (doReconcile rfs scope) w = (rs, w') →
  (∀ k key, (k, key) ∉ owned_key (sc_Meta (sp_SecurityConfig scope)) <$> rfs →
            find w' k key = find w k key) ∧
  (is_ok rs.1 = true →
   Forall (resource_converged (sc_Meta (sp_SecurityConfig scope)) w') rfs).
Proof.
  intros Hc. destruct (ControllerResources_fresh _ _ Hc) as [_ Hok].
  pose proof (ControllerResources_keys _ _ Hc) as Hnd.
  unfold doReconcile. rewrite run_bind.
  destruct (run (reconcile_loop rfs zero_result [] scope) w) as [[o s1] w1] eqn:Hrun.
  destruct (loop_converges _ _ _ _ _ _ _ _ Hok Hnd Hrun) as [Hun Hconv]. cbn [fst snd].
  destruct o as [[result errs]|e|p].
  - destruct (Hconv _ _ eq_refl) as [_ Hall]. simpl.
    destruct (Nat.ltb_spec 0 (length errs)) as [Hlt|Hle]; simpl; intros [= <- <-]; split.
    + intros k key Hk. transitivity (find w1 k key); [apply (event_unchanged _ _ _ _ (k, key))|].
      by apply (Hun (k, key)).
    + done.
    + intros k key Hk. transitivity (find w1 k key); [apply (event_unchanged _ _ _ _ (k, key))|].
      by apply (Hun (k, key)).
    + intros _. eapply Forall_impl; [apply Hall; destruct errs; [done|simpl in Hle; lia]|].
      intros c. apply converged_unchanged, event_unchanged.
  - simpl. intros [= <- <-]. split; [|done]. intros k key Hk. by apply (Hun (k, key)).
  - simpl. intros [= <- <-]. split; [|done]. intros k key Hk. by apply (Hun (k, key)).
Qed.

(** Against an API server that keeps its contract, a reconciliation without an error
    leaves every one of the resources in its final state, and nothing but the objects of
    these resources is touched, also when it fails. *)
Theorem doReconcile_converges scope rfs w rs w' :
  ControllerResources scope = Ok rfs → run (doReconcile rfs scope) w = (rs, w') →
  (∀ k key, (k, key) ∉ owned_key (sc_Meta (sp_SecurityConfig scope)) <$> rfs →
            find w' k key = find w k key) ∧
  (is_ok rs.1 = true →
   Forall (resource_converged (sc_Meta (sp_SecurityConfig scope)) w') rfs).
Proof. apply doReconcile_runs. Qed.
End Server.
End Loop.

Section Whole.
Context `{LibLaws} `{Globals}.

(** The calls of [Reconcile], by the history so far: first the read of the
    SecurityConfig, then what [reconcile_call] allows for the one that was read; and for
    one that is being deleted only the event. *)
Definition reconcile_allowed (req : Request) (h : history) (op : Op) : Prop :=
  match h with
  | [] => op = OpGetSecurityConfig req
  | Ev (OpGetSecurityConfig _) r :: _ =>
      match r with
      | Ok sc => reconcile_call req sc h op ∧
                 (m_DeletionTimestamp (sc_Meta sc) ≠ None →
                  match op with OpEvent _ _ _ => True | _ => False end)
      | _ => False
      end
  | _ => False
  end.

Section After.
Context (req : Request) (sc : SecurityConfig).

Lemma begun_read h : begun req sc h → ∃ h', h = Ev (OpGetSecurityConfig req) (Ok sc) :: h'.
Proof. intros [->|[d ->]]; by eexists. Qed.

Lemma read_calls h op : resolver_read (InitializeStatus sc) op → reconcile_call req sc h op.
Proof. destruct op; try done. intros Hr. by right; right. Qed.

(** The clients that a status update of a resolved scope reads. *)
Lemma client_calls scope h k key :
  sp_SecurityConfig scope = InitializeStatus sc →
  match k with
  | KJwker => jwker_key scope key
  | KMaskinportenClient => maskinporten_key scope key
  | KAzureAdApplication => entraid_key scope key
  | _ => False
  end → reconcile_call req sc h (OpGet k key).
Proof.
  intros Hsc. destruct k; try done; cbn [reconcile_call]; unfold jwker_key, maskinporten_key,
    entraid_key; rewrite Hsc.
  - intros [_ ->]. left. split; [done|]. cbn [snd]. unfold resource_names. set_solver.
  - intros (_ & Hns & Hk). destruct (mpc_Type _); try done.
    1,3: left; split; [done|]; rewrite Hk; unfold resource_names; set_solver.
    destruct Hk as (m & r & Hm & Hr & ->). right. left. split; [done|].
    change (spec_Maskinporten (sc_Spec sc) = Some m) in Hm.
    unfold client_refs. rewrite Hm, Hr. set_solver.
  - intros (_ & Hns & Hk). destruct (eic_Type _); try done.
    1,3: left; split; [done|]; rewrite Hk; unfold resource_names; set_solver.
    destruct Hk as (m & r & Hm & Hr & ->). right. left. split; [done|].
    change (spec_EntraID (sc_Spec sc) = Some m) in Hm.
    unfold client_refs. rewrite Hm, Hr. set_solver.
Qed.

(** A call of a status update, after calls that brought about its scope. *)
Lemma status_calls scope crs pre h op :
  sp_SecurityConfig scope = InitializeStatus sc →
  (∀ h3, ready_evidence scope crs h3 → ready_run req sc (pre ++ h3)) →
  suffix_of pre (λ h, status_call scope crs h op) h → reconcile_call req sc h op.
Proof.
  intros Hsc Hev (h3 & -> & Hop). destruct op; try done.
  - eapply client_calls; [exact Hsc|]. by destruct k.
  - cbn [status_call reconcile_call] in *. by rewrite Hsc in Hop.
  - cbn [status_call reconcile_call] in *. rewrite Hsc in Hop.
    destruct Hop as (h0 & latest & -> & Hw & Hco & Hgen & Hr).
    exists (pre ++ h0), latest. split_and!; auto. by rewrite <-app_assoc.
Qed.

Lemma write_calls h op :
  write_call sc (λ _, False) h op → reconcile_call req sc h op.
Proof.
  destruct op; try done. cbn [write_call reconcile_call].
  intros (h0 & latest & -> & Hw & Hco & Hgen & Hr). exists h0, latest.
  split_and!; auto. intros Hready. by destruct (Hr Hready).
Qed.

Lemma resource_calls scope rfs h op :
  ControllerResources scope = Ok rfs → sp_SecurityConfig scope = InitializeStatus sc →
  resources_call (sc_Meta (sp_SecurityConfig scope)) rfs h op → reconcile_call req sc h op.
Proof.
  intros Hc Hsc Hop. destruct (ControllerResources_names _ _ Hc) as [Hok Hn].
  assert (∀ k rf, ControllerResourceAdapter k rf ∈ rfs →
          (kind_name k, rf_ResourceName rf) ∈ resource_names sc) as Hin.
  { intros k rf Hrf. rewrite Forall_forall in Hok. destruct (Hok _ Hrf) as [[Hk _ _] _].
    destruct Hn as [[-> _]|[Hn _]]; [by apply not_elem_of_nil in Hrf|].
    change (resource_names sc) with (resource_names (InitializeStatus sc)).
    rewrite <-Hsc, <-Hn. apply list_elem_of_fmap. eexists. split; [|exact Hrf].
    unfold kind_and_name. simpl. by rewrite Hk. }
  rewrite Hsc in Hop. change (sc_Meta (InitializeStatus sc)) with (sc_Meta sc) in Hop.
  destruct op; try exact I; destruct Hop as (k' & rf & Hrf & Hg); try done.
  { destruct Hg as [-> ->]. left. split; [done|]. by apply Hin. }
  all: exists k', (rf_ResourceName rf); (split; [by apply Hin|exact Hg]).
Qed.

Lemma resources_wp pre h1 scope original :
  begun req sc pre → steps (ResolveSecurityConfig (InitializeStatus sc)) h1 (Ret (Ok scope)) →
  sp_SecurityConfig scope = InitializeStatus sc →
  ∀ rfs, ControllerResources scope = Ok rfs →
  wp (reconcile_call req sc) (pre ++ h1) (reconcile_resources original rfs scope) (λ _ _, True).
Proof.
  intros Hpre Hres Hsc rfs Hc. destruct (ControllerResources_fresh _ _ Hc) as [Hfresh Hok].
  unfold reconcile_resources. apply wp_bind.
  eapply wp_mono; [| |apply wp_steps, (doReconcile_wp scope rfs _ Hfresh Hok)].
  { intros h op. by apply (resource_calls scope). }
  intros ? rs [[Hsame _] (h2 & -> & Hdo)]. apply wp_bind.
  pose proof (same_but_descendants_sc _ _ Hsame) as Hsc2. rewrite Hsc in Hsc2.
  rewrite <-(app_nil_r ((pre ++ h1) ++ h2)).
  eapply wp_mono; [| |apply wp_suffix, (UpdateSecurityConfigStatus_wp rs.2 rfs)].
  - intros h op. apply status_calls; [done|]. intros h3 Hev.
    exists pre, h1, h2, h3, scope, rfs, rs. by rewrite <-!app_assoc.
  - by intros h [[[]|e|w] s] _.
Qed.

Lemma reconcile_resolved_wp pre original :
  begun req sc pre →
  wp (reconcile_call req sc) pre (reconcile_resolved (InitializeStatus sc) original)
    (λ _ _, True).
Proof.
  intros Hpre. unfold reconcile_resolved. apply wp_bind.
  eapply wp_mono; [| |apply wp_steps, wp_and;
    [apply (all_ops_wp (resolver_read (InitializeStatus sc)) (reconcile_call req sc));
       [apply read_calls|apply ResolveSecurityConfig_reads]
    |apply (ResolveSecurityConfig_yields (InitializeStatus sc))]]; [by intros ? ? [? _]|].
  intros ? [scope|err|w] [[_ Hres] (h1 & -> & Hs)]; [| |done].
  - destruct (Hres scope eq_refl) as ((Hsc & _) & _). clear Hres.
    destruct (ControllerResources scope) as [rfs|e|w] eqn:Hc; [|done..].
    by apply resources_wp.
  - apply wp_bind. eapply wp_mono; [| |apply (UpdateStatus_wp sc (λ _, False)); done].
    + apply write_calls.
    + by intros h2 [[]|e|w] _.
Qed.
End After.

Lemma reconcile_allowed_calls req sc h op :
  begun req sc h ∨ (∃ h1 h2, h = h1 ++ h2 ∧ begun req sc h1) →
  m_DeletionTimestamp (sc_Meta sc) = None → reconcile_call req sc h op →
  reconcile_allowed req h op.
Proof.
  intros Hh Hdel Hc. assert (∃ h', h = Ev (OpGetSecurityConfig req) (Ok sc) :: h') as [h' ->].
  { destruct Hh as [Hb|(h1 & h2 & -> & Hb)]; destruct (begun_read _ _ _ Hb) as [h' ->]; by eexists. }
  simpl. split; [exact Hc|by intros Hx].
Qed.

(** [wp] only asks about the histories that extend the one it starts from. *)
Lemma wp_extends {A} (I I' : history → Op → Prop) h (p : prog A) Q :
  (∀ h2 op, I (h ++ h2) op → I' (h ++ h2) op) → wp I h p Q → wp I' h p Q.
Proof.
  revert h. induction p as [a|op k IH]; intros h HI; simpl; [done|].
  intros [Hop Hk]. split; [specialize (HI []); rewrite app_nil_r in HI; auto|].
  intros r. apply IH; [|done]. intros h2 op'. rewrite <-app_assoc. apply HI.
Qed.

Lemma Reconcile_wp req : wp (reconcile_allowed req) [] (Reconcile req) (λ _ _, True).
Proof.
  unfold Reconcile. split; [done|]. intros [sc|e|w];
    [|simpl; by destruct (IsNotFound e)|done].
  split; [by split|]. intros []. cbn [app prog_bind].
  destruct (m_DeletionTimestamp (sc_Meta sc)) as [t|] eqn:Hdel;
    [by replace (is_some _) with true by (simpl; by rewrite Hdel)|].
  replace (is_some (m_DeletionTimestamp _)) with false by (simpl; by rewrite Hdel).
  change (wp (reconcile_allowed req) (first_calls req sc)
    (let deepCopied := labelled (InitializeStatus sc) in
     if negb (bool_decide (entries (m_Labels (sc_Meta deepCopied)) =
                           entries (m_Labels (sc_Meta (InitializeStatus sc)))))
     then let! deepCopied := call (OpPatchSecurityConfig (InitializeStatus sc) deepCopied) in
          reconcile_resolved (InitializeStatus sc) deepCopied
     else reconcile_resolved (InitializeStatus sc) deepCopied) (λ _ _, True)).
  assert (∀ h0 original, begun req sc h0 →
    wp (reconcile_allowed req) h0 (reconcile_resolved (InitializeStatus sc) original)
      (λ _ _, True)) as Hrest.
  { intros h0 original Hb. eapply wp_extends; [|by apply reconcile_resolved_wp].
    intros h2 op. apply reconcile_allowed_calls; [right; eauto|done]. }
  cbv zeta. destruct (bool_decide_reflect (entries (m_Labels (sc_Meta
    (labelled (InitializeStatus sc)))) = entries (m_Labels (sc_Meta (InitializeStatus sc)))))
    as [|Hne]; cbn [negb]; [by apply Hrest; left|].
  split; [by split|]. intros [d|e|w]; [|done..]. apply Hrest. right. by exists d.
Qed.

End Whole.

(** ** Applications *)

(** The reconciliation of the sample's resources on an empty server. *)
Definition sample_rs := run (doReconcile sample_resources sample_scope) empty_store.

Lemma sample_resources_eq : ControllerResources sample_scope = Ok sample_resources.
Proof. reflexivity. Qed.

Definition sample_trace : history :=
  trace (doReconcile sample_resources sample_scope) empty_store.

Lemma sample_trace_honest : Forall honest sample_trace.
Proof. apply honestb_honest. vm_compute. reflexivity. Qed.

Lemma doReconcile_reports_witness :
  is_ok sample_rs.1.1 = true ∧
  d_ID <$> sp_Descendants sample_rs.1.2 = desired_ids sample_resources.
Proof.
  pose proof (doReconcile_reports sample_scope sample_resources
    sample_trace sample_rs.1 sample_resources_eq eq_refl eq_refl
    (trace_steps _ empty_store) sample_trace_honest) as Hrep.
  assert (is_ok sample_rs.1.1 = true) as Hok by (vm_compute; reflexivity).
  split; [exact Hok|]. destruct sample_rs.1.1; [apply Hrep|discriminate Hok|discriminate Hok].
Defined.

Lemma doReconcile_converges_witness :
  Forall (resource_converged sample_meta sample_rs.2) sample_resources.
Proof.
  apply (doReconcile_converges sample_scope sample_resources empty_store sample_rs.1
           sample_rs.2 sample_resources_eq (surjective_pairing _)).
  vm_compute. reflexivity.
Defined.

(** ID-porten with a fixed audience, alone on the server. *)
Definition sample_idporten_sc : SecurityConfig :=
  {| sc_Kind := "SecurityConfig"; sc_Meta := sample_meta;
     sc_Spec := {| spec_Tokenx := None; spec_Maskinporten := None; spec_EntraID := None;
       spec_Idporten := Some {| ip_Enabled := true; ip_AllowedAudience :=
         {| al_Value := Some "app.example"; al_ValueFrom := None |} |};
       spec_Ansattporten := None; spec_Opa := None; spec_ApplicationRef := "app" |};
     sc_Status := zero_status |}.
Definition sample_sc_store : Store := put_sc empty_store sample_idporten_sc.
Definition sample_req : Request := (sc_Namespace sample_idporten_sc, sc_Name sample_idporten_sc).

(** The calls of its reconciliation; the last but one writes the status. *)
Definition sample_calls : history := trace (Reconcile sample_req) sample_sc_store.
Definition before_write : nat := (length sample_calls - 2)%nat.

