(* ===== verification/Convergence.v ===== *)
(** * The whole reconciliation against a server

    [Controller] shows what [doReconcile] leaves behind.  Here the same is shown of the
    whole [Reconcile], with the reading, the labelling, the resolution and the status update
    around it, and what a second reconciliation of the same objects may still write.  For this the
    server must keep its objects under the operations that are not writes of objects. *)
From stdpp Require Import base gmap strings list.
From Stdlib Require Import ZArith Lia.
From S2P Require Import Prelude GoStrings Kube Api Model Cluster ProgTheory RefServer Config Naming State Utilities Reconciliation Generators Resources Samples Resolver Events Status Controller.
Open Scope go_scope.

(** ** Servers *)

Definition writes_object (op : Op) : bool :=
  match op with
  | OpCreate _ _ | OpPatch _ _ _ | OpDelete _ _ | OpUpdate _ _ | OpUpdateObjectStatus _ _ => true
  | _ => false
  end.

(** Whatever else is asked of the server, the objects stay. *)
Class OtherLaws (W : Type) `{!Server W} : Prop :=
  other_reply : ∀ (w : W) op r w', writes_object op = false → perform op w = (r, w') →
    ∀ k key, find w' k key = find w k key.

#[export] Instance StoreOtherLaws : OtherLaws Store.
Proof.
  intros w op r w' Hop Hp k key. destruct op; try discriminate Hop; simpl in Hp;
    repeat case_match; simplify_eq; done.
Qed.

(** ** Specification *)

(** One of the twelve objects of a SecurityConfig. *)
Definition own_object `{Globals} (sc : SecurityConfig) (k : Kind) (key : ObjectKey) : Prop :=
  key.1 = sc_Namespace sc ∧ (kind_name k, key.2) ∈ resource_names sc.

(** What a reconciliation of objects in their final state may still write: a patch of an
    object that holds messages and that the comparison of messages says differs, and the
    deletion of an object whose deletion waits for a finalizer. *)
Definition repeat_write `{Lib} (rfs : list ControllerResource) (op : Op) : Prop :=
  match op with
  | OpPatch k before after =>
      has_messages k = true ∧ ∃ rf d, ControllerResourceAdapter k rf ∈ rfs ∧
        rf_desired rf = Some d ∧ rf_ShouldUpdate rf before d = true
  | OpDelete k o => m_DeletionTimestamp (o_Meta o) ≠ None
  | op => writes_object op = false
  end.

(** The object is kept from one state of the server to the other, unless it holds messages
    or its deletion waits for a finalizer. *)
Definition kept {W} `{!Server W} (w w' : W) (p : Kind * ObjectKey) : Prop :=
  unchanged w w' p ∨ has_messages p.1 = true ∨
  ∃ o, find w p.1 p.2 = Some o ∧ m_DeletionTimestamp (o_Meta o) ≠ None.

(** ** Lemmas *)

Section Server.
Context {W : Type} `{!Server W} `{Lib} `{!LibLaws} `{!ServerLaws W} `{!OtherLaws W}.
Context `{Globals}.
Implicit Types (w : W).

Definition same_objects w w' : Prop := ∀ k key, find w' k key = find w k key.

(** A program that writes no object keeps them all. *)
Lemma run_keeps {A} (p : prog A) w I h Q :
  (∀ h op, I h op → writes_object op = false) → wp I h p Q → same_objects w (run p w).2.
Proof.
  intros HI. revert w h. induction p as [a|op k IH]; intros w h Hwp k' key; simpl; [done|].
  destruct Hwp as [Hop Hk]. rewrite (IH _ _ _ (Hk _)).
  eapply other_reply; [by eapply HI|apply surjective_pairing].
Qed.

Lemma perform_keeps op w : writes_object op = false → same_objects w (perform op w).2.
Proof. intros Hop k key. by eapply other_reply, surjective_pairing. Qed.

Lemma run_event a b c w : run (record_event a b c) w = perform (OpEvent a b c) w.
Proof. exact (run_call (OpEvent a b c) w). Qed.

Lemma same_objects_trans w1 w2 w3 : same_objects w1 w2 → same_objects w2 w3 → same_objects w1 w3.
Proof. intros Hs1 Hs2 k key. by rewrite Hs2. Qed.

Lemma resolution_keeps sc w : same_objects w (run (ResolveSecurityConfig sc) w).2.
Proof.
  eapply (run_keeps _ _ (λ _, resolver_read sc) []); [|apply ResolveSecurityConfig_reads].
  by intros h [].
Qed.

Lemma status_update_keeps original crs scope w :
  same_objects w (run (UpdateSecurityConfigStatus original crs scope) w).2.
Proof.
  eapply run_keeps; [|apply (UpdateSecurityConfigStatus_wp scope crs [])]. by intros h [].
Qed.

Lemma failed_status_keeps sc w : same_objects w (run (UpdateStatus sc) w).2.
Proof.
  eapply (run_keeps _ _ (λ _ op, writes_object op = false) []); [done|].
  apply (all_ops_wp (λ op, writes_object op = false)); [done|]. unfold UpdateStatus.
  destruct (retry_spec (let! latest := call (OpGetSecurityConfig (sc_Namespace sc, sc_Name sc)) in
    call (OpUpdateStatus (sc_with_status latest (sc_Status sc))))) as [n ->].
  apply all_ops_retry. eauto with ops.
Qed.

(** The objects of the resources are among those of the SecurityConfig. *)
Lemma owned_own scope rfs sc p :
  ControllerResources scope = Ok rfs → sp_SecurityConfig scope = InitializeStatus sc →
  p ∈ owned_key (sc_Meta (sp_SecurityConfig scope)) <$> rfs → own_object sc p.1 p.2.
Proof.
  intros Hc Hsc (c & -> & Hin)%list_elem_of_fmap.
  destruct (ControllerResources_names _ _ Hc) as [Hok Hn].
  rewrite Forall_forall in Hok. specialize (Hok _ Hin). destruct c as [k rf].
  destruct Hok as [[Hk _ _] _]. rewrite Hsc. split; [done|]. cbn [fst snd].
  destruct Hn as [[-> _]|[Hn _]]; [by apply not_elem_of_nil in Hin|].
  change (resource_names sc) with (resource_names (InitializeStatus sc)). rewrite <-Hsc, <-Hn.
  apply list_elem_of_fmap. eexists. split; [|exact Hin]. unfold kind_and_name. simpl. by rewrite Hk.
Qed.

(** Only objects of [sc] differ, and after a success, with the calls [t], the resources of
    the scope that these calls resolved are in their final state. *)
Definition reconciled sc (r : outcome Result) (t : history) w w' : Prop :=
  (∀ k key, ¬ own_object sc k key → find w' k key = find w k key) ∧
  (is_ok r = true → ∃ h1 h h2 scope rfs, t = h1 ++ h ++ h2 ∧
     steps (ResolveSecurityConfig (InitializeStatus sc)) h (Ret (Ok scope)) ∧
     ControllerResources scope = Ok rfs ∧ Forall (resource_converged (sc_Meta sc) w') rfs).

Lemma converged_same sc c w w' :
  same_objects w w' → resource_converged sc w c → resource_converged sc w' c.
Proof. intros Hs. apply converged_unchanged, Hs. Qed.

Lemma reconciled_before sc r t0 t w0 w w' :
  same_objects w0 w → reconciled sc r t w w' → reconciled sc r (t0 ++ t) w0 w'.
Proof.
  intros Hs [Hrest Hok]. split; [intros k key Hk; by rewrite (Hrest k key Hk)|].
  intros (h1 & h & h2 & scope & rfs & -> & Hres)%Hok.
  exists (t0 ++ h1), h, h2, scope, rfs. by rewrite <-!app_assoc.
Qed.

Lemma reconciled_failed sc r t w w' :
  is_ok r = false → same_objects w w' → reconciled sc r t w w'.
Proof. intros Hr Hs. split; [by intros k key _|by rewrite Hr]. Qed.

(** The resources of a resolved scope, and the status. *)
Lemma resources_run sc original scope rfs w r w' :
  ControllerResources scope = Ok rfs → sp_SecurityConfig scope = InitializeStatus sc →
  run (reconcile_resources original rfs scope) w = (r, w') →
  (∀ k key, ¬ own_object sc k key → find w' k key = find w k key) ∧
  (is_ok r = true → Forall (resource_converged (sc_Meta sc) w') rfs).
Proof.
  intros Hc Hsc. unfold reconcile_resources. rewrite run_bind. cbv zeta.
  destruct (run (doReconcile rfs scope) w) as [[o s1] w2] eqn:Hdo. cbn [fst snd].
  destruct (doReconcile_runs _ _ _ _ _ Hc Hdo) as [Hrest Hconv].
  rewrite run_bind. cbv zeta. pose proof (status_update_keeps original rfs s1 w2) as Hk2.
  destruct (run (UpdateSecurityConfigStatus original rfs s1) w2) as [[u s2] w3].
  cbn [fst snd] in *. intros Hend.
  assert (w' = w3 ∧ (is_ok r = true → is_ok o = true)) as [-> Ho]
    by (destruct u; injection Hend as <- <-; by split).
  split.
  - intros k key Hk. rewrite Hk2. apply Hrest. intros Hin. apply Hk.
    by apply (owned_own _ _ sc (k, key)) in Hin.
  - intros Hr. eapply Forall_impl; [exact (Hconv (Ho Hr))|]. intros c. rewrite Hsc.
    by apply converged_same.
Qed.

(** From the resolution on. *)
Lemma reconcile_resolved_runs sc original w r w' :
  run (reconcile_resolved (InitializeStatus sc) original) w = (r, w') →
  reconciled sc r (trace (reconcile_resolved (InitializeStatus sc) original) w) w w'.
Proof.
  unfold reconcile_resolved. rewrite run_bind, trace_bind. cbv zeta.
  pose proof (resolution_keeps (InitializeStatus sc) w) as Hkeep.
  pose proof (trace_steps (ResolveSecurityConfig (InitializeStatus sc)) w) as Hh.
  set (t := trace (ResolveSecurityConfig (InitializeStatus sc)) w) in *.
  destruct (run (ResolveSecurityConfig (InitializeStatus sc)) w) as [[scope|err|why] w1] eqn:Hres;
    cbn [fst snd] in *.
  - pose proof (yields_steps _ _ _ _ (ResolveSecurityConfig_yields (InitializeStatus sc)) Hh)
      as ((Hsc & _) & _).
    destruct (ControllerResources scope) as [rfs|e|why] eqn:Hc;
      [|intros [= <- <-]; by apply reconciled_failed..].
    intros Hrun. destruct (resources_run sc _ _ _ _ _ _ Hc Hsc Hrun) as [Hrest Hok]. split.
    + intros k key Hk. by rewrite (Hrest k key Hk).
    + intros Hr. eexists [], t, _, scope, rfs. split_and!; [reflexivity|done|done|by apply Hok].
  - unfold gom_bind. rewrite run_bind. cbv zeta.
    pose proof (failed_status_keeps (sc_with_status (InitializeStatus sc)
      (st_with_phase (sc_Status (InitializeStatus sc)) PhaseFailed (Error err)
         (st_Ready (sc_Status (InitializeStatus sc))))) w1) as Hk2.
    destruct (run (UpdateStatus _) w1) as [[u|e|why] w2]; cbn [fst snd] in *;
      intros [= <- <-]; (apply reconciled_failed; [done|by eapply same_objects_trans]).
  - intros [= <- <-]. by apply reconciled_failed.
Qed.

(** *** A second reconciliation *)

Lemma kept_trans w1 w2 w3 p : kept w1 w2 p → kept w2 w3 p → kept w1 w3 p.
Proof.
  unfold kept, unchanged. intros [Hu|?]; [|by right]. rewrite Hu.
  intros [Hu2|?]; [left; congruence|by right].
Qed.

Lemma same_kept w w' p : same_objects w w' → kept w w' p.
Proof. intros Hs. left. apply Hs. Qed.

(** The calls of a run, each of them allowed. *)
Definition repeats (rfs : list ControllerResource) (h : history) : Prop :=
  Forall (λ e, repeat_write rfs (ev_op e)) h.

Lemma repeats_app rfs h1 h2 : repeats rfs (h1 ++ h2) ↔ repeats rfs h1 ∧ repeats rfs h2.
Proof. apply Forall_app. Qed.

(** Reconciling an object in its final state, after the read [Ok current]. *)
Lemma current_repeats rfs k (rf : ResourceReconciler k) scope w o :
  resource_ok scope (ControllerResourceAdapter k rf) → ControllerResourceAdapter k rf ∈ rfs →
  resource_converged (sc_Meta (sp_SecurityConfig scope)) w (ControllerResourceAdapter k rf) →
  find w k (m_Namespace (sc_Meta (sp_SecurityConfig scope)), rf_ResourceName rf) = Some o →
  repeats rfs (trace (reconcile_current rf o true scope) w) ∧
  ((run (reconcile_current rf o true scope) w).2 = w ∨ has_messages k = true ∨
   m_DeletionTimestamp (o_Meta o) ≠ None).
Proof.
  intros (_ & _ & Hset) Hin. cbn [resource_converged]. unfold converged.
  rewrite reconcile_current_cases. cbv zeta. intros Hconv Hf. rewrite Hf in Hconv.
  destruct (rf_desired rf) as [d|] eqn:Hd.
  - destruct Hconv as (o' & [= <-] & Hown & Hag). rewrite Hown.
    destruct (rf_ShouldUpdate rf o d) eqn:Hs; [|split; [constructor|by left]].
    assert (has_messages k = true) as Hm.
    { destruct (has_messages k) eqn:Hm; [done|].
      by rewrite (Hset (or_introl Hm) o d Hd Hag) in Hs. }
    split; [|by right; left]. unfold ReconcileOnUpdate. cbn [negb]. cbv zeta.
    rewrite trace_bind. apply repeats_app. split.
    + constructor; [|constructor]. split; [done|]. eauto.
    + destruct (run _ w) as [[]]; constructor.
  - destruct (IsControlledBy _ _) eqn:Hown; [|split; [constructor|by left]].
    destruct (Hconv o eq_refl) as [Hn|Hdel]; [by rewrite Hown in Hn|].
    split; [|by right; right]. cbn [andb]. unfold ReconcileOnDelete. cbn [negb]. cbv zeta.
    rewrite trace_bind. apply repeats_app. split.
    + by constructor; [|constructor].
    + destruct (run _ w) as [[]]; constructor.
Qed.

Lemma one_repeats rfs c scope w :
  resource_ok scope c → c ∈ rfs →
  resource_converged (sc_Meta (sp_SecurityConfig scope)) w c →
  repeats rfs (trace (Reconciliation.Reconcile c scope) w) ∧
  ∀ p, kept w (run (Reconciliation.Reconcile c scope) w).2 p.
Proof.
  intros Hok Hin Hconv.
  assert (∀ p, p ≠ owned_key (sc_Meta (sp_SecurityConfig scope)) c →
            unchanged w (run (Reconciliation.Reconcile c scope) w).2 p) as Hrest
    by (eapply one_converges; [exact Hok|apply surjective_pairing]).
  enough (repeats rfs (trace (Reconciliation.Reconcile c scope) w) ∧
          kept w (run (Reconciliation.Reconcile c scope) w).2
            (owned_key (sc_Meta (sp_SecurityConfig scope)) c)) as [Hr Hk].
  { split; [exact Hr|]. intros p.
    destruct (decide (p = owned_key (sc_Meta (sp_SecurityConfig scope)) c)) as [->|Hne];
      [exact Hk|left; by apply Hrest]. }
  clear Hrest. destruct c as [k rf]. cbn [Reconciliation.Reconcile owned_key].
  unfold ReconcileControllerResource. cbv zeta. rewrite trace_bind, run_bind, run_call. cbv zeta.
  set (key := (m_Namespace (sc_Meta (sp_SecurityConfig scope)), rf_ResourceName rf)).
  change (key_of (new_object k _ _)) with key. cbn [trace call].
  destruct (perform (OpGet k key) w) as [r w1] eqn:Hget. cbn [fst snd].
  apply get_reply in Hget as [-> Hr]. rewrite repeats_app.
  assert (repeats rfs [Ev (OpGet k key) r]) as Hq by by repeat constructor.
  destruct r as [o|e|why]; [| |done].
  - destruct Hr as [Hf _].
    destruct (current_repeats rfs k rf scope w o Hok Hin Hconv Hf) as [Ht Hw].
    split; [by split|]. unfold kept, unchanged. cbn [fst snd].
    destruct Hw as [->|[Hm|Hdel]]; [by left|by right; left|right; right; by exists o].
  - assert (∀ h w', (h = [] ∧ w' = w) →
      (repeats rfs [Ev (OpGet k key) (Err e)] ∧ repeats rfs h) ∧ kept w w' (k, key)) as Hnone
      by (intros h w' [-> ->]; split; [split; [exact Hq|constructor]|by left]).
    destruct (IsNotFound e) eqn:He; [|by apply Hnone].
    cbn [resource_converged] in Hconv. unfold converged in Hconv.
    change (m_Namespace (sc_Meta (sp_SecurityConfig scope)), rf_ResourceName rf) with key in Hconv.
    rewrite (Hr eq_refl) in Hconv.
    rewrite reconcile_current_cases. cbv zeta. destruct (rf_desired rf) as [d|];
      [by destruct Hconv as (o' & [=] & _)|]. by apply Hnone.
Qed.

(** The event for a resource, and what follows it. *)
Lemma event_repeats {A} rfs c failed (p : prog A) w :
  (∀ w1, same_objects w w1 → repeats rfs (trace p w1) ∧ ∀ q, kept w1 (run p w1).2 q) →
  repeats rfs (trace (let* _ := resource_event c failed in p) w) ∧
  ∀ q, kept w (run (let* _ := resource_event c failed in p) w).2 q.
Proof.
  intros Hp. assert (∀ a b n, repeats rfs (trace (let* _ := record_event a b n in p) w) ∧
    ∀ q, kept w (run (let* _ := record_event a b n in p) w).2 q) as Hev.
  { intros a b n. pose proof (perform_keeps (OpEvent a b n) w eq_refl) as Hk.
    rewrite trace_bind, run_bind, run_event. cbv zeta.
    destruct (Hp _ Hk) as [Hq Hs]. split.
    - apply repeats_app. split; [by repeat constructor|exact Hq].
    - intros q. eapply kept_trans; [by apply same_kept|apply Hs]. }
  unfold resource_event. destruct failed; apply Hev.
Qed.

Lemma loop_repeats all rfs result errs scope w :
  (∀ c, c ∈ rfs → c ∈ all) → Forall (resource_ok scope) rfs →
  NoDup (owned_key (sc_Meta (sp_SecurityConfig scope)) <$> rfs) →
  Forall (resource_converged (sc_Meta (sp_SecurityConfig scope)) w) rfs →
  repeats all (trace (reconcile_loop rfs result errs scope) w) ∧
  ∀ p, kept w (run (reconcile_loop rfs result errs scope) w).2 p.
Proof.
  revert result errs scope w.
  induction rfs as [|c rfs IH]; intros result errs scope w Hsub Hok Hnd Hconv.
  { split; [constructor|by left]. }
  apply Forall_cons in Hok as [Hc Hok]. apply Forall_cons in Hconv as [Hcc Hconv].
  rewrite fmap_cons in Hnd. apply NoDup_cons in Hnd as [Hnotin Hnd].
  cbn [reconcile_loop]. rewrite trace_bind, run_bind. cbv zeta.
  destruct (one_repeats all c scope w Hc (Hsub c ltac:(by left)) Hcc) as [Hq Hk].
  destruct (run (Reconciliation.Reconcile c scope) w) as [[r s1] w1] eqn:Hrun.
  destruct (one_converges _ _ _ _ _ Hc Hrun) as (Hun & _ & Hsame). cbn [fst snd] in *.
  pose proof (same_but_descendants_sc _ _ Hsame) as Hsc.
  assert (∀ result' errs' w2, same_objects w1 w2 →
    repeats all (trace (reconcile_loop rfs result' errs' s1) w2) ∧
    ∀ p, kept w2 (run (reconcile_loop rfs result' errs' s1) w2).2 p) as Hrest.
  { intros result' errs' w2 Hs. apply IH.
    - intros c' Hc'. apply Hsub. by right.
    - eapply Forall_impl; [exact Hok|]. intros c'. by apply resource_ok_same.
    - by rewrite <-Hsc.
    - rewrite <-Hsc. apply Forall_forall. intros c' Hc'. rewrite Forall_forall in Hconv.
      eapply converged_same; [exact Hs|].
      eapply converged_unchanged; [|by apply Hconv]. apply Hun. intros Heq.
      apply Hnotin. rewrite <-Heq. by apply list_elem_of_fmap_2. }
  assert (∀ b (p : prog (outcome (Result * list error) * Scope)),
    (∀ w2, same_objects w1 w2 → repeats all (trace p w2) ∧ ∀ q, kept w2 (run p w2).2 q) →
    repeats all (trace (Reconciliation.Reconcile c scope) w ++
                 trace (let* _ := resource_event c b in p) w1) ∧
    ∀ q, kept w (run (let* _ := resource_event c b in p) w1).2 q) as Hone.
  { intros b p Hp. destruct (event_repeats all c b p w1 Hp) as [Ht Hkp].
    split; [by apply repeats_app|]. intros q. eapply kept_trans; [apply Hk|apply Hkp]. }
  destruct r as [x|e|why]; [by apply Hone, Hrest..|].
  split; [apply repeats_app; split; [exact Hq|constructor]|exact Hk].
Qed.

Lemma doReconcile_repeats rfs scope w :
  ControllerResources scope = Ok rfs → ∀ again,
  sc_Meta (sp_SecurityConfig again) = sc_Meta (sp_SecurityConfig scope) →
  Forall (resource_converged (sc_Meta (sp_SecurityConfig scope)) w) rfs →
  repeats rfs (trace (doReconcile rfs again) w) ∧
  ∀ p, kept w (run (doReconcile rfs again) w).2 p.
Proof.
  intros Hc again Hsc Hconv. destruct (ControllerResources_fresh _ _ Hc) as [_ Hok].
  destruct (loop_repeats rfs rfs zero_result [] again w) as [Hq Hk]; [done|..].
  { eapply Forall_impl; [exact Hok|]. intros [k rf]. unfold resource_ok, sc_Namespace. by rewrite Hsc. }
  { rewrite Hsc. by apply ControllerResources_keys. }
  { by rewrite Hsc. }
  unfold doReconcile. rewrite trace_bind, run_bind. cbv zeta. rewrite repeats_app.
  destruct (run (reconcile_loop rfs zero_result [] again) w) as [[o s1] w1]. cbn [fst snd] in *.
  assert (∀ a b n (rs : outcome Result * Scope),
    repeats rfs (trace (let* _ := record_event a b n in Ret rs) w1) ∧
    ∀ p, kept w (run (let* _ := record_event a b n in Ret rs) w1).2 p) as Hev.
  { intros a b n rs. rewrite trace_bind, run_bind, run_event. split.
    - by repeat constructor.
    - intros p. eapply kept_trans; [apply Hk|].
      apply same_kept, (perform_keeps (OpEvent a b n) w1 eq_refl). }
  destruct o as [[result errs]|e|why]; [destruct (0 <? length errs)%nat| |].
  1,2: match goal with |- context [record_event ?a ?b ?n] =>
         match goal with |- context [Ret ?rs] => destruct (Hev a b n rs); by split_and! end end.
  all: split; [split; [exact Hq|constructor]|exact Hk].
Qed.


(** C10: what the whole of [Reconcile] does to the objects of a server.  If the SecurityConfig
    cannot be read, is missing or is being deleted, no object changes.  Otherwise only its own
    twelve objects can change; and when the reconciliation returns without an error, it was
    resolved by calls of this very run and each of them is in its final state. *)
Theorem Reconcile_converges req w r w' :
  run (Reconcile req) w = (r, w') →
  match (perform (OpGetSecurityConfig req) w).1 with
  | Ok sc =>
      if is_some (m_DeletionTimestamp (sc_Meta sc)) then same_objects w w'
      else (∀ k key, ¬ own_object sc k key → find w' k key = find w k key) ∧
           (is_ok r = true → ∃ h1 h h2 scope rfs, trace (Reconcile req) w = h1 ++ h ++ h2 ∧
              steps (ResolveSecurityConfig (InitializeStatus sc)) h (Ret (Ok scope)) ∧
              ControllerResources scope = Ok rfs ∧
              Forall (resource_converged (sc_Meta sc) w') rfs)
  | _ => same_objects w w'
  end.
Proof.
  unfold Reconcile, record_event.
  rewrite (run_call_bind (OpGetSecurityConfig req)), (trace_call_bind (OpGetSecurityConfig req)).
  pose proof (perform_keeps (OpGetSecurityConfig req) w eq_refl) as Hk1.
  destruct (perform (OpGetSecurityConfig req) w) as [[sc|e|why] w1]; cbn [fst snd] in *.
  2: { destruct (IsNotFound e); by intros [= <- <-]. }
  2: { by intros [= <- <-]. }
  rewrite (run_call_bind (OpEvent _ _ _)), (trace_call_bind (OpEvent _ _ _)).
  match goal with |- context [perform (OpEvent ?a ?b ?c) w1] =>
    pose proof (same_objects_trans _ _ _ Hk1 (perform_keeps (OpEvent a b c) w1 eq_refl)) as Hk2;
    destruct (perform (OpEvent a b c) w1) as [u w2]; cbn [fst snd] in * end.
  change (sc_Meta (InitializeStatus sc)) with (sc_Meta sc).
  destruct (m_DeletionTimestamp (sc_Meta sc)) as [t|] eqn:Hdel; cbn [is_some];
    [by intros [= <- <-]|].
  intros Hrun. rewrite app_assoc. apply (reconciled_before _ _ _ _ _ w2); [done|]. revert Hrun.
  destruct (negb _); [|apply reconcile_resolved_runs].
  unfold gom_bind. rewrite (run_call_bind (OpPatchSecurityConfig _ _)),
    (trace_call_bind (OpPatchSecurityConfig _ _)).
  match goal with |- context [perform ?op w2] => pose proof (perform_keeps op w2 eq_refl) as Hk3 end.
  destruct (perform _ w2) as [[d|e|why] w3]; cbn [fst snd] in *;
    [|intros [= <- <-]; by apply reconciled_failed..].
  intros Hrun. eapply reconciled_before; [exact Hk3|]. by eapply reconcile_resolved_runs.
Qed.
End Server.
(** ** Applications *)

Lemma Reconcile_converges_witness :
  ∃ scope rfs, ControllerResources scope = Ok rfs ∧
    Forall (resource_converged sample_meta (run (Reconcile sample_req) sample_sc_store).2) rfs.
Proof.
  pose proof (Reconcile_converges sample_req sample_sc_store
    (run (Reconcile sample_req) sample_sc_store).1 (run (Reconcile sample_req) sample_sc_store).2
    (surjective_pairing _)) as Hrun.
  assert ((perform (OpGetSecurityConfig sample_req) sample_sc_store).1 = Ok sample_idporten_sc)
    as Hget by (vm_compute; reflexivity).
  assert (is_ok (run (Reconcile sample_req) sample_sc_store).1 = true) as Hok
    by (vm_compute; reflexivity).
  rewrite Hget in Hrun. destruct Hrun as [_ Hrun].
  destruct (Hrun Hok) as (h1 & h & h2 & scope & rfs & _ & _ & Hc & Hall). exists scope, rfs.
  split; [exact Hc|exact Hall].
Defined.

(** A property of every object of a store, by evaluation. *)
Definition all_kinds : list Kind :=
  [KJwker; KNetworkPolicy; KMaskinportenClient; KSecret; KServiceEntry; KAzureAdApplication;
   KConfigMap; KEnvoyFilter; KApplication; KNamespace].
Definition store_forallb (p : ∀ k, Object k → bool) (s : Store) : bool :=
  forallb (λ k, forallb (λ e, p k e.2) (map_to_list (s_objs s k))) all_kinds.
Lemma store_forallb_find p s k key (o : Object k) :
  store_forallb p s = true → find s k key = Some o → p k o = true.
Proof.
  unfold store_forallb. intros Hall. simpl. unfold lookup_obj.
  intros (o' & Hl%elem_of_map_to_list & Ho)%bind_Some. case_decide; [|done]. injection Ho as <-.
  assert (In k all_kinds) as Hk by (destruct k; simpl; tauto).
  pose proof (proj1 (forallb_forall _ _) Hall k Hk) as Hf.
  apply list_elem_of_In in Hl. exact (proj1 (forallb_forall _ _) Hf _ Hl).
Qed.

