(* ===== verification/Sidecars.v ===== *)
(** * The sidecars of a pod: [internal/webhook/pods/{common,security_config,texas,opa}.go]

    What the pod webhooks add to a pod and how they check it: the init container of a
    service, the environment variable that tells the application where the service
    is, and for OPA the volume with the bundles.  The code changes the pod through a
    pointer; a mutation here returns its result and the changed pod, also when it
    fails halfway.  The theorems: a mutation only adds, it never adds something that
    collides with what is there, and what it added is accepted by the validation. *)
From stdpp Require Import base gmap strings list.
From Stdlib Require Import ZArith Lia.
From S2P Require Import Prelude GoStrings Kube Api Model Cluster ProgTheory RefServer Config Naming State Utilities Reconciliation Generators Resources Samples.
Open Scope go_scope.

(** ** Pods *)

Definition pod_with_init (pod : Pod) (l : list Container) : Pod :=
  {| pod_Meta := pod_Meta pod; pod_InitContainers := l; pod_Containers := pod_Containers pod;
     pod_Volumes := pod_Volumes pod; pod_Other := pod_Other pod |}.
Definition pod_with_containers (pod : Pod) (l : list Container) : Pod :=
  {| pod_Meta := pod_Meta pod; pod_InitContainers := pod_InitContainers pod;
     pod_Containers := l; pod_Volumes := pod_Volumes pod; pod_Other := pod_Other pod |}.
Definition pod_with_volumes (pod : Pod) (l : list Volume) : Pod :=
  {| pod_Meta := pod_Meta pod; pod_InitContainers := pod_InitContainers pod;
     pod_Containers := pod_Containers pod; pod_Volumes := l; pod_Other := pod_Other pod |}.

Definition ctr_with_env (c : Container) (l : list EnvVar) : Container :=
  {| ctr_Name := ctr_Name c; ctr_Image := ctr_Image c; ctr_Args := ctr_Args c; ctr_Env := l;
     ctr_EnvFrom := ctr_EnvFrom c; ctr_Ports := ctr_Ports c; ctr_Resources := ctr_Resources c;
     ctr_RestartPolicy := ctr_RestartPolicy c; ctr_SecurityContext := ctr_SecurityContext c;
     ctr_VolumeMounts := ctr_VolumeMounts c; ctr_ReadinessProbe := ctr_ReadinessProbe c;
     ctr_TerminationMessagePath := ctr_TerminationMessagePath c;
     ctr_TerminationMessagePolicy := ctr_TerminationMessagePolicy c;
     ctr_Other := ctr_Other c |}.

(** [append(s, l...)]: appending nothing to a nil slice leaves it nil. *)
Definition append_slice {A : Type} (s : slice A) (l : list A) : slice A :=
  match l with [] => s | _ => Some (items s ++ l) end.

(** [namespace/name] of a pod. *)
Definition pod_ref (pod : Pod) : string :=
  m_Namespace (pod_Meta pod) +:+ "/" +:+ m_Name (pod_Meta pod).

(** ** Collisions: [common.go] *)

Definition all_containers (pod : Pod) : list Container :=
  pod_InitContainers pod ++ pod_Containers pod.

Definition EnsureUnusedContainerName (podToMutate : Pod) (sidecarContainer : Container) :
    outcome unit :=
  if existsb (λ c, bool_decide (ctr_Name c = ctr_Name sidecarContainer))
       (all_containers podToMutate)
  then Err (ErrorString ("pod already has a container named " +:+ ctr_Name sidecarContainer))
  else Ok tt.

Definition EnsureUnusedContainerPorts (podToMutate : Pod) (sidecarContainer : Container) :
    outcome unit :=
  let sidecarPorts := map cport_ContainerPort (ctr_Ports sidecarContainer) in
  match List.find (λ p, bool_decide (p ∈ sidecarPorts))
          (map cport_ContainerPort (concat (map ctr_Ports (all_containers podToMutate)))) with
  | Some port => Err (ErrorString ("pod already has a port on " +:+ itoa port))
  | None => Ok tt
  end.

Definition EnsureUnusedEnvVar (container : Container) (envVarName : string) : outcome unit :=
  if existsb (λ env, bool_decide (env_Name env = envVarName)) (ctr_Env container)
  then Err (ErrorString ("container " +:+ ctr_Name container +:+ " already has env var " +:+
                         envVarName))
  else Ok tt.

(** The body that [MutatePodWithTexasInitContainer] and
    [MutatePodWithOpaInitContainer] share. *)
Definition add_init_container (pod : Pod) (sidecarContainer : Container) : outcome unit * Pod :=
  match (let? _ := EnsureUnusedContainerName pod sidecarContainer in
         EnsureUnusedContainerPorts pod sidecarContainer) with
  | Ok _ => (Ok tt, pod_with_init pod (pod_InitContainers pod ++ [sidecarContainer]))
  | r => (r, pod)
  end.

(** The loop over the containers that [MutatePodWithTexasURLEnvVar] and
    [MutatePodWithOpaURLEnvVar] share: the first container of that name gets the
    variable. *)
Fixpoint add_env (containers : list Container) (applicationRef envVarName value : string) :
    outcome (list Container) :=
  match containers with
  | [] => Ok []
  | container :: rest =>
      if bool_decide (ctr_Name container = applicationRef) then
        let? _ := EnsureUnusedEnvVar container envVarName in
        Ok (ctr_with_env container (ctr_Env container ++ [env_var envVarName value]) :: rest)
      else
        let? rest := add_env rest applicationRef envVarName value in Ok (container :: rest)
  end.

Definition add_url_env (pod : Pod) (applicationRef envVarName value : string) :
    outcome unit * Pod :=
  match add_env (pod_Containers pod) applicationRef envVarName value with
  | Ok l => (Ok tt, pod_with_containers pod l)
  | Err e => (Err e, pod)
  | Panic w => (Panic w, pod)
  end.

(** [if err := f(pod); err != nil { return fmt.Errorf(prefix, err) }] and then the rest. *)
Definition then_mutate (prefix : string) (r : outcome unit * Pod)
    (next : Pod → outcome unit * Pod) : outcome unit * Pod :=
  match r with
  | (Ok _, pod) => next pod
  | (Err e, pod) => (Err (wrapf prefix e), pod)
  | (Panic w, pod) => (Panic w, pod)
  end.

(** ** The SecurityConfig of an application: [security_config.go] *)

Definition GetSecurityConfigForApplication (appKey : ObjectKey) : GoM SecurityConfig :=
  let! items :=
    gom_on_err (wrapf "failed to fetch SecurityConfig resources: ")
      (call (OpListSecurityConfigs appKey.1)) in
  match List.filter (λ sc, bool_decide (spec_ApplicationRef (sc_Spec sc) = appKey.2)) items with
  | [] => Ret (Err (ErrorString
            "no SecurityConfig resource was found for the corresponding Application"))
  | [sc] => if st_Ready (sc_Status sc) then Ret (Ok sc)
            else Ret (Err (ErrorString "SecurityConfig resource for Application is not ready"))
  | _ => Ret (Err (ErrorString "multiple SecurityConfig resources found for Application"))
  end.

(** ** Texas: [texas.go] *)

Definition TexasInitContainerName : string := "texas".
Definition BindAddressEnvVarName : string := "BIND_ADDRESS".
Definition ProbeBindAddressEnvVarName : string := "PROBE_BIND_ADDRESS".
Definition TokenXEnabledEnvVarName : string := "TOKEN_X_ENABLED".
Definition MaskinportenEnabledEnvVarName : string := "MASKINPORTEN_ENABLED".
Definition AzureEnabledEnvVarName : string := "AZURE_ENABLED".
Definition IdportenEnabledEnvVarName : string := "IDPORTEN_ENABLED".
Definition AnsattportenEnabledEnvVarName : string := "ANSATTPORTEN_ENABLED".
Definition IdportenWellKnownUrlEnvVarName : string := "IDPORTEN_WELL_KNOWN_URL".
Definition IdportenAudienceEnvVarName : string := "IDPORTEN_AUDIENCE".
Definition AnsattportenWellKnownUrlEnvVarName : string := "ANSATTPORTEN_WELL_KNOWN_URL".
Definition AnsattportenAudienceEnvVarName : string := "ANSATTPORTEN_AUDIENCE".

Record TexasEnvVars := {
  tev_TokenXEnabled : string;
  tev_MaskinportenEnabled : string;
  tev_AzureEnabled : string;
  tev_IdportenEnabled : string;
  tev_AnsattportenEnabled : string;
  tev_EnvVars : list EnvVar;
  tev_EnvFromSources : list EnvFromSource;
}.

(** A port of a sidecar: a number, a name, TCP. *)
Definition tcp_port (port : Z) (name : string) : ContainerPort :=
  {| cport_ContainerPort := port; cport_Name := name; cport_Protocol := "TCP";
     cport_Other := VNull |}.

(** The environment of the keys of a Secret. *)
Definition env_from_secret (name : string) : EnvFromSource :=
  {| efs_SecretRef := Some name; efs_Other := VNull |}.

(** The readiness probe of a sidecar: GET [path] on [port] after two seconds. *)
Definition readiness_probe (path : string) (port : Z) : Probe :=
  {| pr_HTTPGet := Some {| hg_Path := path; hg_Port := IOSInt port ""; hg_Scheme := "HTTP";
                           hg_Other := VNull |};
     pr_InitialDelaySeconds := 2; pr_TimeoutSeconds := 0; pr_PeriodSeconds := 0;
     pr_SuccessThreshold := 0; pr_FailureThreshold := 0;
     pr_TerminationGracePeriodSeconds := None |}.

(** What a sidecar adds to [utilities.CommonInitContainer]. *)
Definition sidecar_container (name image : string) (resources : ResourceRequirements)
    (ports : list ContainerPort) (probe : Probe) (env : list EnvVar)
    (envFrom : slice EnvFromSource) (args : list string) (mounts : list VolumeMount) :
    Container :=
  {| ctr_Name := name; ctr_Image := image; ctr_Args := args; ctr_Env := env;
     ctr_EnvFrom := envFrom; ctr_Ports := ports; ctr_Resources := resources;
     ctr_RestartPolicy := ctr_RestartPolicy CommonInitContainer;
     ctr_SecurityContext := ctr_SecurityContext CommonInitContainer;
     ctr_VolumeMounts := mounts; ctr_ReadinessProbe := Some probe;
     ctr_TerminationMessagePath := ctr_TerminationMessagePath CommonInitContainer;
     ctr_TerminationMessagePolicy := ctr_TerminationMessagePolicy CommonInitContainer;
     ctr_Other := ctr_Other CommonInitContainer |}.

Section Sidecars.
Context `{Globals} `{Lib}.

Definition idportenWellKnownURL : outcome string :=
  let? prod := deref (cfg_RunsInProduction Get) in
  Ok (if prod : bool then IdPortenProdWellKnownURL else IdPortenTestWellKnownURL).

Definition ansattportenWellKnownURL : outcome string :=
  let? prod := deref (cfg_RunsInProduction Get) in
  Ok (if prod : bool then AnsattportenProdWellKnownURL else AnsattportenTestWellKnownURL).

(** [Spec.X != nil && Spec.X.Enabled]. *)
Definition enabled {A : Type} (get : A → bool) (o : option A) : bool :=
  match o with Some a => get a | None => false end.

Definition GetTexasEnvVars (securityConfig : SecurityConfig) : outcome TexasEnvVars :=
  let spec := sc_Spec securityConfig in
  let status := sc_Status securityConfig in
  let tokenxEnabled := enabled tx_Enabled (spec_Tokenx spec) in
  let maskinportenEnabled := enabled mp_Enabled (spec_Maskinporten spec) in
  let entraIdEnabled := enabled ei_Enabled (spec_EntraID spec) in
  let idportenEnabled := enabled ip_Enabled (spec_Idporten spec) in
  let ansattportenEnabled := enabled an_Enabled (spec_Ansattporten spec) in
  let envFromSources :=
    (if tokenxEnabled then [env_from_secret (st_JwkerSecretName status)] else []) ++
    (if maskinportenEnabled then [env_from_secret (st_MaskinportenSecretName status)] else []) ++
    (if entraIdEnabled then [env_from_secret (st_EntraIdSecretName status)] else []) in
  let? idportenVars :=
    (if idportenEnabled then
       let? url := idportenWellKnownURL in
       Ok [env_var IdportenWellKnownUrlEnvVarName url;
           env_var IdportenAudienceEnvVarName (st_IdportenAudience status)]
     else Ok []) in
  let? ansattportenVars :=
    (if ansattportenEnabled then
       let? url := ansattportenWellKnownURL in
       Ok [env_var AnsattportenWellKnownUrlEnvVarName url;
           env_var AnsattportenAudienceEnvVarName (st_AnsattportenAudience status)]
     else Ok []) in
  Ok {| tev_TokenXEnabled := FormatBool tokenxEnabled;
        tev_MaskinportenEnabled := FormatBool maskinportenEnabled;
        tev_AzureEnabled := FormatBool entraIdEnabled;
        tev_IdportenEnabled := FormatBool idportenEnabled;
        tev_AnsattportenEnabled := FormatBool ansattportenEnabled;
        tev_EnvVars := idportenVars ++ ansattportenVars;
        tev_EnvFromSources := envFromSources |}.

Definition image_url (name tag sha : string) : string := name +:+ ":" +:+ tag +:+ "@" +:+ sha.

Definition GetTexasContainer (securityConfig : SecurityConfig) : outcome Container :=
  let imageURL := image_url (cfg_TexasImageName Get) (cfg_TexasImageTag Get)
                    (cfg_TexasImageSha Get) in
  let? envVars := GetTexasEnvVars securityConfig in
  let? resources := TexasResources in
  let port := cfg_TexasPort Get in
  let probePort := cfg_TexasProbePort Get in
  Ok (sidecar_container TexasInitContainerName imageURL resources
        [tcp_port port "http"; tcp_port probePort "probe"]
        (readiness_probe "/healthz" probePort)
        ([env_var BindAddressEnvVarName ("127.0.0.1:" +:+ itoa port);
          env_var ProbeBindAddressEnvVarName ("0.0.0.0:" +:+ itoa probePort);
          env_var TokenXEnabledEnvVarName (tev_TokenXEnabled envVars);
          env_var MaskinportenEnabledEnvVarName (tev_MaskinportenEnabled envVars);
          env_var AzureEnabledEnvVarName (tev_AzureEnabled envVars);
          env_var IdportenEnabledEnvVarName (tev_IdportenEnabled envVars);
          env_var AnsattportenEnabledEnvVarName (tev_AnsattportenEnabled envVars)] ++
         tev_EnvVars envVars)
        (append_slice (ctr_EnvFrom CommonInitContainer) (tev_EnvFromSources envVars))
        (ctr_Args CommonInitContainer) (ctr_VolumeMounts CommonInitContainer)).

Definition GetTexasUrlEnvVarValue : string := "http://localhost:" +:+ itoa (cfg_TexasPort Get).

Definition IsTexasContainerEqual (expected actual : Container) : bool :=
  bool_decide (ctr_Name expected = ctr_Name actual) &&
  bool_decide (ctr_Image expected = ctr_Image actual) &&
  bool_decide (ctr_RestartPolicy expected = ctr_RestartPolicy actual) &&
  bool_decide (ctr_Env expected = ctr_Env actual) &&
  bool_decide (ctr_EnvFrom expected = ctr_EnvFrom actual) &&
  bool_decide (ctr_Ports expected = ctr_Ports actual) &&
  bool_decide (ctr_Resources expected = ctr_Resources actual) &&
  bool_decide (ctr_SecurityContext expected = ctr_SecurityContext actual) &&
  bool_decide (ctr_TerminationMessagePath expected = ctr_TerminationMessagePath actual) &&
  bool_decide (ctr_TerminationMessagePolicy expected = ctr_TerminationMessagePolicy actual) &&
  AssertContainerProbe (ctr_Name actual) (ctr_ReadinessProbe expected)
    (ctr_ReadinessProbe actual).

Definition MutatePodWithTexasInitContainer (pod : Pod) (sidecarContainer : Container) :
    outcome unit * Pod :=
  add_init_container pod sidecarContainer.

Definition MutatePodWithTexasURLEnvVar (pod : Pod) (applicationRef : string) :
    outcome unit * Pod :=
  add_url_env pod applicationRef (cfg_TexasUrlEnvVarName Get) GetTexasUrlEnvVarValue.

Definition MutateTexasOnPod (pod : Pod) (securityConfig : SecurityConfig) :
    outcome unit * Pod :=
  match GetTexasContainer securityConfig with
  | Err e => (Err e, pod)
  | Panic w => (Panic w, pod)
  | Ok sidecarContainer =>
      then_mutate "error mutating pod with Texas init container: "
        (MutatePodWithTexasInitContainer pod sidecarContainer) (λ pod,
      then_mutate "error mutating pod with Texas URL env var: "
        (MutatePodWithTexasURLEnvVar pod (spec_ApplicationRef (sc_Spec securityConfig)))
        (λ pod, (Ok tt, pod)))
  end.

Definition ValidateTexasInitContainer (pod : Pod) (expectedSidecarContainer : Container) :
    outcome unit :=
  let err := Err (ErrorString ("pod is annotated to have Texas, but Texas init container is missing or not correctly configured for pod "
                               +:+ pod_ref pod)) in
  match List.find (λ c, bool_decide (ctr_Name c = TexasInitContainerName))
          (pod_InitContainers pod) with
  | Some actual => if IsTexasContainerEqual expectedSidecarContainer actual then Ok tt else err
  | None => err
  end.

Definition ValidateTexasURLEnvVar (pod : Pod) (securityConfig : SecurityConfig) : outcome unit :=
  let expectedValue := GetTexasUrlEnvVarValue in
  let err := Err (ErrorString ("pod is annotated to have Texas, but " +:+
                    cfg_TexasUrlEnvVarName Get +:+
                    " env var is either missing or not correct for pod " +:+ pod_ref pod)) in
  match List.find (λ c, bool_decide (ctr_Name c = spec_ApplicationRef (sc_Spec securityConfig)))
          (pod_Containers pod) with
  | Some container =>
      if existsb (λ env, bool_decide (env_Name env = cfg_TexasUrlEnvVarName Get) &&
                         bool_decide (env_Value env = expectedValue)) (ctr_Env container)
      then Ok tt else err
  | None => err
  end.

Definition ValidateTexasOnPod (pod : Pod) (securityConfig : SecurityConfig)
    (expectedSidecarContainer : Container) : outcome unit :=
  let? _ := ValidateTexasURLEnvVar pod securityConfig in
  ValidateTexasInitContainer pod expectedSidecarContainer.

(** ** OPA: [opa.go] *)

Definition OpaInitContainerName : string := "opa".
Definition OpaBundleVolumeName : string := "opa-bundles".
Definition OpaBundleMountPath : string := "/bundles".

(** The ports and the arguments that the request policy adds. *)
Definition request_policy_ports (opa : OpenPolicyAgentSpec) : list ContainerPort :=
  if enabled rp_Enabled (opa_RequestPolicy opa)
  then [tcp_port (cfg_OpaGrpcPort Get) "grpc"] else [].

Definition request_policy_args (opa : OpenPolicyAgentSpec) : list string :=
  match opa_RequestPolicy opa with
  | Some policy =>
      if rp_Enabled policy then
        let queryPath := TrimPrefix (rp_Endpoint policy) "/v1/data/" in
        ["--set=plugins.envoy_ext_authz_grpc.addr=:" +:+ itoa (cfg_OpaGrpcPort Get);
         "--set=plugins.envoy_ext_authz_grpc.path=" +:+ queryPath;
         "--set=plugins.envoy_ext_authz_grpc.dry-run=false"]
      else []
  | None => []
  end.

(** The part of [GetOpaContainer] for an enabled OPA: ports, arguments and mounts. *)
Definition opa_enabled_parts (securityConfig : SecurityConfig) :
    outcome (list ContainerPort * list string * list VolumeMount) :=
  match spec_Opa (sc_Spec securityConfig) with
  | Some opa =>
      if opa_Enabled opa then
        let? source := deref (st_OpaBundleSource (sc_Status securityConfig)) in
        let bundleArgs :=
          concat (map (λ opaBundleName, ["--bundle"; OpaBundleMountPath +:+ "/" +:+ opaBundleName])
                    (obs_BundleNames source)) in
        let selfAuthorization :=
          if is_some (cfg_OpaSelfAuthorizationBundle Get) then ["--authorization=basic"] else [] in
        Ok (request_policy_ports opa,
            bundleArgs ++ ["--watch"] ++ selfAuthorization ++ request_policy_args opa,
            [{| vm_Name := OpaBundleVolumeName; vm_MountPath := OpaBundleMountPath;
                vm_ReadOnly := true; vm_Other := VNull |}])
      else Ok ([], [], ctr_VolumeMounts CommonInitContainer)
  | None => Ok ([], [], ctr_VolumeMounts CommonInitContainer)
  end.

Definition GetOpaContainer (securityConfig : SecurityConfig) : outcome Container :=
  let imageURL := image_url (cfg_OpaImageName Get) (cfg_OpaImageTag Get) (cfg_OpaImageSha Get) in
  let port := cfg_OpaPort Get in
  let? resources := OpaResources in
  let? parts := opa_enabled_parts securityConfig in
  Ok (sidecar_container OpaInitContainerName imageURL resources
        (tcp_port port "http" :: parts.1.1)
        (readiness_probe "/health?bundles=true&plugins=true" port)
        (ctr_Env CommonInitContainer) (ctr_EnvFrom CommonInitContainer)
        (["run"; "--server"; "--addr=0.0.0.0:" +:+ itoa port] ++ parts.1.2) parts.2).

Definition GetOpaUrlEnvVarValue : string := "http://localhost:" +:+ itoa (cfg_OpaPort Get).

Definition isVolumeMountsEqual (expected actual : list VolumeMount) : bool :=
  forallb (λ exp, existsb (λ act, bool_decide (vm_Name exp = vm_Name act) &&
                                  bool_decide (vm_MountPath exp = vm_MountPath act) &&
                                  bool_decide (vm_ReadOnly exp = vm_ReadOnly act)) actual)
    expected.

Definition IsOpaContainerEqual (expected actual : Container) : bool :=
  bool_decide (ctr_Name expected = ctr_Name actual) &&
  bool_decide (ctr_Image expected = ctr_Image actual) &&
  bool_decide (ctr_RestartPolicy expected = ctr_RestartPolicy actual) &&
  bool_decide (ctr_Args expected = ctr_Args actual) &&
  isVolumeMountsEqual (ctr_VolumeMounts expected) (ctr_VolumeMounts actual) &&
  bool_decide (ctr_Ports expected = ctr_Ports actual) &&
  bool_decide (ctr_Resources expected = ctr_Resources actual) &&
  bool_decide (ctr_SecurityContext expected = ctr_SecurityContext actual) &&
  bool_decide (ctr_TerminationMessagePath expected = ctr_TerminationMessagePath actual) &&
  bool_decide (ctr_TerminationMessagePolicy expected = ctr_TerminationMessagePolicy actual) &&
  AssertContainerProbe (ctr_Name actual) (ctr_ReadinessProbe expected)
    (ctr_ReadinessProbe actual).

Definition MutatePodWithOpaInitContainer (pod : Pod) (sidecarContainer : Container) :
    outcome unit * Pod :=
  add_init_container pod sidecarContainer.

Definition MutatePodWithOpaURLEnvVar (pod : Pod) (securityConfig : SecurityConfig) :
    outcome unit * Pod :=
  add_url_env pod (spec_ApplicationRef (sc_Spec securityConfig)) (cfg_OpaUrlEnvVarName Get)
    GetOpaUrlEnvVarValue.

Definition GetOpaBundleVolume (configMapName : string) : Volume :=
  {| vol_Name := OpaBundleVolumeName; vol_ConfigMap := Some configMapName;
     vol_Other := VNull |}.

Definition MutatePodWithOpaBundleVolume (pod : Pod) (securityConfig : SecurityConfig) :
    outcome unit * Pod :=
  if negb (enabled opa_Enabled (spec_Opa (sc_Spec securityConfig))) then (Ok tt, pod)
  else if existsb (λ volume, bool_decide (vol_Name volume = OpaBundleVolumeName))
            (pod_Volumes pod)
  then (Err (ErrorString ("pod already has a volume named " +:+ OpaBundleVolumeName)), pod)
  else
    match deref (st_OpaBundleSource (sc_Status securityConfig)) with
    | Ok source =>
        (Ok tt, pod_with_volumes pod
                  (pod_Volumes pod ++ [GetOpaBundleVolume (obs_ConfigMapName source)]))
    | Err e => (Err e, pod)
    | Panic w => (Panic w, pod)
    end.

Definition MutateOpaOnPod (pod : Pod) (securityConfig : SecurityConfig) : outcome unit * Pod :=
  match GetOpaContainer securityConfig with
  | Err e => (Err e, pod)
  | Panic w => (Panic w, pod)
  | Ok sidecarContainer =>
      then_mutate "error mutating pod with Opa init container: "
        (MutatePodWithOpaInitContainer pod sidecarContainer) (λ pod,
      then_mutate "error mutating pod with Opa URL env var: "
        (MutatePodWithOpaURLEnvVar pod securityConfig) (λ pod,
      then_mutate "error mutating pod with Opa bundle volume: "
        (MutatePodWithOpaBundleVolume pod securityConfig) (λ pod, (Ok tt, pod))))
  end.

Definition ValidateOpaInitContainer (pod : Pod) (sidecarContainer : Container) : outcome unit :=
  match List.find (λ c, bool_decide (ctr_Name c = OpaInitContainerName))
          (pod_InitContainers pod) with
  | Some initContainer =>
      if IsOpaContainerEqual sidecarContainer initContainer then Ok tt
      else Err (ErrorString ("pod is annotated to have Opa, but Opa init container is not correctly configured for pod "
                             +:+ pod_ref pod))
  | None => Err (ErrorString ("pod is annotated to have Opa, but Opa init container is missing or not correctly configured for pod "
                              +:+ pod_ref pod))
  end.

(** The loops of [ValidateOpaURLEnvVar]: the first variable of that name in any
    container of that name decides. *)
Definition ValidateOpaURLEnvVar (pod : Pod) (securityConfig : SecurityConfig) : outcome unit :=
  let expectedValue := GetOpaUrlEnvVarValue in
  let name := cfg_OpaUrlEnvVarName Get in
  let containers := List.filter (λ c, bool_decide (ctr_Name c =
                      spec_ApplicationRef (sc_Spec securityConfig))) (pod_Containers pod) in
  match List.find (λ env, bool_decide (env_Name env = name)) (concat (map ctr_Env containers)) with
  | Some env =>
      if bool_decide (env_Value env = expectedValue) then Ok tt
      else Err (ErrorString ("pod is annotated to have Opa, but " +:+ name +:+
                  " env var value is not correct for pod " +:+ pod_ref pod +:+ ": expected " +:+
                  expectedValue +:+ ", got " +:+ env_Value env))
  | None => Err (ErrorString ("pod is annotated to have Opa, but " +:+ name +:+
                  " env var is either missing or not correct for pod " +:+ pod_ref pod))
  end.

Definition ValidateOpaBundleVolume (pod : Pod) (securityConfig : SecurityConfig) :
    outcome unit :=
  if negb (enabled opa_Enabled (spec_Opa (sc_Spec securityConfig))) then Ok tt
  else
    let? source := deref (st_OpaBundleSource (sc_Status securityConfig)) in
    match List.find (λ volume, bool_decide (vol_Name volume = OpaBundleVolumeName))
            (pod_Volumes pod) with
    | Some volume =>
        if bool_decide (vol_ConfigMap volume = Some (obs_ConfigMapName source)) then Ok tt
        else Err (ErrorString ("pod is annotated to have Opa, but Opa bundle volume is not correctly configured for pod "
                               +:+ pod_ref pod))
    | None => Err (ErrorString ("pod is annotated to have Opa, but Opa bundle volume is missing for pod "
                                +:+ pod_ref pod))
    end.

Definition ValidateOpaOnPod (pod : Pod) (securityConfig : SecurityConfig)
    (sidecarContainer : Container) : outcome unit :=
  let? _ := ValidateOpaURLEnvVar pod securityConfig in
  let? _ := ValidateOpaBundleVolume pod securityConfig in
  ValidateOpaInitContainer pod sidecarContainer.
End Sidecars.

(** ** What a mutation may change *)

(** The same container with variables appended to its environment. *)
Definition env_grown (c c' : Container) : Prop :=
  ∃ l, c' = ctr_with_env c (ctr_Env c ++ l).

(** The same pod with init containers, volumes and variables appended. *)
Definition grown (pod pod' : Pod) : Prop :=
  pod_Meta pod' = pod_Meta pod ∧ pod_Other pod' = pod_Other pod ∧
  pod_InitContainers pod `prefix_of` pod_InitContainers pod' ∧
  Forall2 env_grown (pod_Containers pod) (pod_Containers pod') ∧
  pod_Volumes pod `prefix_of` pod_Volumes pod'.

(** Nothing in the pod has the name or a port of [c]. *)
Definition no_collision (pod : Pod) (c : Container) : Prop :=
  (∀ c', c' ∈ all_containers pod → ctr_Name c' ≠ ctr_Name c) ∧
  (∀ c' p p', c' ∈ all_containers pod → p ∈ ctr_Ports c' → p' ∈ ctr_Ports c →
     cport_ContainerPort p ≠ cport_ContainerPort p').

(** [l1] has no container of that name: the container after it is the first. *)
Definition no_app (app : string) (l : list Container) : Prop :=
  ∀ c, c ∈ l → ctr_Name c ≠ app.

(** The first container called [app] got the variable, which it did not have; without
    such a container nothing changed. *)
Inductive env_added (app name value : string) : list Container → list Container → Prop :=
| env_nowhere l : no_app app l → env_added app name value l l
| env_first l1 c l2 : no_app app l1 → ctr_Name c = app →
    (∀ e, e ∈ ctr_Env c → env_Name e ≠ name) →
    env_added app name value (l1 ++ c :: l2)
      (l1 ++ ctr_with_env c (ctr_Env c ++ [env_var name value]) :: l2).

(** What the validations look for. *)
Definition has_init (pod : Pod) (c : Container) : Prop :=
  List.find (λ c', bool_decide (ctr_Name c' = ctr_Name c)) (pod_InitContainers pod) = Some c.
Definition has_url (pod : Pod) (app name value : string) : Prop :=
  ∃ l1 c l2 e, pod_Containers pod = l1 ++ c :: l2 ∧ no_app app l1 ∧ ctr_Name c = app ∧
    List.find (λ e, bool_decide (env_Name e = name)) (ctr_Env c) = Some e ∧
    env_Value e = value.
Definition has_volume (pod : Pod) (v : Volume) : Prop :=
  List.find (λ v', bool_decide (vol_Name v' = vol_Name v)) (pod_Volumes pod) = Some v.

Definition has_app (pod : Pod) (app : string) : Prop :=
  ∃ c, c ∈ pod_Containers pod ∧ ctr_Name c = app.

(** ** Lemmas on lists *)

Lemma find_app_l {A : Type} (f : A → bool) l1 l2 a :
  List.find f l1 = Some a → List.find f (l1 ++ l2) = Some a.
Proof. induction l1 as [|b l1 IH]; simpl; [done|]. by destruct (f b). Qed.

Lemma find_app_r {A : Type} (f : A → bool) l1 l2 :
  (∀ x, x ∈ l1 → f x = false) → List.find f (l1 ++ l2) = List.find f l2.
Proof.
  induction l1 as [|b l1 IH]; simpl; [done|]. intros Hl.
  rewrite (Hl b) by set_solver. apply IH. set_solver.
Qed.

Lemma find_prefix {A : Type} (f : A → bool) l l' a :
  l `prefix_of` l' → List.find f l = Some a → List.find f l' = Some a.
Proof. intros [k ->]. apply find_app_l. Qed.

Lemma find_none {A : Type} (f : A → bool) l :
  List.find f l = None ↔ ∀ x, x ∈ l → f x = false.
Proof.
  induction l as [|b l IH]; simpl; [set_solver|]. destruct (f b) eqn:Hb.
  - split; [done|]. intros Hl. rewrite Hl in Hb by set_solver. done.
  - rewrite IH. set_solver.
Qed.

Lemma existsb_name_false {A : Type} (get : A → string) n l :
  existsb (λ x, bool_decide (get x = n)) l = false ↔ ∀ x, x ∈ l → get x ≠ n.
Proof.
  rewrite existsb_false_forall. split; intros Hl x Hx; specialize (Hl x Hx).
  - by apply bool_decide_eq_false in Hl.
  - by apply bool_decide_eq_false.
Qed.

(** ** The order [grown] *)

#[global] Instance env_grown_preorder : PreOrder env_grown.
Proof.
  split.
  - intros c. exists []. rewrite app_nil_r. by destruct c.
  - intros c c' c'' [l ->] [l' ->]. exists (l ++ l'). simpl. rewrite app_assoc. by destruct c.
Qed.

#[global] Instance grown_preorder : PreOrder grown.
Proof.
  split.
  - intros pod. by split_and!.
  - intros p1 p2 p3 (Hm & Ho & Hi & Hc & Hv) (Hm' & Ho' & Hi' & Hc' & Hv').
    split_and!; try congruence; by etrans.
Qed.

Lemma grown_init pod l : grown pod (pod_with_init pod (pod_InitContainers pod ++ l)).
Proof. split_and!; simpl; try done. by exists l. Qed.

Lemma grown_volumes pod l : grown pod (pod_with_volumes pod (pod_Volumes pod ++ l)).
Proof. split_and!; simpl; try done. by exists l. Qed.

Lemma env_grown_name c c' : env_grown c c' → ctr_Name c' = ctr_Name c.
Proof. by intros [l ->]. Qed.

Lemma grown_names pod pod' :
  grown pod pod' → map ctr_Name (pod_Containers pod') = map ctr_Name (pod_Containers pod).
Proof.
  intros (_ & _ & _ & Hc & _). induction Hc as [|c c' l l' Hg _ IH]; simpl; [done|].
  by rewrite (env_grown_name _ _ Hg), IH.
Qed.

Lemma has_init_grown pod pod' c : grown pod pod' → has_init pod c → has_init pod' c.
Proof. intros (_ & _ & Hi & _) Hf. by eapply find_prefix. Qed.

Lemma has_volume_grown pod pod' v : grown pod pod' → has_volume pod v → has_volume pod' v.
Proof. intros (_ & _ & _ & _ & Hv) Hf. by eapply find_prefix. Qed.

Lemma no_app_grown app l l' : Forall2 env_grown l l' → no_app app l → no_app app l'.
Proof.
  intros Hg Hn c' Hc'. apply list_elem_of_lookup in Hc' as [i Hi].
  destruct (Forall2_lookup_r _ _ _ _ _ Hg Hi) as (c & Hc & Hcg).
  rewrite (env_grown_name _ _ Hcg). apply Hn. by eapply list_elem_of_lookup_2.
Qed.

Lemma has_url_grown pod pod' app name value :
  grown pod pod' → has_url pod app name value → has_url pod' app name value.
Proof.
  intros (_ & _ & _ & Hc & _) (l1 & c & l2 & e & Heq & Hn & Hc1 & He & Hv).
  rewrite Heq in Hc. apply Forall2_app_inv_l in Hc as (l1' & lr & H1 & Hr & Hl).
  apply Forall2_cons_inv_l in Hr as (c' & l2' & Hg & H2 & ->).
  exists l1', c', l2', e. split_and!; auto.
  - by eapply no_app_grown.
  - by rewrite (env_grown_name _ _ Hg).
  - destruct Hg as [k ->]. simpl. by apply find_app_l.
Qed.

Lemma has_app_grown pod pod' app : grown pod pod' → has_app pod' app ↔ has_app pod app.
Proof.
  intros Hg. apply grown_names in Hg. unfold has_app.
  assert (∀ l, (∃ c, c ∈ l ∧ ctr_Name c = app) ↔ app ∈ map ctr_Name l) as Hl.
  { intros l. rewrite list_elem_of_fmap. naive_solver. }
  by rewrite !Hl, Hg.
Qed.

(** ** The parts of a mutation *)

Lemma EnsureUnusedContainerName_Ok pod c :
  EnsureUnusedContainerName pod c = Ok tt ↔
  ∀ c', c' ∈ all_containers pod → ctr_Name c' ≠ ctr_Name c.
Proof.
  unfold EnsureUnusedContainerName. rewrite <-existsb_name_false.
  by destruct (existsb _ _).
Qed.

Lemma EnsureUnusedContainerPorts_Ok pod c :
  EnsureUnusedContainerPorts pod c = Ok tt ↔
  ∀ c' p p', c' ∈ all_containers pod → p ∈ ctr_Ports c' → p' ∈ ctr_Ports c →
    cport_ContainerPort p ≠ cport_ContainerPort p'.
Proof.
  unfold EnsureUnusedContainerPorts. set (f := λ p, bool_decide _).
  set (ports := map cport_ContainerPort _).
  assert (List.find f ports = None ↔ ∀ c' p p', c' ∈ all_containers pod → p ∈ ctr_Ports c' →
            p' ∈ ctr_Ports c → cport_ContainerPort p ≠ cport_ContainerPort p') as <-.
  { rewrite find_none. unfold f, ports. setoid_rewrite bool_decide_eq_false.
    setoid_rewrite list_elem_of_fmap. setoid_rewrite list_elem_of_In.
    setoid_rewrite in_concat. setoid_rewrite in_map_iff. setoid_rewrite <-list_elem_of_In.
    split.
    - intros Hall c' p p' Hc Hp Hp' Heq. eapply (Hall (cport_ContainerPort p)); eauto 10.
    - intros Hall x (p & -> & l & (c' & <- & Hc) & Hp) (p' & Heq & Hp').
      by eapply (Hall c' p p'). }
  by destruct (List.find f ports).
Qed.

Lemma add_init_container_Ok pod c pod' :
  add_init_container pod c = (Ok tt, pod') ↔
  no_collision pod c ∧ pod' = pod_with_init pod (pod_InitContainers pod ++ [c]).
Proof.
  unfold no_collision. rewrite <-EnsureUnusedContainerName_Ok, <-EnsureUnusedContainerPorts_Ok.
  unfold add_init_container, EnsureUnusedContainerName, EnsureUnusedContainerPorts.
  destruct (existsb _ _); simpl; [naive_solver|].
  destruct (List.find _ _); simpl; naive_solver.
Qed.

Lemma add_init_container_grown pod c : grown pod (add_init_container pod c).2.
Proof. unfold add_init_container. case_match; simpl; try done. apply grown_init. Qed.

Lemma add_env_Ok l app name value l' :
  add_env l app name value = Ok l' ↔ env_added app name value l l'.
Proof.
  split.
  - revert l'. induction l as [|c l IH]; intros l'; simpl.
    { intros [= <-]. constructor. by intros c ?%elem_of_nil. }
    case_bool_decide as Hc.
    + unfold EnsureUnusedEnvVar. destruct (existsb _ _) eqn:He; simpl; [done|].
      intros [= <-]. apply (env_first app name value []); [by intros ? ?%elem_of_nil|done|].
      by apply existsb_name_false.
    + destruct (add_env l app name value) as [l2| |] eqn:Hl; simpl; try done.
      intros [= <-]. destruct (IH _ eq_refl) as [l Hn|l1 c1 l2 Hn Hc1 He].
      * constructor. intros x [->|Hx]%elem_of_cons; auto.
      * apply (env_first app name value (c :: l1)); auto.
        intros x [->|Hx]%elem_of_cons; auto.
  - intros [l0 Hn|l1 c l2 Hn Hc He].
    + induction l0 as [|c l0 IH]; simpl; [done|].
      rewrite bool_decide_false by (apply Hn; set_solver).
      rewrite IH; [done|]. intros x Hx. apply Hn. set_solver.
    + induction l1 as [|c1 l1 IH]; simpl.
      * rewrite bool_decide_true by done. unfold EnsureUnusedEnvVar.
        by rewrite (proj2 (existsb_name_false _ _ _) He).
      * rewrite bool_decide_false by (apply Hn; set_solver).
        rewrite IH; [done|]. intros x Hx. apply Hn. set_solver.
Qed.

Lemma env_added_grown app name value l l' :
  env_added app name value l l' → Forall2 env_grown l l'.
Proof.
  destruct 1; [reflexivity|].
  apply Forall2_app; [reflexivity|]. constructor; [by eexists|reflexivity].
Qed.

Lemma add_url_env_Ok pod app name value pod' :
  add_url_env pod app name value = (Ok tt, pod') ↔
  ∃ l, env_added app name value (pod_Containers pod) l ∧ pod' = pod_with_containers pod l.
Proof.
  unfold add_url_env. setoid_rewrite <-add_env_Ok.
  destruct (add_env _ _ _ _); naive_solver.
Qed.

Lemma add_url_env_grown pod app name value : grown pod (add_url_env pod app name value).2.
Proof.
  unfold add_url_env. destruct (add_env _ _ _ _) as [l| |] eqn:Hl; simpl; try done.
  apply add_env_Ok, env_added_grown in Hl. by split_and!.
Qed.

Lemma then_mutate_Ok prefix r next pod' :
  then_mutate prefix r next = (Ok tt, pod') ↔
  ∃ pod, r = (Ok tt, pod) ∧ next pod = (Ok tt, pod').
Proof. destruct r as [[[]|e|w] p]; simpl; naive_solver. Qed.

Lemma then_mutate_grown prefix r next pod :
  grown pod r.2 → (∀ p, grown pod p → grown pod (next p).2) →
  grown pod (then_mutate prefix r next).2.
Proof. destruct r as [[[]|e|w] p]; simpl; auto. Qed.

(** The variable that was added is found first, in the first container of that name. *)
Lemma env_added_url pod app name value l :
  env_added app name value (pod_Containers pod) l → has_app pod app →
  has_url (pod_with_containers pod l) app name value.
Proof.
  intros Ha (c0 & Hc0 & Hn0). destruct Ha as [l0 Hn|l1 c l2 Hn Hc He].
  - by destruct (Hn _ Hc0).
  - exists l1, (ctr_with_env c (ctr_Env c ++ [env_var name value])), l2, (env_var name value).
    split_and!; try done. simpl. rewrite find_app_r; simpl.
    + by rewrite bool_decide_true.
    + intros e Hi. apply bool_decide_eq_false. auto.
Qed.

Lemma no_collision_init pod c :
  no_collision pod c →
  has_init (pod_with_init pod (pod_InitContainers pod ++ [c])) c.
Proof.
  intros [Hn _]. unfold has_init. simpl. rewrite find_app_r; simpl.
  - by rewrite bool_decide_true.
  - intros c' Hc'. apply bool_decide_eq_false, Hn. unfold all_containers. set_solver.
Qed.

(** ** The mutations and the validations *)

(** The variable of a service in the application's container. *)
Definition app_of (sc : SecurityConfig) : string := spec_ApplicationRef (sc_Spec sc).

(** What adding the volume with the bundles does to the volumes. *)
Definition volume_added (sc : SecurityConfig) (l l' : list Volume) : Prop :=
  if enabled opa_Enabled (spec_Opa (sc_Spec sc)) then
    ∃ source, st_OpaBundleSource (sc_Status sc) = Some source ∧
      (∀ v, v ∈ l → vol_Name v ≠ OpaBundleVolumeName) ∧
      l' = l ++ [GetOpaBundleVolume (obs_ConfigMapName source)]
  else l' = l.

Section MutationFacts.
Context `{Globals} `{Lib}.

Lemma volume_Ok pod sc pod' :
  MutatePodWithOpaBundleVolume pod sc = (Ok tt, pod') ↔
  ∃ l, volume_added sc (pod_Volumes pod) l ∧ pod' = pod_with_volumes pod l.
Proof.
  unfold MutatePodWithOpaBundleVolume, volume_added.
  destruct (enabled _ _); simpl.
  2:{ split; [intros [= <-]; exists (pod_Volumes pod); by destruct pod|].
      intros (l & -> & ->). by destruct pod. }
  setoid_rewrite <-(existsb_name_false vol_Name).
  destruct (existsb _ _) eqn:He; simpl; [naive_solver|].
  destruct (st_OpaBundleSource (sc_Status sc)); simpl; naive_solver.
Qed.

Lemma volume_grown pod sc : grown pod (MutatePodWithOpaBundleVolume pod sc).2.
Proof.
  unfold MutatePodWithOpaBundleVolume. destruct (negb _); [done|].
  destruct (existsb _ _); [done|].
  destruct (deref _); simpl; [apply grown_volumes|done|done].
Qed.

Lemma MutateTexasOnPod_grown pod sc : grown pod (MutateTexasOnPod pod sc).2.
Proof.
  unfold MutateTexasOnPod. destruct (GetTexasContainer sc); simpl; [|done|done].
  apply then_mutate_grown; [apply add_init_container_grown|]. intros p Hp.
  apply then_mutate_grown; [etrans; [exact Hp|apply add_url_env_grown]|by intros].
Qed.

Lemma MutateOpaOnPod_grown pod sc : grown pod (MutateOpaOnPod pod sc).2.
Proof.
  unfold MutateOpaOnPod. destruct (GetOpaContainer sc); simpl; [|done|done].
  apply then_mutate_grown; [apply add_init_container_grown|]. intros p Hp.
  apply then_mutate_grown; [etrans; [exact Hp|apply add_url_env_grown]|]. intros p' Hp'.
  apply then_mutate_grown; [etrans; [exact Hp'|apply volume_grown]|by intros].
Qed.

(** The whole effect of a successful mutation, and when it succeeds. *)
Lemma texas_effect pod sc c pod' :
  GetTexasContainer sc = Ok c →
  MutateTexasOnPod pod sc = (Ok tt, pod') ↔
  no_collision pod c ∧
  ∃ l, env_added (app_of sc) (cfg_TexasUrlEnvVarName Get) GetTexasUrlEnvVarValue
         (pod_Containers pod) l ∧
       pod' = pod_with_containers (pod_with_init pod (pod_InitContainers pod ++ [c])) l.
Proof.
  intros Hc. unfold MutateTexasOnPod. rewrite Hc, then_mutate_Ok.
  setoid_rewrite then_mutate_Ok.
  unfold MutatePodWithTexasInitContainer, MutatePodWithTexasURLEnvVar.
  setoid_rewrite add_init_container_Ok. setoid_rewrite add_url_env_Ok. split.
  - intros (p1 & [Hn ->] & p2 & (l & Hl & ->) & [= <-]). eauto.
  - intros (Hn & l & Hl & ->). eauto 10.
Qed.

Lemma opa_effect pod sc c pod' :
  GetOpaContainer sc = Ok c →
  MutateOpaOnPod pod sc = (Ok tt, pod') ↔
  no_collision pod c ∧
  ∃ l vs, env_added (app_of sc) (cfg_OpaUrlEnvVarName Get) GetOpaUrlEnvVarValue
            (pod_Containers pod) l ∧
          volume_added sc (pod_Volumes pod) vs ∧
          pod' = pod_with_volumes (pod_with_containers
                   (pod_with_init pod (pod_InitContainers pod ++ [c])) l) vs.
Proof.
  intros Hc. unfold MutateOpaOnPod. rewrite Hc, then_mutate_Ok.
  setoid_rewrite then_mutate_Ok. setoid_rewrite then_mutate_Ok.
  unfold MutatePodWithOpaInitContainer, MutatePodWithOpaURLEnvVar.
  setoid_rewrite add_init_container_Ok. setoid_rewrite add_url_env_Ok.
  setoid_rewrite volume_Ok. split.
  - intros (p1 & [Hn ->] & p2 & (l & Hl & ->) & p3 & (vs & Hvs & ->) & [= <-]). eauto 10.
  - intros (Hn & l & vs & Hl & Hvs & ->). eauto 20.
Qed.

(** A sidecar's probe is accepted against itself. *)
Lemma sidecar_probe name path port :
  AssertContainerProbe name (Some (readiness_probe path port))
    (Some (readiness_probe path port)) = true.
Proof.
  unfold AssertContainerProbe, differs. simpl. by repeat case_bool_decide.
Qed.

Lemma texas_self_equal sc c : GetTexasContainer sc = Ok c → IsTexasContainerEqual c c = true.
Proof.
  unfold GetTexasContainer. intros (e & _ & (r & _ & [= <-])%outcome_bind_Ok)%outcome_bind_Ok.
  unfold IsTexasContainerEqual. simpl ctr_ReadinessProbe. rewrite sidecar_probe.
  by rewrite !bool_decide_true.
Qed.

Lemma mounts_refl l : isVolumeMountsEqual l l = true.
Proof.
  apply forallb_forall. intros v Hv. apply existsb_exists.
  exists v. split; [done|]. by rewrite !bool_decide_true.
Qed.

Lemma opa_self_equal sc c : GetOpaContainer sc = Ok c → IsOpaContainerEqual c c = true.
Proof.
  unfold GetOpaContainer. intros (r & _ & (p & _ & [= <-])%outcome_bind_Ok)%outcome_bind_Ok.
  unfold IsOpaContainerEqual. simpl ctr_ReadinessProbe. rewrite sidecar_probe, mounts_refl.
  by rewrite !bool_decide_true.
Qed.

Lemma texas_container_name sc c : GetTexasContainer sc = Ok c → ctr_Name c = TexasInitContainerName.
Proof.
  unfold GetTexasContainer.
  by intros (e & _ & (r & _ & [= <-])%outcome_bind_Ok)%outcome_bind_Ok.
Qed.

Lemma opa_container_name sc c : GetOpaContainer sc = Ok c → ctr_Name c = OpaInitContainerName.
Proof.
  unfold GetOpaContainer.
  by intros (e & _ & (r & _ & [= <-])%outcome_bind_Ok)%outcome_bind_Ok.
Qed.

(** What the mutations leave behind is what the validations look for, also when more was
    appended since. *)
Lemma texas_valid pod sc c pod' pod'' :
  GetTexasContainer sc = Ok c → MutateTexasOnPod pod sc = (Ok tt, pod') → grown pod' pod'' →
  has_app pod (app_of sc) → ValidateTexasOnPod pod'' sc c = Ok tt.
Proof.
  intros Hc (Hn & l & Hl & ->)%(texas_effect _ _ _ _ Hc) Hg Happ.
  assert (has_init pod'' c) as Hi.
  { eapply has_init_grown; [exact Hg|]. apply (no_collision_init _ _ Hn). }
  assert (has_url pod'' (app_of sc) (cfg_TexasUrlEnvVarName Get) GetTexasUrlEnvVarValue)
    as (l1 & c1 & l2 & e & Heq & Hno & Hc1 & He & Hv).
  { eapply has_url_grown; [exact Hg|].
    by apply (env_added_url (pod_with_init pod (pod_InitContainers pod ++ [c]))). }
  unfold ValidateTexasOnPod, ValidateTexasURLEnvVar, ValidateTexasInitContainer.
  fold (app_of sc). rewrite Heq, find_app_r by (intros; apply bool_decide_eq_false; auto).
  simpl. rewrite bool_decide_true by done.
  apply find_some in He as [Hin Hen]. apply bool_decide_eq_true in Hen.
  destruct (existsb _ _) eqn:Hex.
  2:{ rewrite existsb_false_forall in Hex. specialize (Hex e (proj2 (list_elem_of_In _ _) Hin)).
      simpl in Hex. by rewrite Hen, Hv, !bool_decide_true in Hex. }
  simpl. unfold has_init in Hi. rewrite (texas_container_name _ _ Hc) in Hi.
  by rewrite Hi, (texas_self_equal _ _ Hc).
Qed.

Lemma opa_valid pod sc c pod' pod'' :
  GetOpaContainer sc = Ok c → MutateOpaOnPod pod sc = (Ok tt, pod') → grown pod' pod'' →
  has_app pod (app_of sc) → ValidateOpaOnPod pod'' sc c = Ok tt.
Proof.
  intros Hc (Hn & l & vs & Hl & Hvs & ->)%(opa_effect _ _ _ _ Hc) Hg Happ.
  assert (has_init pod'' c) as Hi.
  { eapply has_init_grown; [exact Hg|]. apply (no_collision_init _ _ Hn). }
  assert (has_url pod'' (app_of sc) (cfg_OpaUrlEnvVarName Get) GetOpaUrlEnvVarValue)
    as (l1 & c1 & l2 & e & Heq & Hno & Hc1 & He & Hv).
  { eapply has_url_grown; [exact Hg|].
    by apply (env_added_url (pod_with_init pod (pod_InitContainers pod ++ [c]))). }
  unfold ValidateOpaOnPod, ValidateOpaURLEnvVar. fold (app_of sc).
  rewrite Heq, List.filter_app. simpl. rewrite bool_decide_true by done.
  replace (List.filter _ l1) with (@nil Container).
  2:{ symmetry. clear -Hno. induction l1 as [|x l1 IH]; simpl; [done|].
      rewrite bool_decide_false by (apply Hno; set_solver). apply IH.
      intros y Hy. apply Hno. set_solver. }
  simpl. rewrite (find_app_l _ _ _ _ He), Hv, bool_decide_true by done. simpl.
  assert (ValidateOpaBundleVolume pod'' sc = Ok tt) as ->.
  { unfold ValidateOpaBundleVolume. unfold volume_added in Hvs.
    destruct (enabled _ _); simpl; [|done]. destruct Hvs as (source & -> & Hno' & ->). simpl.
    assert (has_volume pod'' (GetOpaBundleVolume (obs_ConfigMapName source))) as Hv'.
    { eapply has_volume_grown; [exact Hg|]. unfold has_volume. simpl.
      rewrite find_app_r; simpl; [done|].
      intros v Hv'. by apply bool_decide_eq_false, Hno'. }
    unfold has_volume in Hv'. simpl in Hv'. by rewrite Hv', bool_decide_true. }
  simpl. unfold ValidateOpaInitContainer. unfold has_init in Hi.
  rewrite (opa_container_name _ _ Hc) in Hi. by rewrite Hi, (opa_self_equal _ _ Hc).
Qed.
End MutationFacts.

(** ** Properties *)

Section Properties.
Context `{Globals} `{Lib}.

(** Adding Texas to a pod succeeds exactly when no container of the pod has the name
    or a port of the sidecar and the application's container does not have the variable
    yet; and then the sidecar is the last init container, the first container named
    after the application has the variable, and nothing else changed. *)
Theorem MutateTexasOnPod_spec pod sc c pod' :
  GetTexasContainer sc = Ok c →
  MutateTexasOnPod pod sc = (Ok tt, pod') ↔
  no_collision pod c ∧ pod_InitContainers pod' = pod_InitContainers pod ++ [c] ∧
  env_added (app_of sc) (cfg_TexasUrlEnvVarName Get) GetTexasUrlEnvVarValue
    (pod_Containers pod) (pod_Containers pod') ∧
  pod_Meta pod' = pod_Meta pod ∧ pod_Volumes pod' = pod_Volumes pod ∧
  pod_Other pod' = pod_Other pod.
Proof.
  intros Hc. rewrite (texas_effect _ _ _ _ Hc). split.
  - by intros (Hn & l & Hl & ->).
  - intros (Hn & Hi & Hl & Hm & Hv & Ho). split; [done|]. exists (pod_Containers pod').
    split; [done|]. destruct pod'; simpl in *; by simplify_eq.
Qed.

(** C34: the same for OPA, which also gets the volume with the bundles when it is enabled:
    the pod must not have a volume of that name, and the volume is the ConfigMap that the
    status names. *)
Theorem MutateOpaOnPod_spec pod sc c pod' :
  GetOpaContainer sc = Ok c →
  MutateOpaOnPod pod sc = (Ok tt, pod') ↔
  no_collision pod c ∧ pod_InitContainers pod' = pod_InitContainers pod ++ [c] ∧
  env_added (app_of sc) (cfg_OpaUrlEnvVarName Get) GetOpaUrlEnvVarValue
    (pod_Containers pod) (pod_Containers pod') ∧
  volume_added sc (pod_Volumes pod) (pod_Volumes pod') ∧
  pod_Meta pod' = pod_Meta pod ∧ pod_Other pod' = pod_Other pod.
Proof.
  intros Hc. rewrite (opa_effect _ _ _ _ Hc). split.
  - by intros (Hn & l & vs & Hl & Hvs & ->).
  - intros (Hn & Hi & Hl & Hv & Hm & Ho). split; [done|].
    exists (pod_Containers pod'), (pod_Volumes pod').
    do 2 (split; [done|]). destruct pod'; simpl in *; by simplify_eq.
Qed.

(** C35: the OPA container is built unless OPA is enabled and the status does not name the
    bundles yet: then the nil pointer is dereferenced.  A container that is built for an
    enabled OPA mounts the bundles and loads each of those the status names. *)
Theorem GetOpaContainer_cases sc resources :
  OpaResources = Ok resources →
  match spec_Opa (sc_Spec sc), st_OpaBundleSource (sc_Status sc) with
  | Some opa, None =>
      if opa_Enabled opa
      then GetOpaContainer sc = Panic "invalid memory address or nil pointer dereference"
      else ∃ c, GetOpaContainer sc = Ok c ∧ ctr_VolumeMounts c = []
  | Some opa, Some source =>
      ∃ c, GetOpaContainer sc = Ok c ∧
        (opa_Enabled opa = true →
         (∀ b, b ∈ obs_BundleNames source → "/bundles/" +:+ b ∈ ctr_Args c) ∧
         ∃ v, v ∈ ctr_VolumeMounts c ∧ vm_Name v = OpaBundleVolumeName ∧ vm_ReadOnly v = true)
  | None, _ => ∃ c, GetOpaContainer sc = Ok c ∧ ctr_VolumeMounts c = []
  end.
Proof.
  intros Hr. unfold GetOpaContainer, opa_enabled_parts. rewrite Hr. simpl outcome_bind.
  destruct (spec_Opa (sc_Spec sc)) as [opa|]; [|eexists; by split].
  destruct (opa_Enabled opa) eqn:He; destruct (st_OpaBundleSource (sc_Status sc)) as [source|];
    simpl outcome_bind; [|done|eexists; by split|eexists; by split].
  eexists. split; [reflexivity|]. intros _. split.
  - intros b Hb. simpl. do 3 right. apply elem_of_app. left. apply list_elem_of_In, in_concat.
    exists ["--bundle"; "/bundles/" +:+ b]. split; [|right; by left].
    apply in_map_iff. exists b. split; [done|]. by apply list_elem_of_In.
  - eexists. split; [by left|]. done.
Qed.

(** The SecurityConfig of an application is the one listed SecurityConfig of the pod's
    namespace that refers to it, and it is ready: none, several, or one that is not ready
    are errors. *)
Theorem GetSecurityConfigForApplication_spec appKey h r :
  steps (GetSecurityConfigForApplication appKey) h (Ret r) →
  ∃ reply, h = [Ev (OpListSecurityConfigs appKey.1) reply] ∧
    match reply, r with
    | Ok items, Ok sc =>
        sc ∈ items ∧ app_of sc = appKey.2 ∧ st_Ready (sc_Status sc) = true ∧
        List.filter (λ sc, bool_decide (app_of sc = appKey.2)) items = [sc]
    | Ok items, Err _ =>
        ∀ sc, List.filter (λ sc, bool_decide (app_of sc = appKey.2)) items = [sc] →
              st_Ready (sc_Status sc) = false
    | Err _, Err _ | Panic _, Panic _ => True
    | _, _ => False
    end.
Proof.
  unfold GetSecurityConfigForApplication, app_of.
  intros (reply & h' & -> & Hs)%steps_Vis_inv. exists reply.
  destruct reply as [items|e|w]; simpl in Hs; [|by apply steps_Ret_inv in Hs as [<- ->]..].
  assert (∀ sc, sc ∈ List.filter (λ sc, bool_decide (spec_ApplicationRef (sc_Spec sc) = appKey.2))
                       items → sc ∈ items ∧ spec_ApplicationRef (sc_Spec sc) = appKey.2) as Hm.
  { intros sc [Hin Hb]%list_elem_of_In%filter_In. apply bool_decide_eq_true in Hb.
    by apply list_elem_of_In in Hin. }
  destruct (List.filter _ items) as [|sc [|sc' m]]; [by apply steps_Ret_inv in Hs as [<- ->]| |
    by apply steps_Ret_inv in Hs as [<- ->]].
  destruct (st_Ready (sc_Status sc)) eqn:Hr; apply steps_Ret_inv in Hs as [<- ->]; split; try done.
  - destruct (Hm sc) as [Hin Ha]; [by left|]. by split_and!.
  - by intros ? [= <-].
Qed.
End Properties.

(** ** Concrete inputs *)

Definition sample_opa : OpenPolicyAgentSpec :=
  {| opa_Enabled := true;
     opa_BundleURLs := [{| bs_Name := "policy"; bs_URL := "ghcr.io/kartverket/policy:1";
                           bs_Verification := None |}];
     opa_RequestPolicy := None |}.

(** The sample with OPA enabled, and with the status that a reconciliation left. *)
Definition sample_ready_sc : SecurityConfig :=
  {| sc_Kind := "SecurityConfig"; sc_Meta := sample_meta;
     sc_Spec := {| spec_Tokenx := spec_Tokenx sample_spec; spec_Maskinporten := None;
                   spec_EntraID := None; spec_Idporten := None; spec_Ansattporten := None;
                   spec_Opa := Some sample_opa; spec_ApplicationRef := "app" |};
     sc_Status := st_with_phase (st_with_opa (st_with_jwker zero_status "app-jwker-secret")
                    (Some {| obs_ConfigMapName := "cfg-opa"; obs_BundleNames := ["policy"] |}))
                    PhaseReady "ready" true |}.

Definition sample_container (name : string) : Container :=
  {| ctr_Name := name; ctr_Image := "img"; ctr_Args := []; ctr_Env := []; ctr_EnvFrom := None;
     ctr_Ports := [tcp_port 8080 "main"]; ctr_Resources := {| rr_Requests := ∅; rr_Limits := ∅ |};
     ctr_RestartPolicy := None; ctr_SecurityContext := None; ctr_VolumeMounts := [];
     ctr_ReadinessProbe := None; ctr_TerminationMessagePath := "";
     ctr_TerminationMessagePolicy := ""; ctr_Other := VNull |}.

(** A pod of the application that asks for both services. *)
Definition sample_pod : Pod :=
  {| pod_Meta := {| m_Name := ""; m_GenerateName := "app-"; m_Namespace := "team"; m_UID := "";
       m_ResourceVersion := ""; m_Generation := 0; m_DeletionTimestamp := None;
       m_Labels := Some {[SkiperatorApplicationRefLabel := "app"]};
       m_Annotations := Some {["accesserator.kartverket.no/services" := "Texas, opa"]};
       m_OwnerReferences := [] |};
     pod_InitContainers := []; pod_Containers := [sample_container "app"]; pod_Volumes := [];
     pod_Other := VNull |}.

Definition sample_texas : Container :=
  match GetTexasContainer sample_ready_sc with Ok c => c | _ => CommonInitContainer end.
Definition sample_opa_container : Container :=
  match GetOpaContainer sample_ready_sc with Ok c => c | _ => CommonInitContainer end.

Lemma sample_texas_built : GetTexasContainer sample_ready_sc = Ok sample_texas.
Proof. vm_compute. reflexivity. Qed.

Lemma sample_opa_built : GetOpaContainer sample_ready_sc = Ok sample_opa_container.
Proof. vm_compute. reflexivity. Qed.

Lemma MutateTexasOnPod_spec_witness :
  no_collision sample_pod sample_texas ∧
  map ctr_Name (pod_InitContainers (MutateTexasOnPod sample_pod sample_ready_sc).2) = ["texas"].
Proof.
  destruct (MutateTexasOnPod_spec sample_pod sample_ready_sc sample_texas
              (MutateTexasOnPod sample_pod sample_ready_sc).2 sample_texas_built) as [Hs _].
  destruct Hs as [Hn _]; [by vm_compute|]. split; [exact Hn|by vm_compute].
Defined.

Lemma MutateOpaOnPod_spec_witness :
  no_collision sample_pod sample_opa_container ∧
  map vol_Name (pod_Volumes (MutateOpaOnPod sample_pod sample_ready_sc).2) = ["opa-bundles"].
Proof.
  destruct (MutateOpaOnPod_spec sample_pod sample_ready_sc sample_opa_container
              (MutateOpaOnPod sample_pod sample_ready_sc).2 sample_opa_built) as [Hs _].
  destruct Hs as [Hn _]; [by vm_compute|]. split; [exact Hn|by vm_compute].
Defined.

Lemma sample_opa_resources : ∃ r, OpaResources = Ok r.
Proof. eexists. vm_compute. reflexivity. Qed.

(** The same SecurityConfig before its status names the bundles. *)
Lemma GetOpaContainer_cases_witness :
  GetOpaContainer (sc_with_status sample_ready_sc zero_status) =
    Panic "invalid memory address or nil pointer dereference".
Proof.
  destruct sample_opa_resources as [r Hr].
  apply (GetOpaContainer_cases (sc_with_status sample_ready_sc zero_status) r Hr).
Defined.

Lemma GetSecurityConfigForApplication_spec_witness :
  List.filter (λ sc, bool_decide (app_of sc = "app")) [sample_sc; sample_ready_sc] ≠ [sample_ready_sc] ∧
  app_of sample_ready_sc = "app".
Proof.
  destruct (GetSecurityConfigForApplication_spec ("team", "app")
              [Ev (OpListSecurityConfigs "team") (Ok [sample_ready_sc])] (Ok sample_ready_sc))
    as (reply & Hh & Hr).
  - apply steps_op, steps_refl.
  - split; [by vm_compute|]. destruct reply as [items|e|w]; [|destruct Hr..].
    destruct Hr as (_ & Ha & _). exact Ha.
Defined.
