(* ===== verification/PodWebhook.v ===== *)
(** * Admission of pods: [internal/webhook/pods/pod_webhook.go]

    The mutating and the validating webhook of pods.  Both decide whether a pod is of
    interest, read the one ready SecurityConfig of its application, and apply the
    services that the pod asks for.  The theorems: what the mutation can change,
    that it is never reached by a pod that is not eligible, and that a pod that it
    changed is accepted by the validation. *)
From stdpp Require Import base gmap strings list.
From Stdlib Require Import ZArith Ascii Lia.
From S2P Require Import Prelude GoStrings Kube Api Model Cluster ProgTheory RefServer Config Naming State Utilities Reconciliation Generators Resources Samples Sidecars.
Open Scope go_scope.

Definition CreatedBySkipNamespaceLabel : string := "skip.kartverket.no/skip-managed".
Definition CreatedBySkipNamespaceLabelValue : string := "true".
Definition AccesseratorWebhookAnnotationPrefix : string := "accesserator.kartverket.no/".
Definition AccesseratorServicesAnnotation : string :=
  AccesseratorWebhookAnnotationPrefix +:+ "services".
Definition AccesseratorVerifyAnnotationKey : string :=
  AccesseratorWebhookAnnotationPrefix +:+ "verify-securityconfig".
Definition AccesseratorVerifyAnnotationValue : string := "true".

(** [ServiceType] is an [int] with two named values. *)
Inductive ServiceType := Texas | Opa | OtherService (n : Z).
#[global] Instance ServiceType_eq_dec : EqDecision ServiceType.
Proof. solve_decision. Defined.

(** [ServiceType.String]. *)
Definition ServiceType_String (serviceType : ServiceType) : string :=
  match serviceType with
  | Texas => TexasInitContainerName
  | Opa => OpaInitContainerName
  | OtherService _ => "unknown"
  end.

Record AccesseratorService := {
  svc_ServiceType : ServiceType;
  svc_Container : Container;
  svc_MutateFunc : Pod → SecurityConfig → outcome unit * Pod;
  svc_ValidateFunc : Pod → SecurityConfig → outcome unit;
}.

Record PodSecurityConfiguration := {
  psc_SecurityConfig : SecurityConfig;
  psc_AppName : string;
  psc_CreatedFromSkiperatorApplication : bool;
  psc_AccesseratorServices : list AccesseratorService;
}.

(** The zero value of a [SecurityConfig]. *)
Definition zero_sc : SecurityConfig :=
  {| sc_Kind := ""; sc_Meta := named_meta "" "";
     sc_Spec := {| spec_Tokenx := None; spec_Maskinporten := None; spec_EntraID := None;
                   spec_Idporten := None; spec_Ansattporten := None; spec_Opa := None;
                   spec_ApplicationRef := "" |};
     sc_Status := zero_status |}.

(** A pod that no SecurityConfig was read for. *)
Definition unresolved (appName : string) (fromSkiperator : bool) : PodSecurityConfiguration :=
  {| psc_SecurityConfig := zero_sc; psc_AppName := appName;
     psc_CreatedFromSkiperatorApplication := fromSkiperator; psc_AccesseratorServices := [] |}.

Definition unknown_service (s : string) : error :=
  ErrorString ("unknown service type '" +:+ s +:+ "'").

Section PodWebhook.
Context `{Globals} `{Lib}.

(** The loop of [ParseAccesseratorServices] over the parts of the annotation. *)
Fixpoint parse_services (parts : list string) (services : list ServiceType) :
    outcome (list ServiceType) :=
  match parts with
  | [] => Ok services
  | s :: rest =>
      let word := ToLower (TrimSpace s) in
      if bool_decide (word = ServiceType_String Texas) then
        if bool_decide (Texas ∈ services) then parse_services rest services
        else parse_services rest (services ++ [Texas])
      else if bool_decide (word = ServiceType_String Opa) then
        if bool_decide (Opa ∈ services) then parse_services rest services
        else if negb (cfg_OpaEnabled Get) then
          Err (ErrorString ("service '" +:+ ServiceType_String Opa +:+
                            "' is not enabled on this cluster"))
        else parse_services rest (services ++ [Opa])
      else Err (unknown_service s)
  end.

Definition ParseAccesseratorServices (annotationValue : string) : outcome (list ServiceType) :=
  parse_services (Split annotationValue ","%char) [].

Definition GetServiceContainer (st : ServiceType) (securityConfig : SecurityConfig) :
    outcome Container :=
  match st with
  | Texas => GetTexasContainer securityConfig
  | Opa => GetOpaContainer securityConfig
  | OtherService _ => Err (unknown_service (ServiceType_String st))
  end.

Definition GetServiceMutationFunc (st : ServiceType) :
    outcome (Pod → SecurityConfig → outcome unit * Pod) :=
  match st with
  | Texas => Ok MutateTexasOnPod
  | Opa => Ok MutateOpaOnPod
  | OtherService _ => Err (unknown_service (ServiceType_String st))
  end.

Definition GetServiceValidationFunc (st : ServiceType) (expectedSidecarContainer : Container) :
    outcome (Pod → SecurityConfig → outcome unit) :=
  match st with
  | Texas => Ok (λ pod securityConfig,
                   ValidateTexasOnPod pod securityConfig expectedSidecarContainer)
  | Opa => Ok (λ pod securityConfig,
                 ValidateOpaOnPod pod securityConfig expectedSidecarContainer)
  | OtherService _ => Err (unknown_service (ServiceType_String st))
  end.

Fixpoint BuildAccesseratorServices (serviceTypes : list ServiceType)
    (securityConfig : SecurityConfig) : outcome (list AccesseratorService) :=
  match serviceTypes with
  | [] => Ok []
  | serviceType :: rest =>
      let wrap what := wrapf ("failed to get " +:+ what +:+ " for service type " +:+
                              ServiceType_String serviceType +:+ ": ") in
      let? expectedContainer := on_err (wrap "expectedContainer")
                                  (GetServiceContainer serviceType securityConfig) in
      let? mutateFunc := on_err (wrap "mutation func") (GetServiceMutationFunc serviceType) in
      let? validateFunc := on_err (wrap "validation func")
                             (GetServiceValidationFunc serviceType expectedContainer) in
      let? services := BuildAccesseratorServices rest securityConfig in
      Ok ({| svc_ServiceType := serviceType; svc_Container := expectedContainer;
             svc_MutateFunc := mutateFunc; svc_ValidateFunc := validateFunc |} :: services)
  end.

(** [k8sClient] is an interface value; it is only compared with nil and called. *)
Definition GetPodSecurityConfiguration (hasClient : bool) (pod : Pod) :
    GoM PodSecurityConfiguration :=
  match pod_Meta pod with
  | {| m_Labels := None |} => Ret (Ok (unresolved "" false))
  | {| m_Labels := Some labels; m_Namespace := ns; m_Annotations := annotations |} =>
      match labels !! SkiperatorApplicationRefLabel with
      | None => Ret (Ok (unresolved "" false))
      | Some appName =>
          if negb hasClient then Ret (Err (ErrorString "webhook client is not configured"))
          else
            let verifyAnnotation := entries annotations !! AccesseratorVerifyAnnotationKey in
            let servicesAnnotation := entries annotations !! AccesseratorServicesAnnotation in
            let shouldFetchSecurityConfig :=
              bool_decide (verifyAnnotation = Some AccesseratorVerifyAnnotationValue) ||
              is_some servicesAnnotation in
            if negb shouldFetchSecurityConfig then Ret (Ok (unresolved appName true))
            else
              let! securityConfig := GetSecurityConfigForApplication (ns, appName) in
              let! serviceTypes :=
                lift (match servicesAnnotation with
                      | Some value => ParseAccesseratorServices value
                      | None => Ok []
                      end) in
              let! services :=
                lift (match serviceTypes with
                      | [] => Ok []
                      | _ => BuildAccesseratorServices serviceTypes securityConfig
                      end) in
              Ret (Ok {| psc_SecurityConfig := securityConfig; psc_AppName := appName;
                         psc_CreatedFromSkiperatorApplication := true;
                         psc_AccesseratorServices := services |})
      end
  end.

Definition IsWebhookEligible (hasClient : bool) (pod : Pod) : GoM (bool * string) :=
  let ref := pod_ref pod in
  let ns := m_Namespace (pod_Meta pod) in
  let no msg := Ret (Ok (false, msg)) in
  match m_Labels (pod_Meta pod) with
  | None => no ("pod " +:+ ref +:+ " has no labels")
  | Some labels =>
  match labels !! SkiperatorApplicationRefLabel with
  | None => no ("pod " +:+ ref +:+ " is not created from a Skiperator Application")
  | Some _ =>
  match m_Annotations (pod_Meta pod) with
  | None => no ("pod " +:+ ref +:+ " has no annotations")
  | Some annotations =>
  if negb (existsb (λ a, HasPrefix a AccesseratorWebhookAnnotationPrefix)
             (map fst (map_to_list annotations)))
  then no ("pod " +:+ ref +:+ " has no Accesserator webhook annotations")
  else if negb hasClient then
    Ret (Panic "invalid memory address or nil pointer dereference")
  else
    let* got := call (OpGet KNamespace ("", ns)) in
    match got with
    | Panic w => Ret (Panic w)
    | Err err =>
        if IsNotFound err then no ("namespace " +:+ ns +:+ " not found")
        else no ("failed to get namespace " +:+ ns +:+ ": " +:+ Error err)
    | Ok o =>
        match m_Labels (o_Meta o) with
        | None => no ("namespace " +:+ ns +:+ " has no labels")
        | Some nsLabels =>
        match nsLabels !! CreatedBySkipNamespaceLabel with
        | None => no ("namespace " +:+ ns +:+ " does not have the created by SKIP label")
        | Some value =>
            if negb (bool_decide (value = CreatedBySkipNamespaceLabelValue))
            then no ("namespace " +:+ ns +:+ " does have the created by SKIP label, but it's value is not "
                     +:+ CreatedBySkipNamespaceLabelValue)
            else Ret (Ok (true, ""))
        end end
    end
  end end end.

(** The loop of [Default] over the services: it stops at the first error. *)
Fixpoint mutate_services (services : list AccesseratorService) (sc : SecurityConfig)
    (pod : Pod) : outcome unit * Pod :=
  match services with
  | [] => (Ok tt, pod)
  | svc :: rest =>
      match svc_MutateFunc svc pod sc with
      | (Ok _, pod) => mutate_services rest sc pod
      | r => r
      end
  end.

(** [PodCustomDefaulter.Default]: the result and the pod as it is left. *)
Definition Default (hasClient : bool) (pod : Pod) : prog (outcome unit * Pod) :=
  let* eligible := IsWebhookEligible hasClient pod in
  match eligible with
  | Err e => Ret (Err e, pod)
  | Panic w => Ret (Panic w, pod)
  | Ok (isPodWebhookEligible, _) =>
      if negb isPodWebhookEligible then Ret (Ok tt, pod)
      else
        let* conf := GetPodSecurityConfiguration hasClient pod in
        match conf with
        | Err e => Ret (Err e, pod)
        | Panic w => Ret (Panic w, pod)
        | Ok conf =>
            if negb (psc_CreatedFromSkiperatorApplication conf) then Ret (Ok tt, pod)
            else Ret (mutate_services (psc_AccesseratorServices conf)
                        (psc_SecurityConfig conf) pod)
        end
  end.

(** The loop of [validatePod] over the services. *)
Fixpoint validate_services (services : list AccesseratorService) (sc : SecurityConfig)
    (pod : Pod) : outcome unit :=
  match services with
  | [] => Ok tt
  | svc :: rest => let? _ := svc_ValidateFunc svc pod sc in validate_services rest sc pod
  end.

(** The warnings are always nil. *)
Definition validatePod (hasClient : bool) (pod : Pod) : GoM unit :=
  let! eligible := IsWebhookEligible hasClient pod in
  if negb (eligible : bool * string).1 then Ret (Ok tt)
  else
    let! conf := GetPodSecurityConfiguration hasClient pod in
    if negb (psc_CreatedFromSkiperatorApplication conf) then Ret (Ok tt)
    else lift (validate_services (psc_AccesseratorServices conf) (psc_SecurityConfig conf) pod).

Definition ValidateCreate (hasClient : bool) (pod : Pod) : GoM unit := validatePod hasClient pod.
Definition ValidateUpdate (hasClient : bool) (_ newPod : Pod) : GoM unit :=
  validatePod hasClient newPod.
Definition ValidateDelete (pod : Pod) : GoM unit := Ret (Ok tt).
End PodWebhook.

(** ** Specifications *)

(** The service that a part of the annotation asks for. *)
Definition word (part : string) : string := ToLower (TrimSpace part).
Definition service_named (part : string) : option ServiceType :=
  if bool_decide (word part = "texas") then Some Texas
  else if bool_decide (word part = "opa") then Some Opa else None.

(** The calls the webhooks make: they read the pod's namespace and list the
    SecurityConfigs in it. *)
Definition webhook_read (pod : Pod) (op : Op) : Prop :=
  let ns := m_Namespace (pod_Meta pod) in
  match op with
  | OpGet k key => k = KNamespace ∧ key = ("", ns)
  | OpListSecurityConfigs ns' => ns' = ns
  | _ => False
  end.

(** The reply is a namespace that is labelled as managed. *)
Definition namespace_managed (e : event) : bool :=
  match e with
  | Ev op r =>
      match op return resp op → bool with
      | OpGet KNamespace key => λ r,
          match r with
          | Ok ns => bool_decide
              (entries (m_Labels (o_Meta ns)) !! CreatedBySkipNamespaceLabel = Some "true")
          | _ => false
          end
      | _ => λ _, false
      end r
  end.

(** The SecurityConfigs in the reply. *)
Definition listed (e : event) : list SecurityConfig :=
  match e with
  | Ev op r =>
      match op return resp op → list SecurityConfig with
      | OpListSecurityConfigs ns => λ r, match r with Ok items => items | _ => [] end
      | _ => λ _, []
      end r
  end.

(** The pod belongs to an application, asks for something, and the API server said
    that its namespace is managed. *)
Definition eligible (pod : Pod) (h : history) : Prop :=
  is_Some (entries (m_Labels (pod_Meta pod)) !! SkiperatorApplicationRefLabel) ∧
  (∃ a, is_Some (entries (m_Annotations (pod_Meta pod)) !! a) ∧
        HasPrefix a AccesseratorWebhookAnnotationPrefix = true) ∧
  existsb namespace_managed h = true.

(** [sc] is the one SecurityConfig that the list gave for the pod's application, and it is
    ready. *)
Definition found_for (pod : Pod) (h : history) (sc : SecurityConfig) : Prop :=
  ∃ e app, e ∈ h ∧
    entries (m_Labels (pod_Meta pod)) !! SkiperatorApplicationRefLabel = Some app ∧
    List.filter (λ sc, bool_decide (app_of sc = app)) (listed e) = [sc] ∧
    app_of sc = app ∧ st_Ready (sc_Status sc) = true.

Definition container_names (pod : Pod) : list string := map ctr_Name (all_containers pod).

Section WebhookFacts.
Context `{Globals} `{Lib}.

(** The value that [BuildAccesseratorServices] makes for a service. *)
Definition built_service (sc : SecurityConfig) (st : ServiceType) (svc : AccesseratorService) :
    Prop :=
  svc_ServiceType svc = st ∧ GetServiceContainer st sc = Ok (svc_Container svc) ∧
  GetServiceMutationFunc st = Ok (svc_MutateFunc svc) ∧
  GetServiceValidationFunc st (svc_Container svc) = Ok (svc_ValidateFunc svc).

Lemma build_services sc sts svcs :
  BuildAccesseratorServices sts sc = Ok svcs → Forall2 (built_service sc) sts svcs.
Proof.
  revert svcs. induction sts as [|st sts IH]; intros svcs; simpl; [by intros [= <-]|].
  intros (c & Hc & Hr)%outcome_bind_Ok. apply on_err_Ok in Hc.
  apply outcome_bind_Ok in Hr as (m & Hm & Hr). apply on_err_Ok in Hm.
  apply outcome_bind_Ok in Hr as (v & Hv & Hr). apply on_err_Ok in Hv.
  apply outcome_bind_Ok in Hr as (rest & Hrest & [= <-]).
  constructor; [by split_and!|by apply IH].
Qed.

(** ** Single services *)

Lemma built_grown sc st svc pod : built_service sc st svc → grown pod (svc_MutateFunc svc pod sc).2.
Proof.
  intros (_ & _ & Hm & _). destruct st; simpl in Hm; simplify_eq.
  - rewrite <-Hm. apply MutateTexasOnPod_grown.
  - rewrite <-Hm. apply MutateOpaOnPod_grown.
Qed.

Lemma built_injects sc st svc pod pod' :
  built_service sc st svc → svc_MutateFunc svc pod sc = (Ok tt, pod') →
  no_collision pod (svc_Container svc) ∧
  pod_InitContainers pod' = pod_InitContainers pod ++ [svc_Container svc].
Proof.
  intros (_ & Hc & Hm & _). destruct st; simpl in Hc, Hm; simplify_eq.
  - rewrite <-Hm. by intros (? & l & _ & ->)%(texas_effect _ _ _ _ Hc).
  - rewrite <-Hm. by intros (? & l & vs & _ & _ & ->)%(opa_effect _ _ _ _ Hc).
Qed.

Lemma built_valid sc st svc pod pod' pod'' :
  built_service sc st svc → svc_MutateFunc svc pod sc = (Ok tt, pod') →
  grown pod' pod'' → has_app pod (app_of sc) → svc_ValidateFunc svc pod'' sc = Ok tt.
Proof.
  intros (_ & Hc & Hm & Hv). destruct st; simpl in Hc, Hm, Hv; simplify_eq.
  - rewrite <-Hm, <-Hv. by apply texas_valid.
  - rewrite <-Hm, <-Hv. by apply opa_valid.
Qed.

(** ** All services *)

Lemma mutate_grown sc sts svcs pod :
  Forall2 (built_service sc) sts svcs → grown pod (mutate_services svcs sc pod).2.
Proof.
  intros Hb. revert pod. induction Hb as [|st svc sts svcs Hs _ IH]; intros pod; simpl; [done|].
  pose proof (built_grown _ _ _ pod Hs) as Hg.
  destruct (svc_MutateFunc svc pod sc) as [[[]|e|w] pod1]; simpl in *; try done.
  etrans; [exact Hg|apply IH].
Qed.

Lemma names_grown pod pod' c :
  grown pod pod' → pod_InitContainers pod' = pod_InitContainers pod ++ [c] →
  no_collision pod c → NoDup (container_names pod) → NoDup (container_names pod').
Proof.
  intros Hg Hi [Hn _] Hd. unfold container_names, all_containers in *.
  rewrite map_app, (grown_names _ _ Hg), Hi, map_app, <-app_assoc. simpl.
  rewrite map_app in Hd. apply NoDup_app in Hd as (Hd1 & Hd2 & Hd3).
  assert (∀ l, l = pod_InitContainers pod ∨ l = pod_Containers pod →
            ctr_Name c ∉ map ctr_Name l) as Hc.
  { intros l Hl (c' & Hc' & Hin)%list_elem_of_fmap. apply (Hn c'); [set_solver|done]. }
  apply NoDup_app. split_and!; [done| |].
  - intros x Hx [->|Hx']%elem_of_cons; [by eapply (Hc _ (or_introl eq_refl))|by eapply Hd2].
  - constructor; [by apply (Hc _ (or_intror eq_refl))|done].
Qed.

Lemma mutate_injects sc sts svcs pod pod' :
  Forall2 (built_service sc) sts svcs → mutate_services svcs sc pod = (Ok tt, pod') →
  pod_InitContainers pod' = pod_InitContainers pod ++ map svc_Container svcs ∧
  (NoDup (container_names pod) → NoDup (container_names pod')).
Proof.
  intros Hb. revert pod. induction Hb as [|st svc sts svcs Hs _ IH]; intros pod; simpl.
  { intros [= ->]. by rewrite app_nil_r. }
  pose proof (built_grown _ _ _ pod Hs) as Hg.
  destruct (svc_MutateFunc svc pod sc) as [[[]|e|w] pod1] eqn:Hm; try done.
  intros Hr. destruct (built_injects _ _ _ _ _ Hs Hm) as [Hn Hi].
  destruct (IH _ Hr) as [Hi' Hd']. split; [by rewrite Hi', Hi, <-app_assoc|].
  intros Hd. by eapply Hd', names_grown.
Qed.

Lemma mutate_valid sc sts svcs pod pod' pod'' :
  Forall2 (built_service sc) sts svcs → mutate_services svcs sc pod = (Ok tt, pod') →
  grown pod' pod'' → has_app pod (app_of sc) → validate_services svcs sc pod'' = Ok tt.
Proof.
  intros Hb. revert pod. induction Hb as [|st svc sts svcs Hs Hb IH]; intros pod; simpl; [done|].
  pose proof (built_grown _ _ _ pod Hs) as Hg.
  destruct (svc_MutateFunc svc pod sc) as [[[]|e|w] pod1] eqn:Hm; try done.
  intros Hr Hg' Happ. pose proof (mutate_grown _ _ _ pod1 Hb) as Hg1. rewrite Hr in Hg1.
  rewrite (built_valid _ _ _ _ _ pod'' Hs Hm); [|by etrans|done]. simpl.
  apply (IH pod1); [done|done|]. by apply (has_app_grown _ _ _ Hg).
Qed.
End WebhookFacts.

(** ** The webhooks *)

Section Webhooks.
Context `{Globals} `{Lib}.

Lemma prefix_exists annotations :
  existsb (λ a, HasPrefix a AccesseratorWebhookAnnotationPrefix)
    (map fst (map_to_list (annotations : gmap string string))) = true ↔
  ∃ a, is_Some (annotations !! a) ∧ HasPrefix a AccesseratorWebhookAnnotationPrefix = true.
Proof.
  rewrite existsb_exists. setoid_rewrite in_map_iff. split.
  - intros (a & ([a' v] & <- & Hin) & Hp). exists a'. split; [|done].
    apply list_elem_of_In, elem_of_map_to_list in Hin. by eexists.
  - intros (a & [v Hv] & Hp). exists a. split; [|done]. exists (a, v). split; [done|].
    by apply list_elem_of_In, elem_of_map_to_list.
Qed.

(** The eligibility check: what it reads, and what its answer means. *)
Lemma IsWebhookEligible_spec hc pod h b msg :
  steps (IsWebhookEligible hc pod) h (Ret (Ok (b, msg))) →
  b = true ↔ eligible pod h.
Proof.
  unfold IsWebhookEligible, eligible.
  destruct (m_Labels (pod_Meta pod)) as [labels|]; simpl;
    [|intros [[= <- <-] ->]%steps_Ret_inv; split; [done|];
      by intros [[v ?%lookup_empty_Some] _]].
  destruct (labels !! _) as [app|];
    [|intros [[= <- <-] ->]%steps_Ret_inv; split; [done|]; by intros [[v ?] _]].
  destruct (m_Annotations (pod_Meta pod)) as [annotations|]; simpl;
    [|intros [[= <- <-] ->]%steps_Ret_inv; split; [done|];
      by intros (_ & (a & [v ?%lookup_empty_Some] & _) & _)].
  rewrite <-prefix_exists. destruct (existsb _ _); simpl;
    [|intros [[= <- <-] ->]%steps_Ret_inv; split; [done|]; by intros (_ & ? & _)].
  destruct hc; simpl; [|by intros [? _]%steps_Ret_inv].
  intros (r & h' & -> & Hs)%steps_Vis_inv.
  destruct r as [ns|e|w]; simpl in Hs.
  - destruct (m_Labels (o_Meta ns)) as [l|] eqn:Hl; simpl;
      [destruct (l !! CreatedBySkipNamespaceLabel) as [v|] eqn:Hv; simpl in Hs;
       [case_bool_decide as Hb|]|];
      apply steps_Ret_inv in Hs as [[= <- <-] ->];
      rewrite orb_false_r, bool_decide_eq_true; simpl;
      rewrite ?Hl; simpl; rewrite ?Hv; naive_solver.
  - destruct (IsNotFound e); apply steps_Ret_inv in Hs as [[= <- <-] ->]; naive_solver.
  - by apply steps_Ret_inv in Hs as [? _].
Qed.

(** Both read only the metadata of the pod. *)
Lemma eligible_meta hc pod pod' :
  pod_Meta pod' = pod_Meta pod → IsWebhookEligible hc pod' = IsWebhookEligible hc pod.
Proof. intros Hm. unfold IsWebhookEligible, pod_ref. by rewrite Hm. Qed.

Lemma configuration_meta hc pod pod' :
  pod_Meta pod' = pod_Meta pod →
  GetPodSecurityConfiguration hc pod' = GetPodSecurityConfiguration hc pod.
Proof. intros Hm. unfold GetPodSecurityConfiguration. by rewrite Hm. Qed.

(** The services of a pod's configuration are the ones of its annotation. *)
Definition configured (pod : Pod) (h : history) (conf : PodSecurityConfiguration) : Prop :=
  let sc := psc_SecurityConfig conf in
  match entries (m_Annotations (pod_Meta pod)) !! AccesseratorServicesAnnotation with
  | Some value =>
      found_for pod h sc ∧ psc_CreatedFromSkiperatorApplication conf = true ∧
      ∃ sts, ParseAccesseratorServices value = Ok sts ∧
             Forall2 (built_service sc) sts (psc_AccesseratorServices conf)
  | None => psc_AccesseratorServices conf = [] ∧
      (entries (m_Annotations (pod_Meta pod)) !! AccesseratorVerifyAnnotationKey = Some "true" →
       found_for pod h sc)
  end.

Lemma application_found pod app h sc :
  entries (m_Labels (pod_Meta pod)) !! SkiperatorApplicationRefLabel = Some app →
  steps (GetSecurityConfigForApplication (m_Namespace (pod_Meta pod), app)) h (Ret (Ok sc)) →
  found_for pod h sc.
Proof.
  intros Happ (reply & h' & -> & Hs)%steps_Vis_inv.
  destruct reply as [items|e|w]; [|by apply steps_Ret_inv in Hs as [? _]..].
  simpl in Hs. destruct (List.filter _ items) as [|sc0 [|sc1 m]] eqn:Hf;
    [by apply steps_Ret_inv in Hs as [? _]| |by apply steps_Ret_inv in Hs as [? _]].
  destruct (st_Ready (sc_Status sc0)) eqn:Hr; apply steps_Ret_inv in Hs as [[=] ->]; subst sc0.
  exists (Ev (OpListSecurityConfigs (m_Namespace (pod_Meta pod))) (Ok items)), app.
  split_and!; [by left|done|done| |done].
  assert (sc ∈ List.filter (λ sc, bool_decide (spec_ApplicationRef (sc_Spec sc) = app)) items)
    as [_ Hb]%list_elem_of_In%filter_In by (rewrite Hf; by left).
  by apply bool_decide_eq_true in Hb.
Qed.

Lemma GetPodSecurityConfiguration_spec hc pod h conf :
  is_Some (entries (m_Labels (pod_Meta pod)) !! SkiperatorApplicationRefLabel) →
  steps (GetPodSecurityConfiguration hc pod) h (Ret (Ok conf)) →
  configured pod h conf.
Proof.
  intros [app Happ]. unfold GetPodSecurityConfiguration, configured.
  pose proof (application_found pod app) as Hfound.
  destruct (pod_Meta pod) as [? ? ns ? ? ? ? labels annotations ?]. simpl in *.
  destruct labels as [labels|]; simpl in *; [|done]. rewrite Happ.
  destruct hc; simpl; [|by intros [? _]%steps_Ret_inv].
  set (services := entries annotations !! AccesseratorServicesAnnotation).
  destruct (_ || _) eqn:Hfetch; simpl.
  2:{ apply orb_false_iff in Hfetch as [Hv Hsv]. intros [[= <-] ->]%steps_Ret_inv.
      destruct services; [done|]. split; [done|]. intros Ht.
      by apply bool_decide_eq_false in Hv. }
  intros (h1 & [sc|e|w] & h2 & -> & Hs1 & Hs2)%steps_bind;
    [|by apply steps_Ret_inv in Hs2 as [? _]..].
  pose proof (Hfound _ _ Happ Hs1) as Hf.
  destruct services as [value|] eqn:Hsv; simpl in Hs2.
  - destruct (ParseAccesseratorServices value) as [sts|e|w]; simpl in Hs2;
      [|by apply steps_Ret_inv in Hs2 as [? _]..].
    assert (∃ svcs, Forall2 (built_service sc) sts svcs ∧ h2 = [] ∧
              psc_AccesseratorServices conf = svcs ∧ psc_SecurityConfig conf = sc ∧
              psc_CreatedFromSkiperatorApplication conf = true) as (svcs & Hb & -> & <- & <- & ->).
    { destruct sts as [|st sts].
      - simpl in Hs2. apply steps_Ret_inv in Hs2 as [[= <-] ->]. by exists [].
      - rewrite gom_bind_Ok in Hs2.
        destruct (BuildAccesseratorServices (st :: sts) sc) as [svcs|e|w] eqn:Hbuild;
          apply steps_Ret_inv in Hs2 as [Hc ->]; simplify_eq.
        exists svcs. by split_and!; auto using build_services. }
    rewrite app_nil_r. eauto 10.
  - simpl in Hs2. apply steps_Ret_inv in Hs2 as [[= <-] ->]. by rewrite app_nil_r.
Qed.

(** ** Runs of the webhooks *)

Lemma eligible_reads hc pod : all_ops (webhook_read pod) (IsWebhookEligible hc pod).
Proof. unfold IsWebhookEligible. cbv zeta. by ops_tac. Qed.

Lemma configuration_reads hc pod :
  all_ops (webhook_read pod) (GetPodSecurityConfiguration hc pod).
Proof.
  unfold GetPodSecurityConfiguration, GetSecurityConfigForApplication.
  destruct (pod_Meta pod) as [? ? ns ? ? ? ? labels annotations ?] eqn:Hm.
  assert (webhook_read pod (OpListSecurityConfigs ns)) as Hns by (unfold webhook_read; by rewrite Hm).
  cbv zeta. by ops_tac.
Qed.

Lemma Default_reads hc pod : all_ops (webhook_read pod) (Default hc pod).
Proof.
  unfold Default. apply all_ops_bind; [apply eligible_reads|]. intros [[[] msg]|e|w]; simpl;
    try apply all_ops_Ret.
  apply all_ops_bind; [apply configuration_reads|]. intros [conf|e|w]; try apply all_ops_Ret.
  destruct (negb _); apply all_ops_Ret.
Qed.

(** A run of [Default], by its outcome. *)
Lemma Default_inv hc pod h r pod' :
  steps (Default hc pod) h (Ret (r, pod')) →
  ∃ h1 el h2, h = h1 ++ h2 ∧ steps (IsWebhookEligible hc pod) h1 (Ret el) ∧
    match el with
    | Ok (true, _) => ∃ conf, steps (GetPodSecurityConfiguration hc pod) h2 (Ret conf) ∧
        match conf with
        | Ok conf => (r, pod') = if psc_CreatedFromSkiperatorApplication conf
                                 then mutate_services (psc_AccesseratorServices conf)
                                        (psc_SecurityConfig conf) pod
                                 else (Ok tt, pod)
        | Err e => (r, pod') = (Err e, pod)
        | Panic w => (r, pod') = (Panic w, pod)
        end
    | Ok (false, _) => h2 = [] ∧ (r, pod') = (Ok tt, pod)
    | Err e => h2 = [] ∧ (r, pod') = (Err e, pod)
    | Panic w => h2 = [] ∧ (r, pod') = (Panic w, pod)
    end.
Proof.
  unfold Default. intros (h1 & el & h2 & -> & H1 & H2)%steps_bind. exists h1, el, h2.
  do 2 (split; [done|]).
  destruct el as [[[] msg]|e|w]; simpl in H2; [|by apply steps_Ret_inv in H2 as [<- ->]..].
  apply steps_bind in H2 as (h3 & conf & h4 & -> & H3 & H4).
  exists conf. destruct conf as [conf|e|w]; [destruct (psc_CreatedFromSkiperatorApplication conf)|..];
    simpl in H4; apply steps_Ret_inv in H4 as [<- ->]; by rewrite app_nil_r.
Qed.

Lemma eligible_app pod h h' : eligible pod h → eligible pod (h ++ h').
Proof. intros (Ha & Hb & Hn). split_and!; [done|done|]. rewrite existsb_app. by rewrite Hn. Qed.

Lemma found_for_app pod h h' sc : found_for pod h sc → found_for pod (h' ++ h) sc.
Proof. intros (e & app & He & Hf). exists e, app. split; [set_solver|done]. Qed.

Lemma configured_app pod h h' conf : configured pod h conf → configured pod (h' ++ h) conf.
Proof.
  unfold configured. destruct (_ !! _).
  - intros (Hf & ?). split; [by apply found_for_app|done].
  - intros (? & Hf). split; [done|]. intros Hv. by apply found_for_app, Hf.
Qed.

Lemma configured_built pod h conf :
  configured pod h conf →
  ∃ sts, Forall2 (built_service (psc_SecurityConfig conf)) sts (psc_AccesseratorServices conf).
Proof.
  unfold configured. destruct (_ !! _); [naive_solver|]. intros [-> _]. by exists [].
Qed.

(** The configuration of an eligible pod that [Default] mutates. *)
Lemma Default_mutates hc pod h r pod' :
  steps (Default hc pod) h (Ret (r, pod')) → pod' = pod ∨
  ∃ conf, configured pod h conf ∧ eligible pod h ∧
    mutate_services (psc_AccesseratorServices conf) (psc_SecurityConfig conf) pod = (r, pod').
Proof.
  intros (h1 & el & h2 & -> & H1 & H2)%Default_inv.
  destruct el as [[[] msg]|e|w]; [|destruct H2 as [_ [=]]; by left..].
  destruct H2 as (conf & H3 & H4). destruct conf as [conf|e|w]; simplify_eq; auto.
  destruct (psc_CreatedFromSkiperatorApplication conf) eqn:Hc; simplify_eq; auto.
  right. exists conf. apply IsWebhookEligible_spec in H1 as [He _]. specialize (He eq_refl).
  pose proof (GetPodSecurityConfiguration_spec _ _ _ _ (proj1 He) H3) as Hconf.
  split_and!; [|by apply eligible_app|done].
  by apply configured_app.
Qed.
End Webhooks.

(** ** Parsing the annotation *)

Section Parsing.
Context `{Globals}.

Lemma unique_loop_seen {T : Type} `{EqDecision T} (l s s' : list T) :
  (∀ x, x ∈ s ↔ x ∈ s') → unique_loop s l = unique_loop s' l.
Proof.
  revert s s'. induction l as [|a l IH]; intros s s' Hs; simpl; [done|].
  rewrite (bool_decide_ext _ _ (Hs a)). case_bool_decide; [by apply IH|].
  f_equal. apply IH. set_solver.
Qed.

Lemma service_named_texas p : word p = "texas" → service_named p = Some Texas.
Proof. intros Hp. unfold service_named. by rewrite bool_decide_true. Qed.

Lemma service_named_opa p : word p = "opa" → service_named p = Some Opa.
Proof.
  intros Hp. unfold service_named. rewrite Hp. by rewrite bool_decide_false, bool_decide_true.
Qed.

Lemma parse_services_Ok parts acc res :
  parse_services parts acc = Ok res →
  Forall (λ p, is_Some (service_named p)) parts ∧
  res = acc ++ unique_loop acc (omap service_named parts) ∧
  (Opa ∈ res → Opa ∈ acc ∨ cfg_OpaEnabled Get = true).
Proof.
  revert acc. induction parts as [|p parts IH]; intros acc; simpl.
  { intros [= <-]. rewrite app_nil_r. by auto. }
  rewrite Forall_cons. fold (word p).
  assert (∀ st, (st ∉ acc) → parse_services parts (acc ++ [st]) = Ok res →
    Forall (λ p, is_Some (service_named p)) parts ∧
    res = acc ++ st :: unique_loop (st :: acc) (omap service_named parts) ∧
    (Opa ∈ res → Opa ∈ acc ++ [st] ∨ cfg_OpaEnabled Get = true)) as Hnew.
  { intros st Hst (Hf & -> & Ho)%IH. split_and!; [done| |done].
    rewrite <-app_assoc. simpl. do 2 f_equal. apply unique_loop_seen. set_solver. }
  case_bool_decide as Ht; simpl in Ht; [|case_bool_decide as Hop; simpl in Hop; [|done]].
  - rewrite (service_named_texas _ Ht). case_bool_decide as Hin; simpl.
    + intros (Hf & -> & Ho)%IH. rewrite bool_decide_true by done. by eauto 10.
    + intros (Hf & -> & Ho)%(Hnew _ Hin). rewrite bool_decide_false by done.
      split_and!; [by eauto|done|done|]. set_solver.
  - rewrite (service_named_opa _ Hop). case_bool_decide as Hin; simpl.
    + intros (Hf & -> & Ho)%IH. rewrite bool_decide_true by done. by eauto 10.
    + destruct (cfg_OpaEnabled Get) eqn:He; simpl; [|done].
      intros (Hf & -> & Ho)%(Hnew _ Hin). rewrite bool_decide_false by done. by eauto 10.
Qed.

Lemma parse_services_not_Ok parts acc :
  match parse_services parts acc with
  | Ok _ => True
  | Err _ => (∃ p, p ∈ parts ∧ service_named p = None) ∨
             (cfg_OpaEnabled Get = false ∧ ∃ p, p ∈ parts ∧ service_named p = Some Opa)
  | Panic _ => False
  end.
Proof.
  revert acc. induction parts as [|p parts IH]; intros acc; simpl; [done|].
  assert (∀ acc', match parse_services parts acc' with
    | Ok _ => True
    | Err _ => (∃ p', p' ∈ p :: parts ∧ service_named p' = None) ∨
               (cfg_OpaEnabled Get = false ∧ ∃ p', p' ∈ p :: parts ∧ service_named p' = Some Opa)
    | Panic _ => False end) as Hrest.
  { intros acc'. specialize (IH acc'). destruct (parse_services parts acc'); [done| |done].
    destruct IH as [(p' & ? & ?)|(? & p' & ? & ?)]; [left|right; split; [done|]];
      exists p'; (split; [by right|done]). }
  case_bool_decide as Ht; simpl in Ht; [case_bool_decide; apply Hrest|].
  case_bool_decide as Hop; simpl in Hop.
  - case_bool_decide; [apply Hrest|]. destruct (cfg_OpaEnabled Get) eqn:He; simpl; [apply Hrest|].
    right. split; [done|]. exists p. split; [by left|]. by apply service_named_opa.
  - left. exists p. split; [by left|]. unfold service_named, word. by rewrite !bool_decide_false.
Qed.

(** C33: parsing the services annotation gives the distinct services of its parts, each
    once and in the order of the annotation, whatever the case and the white space; it
    fails exactly when a part names no service or names OPA on a cluster without it. *)
Theorem ParseAccesseratorServices_spec value :
  let parts := Split value ","%char in
  match ParseAccesseratorServices value with
  | Ok services =>
      services = UniqueSliceElements (omap service_named parts) ∧ NoDup services ∧
      (∀ p, p ∈ parts → service_named p = Some Texas ∨
                        (service_named p = Some Opa ∧ cfg_OpaEnabled Get = true))
  | Err _ => (∃ p, p ∈ parts ∧ service_named p = None) ∨
             (cfg_OpaEnabled Get = false ∧ ∃ p, p ∈ parts ∧ service_named p = Some Opa)
  | Panic _ => False
  end.
Proof.
  intros parts. unfold ParseAccesseratorServices. fold parts.
  pose proof (parse_services_not_Ok parts []) as Hbad.
  destruct (parse_services parts []) as [services|e|w] eqn:Hp; [|done|done]. clear Hbad.
  apply parse_services_Ok in Hp as (Hf & -> & Ho). simpl in *.
  split_and!; [done|apply unique_loop_NoDup|]. intros p Hin.
  destruct (proj1 (Forall_forall _ _) Hf p Hin) as [st Hst]. rewrite Hst.
  assert (st = Texas ∨ st = Opa) as [-> | ->].
  { revert Hst. unfold service_named. repeat case_bool_decide; naive_solver. }
  - by left.
  - right. split; [done|].
    assert (Opa ∈ unique_loop [] (omap service_named parts)) as HO.
    { apply elem_of_unique_loop. split; [|by intros ?%not_elem_of_nil].
      apply list_elem_of_omap. eauto. }
    by destruct (Ho HO) as [Hn|Hn]; [apply not_elem_of_nil in Hn|].
Qed.
End Parsing.

(** ** Properties *)

(** The application's container tells where the service is. *)
Definition url_in (pod : Pod) (app name value : string) : Prop :=
  ∃ c e, c ∈ pod_Containers pod ∧ ctr_Name c = app ∧ e ∈ ctr_Env c ∧
    env_Name e = name ∧ env_Value e = value.

(** An init container with the name, the image, the ports, the resources and the security
    context of [expected]. *)
Definition runs_as (expected c : Container) : Prop :=
  ctr_Name c = ctr_Name expected ∧ ctr_Image c = ctr_Image expected ∧
  ctr_Ports c = ctr_Ports expected ∧ ctr_Resources c = ctr_Resources expected ∧
  ctr_SecurityContext c = ctr_SecurityContext expected.

(** The pod has the service as the SecurityConfig asks for it. *)
Definition carries `{Globals} `{Lib} (pod : Pod) (sc : SecurityConfig) (st : ServiceType) :
    Prop :=
  match st with
  | Texas => ∃ expected c, GetTexasContainer sc = Ok expected ∧ c ∈ pod_InitContainers pod ∧
      runs_as expected c ∧ ctr_Env c = ctr_Env expected ∧ ctr_EnvFrom c = ctr_EnvFrom expected ∧
      url_in pod (app_of sc) (cfg_TexasUrlEnvVarName Get) GetTexasUrlEnvVarValue
  | Opa => ∃ expected c, GetOpaContainer sc = Ok expected ∧ c ∈ pod_InitContainers pod ∧
      runs_as expected c ∧ ctr_Args c = ctr_Args expected ∧
      url_in pod (app_of sc) (cfg_OpaUrlEnvVarName Get) GetOpaUrlEnvVarValue ∧
      (enabled opa_Enabled (spec_Opa (sc_Spec sc)) = true →
       ∃ source v, st_OpaBundleSource (sc_Status sc) = Some source ∧ v ∈ pod_Volumes pod ∧
         vol_Name v = OpaBundleVolumeName ∧ vol_ConfigMap v = Some (obs_ConfigMapName source))
  | OtherService _ => False
  end.

(** The annotations of a pod. *)
Definition annotation (pod : Pod) (key : string) : option string :=
  entries (m_Annotations (pod_Meta pod)) !! key.

Section Properties.
Context `{Globals} `{Lib}.

Lemma find_named {A : Type} (get : A → string) n l a :
  List.find (λ x, bool_decide (get x = n)) l = Some a → a ∈ l ∧ get a = n.
Proof.
  intros [Hin Hb]%find_some. apply bool_decide_eq_true in Hb.
  split; [by apply list_elem_of_In|done].
Qed.

Lemma texas_carried pod sc c :
  GetTexasContainer sc = Ok c → ValidateTexasOnPod pod sc c = Ok tt → carries pod sc Texas.
Proof.
  intros Hc ([] & Hu & Hi)%outcome_bind_Ok. unfold ValidateTexasInitContainer in Hi.
  destruct (List.find _ (pod_InitContainers pod)) as [c'|] eqn:Hf; [|done].
  apply find_named in Hf as [Hin Hn].
  destruct (IsTexasContainerEqual c c') eqn:He; [|done]. unfold IsTexasContainerEqual in He.
  rewrite !andb_true_iff, !bool_decide_eq_true in He.
  exists c, c'. unfold runs_as. split_and!; try naive_solver.
  unfold ValidateTexasURLEnvVar in Hu. fold (app_of sc) in Hu.
  destruct (List.find _ (pod_Containers pod)) as [a|] eqn:Ha; [|done].
  apply find_named in Ha as [Hina Hna]. destruct (existsb _ _) eqn:Hx; [|done].
  apply existsb_exists in Hx as (e & Hine & Hb).
  rewrite andb_true_iff, !bool_decide_eq_true in Hb. destruct Hb as [He1 He2].
  exists a, e. apply list_elem_of_In in Hine. by split_and!.
Qed.

Lemma opa_carried pod sc c :
  GetOpaContainer sc = Ok c → ValidateOpaOnPod pod sc c = Ok tt → carries pod sc Opa.
Proof.
  intros Hc ([] & Hu & ([] & Hv & Hi)%outcome_bind_Ok)%outcome_bind_Ok.
  unfold ValidateOpaInitContainer in Hi.
  destruct (List.find _ (pod_InitContainers pod)) as [c'|] eqn:Hf; [|done].
  apply find_named in Hf as [Hin Hn].
  destruct (IsOpaContainerEqual c c') eqn:He; [|done]. unfold IsOpaContainerEqual in He.
  rewrite !andb_true_iff, !bool_decide_eq_true in He.
  exists c, c'. unfold runs_as. split_and!; try naive_solver.
  - unfold ValidateOpaURLEnvVar in Hu. fold (app_of sc) in Hu.
    destruct (List.find _ (concat _)) as [e|] eqn:Hx; [|done].
    apply find_named in Hx as [Hine Hne]. case_bool_decide as Hval; [|done].
    apply list_elem_of_In, in_concat in Hine as (l & Hl & Hine).
    apply in_map_iff in Hl as (a & <- & [Hina Hna]%filter_In).
    apply bool_decide_eq_true in Hna. apply list_elem_of_In in Hine, Hina.
    exists a, e. by split_and!.
  - intros Hen. unfold ValidateOpaBundleVolume in Hv. rewrite Hen in Hv. simpl in Hv.
    destruct (st_OpaBundleSource (sc_Status sc)) as [source|]; simpl in Hv; [|done].
    destruct (List.find _ (pod_Volumes pod)) as [v|] eqn:Hx; [|done].
    apply find_named in Hx as [Hinv Hnv]. case_bool_decide as Hcm; [|done].
    exists source, v. by split_and!.
Qed.

Lemma services_carried pod sc sts svcs :
  Forall2 (built_service sc) sts svcs → validate_services svcs sc pod = Ok tt →
  Forall (carries pod sc) sts.
Proof.
  induction 1 as [|st svc sts svcs (_ & Hc & _ & Hv) _ IH]; simpl; [done|].
  intros ([] & H1 & H2)%outcome_bind_Ok. constructor; [|by apply IH].
  destruct st; simpl in Hc, Hv; simplify_eq; rewrite <-Hv in H1.
  - by eapply texas_carried.
  - by eapply opa_carried.
Qed.

(** C31: whatever the API server answers, the mutating webhook writes nothing and reads
    only the pod's namespace and the SecurityConfigs in it; the pod it leaves, also when
    it refuses it, is the same pod with init containers, volumes and variables appended;
    and it is not changed at all unless it is eligible and its application has exactly one
    SecurityConfig, which is ready. *)
Theorem Default_only_adds hc pod h r pod' :
  steps (Default hc pod) h (Ret (r, pod')) →
  (∀ e, e ∈ h → webhook_read pod (ev_op e)) ∧ grown pod pod' ∧
  (pod' ≠ pod → eligible pod h ∧ ∃ sc, found_for pod h sc).
Proof.
  intros Hs. split.
  { intros e. apply (all_ops_steps _ _ _ _ _ (Default_reads hc pod) Hs). }
  apply Default_mutates in Hs as [-> | (conf & Hconf & Hel & Hm)]; [done|].
  destruct (configured_built _ _ _ Hconf) as [sts Hb]. split.
  - pose proof (mutate_grown _ _ _ pod Hb) as Hg. by rewrite Hm in Hg.
  - intros Hne. split; [done|]. exists (psc_SecurityConfig conf). unfold configured in Hconf.
    destruct (_ !! _); [naive_solver|]. destruct Hconf as [Hnil _]. rewrite Hnil in Hm.
    by simplify_eq/=.
Qed.

Lemma Default_injected hc pod h pod' value :
  steps (Default hc pod) h (Ret (Ok tt, pod')) → eligible pod h →
  annotation pod AccesseratorServicesAnnotation = Some value →
  ∃ sc services sidecars,
    found_for pod h sc ∧ ParseAccesseratorServices value = Ok services ∧
    Forall2 (λ st c, GetServiceContainer st sc = Ok c) services sidecars ∧
    pod_InitContainers pod' = pod_InitContainers pod ++ sidecars ∧
    (NoDup (container_names pod) → NoDup (container_names pod')).
Proof.
  intros (h1 & el & h2 & -> & H1 & H2)%Default_inv Hel Hval.
  destruct el as [[[] msg]|e|w]; [|destruct H2 as [-> [=]]..].
  2:{ rewrite app_nil_r in Hel. by apply (IsWebhookEligible_spec _ _ _ _ _ H1) in Hel. }
  destruct H2 as (conf & H3 & H4). destruct conf as [conf|e|w]; simplify_eq.
  pose proof (GetPodSecurityConfiguration_spec _ _ _ _ (proj1 Hel) H3) as Hconf.
  apply (configured_app _ _ h1) in Hconf. unfold configured in Hconf.
  unfold annotation in Hval. rewrite Hval in Hconf.
  destruct Hconf as (Hf & Hcr & sts & Hp & Hb). rewrite Hcr in H4.
  destruct (mutate_injects _ _ _ _ _ Hb (eq_sym H4)) as [Hi Hd].
  exists (psc_SecurityConfig conf), sts, (map svc_Container (psc_AccesseratorServices conf)).
  split_and!; [done|done| |done|done].
  apply Forall2_fmap_r. eapply Forall2_impl; [exact Hb|]. by intros st svc (_ & Hc & _).
Qed.

(** C32: a pod with the services annotation that the mutating webhook accepted, in a
    managed namespace, has the sidecars of exactly the services it asked for, in that
    order, behind its own init containers, built from the one ready SecurityConfig of its
    application; and its container names are still different from each other. *)
Theorem Default_injects hc pod h pod' value :
  steps (Default hc pod) h (Ret (Ok tt, pod')) → eligible pod h →
  annotation pod AccesseratorServicesAnnotation = Some value →
  ∃ sc services sidecars,
    found_for pod h sc ∧ ParseAccesseratorServices value = Ok services ∧
    Forall2 (λ st c, GetServiceContainer st sc = Ok c) services sidecars ∧
    pod_InitContainers pod' = pod_InitContainers pod ++ sidecars ∧
    (NoDup (container_names pod) → NoDup (container_names pod')).
Proof. apply Default_injected. Qed.

(** C29: what the mutating webhook made of a pod is accepted by the validating webhook when
    the API server answers it the same, as long as the pod has a container with the name
    of its application. *)
Theorem Default_then_validate hc pod h pod' :
  steps (Default hc pod) h (Ret (Ok tt, pod')) →
  (∀ app, entries (m_Labels (pod_Meta pod)) !! SkiperatorApplicationRefLabel = Some app →
          has_app pod app) →
  steps (validatePod hc pod') h (Ret (Ok tt)).
Proof.
  intros Hs Happ.
  assert (grown pod pod') as Hg.
  { apply Default_mutates in Hs as [-> | (conf & Hconf & _ & Hm)]; [done|].
    destruct (configured_built _ _ _ Hconf) as [sts Hb].
    pose proof (mutate_grown _ _ _ pod Hb) as Hg. by rewrite Hm in Hg. }
  pose proof (proj1 Hg) as Hmeta.
  apply Default_inv in Hs as (h1 & el & h2 & -> & H1 & H2).
  unfold validatePod. rewrite (eligible_meta _ _ _ Hmeta), (configuration_meta _ _ _ Hmeta).
  apply steps_bind. exists h1, el, h2. do 2 (split; [done|]).
  destruct el as [[[] msg]|e|w]; simpl;
    [|destruct H2 as [-> [=]]; subst; constructor|by destruct H2..].
  destruct H2 as (conf & H3 & H4). destruct conf as [conf|e|w]; simplify_eq.
  apply steps_bind. exists h2, (Ok conf), []. rewrite app_nil_r. do 2 (split; [done|]).
  destruct (psc_CreatedFromSkiperatorApplication conf) eqn:Hcr; simpl; [|constructor].
  apply IsWebhookEligible_spec in H1 as [He _]. destruct (He eq_refl) as [Hl _].
  pose proof (GetPodSecurityConfiguration_spec _ _ _ _ Hl H3) as Hconf.
  assert (validate_services (psc_AccesseratorServices conf) (psc_SecurityConfig conf) pod' = Ok tt)
    as ->; [|constructor].
  unfold configured in Hconf.
  destruct (entries (m_Annotations (pod_Meta pod)) !! AccesseratorServicesAnnotation).
  - destruct Hconf as ((e & app & _ & Hlab & _ & Heq & _) & _ & sts & _ & Hb).
    eapply mutate_valid; [exact Hb|by symmetry|done|]. rewrite Heq. by apply Happ.
  - by destruct Hconf as [-> _].
Qed.

(** C30: an eligible pod that the validating webhook accepts and that has the annotation for
    services, or the one for verification set to ["true"], belongs to an application with
    exactly one SecurityConfig, which is ready; and each service it asks for is there as that
    SecurityConfig asks for it.  Of a pod with neither annotation nothing is said. *)
Theorem validatePod_sound hc pod h :
  steps (validatePod hc pod) h (Ret (Ok tt)) → eligible pod h →
  (annotation pod AccesseratorVerifyAnnotationKey = Some "true" → ∃ sc, found_for pod h sc) ∧
  ∀ value, annotation pod AccesseratorServicesAnnotation = Some value →
    ∃ sc services, found_for pod h sc ∧ ParseAccesseratorServices value = Ok services ∧
                   Forall (carries pod sc) services.
Proof.
  intros (h1 & el & h2 & -> & H1 & H2)%steps_bind Hel.
  destruct el as [[[] msg]|e|w]; simpl in H2; [| |by apply steps_Ret_inv in H2 as [? _]..].
  2:{ apply steps_Ret_inv in H2 as [_ ->]. rewrite app_nil_r in Hel.
      by apply (IsWebhookEligible_spec _ _ _ _ _ H1) in Hel. }
  apply steps_bind in H2 as (h3 & conf & h4 & -> & H3 & H4).
  destruct conf as [conf|e|w]; simpl in H4; [|by apply steps_Ret_inv in H4 as [? _]..].
  pose proof (GetPodSecurityConfiguration_spec _ _ _ _ (proj1 Hel) H3) as Hconf.
  apply (configured_app _ _ h1) in Hconf. unfold configured in Hconf.
  assert (h4 = [] ∧ (psc_CreatedFromSkiperatorApplication conf = true →
    validate_services (psc_AccesseratorServices conf) (psc_SecurityConfig conf) pod = Ok tt))
    as [-> Hval].
  { destruct (psc_CreatedFromSkiperatorApplication conf); simpl in H4;
      by apply steps_Ret_inv in H4 as [? ->]. }
  rewrite app_nil_r. unfold annotation.
  destruct (entries (m_Annotations (pod_Meta pod)) !! AccesseratorServicesAnnotation) as [v|].
  - destruct Hconf as (Hf & Hcr & sts & Hp & Hb). split; [by eauto|]. intros ? [= <-].
    exists (psc_SecurityConfig conf), sts. split_and!; [done|done|].
    by eapply services_carried; [exact Hb|apply Hval].
  - destruct Hconf as [_ Hv]. split; [|done]. intros Ht. eexists. by apply Hv.
Qed.
End Properties.

(** ** Applications *)

Definition sample_namespace : Object KNamespace :=
  @MkObject KNamespace "Namespace"
    (with_labels (named_meta "" "team")
       (Some {[CreatedBySkipNamespaceLabel := CreatedBySkipNamespaceLabelValue]})) tt.

(** A managed namespace with one ready SecurityConfig. *)
Definition webhook_store : Store := put_sc (put empty_store sample_namespace) sample_ready_sc.
Definition admission_trace : history := trace (Default true sample_pod) webhook_store.
Definition admitted_pod : Pod := (run (Default true sample_pod) webhook_store).1.2.

Lemma admission_run : steps (Default true sample_pod) admission_trace (Ret (Ok tt, admitted_pod)).
Proof.
  pose proof (trace_steps (Default true sample_pod) webhook_store) as Hs.
  assert ((run (Default true sample_pod) webhook_store).1 = (Ok tt, admitted_pod)) as Hr.
  { unfold admitted_pod. by rewrite (surjective_pairing (run _ _).1). }
  by rewrite Hr in Hs.
Qed.

Lemma sample_pod_eligible : eligible sample_pod admission_trace.
Proof.
  split_and!.
  - exists "app". by vm_compute.
  - exists AccesseratorServicesAnnotation. split; [exists "Texas, opa"; by vm_compute|by vm_compute].
  - by vm_compute.
Qed.

Lemma sample_pod_app app :
  entries (m_Labels (pod_Meta sample_pod)) !! SkiperatorApplicationRefLabel = Some app →
  has_app sample_pod app.
Proof. vm_compute. intros [= <-]. eexists. split; [by left|done]. Qed.

Lemma Default_only_adds_witness :
  grown sample_pod admitted_pod ∧ ∃ sc, found_for sample_pod admission_trace sc.
Proof.
  destruct (Default_only_adds true sample_pod admission_trace (Ok tt) admitted_pod admission_run)
    as (_ & Hg & Hne). split; [exact Hg|]. apply Hne.
  intros Heq. apply (f_equal (λ p, length (pod_InitContainers p))) in Heq.
  vm_compute in Heq. discriminate.
Defined.

Lemma Default_injects_witness :
  ∃ sidecars, pod_InitContainers admitted_pod = sidecars ∧ NoDup (container_names admitted_pod).
Proof.
  destruct (Default_injects true sample_pod admission_trace admitted_pod "Texas, opa"
              admission_run sample_pod_eligible) as (sc & services & sidecars & _ & _ & _ & Hi & Hd).
  - by vm_compute.
  - exists sidecars. split; [exact Hi|]. apply Hd.
    refine (proj1 (bool_decide_eq_true _) _). by vm_compute.
Defined.

Lemma Default_then_validate_witness :
  steps (validatePod true admitted_pod) admission_trace (Ret (Ok tt)).
Proof.
  apply (Default_then_validate true sample_pod admission_trace admitted_pod admission_run
           sample_pod_app).
Defined.

(** The pod that was admitted, as the validating webhook sees it. *)
Lemma admitted_validated : steps (validatePod true admitted_pod) admission_trace (Ret (Ok tt)).
Proof.
  pose proof (trace_steps (validatePod true admitted_pod) webhook_store) as Hs.
  assert ((run (validatePod true admitted_pod) webhook_store).1 = Ok tt) as Hr by by vm_compute.
  assert (trace (validatePod true admitted_pod) webhook_store = admission_trace) as Ht
    by by vm_compute.
  by rewrite Hr, Ht in Hs.
Qed.

Lemma admitted_eligible : eligible admitted_pod admission_trace.
Proof.
  assert (pod_Meta admitted_pod = pod_Meta sample_pod) as Hm by by vm_compute.
  unfold eligible. rewrite Hm. exact sample_pod_eligible.
Qed.

Lemma validatePod_sound_witness :
  ∃ sc, Forall (carries admitted_pod sc) [Texas; Opa].
Proof.
  destruct (validatePod_sound true admitted_pod admission_trace admitted_validated
              admitted_eligible) as [_ Hs].
  assert (annotation admitted_pod AccesseratorServicesAnnotation = Some "Texas, opa") as Ha
    by by vm_compute.
  destruct (Hs _ Ha) as (sc & services & _ & Hp & Hf).
  exists sc. replace [Texas; Opa] with services; [exact Hf|].
  assert (ParseAccesseratorServices "Texas, opa" = Ok [Texas; Opa]) as Hp' by by vm_compute.
  congruence.
Defined.
