(* ===== verification/Oci.v ===== *)
(** * OCI registries: [pkg/utilities/oci_helpers.go]

    Resolving a reference to a digest, fetching a layer and listing referrers.  The client
    library (oras) and the network behind it are the class [OciRegistry]: what the registry
    answers while one of these functions runs.  In [Cluster] such a function is one
    operation; here is what it does.  The theorems: a digest that is stripped of its
    algorithm is the hash and nothing else, a pinned reference is never looked up, and a
    layer is fetched only if the manifest lists it with the media type. *)
From stdpp Require Import base gmap strings list.
From Stdlib Require Import ZArith Ascii Lia.
From S2P Require Import Prelude GoStrings Kube Api Model Cluster ProgTheory.
Open Scope go_scope.

(** [registry.Reference]: registry, repository, and tag or digest. *)
Record Reference := {
  ref_Registry : string;
  ref_Repository : string;
  ref_Reference : string;
}.

(** An [io.ReadCloser]: what reading it to the end gives, and the error of closing it. *)
Record ReadCloser := { rd_ReadAll : outcome string; rd_Close : option error }.

Class OciRegistry := {
  (** [remote.NewRepository]. *)
  NewRepository : string → outcome Reference;
  (** [repo.Resolve]. *)
  Resolve : Reference → string → outcome Descriptor;
  (** [repo.Manifests().FetchReference], without the descriptor it also returns. *)
  FetchReference : OciRepositoryAndDigest → string → outcome ReadCloser;
  (** [content.FetchAll] of the blobs of a repository. *)
  FetchAll : OciRepositoryAndDigest → Descriptor → outcome string;
  (** [content.Successors]. *)
  Successors : OciRepositoryAndDigest → Descriptor → outcome (list Descriptor);
  (** [json.Unmarshal] into an [ocispec.Manifest]: its layers. *)
  UnmarshalManifest : string → outcome (list Descriptor);
}.

(** ** Digests *)

(** [%q] of a string; runes outside of ASCII are taken for printable. *)
Definition quote_char (c : ascii) : string :=
  let n := nat_of_ascii c in
  if bool_decide (n = 34 ∨ n = 92)%nat then String "\" (String c EmptyString)
  else match n with
       | 7 => "\a" | 8 => "\b" | 9 => "\t" | 10 => "\n" | 11 => "\v" | 12 => "\f" | 13 => "\r"
       | _ => if (n <? 32)%nat || (n =? 127)%nat
              then "\x" +:+ hex_digits 2 (Z.of_nat n) EmptyString
              else String c EmptyString
       end.
Definition dquote : string := of_codes [34].
Fixpoint quote_body (s : string) : string :=
  match s with EmptyString => EmptyString | String c s' => quote_char c +:+ quote_body s' end.
Definition Quote (s : string) : string := dquote +:+ quote_body s +:+ dquote.

(** [strings.Cut(s, sep)] for a separator of one byte: before, after, found. *)
Fixpoint Cut (s : string) (sep : ascii) : string * string * bool :=
  match s with
  | EmptyString => (EmptyString, EmptyString, false)
  | String c s' =>
      if bool_decide (c = sep) then (EmptyString, s', true)
      else let '(before, after, found) := Cut s' sep in
           if found : bool then (String c before, after, true) else (s, EmptyString, false)
  end.

(** The value of a hexadecimal digit, of either case. *)
Definition hex_value (c : ascii) : option Z :=
  let n := Z.of_nat (nat_of_ascii c) in
  if (48 <=? n)%Z && (n <=? 57)%Z then Some (n - 48)%Z
  else if (97 <=? n)%Z && (n <=? 102)%Z then Some (n - 87)%Z
  else if (65 <=? n)%Z && (n <=? 70)%Z then Some (n - 55)%Z
  else None.

Definition upper_ascii (c : ascii) : ascii :=
  let n := nat_of_ascii c in
  if (97 <=? n)%nat && (n <=? 122)%nat then ascii_of_nat (n - 32) else c.
Fixpoint map_string (f : ascii → ascii) (s : string) : string :=
  match s with EmptyString => EmptyString | String c s' => String (f c) (map_string f s') end.

(** [hex.InvalidByteError]: the code point of the byte, and the character if it prints. *)
Definition invalid_byte (c : ascii) : error :=
  let n := nat_of_ascii c in
  ErrorString ("encoding/hex: invalid byte: U+00" +:+
    map_string upper_ascii (hex_digits 2 (Z.of_nat n) EmptyString) +:+
    (if (32 <=? n)%nat && (n <=? 126)%nat then " '" +:+ String c "'"
     else if (161 <=? n)%nat && negb (n =? 173)%nat
     then " '" +:+ of_codes [192 + n / 64; 128 + n mod 64]%nat +:+ "'"
     else "")).

(** [hex.DecodeString]. *)
Fixpoint DecodeString (s : string) : outcome string :=
  match s with
  | EmptyString => Ok EmptyString
  | String a s' =>
      match hex_value a with
      | None => Err (invalid_byte a)
      | Some hi =>
          match s' with
          | EmptyString => Err (Sentinel "ErrLength" "encoding/hex: odd length hex string")
          | String b s'' =>
              match hex_value b with
              | None => Err (invalid_byte b)
              | Some lo =>
                  let? rest := DecodeString s'' in
                  Ok (String (ascii_of_nat (Z.to_nat (16 * hi + lo))) rest)
              end
          end
      end
  end.

Definition StripAlgPrefix (manifestDigest : string) : outcome string :=
  let '(algo, hexPart, ok) := Cut manifestDigest ":"%char in
  if negb ok || negb (bool_decide (algo = "sha256")) then
    Err (ErrorString ("unsupported manifest digest " +:+ Quote manifestDigest +:+
                      " (only sha256 supported)"))
  else on_err (wrapf "error when decoding manifest digest hex: ") (DecodeString hexPart).

(** ** Fetching *)

Section Fetching.
Context `{OciRegistry}.

Definition ResolveOciRepositoryAndDigest (ociReference : string) :
    outcome OciRepositoryAndDigest :=
  let? ref := on_err (wrapf ("failed parsing OCI reference " +:+ Quote ociReference +:+ ": "))
                (NewRepository ociReference) in
  let at_digest d := {| oci_Registry := ref_Registry ref; oci_Repository := ref_Repository ref;
                        oci_Digest := d |} in
  if HasPrefix (ref_Reference ref) "sha256:" then Ok (at_digest (ref_Reference ref))
  else
    let? desc := on_err (wrapf ("failed to resolve OCI reference " +:+ Quote ociReference +:+ ": "))
                   (Resolve ref (ref_Reference ref)) in
    Ok (at_digest (desc_Digest desc)).

(** The reader is closed at the end, and an error of closing it panics. *)
Definition close_reader {A : Type} (digest : string) (reader : ReadCloser) (result : outcome A) :
    outcome A :=
  match rd_Close reader with
  | Some closeErr => Panic ("failed to close OCI manifest reader for " +:+ digest +:+ ": " +:+
                            Error closeErr)
  | None => result
  end.

Definition fetchManifest (ociRepoAndDigest : OciRepositoryAndDigest) : outcome (list Descriptor) :=
  let digest := oci_Digest ociRepoAndDigest in
  let? reader := on_err (wrapf ("failed to fetch OCI manifest " +:+ digest +:+ ": "))
                   (FetchReference ociRepoAndDigest digest) in
  close_reader digest reader
    (let? bytes := on_err (wrapf ("failed to read OCI manifest " +:+ digest +:+ ": "))
                     (rd_ReadAll reader) in
     on_err (wrapf ("failed to unmarshal OCI manifest " +:+ digest +:+ ": "))
       (UnmarshalManifest bytes)).

Definition FetchLayerMatchingMediaType (ociRepoAndDigest : OciRepositoryAndDigest)
    (mediaType : string) : outcome string :=
  let? layers := fetchManifest ociRepoAndDigest in
  match List.find (λ layer, bool_decide (desc_MediaType layer = mediaType)) layers with
  | Some layer =>
      on_err (wrapf ("failed to fetch layer of mediaType " +:+ mediaType +:+ " from " +:+
                     desc_Digest layer +:+ ": "))
        (FetchAll ociRepoAndDigest layer)
  | None => Err (ErrorString ("no layer of mediaType " +:+ mediaType +:+ " found in manifest " +:+
                              oci_Digest ociRepoAndDigest))
  end.

(** [utilities.OpaBundleLayerMediaType]. *)
Definition OpaBundleLayerMediaType : string := "application/vnd.oci.image.layer.v1.tar+gzip".

(** [FetchOpaBundleLayer] of the [DefaultOpaBundleFetcher]. *)
Definition FetchOpaBundleLayer (ociRepoAndDigest : OciRepositoryAndDigest) : outcome string :=
  FetchLayerMatchingMediaType ociRepoAndDigest OpaBundleLayerMediaType.
End Fetching.

(** The referrers come in pages; the filter treats them one by one. *)
Definition GetOciReferrersMatchingMediaTypeAndPredicate
    (ociRepoAndDigest : OciRepositoryAndDigest) (mediaType : string)
    (predicate : Descriptor → bool) : GoM (list Descriptor) :=
  let! referrers :=
    gom_on_err (wrapf ("failed to list OCI 1.1 referrers for " +:+
                       oci_Digest ociRepoAndDigest +:+ ": "))
      (call (OpListReferrers ociRepoAndDigest mediaType)) in
  match List.filter predicate referrers with
  | [] => Ret (Err (ErrorString ("no OCI 1.1 referrer found for " +:+
                                 oci_Digest ociRepoAndDigest)))
  | matchingReferrers => Ret (Ok matchingReferrers)
  end.

(** ** Theorems *)

(** The hexadecimal text of a byte string. *)
Fixpoint hex_encode (raw : string) : string :=
  match raw with
  | EmptyString => EmptyString
  | String c raw' => hex_digits 2 (Z.of_nat (nat_of_ascii c)) (hex_encode raw')
  end.

Lemma hex_value_digit d : (0 ≤ d < 16)%Z → hex_value (hex_digit d) = Some d.
Proof.
  intros Hd. apply (below_16 (λ d, hex_value (hex_digit d) = Some d)); [done|].
  split_and!; reflexivity.
Qed.

Lemma hex_value_range c d : hex_value c = Some d → (0 ≤ d < 16)%Z.
Proof. unfold hex_value. intros Hd. repeat case_match; simplify_eq; lia. Qed.

Lemma nat_of_ascii_lt c : (nat_of_ascii c < 256)%nat.
Proof. apply nat_ascii_bounded. Qed.

Lemma DecodeString_encode raw : DecodeString (hex_encode raw) = Ok raw.
Proof.
  induction raw as [|c raw IH]; [done|]. pose proof (nat_of_ascii_lt c) as Hc.
  change (hex_encode (String c raw)) with
    (String (hex_digit (Z.of_nat (nat_of_ascii c) / 16 mod 16))
      (String (hex_digit (Z.of_nat (nat_of_ascii c) mod 16)) (hex_encode raw))).
  simpl. rewrite !hex_value_digit by (apply Z.mod_pos_bound; lia).
  rewrite IH. simpl. do 2 f_equal.
  rewrite (Z.mod_small (_ / 16)) by (split; [apply Z.div_pos; lia|apply Z.div_lt_upper_bound; lia]).
  rewrite <-Z.div_mod by lia. by rewrite Nat2Z.id, ascii_nat_embedding.
Qed.

Lemma DecodeString_length s raw :
  DecodeString s = Ok raw → String.length s = (2 * String.length raw)%nat.
Proof.
  remember (String.length s) as n eqn:Hn. revert s raw Hn.
  induction (lt_wf n) as [n _ IH]. intros s raw Hn.
  destruct s as [|a [|b s]]; simpl; [by intros [= <-]|destruct (hex_value a); discriminate|].
  destruct (hex_value a); [|done]. destruct (hex_value b); [|done].
  intros (rest & Hrest & [= <-])%outcome_bind_Ok. simpl in *. subst n.
  rewrite (IH (String.length s) ltac:(lia) s rest eq_refl Hrest). lia.
Qed.

Lemma Cut_spec s c before after :
  Cut s c = (before, after, true) → s = before +:+ String c after.
Proof.
  revert before. induction s as [|d s IH]; intros before; simpl; [done|].
  case_bool_decide as Hd; [intros [= <- <-]; by subst|].
  destruct (Cut s c) as [[b a] []] eqn:Hc; [|done]. intros [= <- <-].
  simpl. by rewrite (IH b eq_refl).
Qed.

(** A reference pinned to a digest resolves to that digest, whatever the registry answers
    at that moment. *)
Lemma ResolveOciRepositoryAndDigest_pinned (now later : OciRegistry) reference ref :
  NewRepository (OciRegistry := now) reference = Ok ref →
  NewRepository (OciRegistry := later) reference = Ok ref →
  HasPrefix (ref_Reference ref) "sha256:" = true →
  ResolveOciRepositoryAndDigest (H := now) reference =
    Ok {| oci_Registry := ref_Registry ref; oci_Repository := ref_Repository ref;
          oci_Digest := ref_Reference ref |} ∧
  ResolveOciRepositoryAndDigest (H := later) reference =
    ResolveOciRepositoryAndDigest (H := now) reference.
Proof.
  unfold ResolveOciRepositoryAndDigest. intros -> -> Hp. cbn [on_err outcome_bind]. by rewrite Hp.
Qed.

(** What is fetched is the first layer of the media type that the manifest lists, and the
    manifest is that of the digest. *)
Lemma FetchLayerMatchingMediaType_Ok `{OciRegistry} repo mediaType content :
  FetchLayerMatchingMediaType repo mediaType = Ok content →
  ∃ before layer after, fetchManifest repo = Ok (before ++ layer :: after) ∧
    desc_MediaType layer = mediaType ∧ Forall (λ l, desc_MediaType l ≠ mediaType) before ∧
    FetchAll repo layer = Ok content.
Proof.
  unfold FetchLayerMatchingMediaType. intros (layers & Hm & Hf)%outcome_bind_Ok.
  rewrite Hm. clear Hm. induction layers as [|l layers IH]; [done|]. cbn [List.find] in Hf.
  case_bool_decide as Hl.
  - apply on_err_Ok in Hf. by exists [], l, layers.
  - destruct (IH Hf) as (before & layer & after & [= ->] & Ht & Hb & Hc).
    exists (l :: before), layer, after. split_and!; [done|done|by constructor|done].
Qed.

(** Stripping the algorithm of a digest gives the hash: it undoes the writing of any
    hash in hexadecimal behind [sha256:], and what it accepts is such a text, two digits
    for each byte of the result; a digest of another algorithm, or with an odd or
    invalid text, is an error. *)
Theorem StripAlgPrefix_spec :
  (∀ raw, StripAlgPrefix ("sha256:" +:+ hex_encode raw) = Ok raw) ∧
  (∀ d raw, StripAlgPrefix d = Ok raw →
     ∃ hex, d = "sha256:" +:+ hex ∧ DecodeString hex = Ok raw ∧
            String.length hex = (2 * String.length raw)%nat) ∧
  (∀ d w, StripAlgPrefix d ≠ Panic w).
Proof.
  split_and!.
  - intros raw. unfold StripAlgPrefix. simpl.
    change ("" +:+ hex_encode raw) with (hex_encode raw). by rewrite DecodeString_encode.
  - intros d raw. unfold StripAlgPrefix. destruct (Cut d ":") as [[algo hex] []] eqn:Hc; [|done].
    simpl. case_bool_decide as Ha; simpl; [|done]. intros Hr%on_err_Ok.
    exists hex. split_and!; [|done|by apply DecodeString_length].
    apply Cut_spec in Hc. by subst.
  - intros d w. unfold StripAlgPrefix. destruct (Cut d ":") as [[algo hex] b].
    destruct (_ || _); [done|].
    assert (∀ s w, DecodeString s ≠ Panic w) as Hd.
    { intros s. remember (String.length s) as n eqn:Hn. revert s Hn.
      induction (lt_wf n) as [n _ IH]. intros [|a [|b' s]] Hn w'; simpl; [done|by case_match|].
      destruct (hex_value a); [|done]. destruct (hex_value b'); [|done].
      simpl in Hn. specialize (IH (String.length s) ltac:(lia) s eq_refl).
      destruct (DecodeString s) as [x|e|w1]; simpl; by try specialize (IH w1). }
    specialize (Hd hex). destruct (DecodeString hex); simpl; by try specialize (Hd why).
Qed.
