(* ===== verification/Sigstore.v ===== *)
(** * Provenance of OPA bundles: [pkg/validation/sigstore_bundle_validation.go] and
      [pkg/utilities/sigstore_helpers.go]

    A bundle is trusted when one of its Sigstore attestations has a certificate that
    verifies and names the expected source.  The attestations are pulled and verified by at
    most ten goroutines at a time, which share a flag, two lists and a cancellation; they
    are the step relation [gstep].  The theorems hold for every interleaving: what is
    accepted was verified, what should be accepted is, the reason of a rejection does not
    depend on the schedule, and every run ends. *)
From stdpp Require Import base gmap strings list sorting.
From Stdlib Require Import ZArith Ascii Lia Wellfounded Wf_nat.
From S2P Require Import Prelude GoStrings Kube Api Model Cluster ProgTheory Oci.
Open Scope go_scope.

(** ** The libraries *)

(** [certificate.Summary], as far as it is read. *)
Record Summary := {
  sum_SourceRepositoryURI : string;
  sum_SourceRepositoryRef : string;
  sum_BuildConfigURI : string;
}.

(** [sigstorebundle.Bundle]: the number of transparency log entries, unless the embedded
    bundle or its verification material is nil. *)
Record SigstoreBundle := { sb_TlogEntries : option nat; sb_Content : string }.

(** [verify.VerifierOption]. *)
Inductive VerifierOption :=
| WithSignedCertificateTimestamps (n : nat)
| WithTransparencyLog (n : nat)
| WithObserverTimestamps (n : nat)
| WithSignedTimestamps (n : nat).

(** [verify.VerificationResult]: the signature and its certificate may be nil. *)
Record VerificationResult := { vr_Signature : option (option Summary) }.

Class SigstoreLib := {
  TrustedMaterial : Type;
  Verifier : Type;
  CertificateIdentity : Type;
  (** [tuf.New] and [root.GetTrustedRoot] for a mirror ([None] is the default one). *)
  LoadTrustedRoot : option string → outcome TrustedMaterial;
  (** [verify.NewVerifier]; the root may be nil. *)
  NewVerifier : option TrustedMaterial → list VerifierOption → outcome Verifier;
  (** [verifier.Verify] for an artifact's SHA-256 and a certificate identity. *)
  Verify : Verifier → SigstoreBundle → string → CertificateIdentity → outcome VerificationResult;
  (** [json.Unmarshal] into a [Bundle]. *)
  UnmarshalBundle : string → outcome SigstoreBundle;
}.

(** ** Trusted roots *)

(** A [sync.Once] and the variable that it fills. *)
Record Once (A : Type) := { once_done : bool; once_value : option A }.
Arguments once_done {A}.
Arguments once_value {A}.
Arguments Build_Once {A}.

Definition gitHubTufBaseUrl : string := "https://tuf-repo.github.com".

Section Helpers.
Context `{SigstoreLib}.

(** The body of [PublicTrustedRoot] and [GitHubTrustedRoot]: only the first call loads, and
    only the first call can return an error.  [root.GetTrustedRoot] returns a nil material
    with its error. *)
Definition trusted_root (baseUrl : option string) (once : Once TrustedMaterial) :
    outcome (option TrustedMaterial) * Once TrustedMaterial :=
  if once_done once then (Ok (once_value once), once)
  else
    match LoadTrustedRoot baseUrl with
    | Ok material => (Ok (Some material), Build_Once true (Some material))
    | Err e => (Err e, Build_Once true None)
    | Panic w => (Panic w, Build_Once true None)
    end.
Definition PublicTrustedRoot := trusted_root None.
Definition GitHubTrustedRoot := trusted_root (Some gitHubTufBaseUrl).

(** [public] and [github] are what the functions for the trusted roots return. *)
Definition GetBundleVerifier (public github : outcome (option TrustedMaterial))
    (sigstoreBundle : SigstoreBundle) : outcome Verifier :=
  match sb_TlogEntries sigstoreBundle with
  | None => Err (ErrorString "invalid sigstore bundle: missing verification material")
  | Some n =>
      if (0 <? n)%nat then
        let? trustedRoot :=
          on_err (wrapf "failed to initialize public good trusted root: ") public in
        NewVerifier trustedRoot
          [WithSignedCertificateTimestamps 1; WithTransparencyLog 1; WithObserverTimestamps 1]
      else
        let? trustedRoot :=
          on_err (wrapf "failed to initialize GitHub's Sigstore trusted root: ") github in
        NewVerifier trustedRoot [WithSignedTimestamps 1]
  end.

Definition GetRepositorySourceFromVerifiedSigstoreBundleCertificate
    (certificateSummary : Summary) : OpaBundleSource :=
  let gitHubUri := "https://github.com" in
  let '(workflowFileURI, _, ok) := Cut (sum_BuildConfigURI certificateSummary) "@"%char in
  let repoPrefix := sum_SourceRepositoryURI certificateSummary +:+ "/" in
  {| src_Repository := TrimPrefix (sum_SourceRepositoryURI certificateSummary) (gitHubUri +:+ "/");
     src_Workflow := if ok : bool then TrimPrefix workflowFileURI repoPrefix else "";
     src_Ref := sum_SourceRepositoryRef certificateSummary |}.

(** ** One attestation *)

Definition SigstoreBundleMediaType : string := "application/vnd.dev.sigstore.bundle.v0.3+json".
Definition SigstoreBundleContentAnnotationKey : string := "dev.sigstore.bundle.content".
Definition SigstoreBundleContentAnnotationValue : string := "dsse-envelope".
Definition SigstoreBundlePredicateTypeAnnotationKey : string :=
  "dev.sigstore.bundle.predicateType".
Definition SigstoreSlsaProvenanceV1 : string := "https://slsa.dev/provenance/v1".

Definition VerifySigstoreBundleCertificate (public github : outcome (option TrustedMaterial))
    (sigstoreBundle : SigstoreBundle) (artifactSHA256 : string) (certID : CertificateIdentity) :
    outcome Summary :=
  let? verifier := on_err (λ _, ErrorString "failed to get bundle verifier")
                     (GetBundleVerifier public github sigstoreBundle) in
  let? result := on_err (λ _, ErrorString "sigstore bundle signature verification failed")
                   (Verify verifier sigstoreBundle artifactSHA256 certID) in
  match vr_Signature result with
  | Some (Some certificate) => Ok certificate
  | _ => Err (ErrorString "verification result missing signing certificate")
  end.

Context `{OciRegistry}.

(** The loop of [pullSigstoreBundleBytes]: the first layer of the media type that is not
    empty; the first one that cannot be fetched is an error. *)
Fixpoint pull_successors (repo : OciRepositoryAndDigest) (referrer : Descriptor)
    (successors : list Descriptor) : outcome string :=
  match successors with
  | [] => Err (ErrorString ("no Sigstore bundle layer in referrer " +:+ desc_Digest referrer))
  | successor :: rest =>
      if negb (bool_decide (desc_MediaType successor = SigstoreBundleMediaType))
      then pull_successors repo referrer rest
      else
        let? bytes := on_err (wrapf ("failed to fetch Sigstore bundle " +:+
                                     desc_Digest successor +:+ ": "))
                        (FetchAll repo successor) in
        if (0 <? String.length bytes)%nat then Ok bytes
        else pull_successors repo referrer rest
  end.

Definition pullSigstoreBundleBytes (repo : OciRepositoryAndDigest) (referrer : Descriptor) :
    outcome string :=
  let? successors := on_err (wrapf ("failed to pull Sigstore referrer " +:+
                                    desc_Digest referrer +:+ ": "))
                       (Successors repo referrer) in
  pull_successors repo referrer successors.

Definition fetchReferrerBundle (repo : OciRepositoryAndDigest) (referrer : Descriptor) :
    outcome SigstoreBundle :=
  let? bundleBytes := on_err (wrapf "failed to fetch Sigstore bundle bytes: ")
                        (pullSigstoreBundleBytes repo referrer) in
  on_err (wrapf "failed to decode Sigstore bundle bytes: ") (UnmarshalBundle bundleBytes).

(** What a goroutine finds out about a referrer: the source that its certificate names. *)
Definition attested_source (public github : outcome (option TrustedMaterial))
    (repo : OciRepositoryAndDigest) (artifactSHA256 : string) (certID : CertificateIdentity)
    (referrer : Descriptor) : outcome OpaBundleSource :=
  let? bundle := fetchReferrerBundle repo referrer in
  let? certificateSummary :=
    VerifySigstoreBundleCertificate public github bundle artifactSHA256 certID in
  Ok (GetRepositorySourceFromVerifiedSigstoreBundleCertificate certificateSummary).
End Helpers.

(** ** Sources *)

Definition SatisfiesVerificationSource (actual expected : OpaBundleSource) : bool :=
  bool_decide (src_Repository actual = src_Repository expected) &&
  (bool_decide (src_Ref expected = "") || bool_decide (src_Ref actual = src_Ref expected)) &&
  (bool_decide (src_Workflow expected = "") ||
   bool_decide (src_Workflow actual = src_Workflow expected)).

Definition sourceRepositoryToString (sourceRepository verificationSource : OpaBundleSource) :
    string :=
  "Repository: " +:+ src_Repository sourceRepository +:+
  (if bool_decide (src_Workflow verificationSource = "") then ""
   else ", Workflow: " +:+ src_Workflow sourceRepository) +:+
  (if bool_decide (src_Ref verificationSource = "") then ""
   else ", Ref: " +:+ src_Ref sourceRepository).

(** [slices.Compact]. *)
Fixpoint Compact (l : list string) : list string :=
  match l with
  | a :: (b :: _) as l' => if bool_decide (a = b) then Compact l' else a :: Compact l'
  | _ => l
  end.

Definition sourceRepositoriesToString (sourceRepositories : list OpaBundleSource)
    (verificationSource : OpaBundleSource) : string :=
  match sourceRepositories with
  | [] => "    - <none>"
  | _ =>
      Join (map (λ source, "    - " +:+ source)
              (Compact (Sort (map (λ s, sourceRepositoryToString s verificationSource)
                                sourceRepositories)))) newline
  end.

(** ** The goroutines of [ValidateSigstoreBundlesMatchesExpectedSource] *)

Definition maxConcurrentSigstoreBundlePullAndVerifies : nat := 10.

Definition ErrSourceMismatch : error := Sentinel "ErrSourceMismatch" "source mismatch".
Definition ErrNoMatchingSigstoreBundleFound : error :=
  Sentinel "ErrNoMatchingSigstoreBundleFound"
    "no Sigstore bundles with valid certificate matching verification source".

(** Where the loop over the referrers is: before the next one, waiting to start a goroutine
    for one, or behind the loop in [group.Wait]. *)
Inductive main_state :=
| MLoop (todo : list Descriptor)
| MSpawn (referrer : Descriptor) (todo : list Descriptor)
| MWait.

(** Where a goroutine is: started, past the check of the context, or past [hasValid.Store]
    and before [cancel]. *)
Inductive task :=
| TNew (referrer : Descriptor)
| TChecked (referrer : Descriptor)
| TFound (referrer : Descriptor).

Record gstate := {
  g_main : main_state;
  g_tasks : list task;
  g_hasValid : bool;
  g_cancelled : bool;
  g_notMatching : list OpaBundleSource;
  g_errs : list error;
}.

Definition g_init (referrers : list Descriptor) : gstate :=
  {| g_main := MLoop referrers; g_tasks := []; g_hasValid := false; g_cancelled := false;
     g_notMatching := []; g_errs := [] |}.

Definition g_with_main (g : gstate) (m : main_state) : gstate :=
  {| g_main := m; g_tasks := g_tasks g; g_hasValid := g_hasValid g;
     g_cancelled := g_cancelled g; g_notMatching := g_notMatching g; g_errs := g_errs g |}.
Definition g_with_tasks (g : gstate) (l : list task) : gstate :=
  {| g_main := g_main g; g_tasks := l; g_hasValid := g_hasValid g;
     g_cancelled := g_cancelled g; g_notMatching := g_notMatching g; g_errs := g_errs g |}.
Definition g_set_valid (g : gstate) : gstate :=
  {| g_main := g_main g; g_tasks := g_tasks g; g_hasValid := true;
     g_cancelled := g_cancelled g; g_notMatching := g_notMatching g; g_errs := g_errs g |}.
Definition g_cancel (g : gstate) : gstate :=
  {| g_main := g_main g; g_tasks := g_tasks g; g_hasValid := g_hasValid g;
     g_cancelled := true; g_notMatching := g_notMatching g; g_errs := g_errs g |}.
Definition g_add_source (g : gstate) (s : OpaBundleSource) : gstate :=
  {| g_main := g_main g; g_tasks := g_tasks g; g_hasValid := g_hasValid g;
     g_cancelled := g_cancelled g; g_notMatching := g_notMatching g ++ [s];
     g_errs := g_errs g |}.
Definition g_add_error (g : gstate) (e : error) : gstate :=
  {| g_main := g_main g; g_tasks := g_tasks g; g_hasValid := g_hasValid g;
     g_cancelled := g_cancelled g; g_notMatching := g_notMatching g;
     g_errs := g_errs g ++ [e] |}.

Section Group.
(** What a goroutine finds out about a referrer, and the source that is expected. *)
Context (attest : Descriptor → outcome OpaBundleSource) (expectedSource : OpaBundleSource).

(** One step of the loop, of a goroutine, or of the deadline of the caller's context, which
    passes only when [deadline] allows it.  A goroutine whose context is cancelled while it
    works may fail with any error. *)
Inductive gstep (deadline : bool) (g : gstate) : gstate → Prop :=
| g_break d todo : g_main g = MLoop (d :: todo) → g_hasValid g = true →
    gstep deadline g (g_with_main g MWait)
| g_next d todo : g_main g = MLoop (d :: todo) → g_hasValid g = false →
    gstep deadline g (g_with_main g (MSpawn d todo))
| g_exhausted : g_main g = MLoop [] → gstep deadline g (g_with_main g MWait)
| g_spawn d todo : g_main g = MSpawn d todo →
    (length (g_tasks g) < maxConcurrentSigstoreBundlePullAndVerifies)%nat →
    gstep deadline g (g_with_tasks (g_with_main g (MLoop todo)) (g_tasks g ++ [TNew d]))
| g_skip l1 d l2 : g_tasks g = l1 ++ TNew d :: l2 → g_cancelled g = true →
    gstep deadline g (g_with_tasks g (l1 ++ l2))
| g_start l1 d l2 : g_tasks g = l1 ++ TNew d :: l2 → g_cancelled g = false →
    gstep deadline g (g_with_tasks g (l1 ++ TChecked d :: l2))
| g_valid l1 d l2 source : g_tasks g = l1 ++ TChecked d :: l2 → attest d = Ok source →
    SatisfiesVerificationSource source expectedSource = true →
    gstep deadline g (g_with_tasks (g_set_valid g) (l1 ++ TFound d :: l2))
| g_mismatch l1 d l2 source : g_tasks g = l1 ++ TChecked d :: l2 → attest d = Ok source →
    SatisfiesVerificationSource source expectedSource = false →
    gstep deadline g (g_with_tasks (g_add_source g source) (l1 ++ l2))
| g_error l1 d l2 e : g_tasks g = l1 ++ TChecked d :: l2 → attest d = Err e →
    gstep deadline g (g_with_tasks (g_add_error g e) (l1 ++ l2))
| g_interrupted l1 d l2 e : g_tasks g = l1 ++ TChecked d :: l2 → g_cancelled g = true →
    gstep deadline g (g_with_tasks (g_add_error g e) (l1 ++ l2))
| g_found l1 d l2 : g_tasks g = l1 ++ TFound d :: l2 →
    gstep deadline g (g_with_tasks (g_cancel g) (l1 ++ l2))
| g_deadline : deadline = true → g_cancelled g = false → gstep deadline g (g_cancel g).

(** [group.Wait] returns when every goroutine has returned. *)
Definition g_final (g : gstate) : bool :=
  match g_main g, g_tasks g with MWait, [] => true | _, _ => false end.

Definition mismatch_error (verifiedSourcesNotMatching : list OpaBundleSource) : error :=
  let nl := newline in
  Wrapped (Error ErrSourceMismatch +:+ ": OPA bundle verification failed:" +:+ nl +:+
           "  expected source:" +:+ nl +:+ "    - " +:+
           sourceRepositoryToString expectedSource expectedSource +:+ nl +:+
           "  found sources:" +:+ nl +:+
           sourceRepositoriesToString verifiedSourcesNotMatching expectedSource)
    ErrSourceMismatch.

(** What the function returns behind [group.Wait]. *)
Definition g_result (g : gstate) : outcome unit :=
  if g_hasValid g then Ok tt
  else match g_notMatching g, g_errs g with
       | _ :: _, _ => Err (mismatch_error (g_notMatching g))
       | [], _ :: _ => Err (Joined (g_errs g))
       | [], [] => Err (wrapf "verification failed: " ErrNoMatchingSigstoreBundleFound)
       end.

(** A result of the concurrent part for these referrers. *)
Definition group_returns (deadline : bool) (referrers : list Descriptor) (r : outcome unit) :
    Prop :=
  ∃ g, rtc (gstep deadline) (g_init referrers) g ∧ g_final g = true ∧ g_result g = r.
End Group.

(** The whole function: the digest first, then the goroutines. *)
Definition ValidateSigstoreBundlesMatchesExpectedSource `{SigstoreLib} `{OciRegistry}
    (public github : outcome (option TrustedMaterial)) (certID : CertificateIdentity)
    (deadline : bool) (ociRepositoryAndDigest : OciRepositoryAndDigest)
    (sigstoreReferrers : list Descriptor) (expectedSource : OpaBundleSource)
    (r : outcome unit) : Prop :=
  match StripAlgPrefix (oci_Digest ociRepositoryAndDigest) with
  | Err _ =>
      r = Err (ErrorString ("failed to strip alg prefix artifact SHA256 for for OPA bundle " +:+
                 oci_Registry ociRepositoryAndDigest +:+ "/" +:+
                 oci_Repository ociRepositoryAndDigest +:+ "@" +:+
                 oci_Digest ociRepositoryAndDigest))
  | Panic w => r = Panic w
  | Ok artifactSHA256 =>
      group_returns
        (attested_source public github ociRepositoryAndDigest artifactSHA256 certID)
        expectedSource deadline sigstoreReferrers r
  end.

(** ** Lemmas *)

Section GroupFacts.
Context (attest : Descriptor → outcome OpaBundleSource) (expectedSource : OpaBundleSource).
Context (referrers : list Descriptor) (deadline : bool).

Definition is_valid (d : Descriptor) : bool :=
  match attest d with
  | Ok source => SatisfiesVerificationSource source expectedSource
  | _ => false
  end.
Definition source_of (d : Descriptor) : option OpaBundleSource :=
  match attest d with Ok source => Some source | _ => None end.
Definition error_of (d : Descriptor) : option error :=
  match attest d with Err e => Some e | _ => None end.

(** The referrers that are still to be looked at. *)
Definition task_pending (t : task) : list Descriptor :=
  match t with TNew d | TChecked d => [d] | TFound _ => [] end.
Definition main_pending (m : main_state) : list Descriptor :=
  match m with MLoop todo => todo | MSpawn d todo => d :: todo | MWait => [] end.
Definition pending (g : gstate) : list Descriptor :=
  concat (map task_pending (g_tasks g)) ++ main_pending (g_main g).

(** [done_] were looked at, in this order, and none of them was valid. *)
Definition looked_at (g : gstate) (done_ : list Descriptor) : Prop :=
  referrers ≡ₚ done_ ++ pending g ∧ g_notMatching g = omap source_of done_ ∧
  g_errs g = omap error_of done_ ∧ Forall (λ d, is_valid d = false) done_.

Record group_inv (g : gstate) : Prop := {
  inv_valid : g_hasValid g = true → ∃ d, d ∈ referrers ∧ is_valid d = true;
  inv_pending : ∀ d, d ∈ pending g → d ∈ referrers;
  inv_found : ∀ d, TFound d ∈ g_tasks g → g_hasValid g = true;
  inv_cancelled : g_cancelled g = true → deadline = true ∨ g_hasValid g = true;
  inv_looked : deadline = false → g_hasValid g = false → ∃ done_, looked_at g done_;
  inv_bound : (length (g_tasks g) ≤ maxConcurrentSigstoreBundlePullAndVerifies)%nat;
}.

Lemma pending_tasks l1 t l2 :
  concat (map task_pending (l1 ++ t :: l2)) ≡ₚ
  task_pending t ++ concat (map task_pending (l1 ++ l2)).
Proof. rewrite !map_app, !concat_app. simpl. apply Permutation_app_swap_app. Qed.

Lemma group_inv_init : group_inv (g_init referrers).
Proof.
  split; simpl; try done.
  - by intros d ?%not_elem_of_nil.
  - intros _ _. exists []. by split_and!.
  - lia.
Qed.

(** A step that only moves referrers around keeps the invariant. *)
Lemma group_inv_move g g' :
  group_inv g → pending g' ≡ₚ pending g → g_hasValid g' = g_hasValid g →
  g_cancelled g' = g_cancelled g → g_notMatching g' = g_notMatching g →
  g_errs g' = g_errs g → (∀ d, TFound d ∈ g_tasks g' → TFound d ∈ g_tasks g) →
  (length (g_tasks g') ≤ maxConcurrentSigstoreBundlePullAndVerifies)%nat → group_inv g'.
Proof.
  intros [Hv Hp Hf Hc Hl Hb] Hpend Hv' Hc' Hn' He' Hf' Hb'. split; rewrite ?Hv', ?Hc'; try done.
  - intros d Hd. apply Hp. by rewrite <-Hpend.
  - intros d Hd. by eapply Hf, Hf'.
  - intros Hd Hval. destruct (Hl Hd Hval) as (done_ & Hr & Hn & He & Ha).
    exists done_. split_and!; [by rewrite Hpend|congruence|congruence|done].
Qed.

(** A goroutine that is done with [d] without having found a valid certificate. *)
Lemma group_inv_looked g l1 d l2 sources errs :
  group_inv g → g_tasks g = l1 ++ TChecked d :: l2 →
  (g_cancelled g = false → is_valid d = false ∧
     sources = g_notMatching g ++ option_list (source_of d) ∧
     errs = g_errs g ++ option_list (error_of d)) →
  group_inv {| g_main := g_main g; g_tasks := l1 ++ l2; g_hasValid := g_hasValid g;
               g_cancelled := g_cancelled g; g_notMatching := sources; g_errs := errs |}.
Proof.
  intros [Hv Hp Hf Hc Hl Hb] Ht Hd.
  assert (pending g ≡ₚ d :: pending (g_with_tasks g (l1 ++ l2))) as Hpend.
  { unfold pending. simpl. by rewrite Ht, pending_tasks. }
  split; simpl; try done.
  - intros x Hx. apply Hp. rewrite Hpend. by right.
  - intros x Hx. apply (Hf x). rewrite Ht. set_solver.
  - intros Hdl Hval. destruct (Hl Hdl Hval) as (done_ & Hr & Hn & He & Ha).
    assert (g_cancelled g = false) as Hcf.
    { destruct (g_cancelled g); [|done]. destruct (Hc eq_refl); congruence. }
    destruct (Hd Hcf) as (Hnv & -> & ->). exists (done_ ++ [d]). split_and!; simpl.
    + rewrite Hr, Hpend, <-app_assoc. done.
    + rewrite Hn, omap_app. simpl. by destruct (source_of d).
    + rewrite He, omap_app. simpl. by destruct (error_of d).
    + apply Forall_app. by rewrite Forall_singleton.
  - rewrite Ht in Hb. rewrite length_app in *. simpl in Hb. lia.
Qed.

Lemma group_inv_step g g' : group_inv g → gstep attest expectedSource deadline g g' → group_inv g'.
Proof.
  intros Hinv Hs. pose proof Hinv as [Hv Hp Hf Hc Hl Hb].
  destruct Hs as [d todo Hm Hval|d todo Hm Hval|Hm|d todo Hm Hlen|l1 d l2 Ht Hcan
    |l1 d l2 Ht Hcan|l1 d l2 s Ht Ha Hsat|l1 d l2 s Ht Ha Hsat|l1 d l2 e Ht Ha
    |l1 d l2 e Ht Hcan|l1 d l2 Ht|Hd Hcan].
  - (* break *)
    split; simpl; auto; [|by congruence].
    intros x Hx. apply Hp. unfold pending in *. simpl in *. set_solver.
  - apply (group_inv_move g); try done. unfold pending. simpl. by rewrite Hm.
  - apply (group_inv_move g); try done. unfold pending. simpl. by rewrite Hm.
  - apply (group_inv_move g); try done; simpl.
    + unfold pending. simpl. rewrite Hm, map_app, concat_app. simpl.
      by rewrite <-app_assoc.
    + set_solver.
    + rewrite length_app. simpl. lia.
  - (* skip *)
    split; simpl; auto.
    + intros x Hx. apply Hp. unfold pending in *. simpl in *.
      rewrite Ht, pending_tasks, <-app_assoc. apply elem_of_app. by right.
    + intros x Hx. apply (Hf x). rewrite Ht. set_solver.
    + intros Hdl Hval. destruct (Hc Hcan); congruence.
    + rewrite Ht in Hb. rewrite length_app in *. simpl in Hb. lia.
  - apply (group_inv_move g); try done; simpl.
    + unfold pending. simpl. rewrite Ht, !pending_tasks. done.
    + rewrite Ht. set_solver.
    + rewrite Ht in Hb. by rewrite !length_app in *.
  - (* valid *)
    assert (d ∈ referrers ∧ is_valid d = true) as Hval.
    { split; [|unfold is_valid; by rewrite Ha].
      apply Hp. unfold pending. rewrite Ht, pending_tasks. set_solver. }
    split; simpl; try done; eauto.
    + intros x Hx. apply Hp. unfold pending in *. simpl in *.
      rewrite pending_tasks in Hx. rewrite Ht, pending_tasks, <-app_assoc.
      apply elem_of_app. by right.
    + rewrite Ht in Hb. by rewrite !length_app in *.
  - apply (group_inv_looked g l1 d l2); [done|done|]. intros _.
    unfold is_valid, source_of, error_of. by rewrite Ha, Hsat, app_nil_r.
  - apply (group_inv_looked g l1 d l2); [done|done|]. intros _.
    unfold is_valid, source_of, error_of. by rewrite Ha, app_nil_r.
  - apply (group_inv_looked g l1 d l2); [done|done|]. congruence.
  - (* found *)
    assert (g_hasValid g = true) as Hval by (apply (Hf d); rewrite Ht; set_solver).
    split; simpl; [auto| |auto|auto|congruence|].
    + intros x Hx. apply Hp. unfold pending in *. simpl in *.
      rewrite Ht, pending_tasks, <-app_assoc. apply elem_of_app. by right.
    + rewrite Ht in Hb. rewrite length_app in *. simpl in Hb. lia.
  - split; simpl; auto.
Qed.

Lemma group_inv_reach g :
  rtc (gstep attest expectedSource deadline) (g_init referrers) g → group_inv g.
Proof.
  intros Hr. apply rtc_nsteps in Hr as [n Hr].
  assert (∀ n g0 g, group_inv g0 → nsteps (gstep attest expectedSource deadline) n g0 g → group_inv g)
    as Hind.
  { clear g n Hr. intros n. induction n as [|n IH]; intros g0 g Hg Hn; inversion Hn; subst; [done|].
    by eapply IH; [eapply group_inv_step|]. }
  by eapply Hind; [apply group_inv_init|].
Qed.
End GroupFacts.

(** ** Results *)

Section GroupResults.
Context (attest : Descriptor → outcome OpaBundleSource) (expectedSource : OpaBundleSource).
Context (referrers : list Descriptor).

Lemma g_final_inv g : g_final g = true → g_main g = MWait ∧ g_tasks g = [].
Proof. unfold g_final. by repeat case_match. Qed.

Lemma omap_nil_perm {A B : Type} (f : A → option B) l l' : l ≡ₚ l' → omap f l ≡ₚ omap f l'.
Proof.
  induction 1 as [|x l l' _ IH|x y l|l1 l2 l3 _ IH1 _ IH2]; simpl; [done| | |by etrans].
  - destruct (f x); by rewrite ?IH.
  - destruct (f x), (f y); try done. constructor.
Qed.

(** Whatever the schedule, and also when the deadline passes, only a verified certificate of
    the expected source is accepted. *)
Lemma group_accepts deadline g :
  rtc (gstep attest expectedSource deadline) (g_init referrers) g →
  g_result expectedSource g = Ok tt →
  ∃ d source, d ∈ referrers ∧ attest d = Ok source ∧
    SatisfiesVerificationSource source expectedSource = true.
Proof.
  intros [Hv _ _ _ _ _]%(group_inv_reach attest expectedSource referrers) Hr.
  unfold g_result in Hr. destruct (g_hasValid g); [|by repeat case_match].
  destruct (Hv eq_refl) as (d & Hd & Hval). unfold is_valid in Hval.
  destruct (attest d) as [source|e|w] eqn:Ha; [|done..]. eauto.
Qed.

(** Without a deadline nothing is left out. *)
Lemma group_complete g :
  rtc (gstep attest expectedSource false) (g_init referrers) g → g_final g = true →
  g_hasValid g = false →
  ∃ done_, referrers ≡ₚ done_ ∧ g_notMatching g = omap (source_of attest) done_ ∧
    g_errs g = omap (error_of attest) done_ ∧
    Forall (λ d, is_valid attest expectedSource d = false) done_.
Proof.
  intros [_ _ _ _ Hl _]%(group_inv_reach attest expectedSource referrers) [Hm Ht]%g_final_inv Hval.
  destruct (Hl eq_refl Hval) as (done_ & Hp & Hn & He & Ha).
  exists done_. unfold pending in Hp. rewrite Hm, Ht in Hp. simpl in Hp.
  by rewrite app_nil_r in Hp.
Qed.

Lemma mismatch_error_perm l l' : l ≡ₚ l' → mismatch_error expectedSource l = mismatch_error expectedSource l'.
Proof.
  intros Hl. unfold mismatch_error. do 2 f_equal.
  assert (sourceRepositoriesToString l expectedSource = sourceRepositoriesToString l' expectedSource)
    as ->; [|done].
  unfold sourceRepositoriesToString. rewrite (Sort_perm _ (map (λ s, sourceRepositoryToString s expectedSource) l')).
  - destruct l as [|a l], l' as [|b l']; try done.
    + by apply Permutation_nil_cons in Hl.
    + symmetry in Hl. by apply Permutation_nil_cons in Hl.
  - by apply Permutation_map.
Qed.
End GroupResults.

(** ** Termination *)

Definition task_weight (t : task) : nat :=
  match t with TNew _ => 3 | TChecked _ => 2 | TFound _ => 1 end.
Definition main_weight (m : main_state) : nat :=
  match m with
  | MLoop todo => 1 + 6 * length todo
  | MSpawn _ todo => 6 + 6 * length todo
  | MWait => 0
  end.
(** Every step makes this smaller. *)
Definition measure (g : gstate) : nat :=
  main_weight (g_main g) + sum_list_with task_weight (g_tasks g) +
  if g_cancelled g then 0 else 1.

Section GroupTermination.
Context (attest : Descriptor → outcome OpaBundleSource) (expectedSource : OpaBundleSource).

Lemma weight_tasks l1 t l2 :
  sum_list_with task_weight (l1 ++ t :: l2) =
  (task_weight t + sum_list_with task_weight (l1 ++ l2))%nat.
Proof. rewrite !sum_list_with_app. simpl. lia. Qed.

Lemma gstep_measure deadline g g' :
  gstep attest expectedSource deadline g g' → (measure g' < measure g)%nat.
Proof.
  destruct 1 as [d todo Hm Hval|d todo Hm Hval|Hm|d todo Hm Hlen|l1 d l2 Ht Hcan
    |l1 d l2 Ht Hcan|l1 d l2 s Ht Ha Hsat|l1 d l2 s Ht Ha Hsat|l1 d l2 e Ht Ha
    |l1 d l2 e Ht Hcan|l1 d l2 Ht|Hd Hcan]; unfold measure; simpl;
    rewrite ?Hm, ?Ht, ?Hcan, ?weight_tasks, ?app_nil_r; simpl; lia.
Qed.

(** A goroutine that has not returned can go on. *)
Lemma task_steps d g t l :
  (∀ r w, attest r ≠ Panic w) → g_tasks g = t :: l → ∃ g', gstep attest expectedSource d g g'.
Proof.
  intros Hp Ht. destruct t as [r|r|r].
  - destruct (g_cancelled g) eqn:Hc; eexists; [by apply (g_skip _ _ _ _ [] r l)|by apply (g_start _ _ _ _ [] r l)].
  - specialize (Hp r). destruct (attest r) as [s|e|w] eqn:Ha; [| |by destruct (Hp w)].
    + destruct (SatisfiesVerificationSource s expectedSource) eqn:Hs; eexists;
        [by eapply (g_valid _ _ _ _ [] r l)|by eapply (g_mismatch _ _ _ _ [] r l)].
    + eexists. by eapply (g_error _ _ _ _ [] r l).
  - eexists. by apply (g_found _ _ _ _ [] r l).
Qed.

Lemma group_progress deadline g :
  (∀ d w, attest d ≠ Panic w) → g_final g = false → ∃ g', gstep attest expectedSource deadline g g'.
Proof.
  intros Hp Hf. destruct (g_tasks g) as [|t l] eqn:Ht; [|by eapply task_steps].
  destruct (g_main g) as [[|d todo]|d todo|] eqn:Hm.
  - eexists. by apply g_exhausted.
  - destruct (g_hasValid g) eqn:Hv; eexists; [by eapply g_break|by eapply g_next].
  - eexists. eapply g_spawn; [done|]. rewrite Ht. simpl. unfold maxConcurrentSigstoreBundlePullAndVerifies. lia.
  - unfold g_final in Hf. by rewrite Hm, Ht in Hf.
Qed.
End GroupTermination.

(** ** Properties *)

(** A source is the expected one: its repository, and the workflow and the reference where
    they are asked for. *)
Definition is_expected_source (actual expected : OpaBundleSource) : Prop :=
  src_Repository actual = src_Repository expected ∧
  (src_Ref expected ≠ "" → src_Ref actual = src_Ref expected) ∧
  (src_Workflow expected ≠ "" → src_Workflow actual = src_Workflow expected).

Lemma SatisfiesVerificationSource_spec actual expected :
  SatisfiesVerificationSource actual expected = true ↔ is_expected_source actual expected.
Proof.
  unfold SatisfiesVerificationSource, is_expected_source.
  rewrite !andb_true_iff, !orb_true_iff, !bool_decide_eq_true.
  destruct (decide (src_Ref expected = "")), (decide (src_Workflow expected = "")); naive_solver.
Qed.

(** The certificate of a referrer's bundle verified for the artifact and the identity, and
    its source is the expected one. *)
Definition provenance `{SigstoreLib} `{OciRegistry}
    (public github : outcome (option TrustedMaterial)) (certID : CertificateIdentity)
    (oci : OciRepositoryAndDigest) (expectedSource : OpaBundleSource) (d : Descriptor) : Prop :=
  ∃ raw bundle verifier result certificate,
    StripAlgPrefix (oci_Digest oci) = Ok raw ∧ fetchReferrerBundle oci d = Ok bundle ∧
    GetBundleVerifier public github bundle = Ok verifier ∧
    Verify verifier bundle raw certID = Ok result ∧
    vr_Signature result = Some (Some certificate) ∧
    is_expected_source
      (GetRepositorySourceFromVerifiedSigstoreBundleCertificate certificate) expectedSource.

Lemma ValidateSigstoreBundles_prove `{SigstoreLib} `{OciRegistry} public github certID
    deadline oci referrers source :
  ValidateSigstoreBundlesMatchesExpectedSource public github certID deadline oci referrers
    source (Ok tt) →
  ∃ d, d ∈ referrers ∧ provenance public github certID oci source d.
Proof.
  unfold ValidateSigstoreBundlesMatchesExpectedSource, provenance.
  destruct (StripAlgPrefix (oci_Digest oci)) as [raw|e|w]; [|done..].
  intros (g & Hr & _ & Hres).
  destruct (group_accepts _ _ _ _ _ Hr Hres) as (d & s & Hd & Ha & Hs).
  unfold attested_source in Ha. apply outcome_bind_Ok in Ha as (bundle & Hb & Ha).
  apply outcome_bind_Ok in Ha as (cert & Hc & [= <-]).
  unfold VerifySigstoreBundleCertificate in Hc.
  apply outcome_bind_Ok in Hc as (verifier & Hv%on_err_Ok & Hc).
  apply outcome_bind_Ok in Hc as (result & Hres'%on_err_Ok & Hc).
  destruct (vr_Signature result) as [[c|]|] eqn:Hsig; simplify_eq.
  exists d. split; [done|]. exists raw, bundle, verifier, result, cert.
  split_and!; try done; by apply SatisfiesVerificationSource_spec.
Qed.

Section Properties.
Context (attest : Descriptor → outcome OpaBundleSource) (expectedSource : OpaBundleSource).

(** C4: a bundle is accepted, in any interleaving of the goroutines and even when the
    deadline passes in between, only if one of its referrers holds a bundle whose
    certificate verifies against the artifact's hash and the configured identity, and names
    the expected source. *)
Theorem ValidateSigstoreBundles_sound `{SigstoreLib} `{OciRegistry} public github certID
    deadline oci referrers source :
  ValidateSigstoreBundlesMatchesExpectedSource public github certID deadline oci referrers
    source (Ok tt) →
  ∃ d, d ∈ referrers ∧ provenance public github certID oci source d.
Proof.
  apply ValidateSigstoreBundles_prove.
Qed.

(** C36: while the deadline has not passed, the result does not depend on the schedule: the
    bundle is accepted exactly when one referrer is valid; otherwise, if any source was
    verified, the error lists the sources of all referrers, sorted; if none was, it joins
    the errors of all referrers, in some order; and without referrers it says that nothing
    was found. *)
Theorem group_returns_spec referrers r :
  group_returns attest expectedSource false referrers r →
  if existsb (is_valid attest expectedSource) referrers then r = Ok tt
  else match omap (source_of attest) referrers, omap (error_of attest) referrers with
       | (_ :: _) as sources, _ => r = Err (mismatch_error expectedSource sources)
       | [], (_ :: _) as errs => ∃ l, l ≡ₚ errs ∧ r = Err (Joined l)
       | [], [] => r = Err (wrapf "verification failed: " ErrNoMatchingSigstoreBundleFound)
       end.
Proof.
  intros (g & Hr & Hf & Hres). destruct (existsb _ referrers) eqn:Hex.
  - destruct (g_hasValid g) eqn:Hv; [unfold g_result in Hres; by rewrite Hv in Hres|].
    destruct (group_complete _ _ _ _ Hr Hf Hv) as (done_ & Hp & _ & _ & Ha).
    apply existsb_exists in Hex as (d & Hd & Hval). apply list_elem_of_In in Hd.
    rewrite Hp in Hd. rewrite Forall_forall in Ha. rewrite (Ha d Hd) in Hval. done.
  - destruct (g_hasValid g) eqn:Hv.
    { destruct (inv_valid _ _ _ _ _ (group_inv_reach _ _ _ _ _ Hr) Hv) as (d & Hd & Hval).
      rewrite existsb_false_forall in Hex. by rewrite Hex in Hval. }
    destruct (group_complete _ _ _ _ Hr Hf Hv) as (done_ & Hp & Hn & He & _).
    unfold g_result in Hres. rewrite Hv, Hn, He in Hres.
    pose proof (omap_nil_perm (source_of attest) _ _ Hp) as Hps.
    pose proof (omap_nil_perm (error_of attest) _ _ Hp) as Hpe.
    destruct (omap (source_of attest) referrers) as [|s ss] eqn:Hs.
    + apply Permutation_nil_l in Hps. rewrite <-Hps in Hres.
      destruct (omap (error_of attest) referrers) as [|e es].
      * apply Permutation_nil_l in Hpe. by rewrite <-Hpe in Hres.
      * exists (omap (error_of attest) done_). split; [done|].
        destruct (omap (error_of attest) done_); [by apply Permutation_nil_r in Hpe|done].
    + rewrite (mismatch_error_perm _ _ _ Hps), <-Hres.
      destruct (omap (source_of attest) done_); [by apply Permutation_nil_r in Hps|done].
Qed.

(** C6: the goroutines never deadlock and never run forever: in every state that can be
    reached at most ten of them are active, a state in which the function does not return has
    a next step, and every sequence of steps is finite. *)
Theorem group_terminates deadline referrers :
  (∀ d w, attest d ≠ Panic w) →
  (∀ g, rtc (gstep attest expectedSource deadline) (g_init referrers) g →
    (length (g_tasks g) ≤ maxConcurrentSigstoreBundlePullAndVerifies)%nat ∧
    (g_final g = false → ∃ g', gstep attest expectedSource deadline g g')) ∧
  well_founded (flip (gstep attest expectedSource deadline)) ∧
  ∃ r, group_returns attest expectedSource deadline referrers r.
Proof.
  intros Hp. assert (well_founded (flip (gstep attest expectedSource deadline))) as Hwf.
  { apply (wf_incl _ _ (ltof _ measure)); [|apply well_founded_ltof].
    intros g' g Hs. by eapply gstep_measure. }
  split_and!; [|done|].
  - intros g Hr. split; [|intros Hf; by apply group_progress].
    apply (inv_bound _ _ _ _ _ (group_inv_reach _ _ _ _ _ Hr)).
  - unfold group_returns. induction (Hwf (g_init referrers)) as [g _ IH].
    destruct (g_final g) eqn:Hf; [by eexists _, g|].
    destruct (group_progress _ expectedSource deadline _ Hp Hf) as [g' Hs].
    destruct (IH g' Hs) as (r & g'' & Hr & Hf' & Hres).
    exists r, g''. split_and!; [by eapply rtc_l|done|done].
Qed.
End Properties.

(** ** Applications *)

Definition sample_source : OpaBundleSource :=
  {| src_Repository := "kartverket/policy"; src_Workflow := ""; src_Ref := "refs/heads/main" |}.
Definition sample_certificate : Summary :=
  {| sum_SourceRepositoryURI := "https://github.com/kartverket/policy";
     sum_SourceRepositoryRef := "refs/heads/main";
     sum_BuildConfigURI :=
       "https://github.com/kartverket/policy/.github/workflows/build.yml@refs/heads/main" |}.

(** A library that trusts one certificate, and a registry with one bundle. *)
#[export] Instance SampleSigstore : SigstoreLib := {|
  TrustedMaterial := unit; Verifier := unit; CertificateIdentity := unit;
  LoadTrustedRoot _ := Ok tt;
  NewVerifier root _ := match root with Some _ => Ok tt | None => Err (ErrorString "no root") end;
  Verify _ b raw _ :=
    if bool_decide (sb_Content b = raw)
    then Ok {| vr_Signature := Some (Some sample_certificate) |}
    else Err (ErrorString "wrong artifact");
  UnmarshalBundle s := Ok {| sb_TlogEntries := Some 0%nat; sb_Content := s |};
|}.

Definition sample_hash : string := "abc".
Definition sample_layer : Descriptor :=
  {| desc_MediaType := SigstoreBundleMediaType; desc_Digest := "sha256:01";
     desc_ArtifactType := ""; desc_Annotations := None |}.
#[export] Instance SampleRegistry : OciRegistry := {|
  NewRepository _ := Ok {| ref_Registry := "ghcr.io"; ref_Repository := "kartverket/policy";
                           ref_Reference := "sha256:" +:+ hex_encode sample_hash |};
  Resolve _ _ := Err (ErrorString "down");
  FetchReference _ _ := Ok {| rd_ReadAll := Ok "manifest"; rd_Close := None |};
  FetchAll _ d := Ok (if bool_decide (desc_Digest d = "sha256:03") then "layer" else sample_hash);
  Successors _ _ := Ok [sample_layer];
  UnmarshalManifest _ := Ok [{| desc_MediaType := OpaBundleLayerMediaType;
    desc_Digest := "sha256:03"; desc_ArtifactType := ""; desc_Annotations := None |}];
|}.

Definition sample_referrer : Descriptor :=
  {| desc_MediaType := "application/vnd.oci.image.manifest.v1+json"; desc_Digest := "sha256:02";
     desc_ArtifactType := SigstoreBundleMediaType;
     desc_Annotations :=
       Some (<[SigstoreBundleContentAnnotationKey := SigstoreBundleContentAnnotationValue]>
             {[SigstoreBundlePredicateTypeAnnotationKey := SigstoreSlsaProvenanceV1]}) |}.
Definition sample_oci : OciRepositoryAndDigest :=
  {| oci_Registry := "ghcr.io"; oci_Repository := "kartverket/policy";
     oci_Digest := "sha256:" +:+ hex_encode sample_hash |}.
Definition sample_root : outcome (option (@TrustedMaterial SampleSigstore)) := Ok (Some tt).
Definition sample_identity : @CertificateIdentity SampleSigstore := tt.
Definition sample_attest : Descriptor → outcome OpaBundleSource :=
  attested_source sample_root sample_root sample_oci sample_hash sample_identity.

(** The loop starts the one goroutine and waits; the goroutine finds the certificate. *)
Lemma sample_group_for source :
  SatisfiesVerificationSource
    (GetRepositorySourceFromVerifiedSigstoreBundleCertificate sample_certificate) source = true →
  group_returns sample_attest source false [sample_referrer] (Ok tt).
Proof.
  intros Hs. eexists. split.
  - eapply rtc_l; [by eapply g_next|]. eapply rtc_l; [by eapply g_spawn; [done|simpl; unfold maxConcurrentSigstoreBundlePullAndVerifies; lia]|].
    eapply rtc_l; [by apply g_exhausted|].
    eapply rtc_l; [by apply (g_start _ _ _ _ [] sample_referrer [])|].
    eapply rtc_l; [by eapply (g_valid _ _ _ _ [] sample_referrer []); [done|vm_compute; reflexivity|exact Hs]|].
    eapply rtc_l; [by apply (g_found _ _ _ _ [] sample_referrer [])|]. apply rtc_refl.
  - done.
Qed.

Lemma sample_group : group_returns sample_attest sample_source false [sample_referrer] (Ok tt).
Proof. apply sample_group_for. by vm_compute. Qed.

Lemma sample_validated :
  ValidateSigstoreBundlesMatchesExpectedSource sample_root sample_root sample_identity false sample_oci
    [sample_referrer] sample_source (Ok tt).
Proof.
  unfold ValidateSigstoreBundlesMatchesExpectedSource.
  assert (StripAlgPrefix (oci_Digest sample_oci) = Ok sample_hash) as -> by by vm_compute.
  exact sample_group.
Qed.

Lemma ValidateSigstoreBundles_sound_witness :
  ∃ d, d ∈ [sample_referrer] ∧ provenance sample_root sample_root sample_identity sample_oci sample_source d.
Proof.
  apply (ValidateSigstoreBundles_sound sample_root sample_root sample_identity false sample_oci
           [sample_referrer] sample_source sample_validated).
Defined.

Lemma group_returns_spec_witness :
  if existsb (is_valid sample_attest sample_source) [sample_referrer]
  then @Ok unit tt = Ok tt else False.
Proof.
  pose proof (group_returns_spec sample_attest sample_source [sample_referrer] (Ok tt) sample_group)
    as Hs.
  assert (existsb (is_valid sample_attest sample_source) [sample_referrer] = true) as Hv
    by by vm_compute.
  rewrite Hv in *. exact Hs.
Defined.

Lemma group_terminates_witness :
  ∃ r, group_returns (λ _, Ok sample_source) sample_source true [sample_referrer] r.
Proof.
  apply (group_terminates (λ _, Ok sample_source) sample_source true [sample_referrer]).
  intros d w. discriminate.
Defined.
