(* ===== verification/Validation.v ===== *)
(** * Admission of SecurityConfigs: [internal/webhook/securityconfigs] and
      [pkg/validation/opa_bundle_urls_validation.go]

    A SecurityConfig may use TokenX and OPA only where the cluster has them; its OPA
    bundles must come from allowed registries, must not take the name of the bundle for
    self authorization, and those that ask for it must have a provenance attestation from
    the source they name.  The lookups that a verification needs are the interface
    [AttestationFetcher]; its default implementation reads the registry.  The theorem: what
    is admitted meets all of this, the provenance included. *)
From stdpp Require Import base gmap strings list.
From Stdlib Require Import ZArith Lia.
From S2P Require Import Prelude GoStrings Kube Api Model Cluster ProgTheory RefServer Config Naming State Utilities Reconciliation Generators Resources Samples Oci Sigstore.
Open Scope go_scope.

(** [%v] of a [\[\]string]. *)
Definition print_strings (l : list string) : string := "[" +:+ Join l " " +:+ "]".

(** ** The interface to the registry *)

Class AttestationFetcher := {
  fetcher_ResolveOciRepositoryAndDigest : string → GoM OciRepositoryAndDigest;
  fetcher_GetSLSAProvenanceReferrers : OciRepositoryAndDigest → GoM (list Descriptor);
  fetcher_ValidateSigstoreBundlesMatchesExpectedSource :
    OciRepositoryAndDigest → list Descriptor → OpaBundleSource → GoM unit;
}.

(** The referrers that [DefaultAttestationFetcher] keeps. *)
Definition is_slsa_provenance (referrer : Descriptor) : bool :=
  bool_decide (desc_ArtifactType referrer = SigstoreBundleMediaType) &&
  bool_decide (entries (desc_Annotations referrer) !! SigstoreBundleContentAnnotationKey =
               Some SigstoreBundleContentAnnotationValue) &&
  bool_decide (entries (desc_Annotations referrer) !! SigstoreBundlePredicateTypeAnnotationKey =
               Some SigstoreSlsaProvenanceV1).

Definition DefaultAttestationFetcher : AttestationFetcher := {|
  fetcher_ResolveOciRepositoryAndDigest ociReference := call (OpResolveOci ociReference);
  fetcher_GetSLSAProvenanceReferrers ociRepoAndDigest :=
    GetOciReferrersMatchingMediaTypeAndPredicate ociRepoAndDigest SigstoreBundleMediaType
      is_slsa_provenance;
  fetcher_ValidateSigstoreBundlesMatchesExpectedSource ociRepositoryAndDigest referrers source :=
    call (OpValidateSigstoreBundles ociRepositoryAndDigest referrers source);
|}.

Section Validation.
Context `{Globals}.

Definition ValidateCollisionWithConfiguredSelfAuthBundle (bundles : list OpaBundle) :
    outcome unit :=
  match cfg_OpaSelfAuthorizationBundle Get with
  | None => Ok tt
  | Some self =>
      match List.find (λ bundle, bool_decide (ob_Name bundle = ob_Name self)) bundles with
      | Some bundle =>
          Err (ErrorString ("OPA bundle with name: " +:+ ob_Name bundle +:+
            " has name collision with pre-configured OPA bundle with same name. " +:+
            "Rename your bundle to avoid this error"))
      | None => Ok tt
      end
  end.

Definition hasAllowedPrefix (url : string) (prefixes : list string) : bool :=
  existsb (HasPrefix url) prefixes.

Definition ValidateBundleUrlPrefixes (opaBundles : list OpaBundle) : outcome unit :=
  match opaBundles with
  | [] => Err (ErrorString "bundle URLs cannot be nil or empty")
  | _ =>
      let allowedPrefixes := cfg_OpaAllowedBundleRegistryUrlPrefixes Get in
      match List.filter (λ url, negb (hasAllowedPrefix url allowedPrefixes))
              (map ob_URL opaBundles) with
      | [] => Ok tt
      | invalid =>
          Err (ErrorString ("bundle URLs are not allowed: " +:+ print_strings invalid +:+
                 "; each URL must start with one of " +:+ print_strings allowedPrefixes))
      end
  end.

Definition VerifyBundleSource `{AttestationFetcher} (bundleSource : OpaBundle) : GoM unit :=
  let url := ob_URL bundleSource in
  if bool_decide (src_Repository (ob_BundleSource bundleSource) = "") then
    Ret (Err (ErrorString "bundle source must have a repository"))
  else
    let! ociRepoAndDigest :=
      gom_on_err (λ _, ErrorString ("failed to resolve digest for " +:+ url))
        (fetcher_ResolveOciRepositoryAndDigest url) in
    let! sigstoreProvenanceReferrers :=
      gom_on_err (λ _, ErrorString ("failed to fetch SLSA referrers for " +:+ url))
        (fetcher_GetSLSAProvenanceReferrers ociRepoAndDigest) in
    gom_on_err
      (λ validateErr,
         if ErrorIs "ErrSourceMismatch" validateErr ||
            ErrorIs "ErrNoMatchingSigstoreBundleFound" validateErr
         then wrapf ("OPA bundle verification failed for " +:+ url +:+ ": ") validateErr
         else ErrorString ("OPA bundle verification failed for " +:+ url))
      (fetcher_ValidateSigstoreBundlesMatchesExpectedSource ociRepoAndDigest
         sigstoreProvenanceReferrers (ob_BundleSource bundleSource)).

Definition anyHasVerification (bundles : list BundleSource) : bool :=
  existsb (λ bundle, is_some (bs_Verification bundle)) bundles.

Definition verifyBundle `{AttestationFetcher} (bundle : BundleSource) : GoM unit :=
  VerifyBundleSource (ToOpaBundle bundle).

(** The loop of [verifyBundleSignatures]. *)
Fixpoint verify_bundles `{AttestationFetcher} (bundles : list BundleSource) : GoM unit :=
  match bundles with
  | [] => Ret (Ok tt)
  | bundle :: rest =>
      if negb (is_some (bs_Verification bundle)) then verify_bundles rest
      else let! _ := verifyBundle bundle in verify_bundles rest
  end.

Definition verifyBundleSignatures (bundles : list BundleSource) : GoM unit :=
  if negb (anyHasVerification bundles) then Ret (Ok tt)
  else @verify_bundles DefaultAttestationFetcher bundles.

Definition validateOpa (opa : OpenPolicyAgentSpec) : GoM unit :=
  let opaBundles := ToOpaBundles (opa_BundleURLs opa) in
  let! _ := lift (ValidateCollisionWithConfiguredSelfAuthBundle opaBundles) in
  let! _ := lift (ValidateBundleUrlPrefixes opaBundles) in
  verifyBundleSignatures (opa_BundleURLs opa).

(** The warnings are always nil. *)
Definition validateSecurityConfig (securityConfig : SecurityConfig) : GoM unit :=
  let spec := sc_Spec securityConfig in
  if is_some (spec_Tokenx spec) && negb (cfg_TokenxEnabled Get) then
    Ret (Err (ErrorString
      "TokenX is not enabled on this cluster and 'spec.tokenx' can therefore not be set"))
  else
    match spec_Opa spec with
    | Some opa =>
        if negb (cfg_OpaEnabled Get) then
          Ret (Err (ErrorString
            "OPA is not enabled on this cluster and 'spec.opa' can therefore not be set"))
        else validateOpa opa
    | None => Ret (Ok tt)
    end.

Definition ValidateCreate (securityConfig : SecurityConfig) : GoM unit :=
  validateSecurityConfig securityConfig.
Definition ValidateUpdate (_ newSecurityConfig : SecurityConfig) : GoM unit :=
  validateSecurityConfig newSecurityConfig.
Definition ValidateDelete (securityConfig : SecurityConfig) : GoM unit := Ret (Ok tt).
End Validation.

(** ** Specification *)

Section Specification.
Context `{Globals}.

(** What can be decided without the registry. *)
Definition bundle_allowed (b : BundleSource) : Prop :=
  (∃ prefix rest, prefix ∈ cfg_OpaAllowedBundleRegistryUrlPrefixes Get ∧
                  bs_URL b = prefix +:+ rest) ∧
  (∀ self, cfg_OpaSelfAuthorizationBundle Get = Some self → bs_Name b ≠ ob_Name self).
Definition spec_allowed (spec : SecurityConfigSpec) : Prop :=
  (spec_Tokenx spec ≠ None → cfg_TokenxEnabled Get = true) ∧
  ∀ opa, spec_Opa spec = Some opa →
    cfg_OpaEnabled Get = true ∧ opa_BundleURLs opa ≠ [] ∧
    ∀ b, b ∈ opa_BundleURLs opa → bundle_allowed b.

Lemma hasAllowedPrefix_spec url prefixes :
  hasAllowedPrefix url prefixes = true ↔ ∃ p rest, p ∈ prefixes ∧ url = p +:+ rest.
Proof.
  unfold hasAllowedPrefix. rewrite existsb_exists. setoid_rewrite HasPrefix_spec.
  setoid_rewrite <-list_elem_of_In. naive_solver.
Qed.

Lemma collision_Ok bundles :
  ValidateCollisionWithConfiguredSelfAuthBundle (ToOpaBundles bundles) = Ok tt ↔
  ∀ self b, cfg_OpaSelfAuthorizationBundle Get = Some self → b ∈ bundles →
            bs_Name b ≠ ob_Name self.
Proof.
  unfold ValidateCollisionWithConfiguredSelfAuthBundle, ToOpaBundles.
  destruct (cfg_OpaSelfAuthorizationBundle Get) as [self|]; [|naive_solver].
  induction bundles as [|b bundles IH]; simpl; [set_solver|].
  case_bool_decide as Hb.
  - split; [done|]. intros Hall. destruct (Hall self b eq_refl); [by left|done].
  - rewrite IH. set_solver.
Qed.

Lemma prefixes_Ok bundles :
  ValidateBundleUrlPrefixes (ToOpaBundles bundles) = Ok tt ↔
  bundles ≠ [] ∧ ∀ b, b ∈ bundles → ∃ prefix rest,
    prefix ∈ cfg_OpaAllowedBundleRegistryUrlPrefixes Get ∧ bs_URL b = prefix +:+ rest.
Proof.
  unfold ValidateBundleUrlPrefixes, ToOpaBundles. destruct bundles as [|b0 bundles]; [naive_solver|].
  set (l := b0 :: bundles). setoid_rewrite <-hasAllowedPrefix_spec.
  change (map ToOpaBundle (b0 :: bundles)) with (map ToOpaBundle l).
  assert (List.filter (λ url, negb (hasAllowedPrefix url (cfg_OpaAllowedBundleRegistryUrlPrefixes Get)))
            (map ob_URL (map ToOpaBundle l)) = [] ↔
          ∀ b, b ∈ l → hasAllowedPrefix (bs_URL b) (cfg_OpaAllowedBundleRegistryUrlPrefixes Get) = true)
    as Hf.
  { generalize l. clear. intros l. induction l as [|b l IH]; simpl; [set_solver|].
    destruct (hasAllowedPrefix (bs_URL b) _) eqn:Hb; simpl.
    - rewrite IH. set_solver.
    - split; [done|]. intros Hall. rewrite Hall in Hb by (by left). done. }
  rewrite <-Hf. destruct (List.filter _ _); naive_solver.
Qed.

Lemma validation_never_panics bundles w :
  ValidateCollisionWithConfiguredSelfAuthBundle bundles ≠ Panic w ∧
  ValidateBundleUrlPrefixes bundles ≠ Panic w.
Proof.
  unfold ValidateCollisionWithConfiguredSelfAuthBundle, ValidateBundleUrlPrefixes.
  split; by repeat case_match.
Qed.
End Specification.

(** *** The registry

    The registry changes with time: [registry t] is what it answers at the moment [t].  The
    replies to the operations that stand for the functions of [Oci] and [Sigstore] are what
    those functions give, each at some moment. *)
Section Registry.
Context `{SigstoreLib} (registry : nat → OciRegistry).
Context (public github : outcome (option TrustedMaterial)) (certID : CertificateIdentity).

Definition registry_reply (op : Op) : resp op → Prop :=
  match op with
  | OpResolveOci reference => λ r, ∃ t,
      r = ResolveOciRepositoryAndDigest (H := registry t) reference
  | OpFetchOpaBundleLayer repo => λ r, ∃ t, r = FetchOpaBundleLayer (H := registry t) repo
  | OpValidateSigstoreBundles oci referrers source => λ r, ∃ t deadline,
      @ValidateSigstoreBundlesMatchesExpectedSource _ (registry t) public github certID deadline
        oci referrers source r
  | _ => λ _, True
  end.

(** A referrer that says of itself that it is an SLSA provenance attestation. *)
Definition attests_slsa (d : Descriptor) : Prop :=
  desc_ArtifactType d = "application/vnd.dev.sigstore.bundle.v0.3+json" ∧
  entries (desc_Annotations d) !! "dev.sigstore.bundle.content" = Some "dsse-envelope" ∧
  entries (desc_Annotations d) !! "dev.sigstore.bundle.predicateType" =
    Some "https://slsa.dev/provenance/v1".

(** At some moment the URL resolved to [oci], and one of the referrers that were listed for
    [oci], an SLSA provenance attestation, held a bundle that proves the source. *)
Definition source_proved (h : history) (b : OpaBundle) : Prop :=
  ∃ oci referrers d before now,
    ResolveOciRepositoryAndDigest (H := registry before) (ob_URL b) = Ok oci ∧
    Ev (OpResolveOci (ob_URL b)) (Ok oci) ∈ h ∧
    Ev (OpListReferrers oci SigstoreBundleMediaType) (Ok referrers) ∈ h ∧
    d ∈ referrers ∧ attests_slsa d ∧ src_Repository (ob_BundleSource b) ≠ "" ∧
    @provenance _ (registry now) public github certID oci (ob_BundleSource b) d.
Definition bundle_proved (h : history) (b : BundleSource) : Prop :=
  source_proved h (ToOpaBundle b).
End Registry.

(** ** Lemmas *)

Lemma is_slsa_provenance_spec d : is_slsa_provenance d = true ↔ attests_slsa d.
Proof.
  unfold is_slsa_provenance, attests_slsa. rewrite !andb_true_iff, !bool_decide_eq_true. tauto.
Qed.

Lemma referrers_Ok oci mt predicate h l :
  steps (GetOciReferrersMatchingMediaTypeAndPredicate oci mt predicate) h (Ret (Ok l)) →
  ∃ all, Ev (OpListReferrers oci mt) (Ok all) ∈ h ∧
    ∀ d, d ∈ l → d ∈ all ∧ predicate d = true.
Proof.
  unfold GetOciReferrersMatchingMediaTypeAndPredicate.
  intros (h1 & all & h2 & -> & H1%gom_on_err_steps & H2)%gom_bind_steps.
  apply (call_steps (OpListReferrers _ _)) in H1 as ->. exists all. split; [by left|].
  intros d Hd. assert (List.filter predicate all = l) as <-.
  { destruct (List.filter predicate all); by apply steps_Ret_inv in H2 as [[=] _]. }
  apply list_elem_of_In, filter_In in Hd. by rewrite list_elem_of_In.
Qed.

Section Facts.
Context `{Globals} `{SigstoreLib} (registry : nat → OciRegistry).
Context (public github : outcome (option TrustedMaterial)) (certID : CertificateIdentity).

Lemma replied_app (G : ∀ op, resp op → Prop) h1 h2 :
  replied G (h1 ++ h2) → replied G h1 ∧ replied G h2.
Proof. intros Hr. split; intros op r Hin; apply Hr, elem_of_app; auto. Qed.

Lemma source_proved_part h h' b :
  part_of h h' → source_proved registry public github certID h b →
  source_proved registry public github certID h' b.
Proof.
  intros Hp (oci & refs & d & before & now & Ho & Hr & Hl & Hrest).
  exists oci, refs, d, before, now. split_and!; [exact Ho|by apply Hp|by apply Hp|apply Hrest..].
Qed.

Lemma verify_proved b h :
  replied (registry_reply registry public github certID) h →
  steps (@VerifyBundleSource DefaultAttestationFetcher b) h (Ret (Ok tt)) →
  source_proved registry public github certID h b.
Proof.
  intros Hr. unfold VerifyBundleSource.
  case_bool_decide as Hrepo; [by intros [? _]%steps_Ret_inv|].
  intros (h1 & oci & h2 & -> & H1 & H2)%gom_bind_steps.
  apply gom_on_err_steps in H1. simpl in H1.
  apply (call_steps (OpResolveOci _)) in H1 as ->.
  apply gom_bind_steps in H2 as (h3 & refs & h4 & -> & H3 & H4).
  apply gom_on_err_steps in H3. apply gom_on_err_steps in H4. simpl in H4.
  apply (call_steps (OpValidateSigstoreBundles _ _ _)) in H4 as ->.
  destruct (referrers_Ok _ _ _ _ _ H3) as (all & Hall & Hslsa).
  destruct (Hr (OpResolveOci (ob_URL b)) (Ok oci) ltac:(by left)) as (before & Hbefore).
  destruct (Hr (OpValidateSigstoreBundles oci refs (ob_BundleSource b)) (Ok tt))
    as (now & dl & Hv); [set_solver|].
  destruct (ValidateSigstoreBundles_prove _ _ _ _ _ _ _ Hv) as (d & Hd & Hp).
  destruct (Hslsa d Hd) as [Hda Hds]. exists oci, all, d, before, now.
  split_and!; [by symmetry|set_solver|set_solver|done|by apply is_slsa_provenance_spec|done|done].
Qed.

Lemma bundles_proved bundles h :
  replied (registry_reply registry public github certID) h →
  steps (@verify_bundles DefaultAttestationFetcher bundles) h (Ret (Ok tt)) →
  ∀ b, b ∈ bundles → bs_Verification b ≠ None → bundle_proved registry public github certID h b.
Proof.
  revert h. induction bundles as [|b0 bundles IH]; intros h Hr Hs b Hb Hv; simpl in Hs.
  { by apply not_elem_of_nil in Hb. }
  destruct (bs_Verification b0) as [v|] eqn:Hv0; simpl in Hs.
  - apply gom_bind_steps in Hs as (h1 & [] & h2 & -> & H1 & H2).
    apply replied_app in Hr as [Hr1 Hr2]. apply elem_of_cons in Hb as [->|Hb].
    + eapply source_proved_part; [by apply part_of_app_l|]. by apply verify_proved.
    + eapply source_proved_part; [by apply part_of_app_r|]. by apply IH.
  - apply elem_of_cons in Hb as [->|Hb]; [congruence|by apply IH].
Qed.
End Facts.

Lemma none_verified bundles :
  anyHasVerification bundles = false → ∀ b, b ∈ bundles → bs_Verification b = None.
Proof.
  unfold anyHasVerification. rewrite existsb_false_forall. intros Hall b Hb.
  specialize (Hall b Hb). by destruct (bs_Verification b).
Qed.

(** ** Properties *)

Section Properties.
Context `{Globals}.

(** What an admission has checked without the registry, and what is left of it. *)
Lemma admitted_allowed sc h :
  steps (validateSecurityConfig sc) h (Ret (Ok tt)) →
  spec_allowed (sc_Spec sc) ∧
  ∀ opa, spec_Opa (sc_Spec sc) = Some opa →
    steps (verifyBundleSignatures (opa_BundleURLs opa)) h (Ret (Ok tt)).
Proof.
  unfold validateSecurityConfig, spec_allowed.
  destruct (spec_Tokenx (sc_Spec sc)) as [tx|], (cfg_TokenxEnabled Get); simpl;
    try (by intros [? _]%steps_Ret_inv);
    (destruct (spec_Opa (sc_Spec sc)) as [opa|]; [|by intros _]);
    (destruct (cfg_OpaEnabled Get); simpl; [|by intros [? _]%steps_Ret_inv]);
    unfold validateOpa; intros (h1 & [] & h2 & -> & [Hc ->]%steps_Ret_inv & H2)%gom_bind_steps;
    apply gom_bind_steps in H2 as (h3 & [] & h4 & -> & [Hp ->]%steps_Ret_inv & H4);
    rewrite collision_Ok in Hc; apply prefixes_Ok in Hp as [Hne Hp];
    (split; [split; [done|]; intros ? [= <-]; split_and!; try done;
             intros b Hb; split; [by apply Hp|by intros; eapply Hc]|by intros ? [= <-]]).
Qed.

(** Each bundle of an admitted SecurityConfig that asks for it was proved. *)
Lemma admitted_proved `{SigstoreLib} registry public github certID sc h :
  replied (registry_reply registry public github certID) h →
  steps (validateSecurityConfig sc) h (Ret (Ok tt)) →
  ∀ opa b, spec_Opa (sc_Spec sc) = Some opa → b ∈ opa_BundleURLs opa →
    bs_Verification b ≠ None → bundle_proved registry public github certID h b.
Proof.
  intros Hr [_ Hver]%admitted_allowed. intros opa b Hopa Hb Hv.
  apply Hver in Hopa. unfold verifyBundleSignatures in Hopa.
  destruct (anyHasVerification (opa_BundleURLs opa)) eqn:Ha; simpl in Hopa.
  - by eapply bundles_proved.
  - by apply (none_verified _ Ha) in Hb.
Qed.

(** C3: a SecurityConfig that the webhook admits uses only what the cluster has; all its
    OPA bundles come from an allowed registry and do not take the name of the bundle for
    self authorization; and for each bundle that asks for verification, its URL resolved in
    the registry, and one of the referrers that were listed for what it resolved to is an
    SLSA provenance attestation that verifies against that digest and names the source that
    the SecurityConfig expects.  The registry is any, and may change between the calls. *)
Theorem validateSecurityConfig_sound `{SigstoreLib} registry public github certID sc h :
  replied (registry_reply registry public github certID) h →
  steps (validateSecurityConfig sc) h (Ret (Ok tt)) →
  spec_allowed (sc_Spec sc) ∧
  ∀ opa b, spec_Opa (sc_Spec sc) = Some opa → b ∈ opa_BundleURLs opa →
    bs_Verification b ≠ None → bundle_proved registry public github certID h b.
Proof.
  intros Hr Hs. split; [by apply admitted_allowed in Hs as [? _]|by apply admitted_proved].
Qed.

(** C40: a SecurityConfig that breaks a rule that needs no registry is rejected before any
    lookup, and one that keeps them all and asks for no verification is admitted without
    a lookup. *)
Theorem validateSecurityConfig_static sc :
  (¬ spec_allowed (sc_Spec sc) → ∃ e, validateSecurityConfig sc = Ret (Err e)) ∧
  (spec_allowed (sc_Spec sc) →
   (∀ opa b, spec_Opa (sc_Spec sc) = Some opa → b ∈ opa_BundleURLs opa →
             bs_Verification b = None) →
   validateSecurityConfig sc = Ret (Ok tt)).
Proof.
  assert (∀ b : bool, spec_Tokenx (sc_Spec sc) ≠ None → b = true ↔
            is_some (spec_Tokenx (sc_Spec sc)) && negb b = false) as Htx.
  { intros b Hn. destruct (spec_Tokenx (sc_Spec sc)); [|done]. by destruct b. }
  split.
  - intros Hno. unfold validateSecurityConfig.
    destruct (is_some _ && _) eqn:Ht; [by eexists|].
    destruct (spec_Opa (sc_Spec sc)) as [opa|] eqn:Ho.
    2:{ destruct Hno. split; [intros Hn; by apply Htx|]. by rewrite Ho. }
    destruct (cfg_OpaEnabled Get) eqn:He; simpl; [|by eexists]. unfold validateOpa.
    set (bundles := ToOpaBundles (opa_BundleURLs opa)).
    destruct (ValidateCollisionWithConfiguredSelfAuthBundle bundles) as [[]|e|w] eqn:Hc;
      [|by eexists|by destruct (validation_never_panics bundles w)].
    rewrite gom_bind_Ok.
    destruct (ValidateBundleUrlPrefixes bundles) as [[]|e|w] eqn:Hp;
      [|by eexists|by destruct (validation_never_panics bundles w)].
    subst bundles. rewrite collision_Ok in Hc. rewrite prefixes_Ok in Hp.
    destruct Hno, Hp as [Hne Hp].
    split; [intros Hn; by apply Htx|]. intros ? [= <-]%(eq_trans (eq_sym Ho)).
    split_and!; [done|done|]. intros b Hb. split; [by apply Hp|intros self Hs; by eapply Hc].
  - intros [Ht Ho] Hnone. unfold validateSecurityConfig.
    destruct (is_some _ && _) eqn:Hx.
    { apply andb_prop in Hx as [Hx1 Hx2]. rewrite Ht in Hx2 by (by destruct (spec_Tokenx _)). done. }
    destruct (spec_Opa (sc_Spec sc)) as [opa|]; [|done].
    destruct (Ho opa eq_refl) as (He & Hne & Hall). rewrite He. simpl. unfold validateOpa.
    rewrite (proj2 (collision_Ok _)) by (intros self b Hs Hb; by apply (Hall b Hb)).
    rewrite gom_bind_Ok.
    rewrite (proj2 (prefixes_Ok _)) by (split; [done|]; intros b Hb; by apply (Hall b Hb)).
    rewrite gom_bind_Ok. unfold verifyBundleSignatures, anyHasVerification.
    replace (existsb _ _) with false; [done|]. symmetry. apply existsb_false_forall.
    intros b Hb. by rewrite (Hnone opa b).
Qed.
End Properties.

(** ** Applications *)

(** OPA with one bundle, which asks for verification. *)
Definition sample_bundle : BundleSource :=
  {| bs_Name := "policy"; bs_URL := "ghcr.io/kartverket/policy:1";
     bs_Verification := Some {| bv_Source := {| gh_Repository := "kartverket/policy";
       gh_Workflow := ""; gh_Ref := "refs/heads/main" |} |} |}.
Definition sample_opa_sc : SecurityConfig :=
  {| sc_Kind := "SecurityConfig"; sc_Meta := sample_meta;
     sc_Spec := {| spec_Tokenx := None; spec_Maskinporten := None; spec_EntraID := None;
                   spec_Idporten := None; spec_Ansattporten := None;
                   spec_Opa := Some {| opa_Enabled := true; opa_BundleURLs := [sample_bundle];
                                       opa_RequestPolicy := None |};
                   spec_ApplicationRef := "app" |};
     sc_Status := zero_status |}.

(** Resolved, one referrer, which proves the source. *)
Definition sample_lookups : history :=
  [Ev (OpResolveOci "ghcr.io/kartverket/policy:1") (Ok sample_oci);
   Ev (OpListReferrers sample_oci SigstoreBundleMediaType) (Ok [sample_referrer]);
   Ev (OpValidateSigstoreBundles sample_oci [sample_referrer] sample_source) (Ok tt)].

(** The sample's registry, which does not change. *)
Definition sample_registry (_ : nat) : OciRegistry := SampleRegistry.

Lemma sample_lookups_replies :
  replied (registry_reply sample_registry sample_root sample_root sample_identity) sample_lookups.
Proof.
  apply replied_Forall. repeat constructor.
  - exists 0%nat. vm_compute. reflexivity.
  - exists 0%nat, false. exact sample_validated.
Qed.

Lemma validateSecurityConfig_sound_witness :
  bundle_proved sample_registry sample_root sample_root sample_identity sample_lookups sample_bundle.
Proof.
  destruct (validateSecurityConfig_sound sample_registry sample_root sample_root sample_identity
              sample_opa_sc sample_lookups sample_lookups_replies) as [_ Hb].
  - do 3 apply steps_op. apply steps_refl.
  - apply (Hb _ sample_bundle eq_refl); [by left|discriminate].
Defined.
