(* ===== verification/Startup.v ===== *)
(** * Start of the controller: [pkg/config/config.go], [pkg/model/opa.go] and [cmd/main.go]

    Loading the configuration from the environment, checking the bundle for self
    authorization, building the expression that the certificates of workflows must match,
    and loading that bundle.  The theorems: a configuration that was loaded has what the
    rest of the program relies on; the texts that the checks accept; and the expression for
    the certificates matches workflows of the configured organisations and nothing else. *)
From stdpp Require Import base gmap strings list.
From Stdlib Require Import ZArith Ascii Lia.
From S2P Require Import Prelude GoStrings Regex Kube Api Model Cluster ProgTheory RefServer Config Naming State Utilities Reconciliation Generators Resources Samples Oci Sigstore Validation.
Open Scope go_scope.

(** ** The bundle for self authorization: [pkg/model/opa.go] *)

Definition githubRepositoryPattern : regex :=
  MustCompile "^[a-zA-Z0-9][a-zA-Z0-9-]{0,38}/[a-zA-Z0-9_][a-zA-Z0-9._-]{0,99}$".
Definition githubWorkflowPattern : regex :=
  MustCompile "^\.github/workflows/[a-zA-Z0-9_.-]+\.(yml|yaml)$".
Definition githubRefPattern : regex :=
  MustCompile "^refs/(heads|tags|pull)/[a-zA-Z0-9/_.-]{1,243}$".

(** The functions of libraries that only the start uses. *)
Class StartupLib := {
  (** [k8svalidation.IsConfigMapKey]: what is wrong with a name. *)
  IsConfigMapKey : string → list string;
  (** [resource.ParseQuantity]. *)
  ParseQuantity : string → outcome Quantity;
  (** [credentials.NewStoreFromDocker]. *)
  DynamicStore : Type;
  NewStoreFromDocker : outcome DynamicStore;
  (** [envconfig.Process("accesserator", ..)] in an environment. *)
  ProcessEnvironment : (string → option string) → outcome Config;
}.

Section Bundle.
Context `{StartupLib}.

Definition ValidateOpaBundle (bundle : OpaBundle) : outcome unit :=
  let source := ob_BundleSource bundle in
  match IsConfigMapKey (ob_Name bundle) with
  | (_ :: _) as validationErrors =>
      Err (ErrorString ("invalid OPA bundle name " +:+ Quote (ob_Name bundle) +:+ ": " +:+
                        Join validationErrors ", "))
  | [] =>
      if bool_decide (src_Repository source = "") then
        Err (ErrorString "invalid OPA bundle verification.repository: must be set")
      else if negb (MatchString githubRepositoryPattern (src_Repository source)) then
        Err (ErrorString ("invalid OPA bundle verification.repository " +:+
                          Quote (src_Repository source)))
      else if negb (MatchString githubWorkflowPattern (src_Workflow source)) then
        Err (ErrorString ("invalid OPA bundle verification.workflow " +:+
                          Quote (src_Workflow source)))
      else if negb (MatchString githubRefPattern (src_Ref source)) then
        Err (ErrorString ("invalid OPA bundle verification.ref " +:+ Quote (src_Ref source)))
      else Ok tt
  end.
End Bundle.

(** ** The identity of certificates: [pkg/config/config.go] *)

Definition githubActionsOIDCIssuer : string := "https://token.actions.githubusercontent.com".

(** What stands before and behind the organisations in the expression. *)
Definition san_prefix : string := "^https://github\.com/(?:".
Definition san_suffix : string := ")/[^/]+/\.github/workflows/[^@]+\.ya?ml@.+".

Definition BuildGitHubSANRegex (orgs : list string) : outcome regex :=
  match orgs with
  | [] => Err (ErrorString "at least one org is required")
  | _ =>
      let escaped := map QuoteMeta orgs in
      let sanRegex := san_prefix +:+ Join escaped "|" +:+ san_suffix in
      on_err (wrapf "failed to compile SAN regex: ") (Compile sanRegex)
  end.

(** [verify.NewCertificateIdentity] for an expression and an issuer. *)
Class IdentityLib `{SigstoreLib} := {
  NewCertificateIdentity : regex → string → outcome CertificateIdentity;
}.

Section Load.
Context `{StartupLib} `{IdentityLib}.

Definition GetCertificateIdentityForGitHubOrgs (orgs : list string) :
    outcome CertificateIdentity :=
  let? sanRegex := on_err (wrapf "failed to build GitHub SAN regex: ")
                     (BuildGitHubSANRegex orgs) in
  on_err (wrapf "failed to create CertificateIdentity: ")
    (NewCertificateIdentity sanRegex githubActionsOIDCIssuer).

(** The package variables; the zero value of an identity is [None]. *)
Record ConfigState := {
  cs_appCfg : option Config;
  cs_CredStore : option DynamicStore;
  cs_OpaSelfAuthorizationBundleBinaryData : gomap string;
  cs_CertificateIdentityForGithubActions : option CertificateIdentity;
}.

(** The variables that are missing. *)
Definition missing_config (cfg : Config) : list string :=
  let require (b : bool) name := if b then [name] else [] in
  let unset s := bool_decide (s = "") in
  require (negb (is_some (cfg_RunsInProduction cfg))) "ACCESSERATOR_RUNS_IN_PRODUCTION" ++
  require (unset (cfg_ClusterName cfg)) "ACCESSERATOR_CLUSTER_NAME" ++
  require (unset (cfg_TexasImageTag cfg)) "ACCESSERATOR_TEXAS_IMAGE_TAG" ++
  require (unset (cfg_TexasImageSha cfg)) "ACCESSERATOR_TEXAS_IMAGE_SHA" ++
  require (unset (cfg_EntraTenantId cfg)) "ACCESSERATOR_ENTRA_TENANT_ID" ++
  (if cfg_TokenxEnabled cfg then
     require (unset (cfg_TokenxName cfg)) "ACCESSERATOR_TOKENX_NAME" ++
     require (unset (cfg_TokenxNamespace cfg)) "ACCESSERATOR_TOKENX_NAMESPACE"
   else []) ++
  (if cfg_OpaEnabled cfg then
     require (unset (cfg_OpaImageTag cfg)) "ACCESSERATOR_OPA_IMAGE_TAG" ++
     require (unset (cfg_OpaImageSha cfg)) "ACCESSERATOR_OPA_IMAGE_SHA" ++
     require (bool_decide (cfg_OpaAllowedBundleRegistryUrlPrefixes cfg = []))
       "ACCESSERATOR_OPA_ALLOWED_BUNDLE_REGISTRY_URL_PREFIXES" ++
     require (bool_decide (cfg_OpaAllowedBundleSignatureSourceOrgs cfg = []))
       "ACCESSERATOR_OPA_ALLOWED_BUNDLE_SIGNATURE_SOURCE_ORGS"
   else []).

(** The strings that must be quantities, by the name of their variable. *)
Definition configured_quantities (cfg : Config) : list (string * string) :=
  [("ACCESSERATOR_TEXAS_CPU_REQUEST", cfg_TexasCPURequest cfg);
   ("ACCESSERATOR_TEXAS_CPU_LIMIT", cfg_TexasCPULimit cfg);
   ("ACCESSERATOR_TEXAS_MEMORY_REQUEST", cfg_TexasMemoryRequest cfg);
   ("ACCESSERATOR_TEXAS_MEMORY_LIMIT", cfg_TexasMemoryLimit cfg);
   ("ACCESSERATOR_OPA_CPU_REQUEST", cfg_OpaCPURequest cfg);
   ("ACCESSERATOR_OPA_CPU_LIMIT", cfg_OpaCPULimit cfg);
   ("ACCESSERATOR_OPA_MEMORY_REQUEST", cfg_OpaMemoryRequest cfg);
   ("ACCESSERATOR_OPA_MEMORY_LIMIT", cfg_OpaMemoryLimit cfg)].

(** The loop over the map, in the order in which Go happens to visit it. *)
Fixpoint validateResourceQuantities (quantitiesByEnvVarName : list (string * string)) :
    outcome unit :=
  match quantitiesByEnvVarName with
  | [] => Ok tt
  | (envVarName, value) :: rest =>
      let? _ := on_err (wrapf ("invalid " +:+ envVarName +:+ " value " +:+ Quote value +:+ ": "))
                  (ParseQuantity value) in
      validateResourceQuantities rest
  end.

Definition cfg_with_self_bundle (cfg : Config) (b : option OpaBundle) : Config :=
  {| cfg_RunsInProduction := cfg_RunsInProduction cfg; cfg_ClusterName := cfg_ClusterName cfg;
     cfg_TokenxEnabled := cfg_TokenxEnabled cfg; cfg_TokenxName := cfg_TokenxName cfg;
     cfg_TokenxNamespace := cfg_TokenxNamespace cfg;
     cfg_TexasImageName := cfg_TexasImageName cfg; cfg_TexasImageTag := cfg_TexasImageTag cfg;
     cfg_TexasImageSha := cfg_TexasImageSha cfg; cfg_TexasPort := cfg_TexasPort cfg;
     cfg_TexasProbePort := cfg_TexasProbePort cfg;
     cfg_TexasUrlEnvVarName := cfg_TexasUrlEnvVarName cfg;
     cfg_TexasCPURequest := cfg_TexasCPURequest cfg; cfg_TexasCPULimit := cfg_TexasCPULimit cfg;
     cfg_TexasMemoryRequest := cfg_TexasMemoryRequest cfg;
     cfg_TexasMemoryLimit := cfg_TexasMemoryLimit cfg;
     cfg_EntraTenantId := cfg_EntraTenantId cfg; cfg_OpaEnabled := cfg_OpaEnabled cfg;
     cfg_OpaImageName := cfg_OpaImageName cfg; cfg_OpaImageTag := cfg_OpaImageTag cfg;
     cfg_OpaImageSha := cfg_OpaImageSha cfg; cfg_OpaPort := cfg_OpaPort cfg;
     cfg_OpaGrpcPort := cfg_OpaGrpcPort cfg; cfg_OpaUrlEnvVarName := cfg_OpaUrlEnvVarName cfg;
     cfg_OpaAllowedBundleRegistryUrlPrefixes := cfg_OpaAllowedBundleRegistryUrlPrefixes cfg;
     cfg_OpaAllowedBundleSignatureSourceOrgs := cfg_OpaAllowedBundleSignatureSourceOrgs cfg;
     cfg_OpaSelfAuthorizationBundle := b; cfg_OpaCPURequest := cfg_OpaCPURequest cfg;
     cfg_OpaCPULimit := cfg_OpaCPULimit cfg; cfg_OpaMemoryRequest := cfg_OpaMemoryRequest cfg;
     cfg_OpaMemoryLimit := cfg_OpaMemoryLimit cfg;
     cfg_SigstoreTufCachePath := cfg_SigstoreTufCachePath cfg |}.

(** The bundle for self authorization: without a value in the environment there is none,
    otherwise it must be valid. *)
Definition self_bundle (env : string → option string) (cfg : Config) : outcome Config :=
  match env "ACCESSERATOR_OPA_SELF_AUTHORIZATION_BUNDLE" with
  | Some raw =>
      if bool_decide (TrimSpace raw = "") then Ok (cfg_with_self_bundle cfg None)
      else
        let? bundle := deref (cfg_OpaSelfAuthorizationBundle cfg) in
        let? _ := on_err (wrapf "invalid ACCESSERATOR_OPA_SELF_AUTHORIZATION_BUNDLE: ")
                    (ValidateOpaBundle bundle) in
        Ok cfg
  | None => Ok (cfg_with_self_bundle cfg None)
  end.

(** The checks of [Load] up to the certificate identity. *)
Definition load_config (env : string → option string)
    (visit : list (string * string) → list (string * string)) : outcome Config :=
  let? cfg := ProcessEnvironment env in
  let? cfg := self_bundle env cfg in
  match missing_config cfg with
  | (_ :: _) as missing => Err (ErrorString ("missing required config: " +:+ Join missing ", "))
  | [] =>
      let? _ := validateResourceQuantities (visit (configured_quantities cfg)) in Ok cfg
  end.

(** [Load], with the environment and the order in which Go visits a map. *)
Definition Load (env : string → option string)
    (visit : list (string * string) → list (string * string)) (st : ConfigState) :
    outcome unit * ConfigState :=
  match NewStoreFromDocker with
  | Panic w => (Panic w, st)
  | Err e =>
      (Err (wrapf "failed setting up credential store for auth towards OCI registry: " e),
       {| cs_appCfg := cs_appCfg st; cs_CredStore := None;
          cs_OpaSelfAuthorizationBundleBinaryData := cs_OpaSelfAuthorizationBundleBinaryData st;
          cs_CertificateIdentityForGithubActions := cs_CertificateIdentityForGithubActions st |})
  | Ok store =>
      let stored cfg certIdentity :=
        {| cs_appCfg := cfg; cs_CredStore := Some store;
           cs_OpaSelfAuthorizationBundleBinaryData := Some ∅;
           cs_CertificateIdentityForGithubActions := certIdentity |} in
      let unchanged := stored (cs_appCfg st) (cs_CertificateIdentityForGithubActions st) in
      match load_config env visit with
      | Err e => (Err e, unchanged)
      | Panic w => (Panic w, unchanged)
      | Ok cfg =>
          if cfg_OpaEnabled cfg then
            match GetCertificateIdentityForGitHubOrgs
                    (cfg_OpaAllowedBundleSignatureSourceOrgs cfg) with
            | Ok certIdentity => (Ok tt, stored (Some cfg) (Some certIdentity))
            | Err e => (Err (wrapf "failed setting up CertificateIdentity for GitHub Actions: " e),
                        unchanged)
            | Panic w => (Panic w, unchanged)
            end
          else (Ok tt, stored (Some cfg) (cs_CertificateIdentityForGithubActions st))
      end
  end.
End Load.

(** ** Loading the bundle: [cmd/main.go] *)

(** The binary data is a package variable that is written on success. *)
Definition validateAndLoadSelfAuthorizationBundle `{Globals}
    (selfAuthorizationBundle : OpaBundle) : GoM (gomap string) :=
  let url := ob_URL selfAuthorizationBundle in
  let! _ := lift (ValidateBundleUrlPrefixes [selfAuthorizationBundle]) in
  let! _ := gom_on_err
              (wrapf ("failed to verify source for configured self authorization OPA bundle " +:+
                      url +:+ ": "))
              (@VerifyBundleSource DefaultAttestationFetcher selfAuthorizationBundle) in
  let! ociRepoAndDigest :=
    gom_on_err (wrapf ("failed to resolve repository and digest for OPA bundle " +:+ url +:+ ": "))
      (call (OpResolveOci url)) in
  let! opaBundleAsBinaryData :=
    gom_on_err (wrapf ("failed to fetch OPA bundle layer for " +:+ url +:+ ": "))
      (call (OpFetchOpaBundleLayer ociRepoAndDigest)) in
  match OpaSelfAuthorizationBundleBinaryData with
  | Some data =>
      Ret (Ok (Some (<[ob_Name selfAuthorizationBundle := opaBundleAsBinaryData]> data)))
  | None => Ret (Panic "assignment to entry in nil map")
  end.

(** ** Specification *)

(** No [c] in [s]. *)
Definition without (c : ascii) (s : string) : bool := all_chars (λ d, negb (bool_decide (d = c))) s.

(** The texts of the three patterns, written out. *)
Definition alnum_or (extra : list ascii) (c : ascii) : bool :=
  is_alnum c || bool_decide (c ∈ extra).
Definition github_repository (s : string) : Prop :=
  ∃ o owner n name, s = String o owner +:+ "/" +:+ String n name ∧
    is_alnum o = true ∧ all_chars (alnum_or ["-"%char]) owner = true ∧
    (String.length owner ≤ 38)%nat ∧
    alnum_or ["_"%char] n = true ∧ all_chars (alnum_or ["."%char; "_"%char; "-"%char]) name = true ∧
    (String.length name ≤ 99)%nat.
Definition github_workflow (s : string) : Prop :=
  ∃ file ext, s = ".github/workflows/" +:+ file +:+ ext ∧ file ≠ "" ∧
    all_chars (alnum_or ["_"%char; "."%char; "-"%char]) file = true ∧ ext ∈ [".yml"; ".yaml"].
Definition github_ref (s : string) : Prop :=
  ∃ kind name, s = "refs/" +:+ kind +:+ "/" +:+ name ∧ kind ∈ ["heads"; "tags"; "pull"] ∧
    (1 ≤ String.length name ≤ 243)%nat ∧
    all_chars (alnum_or ["/"%char; "_"%char; "."%char; "-"%char]) name = true.

(** A certificate's name for a workflow of one of the organisations. *)
Definition workflow_san (orgs : list string) (san : string) : Prop :=
  ∃ org repo file ext c tail,
    san = "https://github.com/" +:+ org +:+ "/" +:+ repo +:+ "/.github/workflows/" +:+
          file +:+ ext +:+ "@" +:+ String c tail ∧
    org ∈ orgs ∧ repo ≠ "" ∧ without "/" repo = true ∧ file ≠ "" ∧ without "@" file = true ∧
    ext ∈ [".yml"; ".yaml"] ∧ c ≠ newline_char.

(** What the rest of the program relies on. *)
Record config_ok `{StartupLib} (cfg : Config) : Prop := {
  ok_production : cfg_RunsInProduction cfg ≠ None;
  ok_cluster : cfg_ClusterName cfg ≠ "";
  ok_texas : cfg_TexasImageTag cfg ≠ "" ∧ cfg_TexasImageSha cfg ≠ "";
  ok_tenant : cfg_EntraTenantId cfg ≠ "";
  ok_tokenx : cfg_TokenxEnabled cfg = true →
    cfg_TokenxName cfg ≠ "" ∧ cfg_TokenxNamespace cfg ≠ "";
  ok_opa : cfg_OpaEnabled cfg = true →
    cfg_OpaImageTag cfg ≠ "" ∧ cfg_OpaImageSha cfg ≠ "" ∧
    cfg_OpaAllowedBundleRegistryUrlPrefixes cfg ≠ [] ∧
    cfg_OpaAllowedBundleSignatureSourceOrgs cfg ≠ [];
  ok_quantities : ∀ name value, (name, value) ∈ configured_quantities cfg →
    ∃ q, ParseQuantity value = Ok q;
  ok_self : ∀ b, cfg_OpaSelfAuthorizationBundle cfg = Some b → ValidateOpaBundle b = Ok tt;
}.

(** ** Lemmas on the patterns *)

Lemma all_chars_ext p q s : (∀ c, p c = q c) → all_chars p s = all_chars q s.
Proof. intros Hpq. induction s as [|c s IH]; simpl; [done|]. by rewrite Hpq, IH. Qed.

(** Two predicates on bytes agree when they agree on all 256 of them. *)
Ltac by_bytes := intros [[] [] [] [] [] [] [] []]; reflexivity.

Lemma without_class c s : all_chars (in_class true [(c, c)]) s = without c s.
Proof.
  apply all_chars_ext. intros d. pose proof (in_class_single c d) as Hs.
  change (in_class true [(c, c)] d) with (negb (in_class false [(c, c)] d)).
  f_equal. apply eq_true_iff_eq. by rewrite bool_decide_eq_true.
Qed.

Lemma Lexes_of_all fuel s ts : lex_all fuel s = Some ts → Lexes s ts.
Proof.
  revert s ts. induction fuel as [|fuel IH]; intros [|c s] ts; cbn [lex_all]; try discriminate;
    try (intros [= <-]; constructor).
  destruct (lex_one (String c s)) as [[t rest]|] eqn:Ht; [|done].
  destruct (lex_all fuel rest) as [ts'|] eqn:Hr; [|done]. intros [= <-].
  eapply Lexes_cons; [exact Ht|by apply IH].
Qed.

Definition group_re (orgs : list string) : regex :=
  alt_of (map (λ o, text_then o REmpty) orgs).

(** What follows the organisations in the compiled expression. *)
Definition suffix_re : regex :=
  let plus r := RSeq r (RStar r) in
  RSeq (char_re "/") (RSeq (plus (RClass true [("/", "/")]%char))
    (text_then "/.github/workflows/" (RSeq (plus (RClass true [("@", "@")]%char))
      (text_then ".y" (RSeq (RAlt REmpty (RSeq (char_re "a") REmpty))
        (text_then "ml@" (RSeq (plus (RClass true [(newline_char, newline_char)])) REmpty))))))).

Fixpoint join_tokens (orgs : list string) : list token :=
  match orgs with
  | [] => []
  | [o] => map TChar (String.list_ascii_of_string o)
  | o :: os => map TChar (String.list_ascii_of_string o) ++ TBar :: join_tokens os
  end.

Lemma Lexes_join orgs rest ts :
  Forall (λ o, all_chars is_ascii o = true) orgs → Lexes rest ts →
  Lexes (Join (map QuoteMeta orgs) "|" +:+ rest) (join_tokens orgs ++ ts).
Proof.
  intros Hall Hr. induction Hall as [|o os Ho _ IH]; [done|].
  destruct os as [|o' os]; [by apply Lexes_QuoteMeta|].
  change (Join (map QuoteMeta (o :: o' :: os)) "|")
    with (QuoteMeta o +:+ "|" +:+ Join (map QuoteMeta (o' :: os)) "|").
  change (join_tokens (o :: o' :: os))
    with (map TChar (String.list_ascii_of_string o) ++ TBar :: join_tokens (o' :: os)).
  rewrite !string_app_assoc, <-app_assoc. apply Lexes_QuoteMeta; [done|].
  by eapply Lexes_cons.
Qed.

Lemma parse_join o os alts st :
  ∃ f, parse_tokens (join_tokens (o :: os))
         ({| f_alts := alts; f_items := []; f_repeated := false |} :: st) = Some (f :: st) ∧
       rev (seq_of (rev (f_items f)) :: f_alts f) =
       rev alts ++ map (λ o, text_then o REmpty) (o :: os).
Proof.
  assert (∀ o, seq_of (rev (rev (map char_re (String.list_ascii_of_string o)) ++ [])) =
               text_then o REmpty) as Hone.
  { intros o'. by rewrite app_nil_r, rev_involutive, seq_of_chars. }
  revert o alts. induction os as [|o' os IH]; intros o alts.
  - simpl join_tokens. rewrite parse_chars. eexists. split; [done|]. simpl. by rewrite Hone.
  - change (join_tokens (o :: o' :: os))
      with (map TChar (String.list_ascii_of_string o) ++ TBar :: join_tokens (o' :: os)).
    rewrite parse_tokens_app, parse_chars. simpl parse_tokens at 1. cbn [parse_tokens parse_one].
    destruct (IH o' (seq_of (rev (rev (map char_re (String.list_ascii_of_string o)) ++ [])) :: alts))
      as (f & Hf & Hg).
    exists f. split; [exact Hf|]. rewrite Hg, Hone. simpl rev at 1. by rewrite <-app_assoc.
Qed.

Lemma length_list_ascii s : length (String.list_ascii_of_string s) = String.length s.
Proof. induction s; simpl; auto. Qed.

Lemma join_tokens_length orgs :
  (length (join_tokens orgs) ≤ String.length (Join (map QuoteMeta orgs) "|"))%nat.
Proof.
  induction orgs as [|o os IH]; [done|]. pose proof (QuoteMeta_length o) as Hq.
  destruct os as [|o' os].
  - simpl. by rewrite length_map, length_list_ascii.
  - change (Join (map QuoteMeta (o :: o' :: os)) "|")
      with (QuoteMeta o +:+ "|" +:+ Join (map QuoteMeta (o' :: os)) "|").
    change (join_tokens (o :: o' :: os))
      with (map TChar (String.list_ascii_of_string o) ++ TBar :: join_tokens (o' :: os)).
    rewrite !string_length_app, length_app, length_map, length_list_ascii. cbn [length String.length].
    lia.
Qed.

Definition prefix_tokens : list token := default [] (lex san_prefix).
Definition suffix_tokens : list token := default [] (lex san_suffix).

Lemma Lexes_prefix rest ts : Lexes rest ts → Lexes (san_prefix +:+ rest) (prefix_tokens ++ ts).
Proof.
  intros Hr. assert (prefix_tokens = TBegin :: map TChar (String.list_ascii_of_string
    "https://github.com/") ++ [TOpen]) as -> by (vm_compute; reflexivity).
  unfold san_prefix. simpl. repeat (eapply Lexes_cons; [reflexivity|]). done.
Qed.

Lemma Lexes_suffix : Lexes san_suffix suffix_tokens.
Proof. apply (Lexes_of_all (String.length san_suffix)). vm_compute. reflexivity. Qed.

(** The frame of the expression when the group of organisations opens. *)
Definition outer_frame (repeated : bool) : frame :=
  {| f_alts := [];
     f_items := rev (RBegin :: map char_re (String.list_ascii_of_string "https://github.com/"));
     f_repeated := repeated |}.

Lemma parse_prefix : ∃ b, parse_tokens prefix_tokens [new_frame] = Some [new_frame; outer_frame b].
Proof. eexists. vm_compute. reflexivity. Qed.

Lemma parse_suffix f b :
  match parse_tokens suffix_tokens [f; outer_frame b] with
  | Some [f'] => Some (group_of f')
  | _ => None
  end = Some (RSeq RBegin (text_then "https://github.com/" (RSeq (group_of f) suffix_re))).
Proof.
  let ts := eval vm_compute in (tail suffix_tokens) in
  assert (suffix_tokens = TClose :: ts) as -> by (vm_compute; reflexivity).
  cbn [parse_tokens]. unfold parse_one at 1. generalize (group_of f) as G. intros G.
  vm_compute. reflexivity.
Qed.

(** What the expression compiles to. *)
Lemma san_compiles o os :
  Forall (λ o, all_chars is_ascii o = true) (o :: os) →
  Compile (san_prefix +:+ Join (map QuoteMeta (o :: os)) "|" +:+ san_suffix) =
  Ok (RSeq RBegin (text_then "https://github.com/" (RSeq (group_re (o :: os)) suffix_re))).
Proof.
  intros Ha. pose proof (Lexes_prefix _ _ (Lexes_join _ _ _ Ha Lexes_suffix)) as Hl.
  apply (Lexes_all _ _ (String.length (san_prefix +:+ Join (map QuoteMeta (o :: os)) "|" +:+
                                       san_suffix))) in Hl.
  2:{ pose proof (join_tokens_length (o :: os)).
      rewrite !string_length_app, !length_app.
      assert (length prefix_tokens ≤ String.length san_prefix)%nat by (vm_compute; lia).
      assert (length suffix_tokens ≤ String.length san_suffix)%nat by (vm_compute; lia). lia. }
  unfold Compile, parse, lex. rewrite Hl, parse_tokens_app.
  destruct parse_prefix as [b ->].
  destruct (parse_join o os [] [outer_frame b]) as (f & Hf & Hg).
  rewrite parse_tokens_app. unfold new_frame. rewrite Hf, parse_suffix.
  unfold group_of, group_re. by rewrite Hg.
Qed.

Lemma M_text t b s e : M (text_then t REmpty) b s e ↔ s = t.
Proof.
  rewrite M_text_then. setoid_rewrite M_empty_inv. split.
  - intros (s' & -> & ->). apply string_app_nil_r.
  - intros ->. exists "". by rewrite string_app_nil_r.
Qed.

Lemma M_char_then c r b s e :
  M (RSeq (char_re c) r) b s e ↔ ∃ s', s = String c s' ∧ M r false s' e.
Proof.
  change (RSeq (char_re c) r) with (text_then (String c "") r). rewrite M_text_then. simpl.
  by rewrite andb_false_r.
Qed.

Lemma M_group orgs b s e : M (group_re orgs) b s e ↔ s ∈ orgs.
Proof.
  unfold group_re. rewrite M_alt_of. setoid_rewrite list_elem_of_fmap. split.
  - intros (r & (o & -> & Ho) & ->%M_text). done.
  - intros Hs. eexists. split; [eauto|]. by apply M_text.
Qed.

(** A part that does not depend on where it stands, then the rest. *)
Lemma M_then P r1 r2 b s e :
  (∀ b s e, M r1 b s e ↔ P s) →
  M (RSeq r1 r2) b s e ↔ ∃ s1 s2, s = s1 +:+ s2 ∧ P s1 ∧ M r2 (b && empty s1) s2 e.
Proof. intros Hp. rewrite M_seq_iff. by setoid_rewrite Hp. Qed.

Lemma M_yml b s e :
  M (RSeq (RAlt REmpty (RSeq (char_re "a") REmpty)) (text_then "ml@" (RSeq
       (RSeq (RClass true [(newline_char, newline_char)])
             (RStar (RClass true [(newline_char, newline_char)]))) REmpty))) b s e ↔
  ∃ a s', s = a +:+ "ml@" +:+ s' ∧ a ∈ [""; "a"] ∧ empty s' = false ∧
    without newline_char s' = true.
Proof.
  rewrite (M_then (λ a, a ∈ [""; "a"])).
  2:{ intros b1 t1 e1. rewrite M_alt_iff, M_empty_inv, M_char_then. setoid_rewrite M_empty_inv.
      rewrite !elem_of_cons, elem_of_nil. naive_solver. }
  setoid_rewrite M_text_then. setoid_rewrite (M_then (λ s', empty s' = false ∧
    without newline_char s' = true)).
  2:{ intros b1 t1 e1. by rewrite M_plus_class, without_class. }
  setoid_rewrite M_empty_inv. split.
  - intros (a & s2 & -> & Ha & s3 & -> & s4 & s5 & -> & [H1 H2] & ->).
    exists a, s4. by rewrite string_app_nil_r.
  - intros (a & s' & -> & Ha & H1 & H2). exists a, ("ml@" +:+ s'). split_and!; [done|done|].
    exists s'. split; [done|]. exists s', "". by rewrite string_app_nil_r.
Qed.

Lemma M_suffix b s e :
  M suffix_re b s e ↔ ∃ repo file a tail,
    s = "/" +:+ repo +:+ "/.github/workflows/" +:+ file +:+ ".y" +:+ a +:+ "ml@" +:+ tail ∧
    empty repo = false ∧ without "/" repo = true ∧
    empty file = false ∧ without "@" file = true ∧ a ∈ [""; "a"] ∧
    empty tail = false ∧ without newline_char tail = true.
Proof.
  unfold suffix_re. cbv zeta. rewrite M_char_then.
  setoid_rewrite (M_then (λ s', empty s' = false ∧ without "/" s' = true)).
  2:{ intros b1 t1 e1. by rewrite M_plus_class, without_class. }
  setoid_rewrite M_text_then.
  setoid_rewrite (M_then (λ s', empty s' = false ∧ without "@" s' = true)).
  2:{ intros b1 t1 e1. by rewrite M_plus_class, without_class. }
  setoid_rewrite M_text_then. setoid_rewrite M_yml. split.
  - intros (s1 & -> & repo & s2 & -> & [? ?] & s3 & -> & file & s4 & -> & [? ?] & s5 & -> & a &
            tail & -> & ? & ? & ?).
    exists repo, file, a, tail. done.
  - intros (repo & file & a & tail & -> & ? & ? & ? & ? & ? & ? & ?).
    eexists. split; [done|]. exists repo. eexists. split_and!; [done..|].
    eexists. split; [done|]. exists file. eexists. split_and!; [done..|].
    eexists. split; [done|]. exists a, tail. done.
Qed.

Lemma yml_extension ext : ext ∈ [".yml"; ".yaml"] ↔ ∃ a, a ∈ [""; "a"] ∧ ext = ".y" +:+ a +:+ "ml".
Proof.
  rewrite !elem_of_cons, elem_of_nil. split.
  - intros [-> | [-> | []]]; [exists ""|exists "a"]; split; set_solver.
  - intros (a & Ha & ->). rewrite !elem_of_cons, elem_of_nil in Ha.
    destruct Ha as [-> | [-> | []]]; auto.
Qed.

Lemma empty_false s : empty s = false ↔ s ≠ "".
Proof. by destruct s. Qed.

Lemma compiled_san o os san :
  MatchString (RSeq RBegin (text_then "https://github.com/" (RSeq (group_re (o :: os)) suffix_re)))
    san = true ↔ workflow_san (o :: os) san.
Proof.
  rewrite MatchString_begin. setoid_rewrite M_text_then. setoid_rewrite (M_then (.∈ o :: os)).
  2:{ intros b1 t1 e1. apply M_group. }
  setoid_rewrite M_suffix. unfold workflow_san. split.
  - intros (s2 & s3 & -> & s4 & -> & org & s5 & -> & Horg & repo & file & a & tail & -> & H1 & H2 &
            H3 & H4 & Ha & H5 & H6).
    destruct tail as [|c tail]; [done|]. apply andb_prop in H6 as [Hc _].
    exists org, repo, file, (".y" +:+ a +:+ "ml"), c, (tail +:+ s3).
    rewrite <-!empty_false, yml_extension. split; [by rewrite !string_app_assoc|].
    split_and!; eauto. by apply negb_true_iff, bool_decide_eq_false in Hc.
  - intros (org & repo & file & ext & c & tail & -> & Horg & H1 & H2 & H3 & H4 & Hext & Hc).
    apply yml_extension in Hext as (a & Ha & ->). rewrite <-empty_false in H1, H3.
    exists ("https://github.com/" +:+ org +:+ "/" +:+ repo +:+ "/.github/workflows/" +:+
            file +:+ ".y" +:+ a +:+ "ml@" +:+ String c ""), tail.
    split; [by rewrite !string_app_assoc|]. eexists. split; [done|]. exists org. eexists.
    split_and!; [done|done|]. exists repo, file, a, (String c ""). split_and!; try done.
    unfold without. cbn [all_chars]. by rewrite bool_decide_false.
Qed.

(** Each of the three patterns, as an expression of the forms with a known meaning. *)
Definition alnum_ranges (extra : list (ascii * ascii)) : list (ascii * ascii) :=
  [("a", "z"); ("A", "Z"); ("0", "9")]%char ++ extra.
Definition between_re (least most : nat) (r : regex) : regex := repeat_regex least (Some most) r.

Lemma repository_pattern_shape :
  githubRepositoryPattern = RSeq RBegin (RSeq (RClass false (alnum_ranges []))
    (RSeq (at_most 38 (RClass false (alnum_ranges [("-", "-")%char])))
      (RSeq (char_re "/") (RSeq (RClass false (alnum_ranges [("_", "_")%char]))
        (RSeq (at_most 99 (RClass false (alnum_ranges [(".", "."); ("_", "_"); ("-", "-")]%char)))
          (RSeq REnd REmpty)))))).
Proof. vm_compute. reflexivity. Qed.

Lemma workflow_pattern_shape :
  let class := RClass false (alnum_ranges [("_", "_"); (".", "."); ("-", "-")]%char) in
  githubWorkflowPattern = RSeq RBegin (text_then ".github/workflows/"
    (RSeq (RSeq class (RStar class)) (RSeq (char_re ".")
      (RSeq (RAlt (text_then "yml" REmpty) (text_then "yaml" REmpty)) (RSeq REnd REmpty))))).
Proof. vm_compute. reflexivity. Qed.

Lemma ref_pattern_shape :
  let class := RClass false (alnum_ranges [("/", "/"); ("_", "_"); (".", "."); ("-", "-")]%char) in
  githubRefPattern = RSeq RBegin (text_then "refs/"
    (RSeq (alt_of [text_then "heads" REmpty; text_then "tags" REmpty; text_then "pull" REmpty])
      (RSeq (char_re "/") (RSeq (RSeq class (at_most 242 class)) (RSeq REnd REmpty))))).
Proof. vm_compute. reflexivity. Qed.

Lemma M_end_then b s e : M (RSeq REnd REmpty) b s e ↔ e = true ∧ s = "".
Proof.
  rewrite M_seq_iff. setoid_rewrite M_end_iff. setoid_rewrite M_empty_inv. split.
  - intros (s1 & s2 & -> & [He ->] & ->). by rewrite andb_true_r in He.
  - intros [-> ->]. by exists "", "".
Qed.

Lemma M_class_then l p r b s e :
  (∀ c, in_class false l c = p c) →
  M (RSeq (RClass false l) r) b s e ↔ ∃ c s', s = String c s' ∧ p c = true ∧ M r false s' e.
Proof.
  intros Hp. rewrite M_seq_iff. setoid_rewrite M_class_iff. setoid_rewrite Hp. split.
  - intros (s1 & s2 & -> & (c & -> & Hc) & Hm). simpl in Hm. rewrite andb_false_r in Hm. eauto.
  - intros (c & s' & -> & Hc & Hm). exists (String c ""), s'. simpl. rewrite andb_false_r. eauto 10.
Qed.

Lemma repository_matches s : MatchString githubRepositoryPattern s = true ↔ github_repository s.
Proof.
  rewrite repository_pattern_shape, MatchString_begin. unfold github_repository.
  setoid_rewrite (M_class_then _ is_alnum); [|by_bytes].
  setoid_rewrite (M_then (λ s, (String.length s ≤ 38)%nat ∧ all_chars (alnum_or ["-"%char]) s = true)).
  2:{ intros b1 t1 e1. rewrite M_at_most_class. f_equiv. erewrite all_chars_ext; [done|by_bytes]. }
  setoid_rewrite M_char_then.
  setoid_rewrite (M_class_then _ (alnum_or ["_"%char])); [|by_bytes].
  setoid_rewrite (M_then (λ s, (String.length s ≤ 99)%nat ∧
                               all_chars (alnum_or ["."%char; "_"%char; "-"%char]) s = true)).
  2:{ intros b1 t1 e1. rewrite M_at_most_class. f_equiv. erewrite all_chars_ext; [done|by_bytes]. }
  setoid_rewrite M_end_then. split.
  - intros (s2 & s3 & -> & o & s4 & -> & Ho & owner & s5 & -> & [? ?] & s6 & -> & n & s7 & -> & Hn &
            name & s8 & -> & [? ?] & He & ->).
    destruct s3; [|done]. exists o, owner, n, name. rewrite !string_app_nil_r. done.
  - intros (o & owner & n & name & -> & ? & ? & ? & ? & ? & ?).
    eexists _, "". split; [by rewrite string_app_nil_r|]. exists o. eexists. split_and!; [done..|].
    exists owner. eexists. split_and!; [done..|]. eexists. split; [done|]. exists n. eexists.
    split_and!; [done..|]. exists name, "". by rewrite string_app_nil_r.
Qed.

Lemma workflow_matches s : MatchString githubWorkflowPattern s = true ↔ github_workflow s.
Proof.
  rewrite workflow_pattern_shape, MatchString_begin. unfold github_workflow.
  setoid_rewrite M_text_then.
  setoid_rewrite (M_then (λ s, empty s = false ∧
                     all_chars (alnum_or ["_"%char; "."%char; "-"%char]) s = true)).
  2:{ intros b1 t1 e1. rewrite M_plus_class. f_equiv. erewrite all_chars_ext; [done|by_bytes]. }
  setoid_rewrite M_char_then. setoid_rewrite (M_then (.∈ ["yml"; "yaml"])).
  2:{ intros b1 t1 e1. rewrite M_alt_iff, !M_text. set_solver. }
  setoid_rewrite M_end_then. split.
  - intros (s2 & s3 & -> & s4 & -> & file & s5 & -> & [Hf ?] & s6 & -> & ext & s7 & -> & Hext & He & ->).
    destruct s3; [|done]. exists file, ("." +:+ ext). rewrite !string_app_nil_r.
    split_and!; [done|by apply empty_false|done|]. set_solver.
  - intros (file & ext & -> & Hf & ? & Hext). apply empty_false in Hf.
    assert (∃ x, ext = "." +:+ x ∧ x ∈ ["yml"; "yaml"]) as (x & -> & Hx).
    { rewrite !elem_of_cons, elem_of_nil in Hext.
      destruct Hext as [-> | [-> | []]]; [exists "yml"|exists "yaml"]; set_solver. }
    eexists _, "". split; [by rewrite string_app_nil_r|]. eexists. split; [done|]. exists file. eexists.
    split_and!; [done..|]. eexists. split; [done|]. exists x, "". by rewrite string_app_nil_r.
Qed.

Lemma ref_matches s : MatchString githubRefPattern s = true ↔ github_ref s.
Proof.
  rewrite ref_pattern_shape, MatchString_begin. unfold github_ref.
  setoid_rewrite M_text_then. setoid_rewrite (M_then (.∈ ["heads"; "tags"; "pull"])).
  2:{ intros b1 t1 e1. rewrite M_alt_of. setoid_rewrite elem_of_cons. setoid_rewrite elem_of_cons.
      setoid_rewrite elem_of_cons. setoid_rewrite elem_of_nil. split.
      - intros (r & [-> | [-> | [-> | []]]] & ->%M_text); auto.
      - intros [-> | [-> | [-> | []]]]; eexists; (split; [|by apply M_text]); auto. }
  setoid_rewrite M_char_then.
  setoid_rewrite (M_then (λ s, (1 ≤ String.length s ≤ 243)%nat ∧
                     all_chars (alnum_or ["/"%char; "_"%char; "."%char; "-"%char]) s = true)).
  2:{ intros b1 t1 e1. setoid_rewrite (M_class_then _ (alnum_or ["/"%char; "_"%char; "."%char; "-"%char]));
        [|by_bytes]. setoid_rewrite M_at_most_class. split.
      - intros (c & t & -> & Hc & Hl & Ht). simpl. rewrite Hc. split; [lia|].
        erewrite all_chars_ext; [exact Ht|by_bytes].
      - intros [Hl Ht]. destruct t1 as [|c t]; simpl in Hl; [lia|]. apply andb_prop in Ht as [Hc Ht].
        exists c, t. split_and!; [done|done|lia|]. erewrite all_chars_ext; [exact Ht|by_bytes]. }
  setoid_rewrite M_end_then. split.
  - intros (s2 & s3 & -> & s4 & -> & kind & s5 & -> & Hk & s6 & -> & name & s7 & -> & [? ?] & He & ->).
    destruct s3; [|done]. exists kind, name. by rewrite !string_app_nil_r.
  - intros (kind & name & -> & Hk & ? & ?).
    eexists _, "". split; [by rewrite string_app_nil_r|]. eexists. split; [done|]. exists kind. eexists.
    split_and!; [done..|]. eexists. split; [done|]. exists name, "". by rewrite string_app_nil_r.
Qed.

(** ** Lemmas on [Load] *)

Lemma require_nil (b : bool) (name : string) : (if b then [name] else []) = [] ↔ b = false.
Proof. by destruct b. Qed.

Section LoadFacts.
Context `{StartupLib} `{IdentityLib}.

Lemma missing_config_nil cfg :
  missing_config cfg = [] ↔
  cfg_RunsInProduction cfg ≠ None ∧ cfg_ClusterName cfg ≠ "" ∧ cfg_TexasImageTag cfg ≠ "" ∧
  cfg_TexasImageSha cfg ≠ "" ∧ cfg_EntraTenantId cfg ≠ "" ∧
  (cfg_TokenxEnabled cfg = true → cfg_TokenxName cfg ≠ "" ∧ cfg_TokenxNamespace cfg ≠ "") ∧
  (cfg_OpaEnabled cfg = true →
    cfg_OpaImageTag cfg ≠ "" ∧ cfg_OpaImageSha cfg ≠ "" ∧
    cfg_OpaAllowedBundleRegistryUrlPrefixes cfg ≠ [] ∧
    cfg_OpaAllowedBundleSignatureSourceOrgs cfg ≠ []).
Proof.
  unfold missing_config. rewrite !app_nil.
  destruct (cfg_TokenxEnabled cfg), (cfg_OpaEnabled cfg);
    rewrite ?app_nil, ?require_nil, ?bool_decide_eq_false;
    destruct (cfg_RunsInProduction cfg); simpl; naive_solver.
Qed.

(** The order in which the map is visited decides only which error is told. *)
Lemma validateResourceQuantities_Ok l :
  validateResourceQuantities l = Ok tt ↔ ∀ name value, (name, value) ∈ l →
    ∃ q, ParseQuantity value = Ok q.
Proof.
  induction l as [|[name value] l IH]; simpl; [set_solver|].
  destruct (ParseQuantity value) as [q|e|w] eqn:Hp; simpl.
  - rewrite IH. split.
    + intros Hall n v [[= -> ->]|Hin]%elem_of_cons; eauto.
    + intros Hall n v Hin. apply (Hall n v). by right.
  - split; [done|]. intros Hall. destruct (Hall name value) as [q Hq]; [by left|congruence].
  - split; [done|]. intros Hall. destruct (Hall name value) as [q Hq]; [by left|congruence].
Qed.

Lemma self_bundle_Ok env cfg cfg' :
  self_bundle env cfg = Ok cfg' →
  (∃ b, cfg' = cfg_with_self_bundle cfg b) ∧
  (∀ b, cfg_OpaSelfAuthorizationBundle cfg' = Some b → ValidateOpaBundle b = Ok tt) ∧
  (cfg_OpaSelfAuthorizationBundle cfg' ≠ None ↔
   ∃ raw, env "ACCESSERATOR_OPA_SELF_AUTHORIZATION_BUNDLE" = Some raw ∧ TrimSpace raw ≠ "").
Proof.
  unfold self_bundle. destruct (env _) as [raw|]; [case_bool_decide as Hraw|].
  - intros [= <-]. simpl. split_and!; [eauto|done|]. naive_solver.
  - destruct (cfg_OpaSelfAuthorizationBundle cfg) as [b|] eqn:Hb; simpl; [|done].
    destruct (ValidateOpaBundle b) as [[]|e|w] eqn:Hv; simpl; try done. intros [= <-].
    rewrite Hb. split_and!.
    + exists (Some b). destruct cfg; simpl in *. by subst.
    + by intros ? [= <-].
    + naive_solver.
  - intros [= <-]. simpl. split_and!; [eauto|done|]. naive_solver.
Qed.

Lemma load_config_Ok env visit cfg :
  (∀ l, visit l ≡ₚ l) → load_config env visit = Ok cfg →
  config_ok cfg ∧
  (cfg_OpaSelfAuthorizationBundle cfg ≠ None ↔
   ∃ raw, env "ACCESSERATOR_OPA_SELF_AUTHORIZATION_BUNDLE" = Some raw ∧ TrimSpace raw ≠ "") ∧
  ∃ cfg0, ProcessEnvironment env = Ok cfg0 ∧
    cfg = cfg_with_self_bundle cfg0 (cfg_OpaSelfAuthorizationBundle cfg).
Proof.
  intros Hvisit. unfold load_config.
  destruct (ProcessEnvironment env) as [cfg0|e|w] eqn:Hp; simpl; try done.
  destruct (self_bundle env cfg0) as [cfg1|e|w] eqn:Hs; simpl; try done.
  apply self_bundle_Ok in Hs as ([b Heq] & Hself & Hiff).
  destruct (missing_config cfg1) eqn:Hm; [|done].
  destruct (validateResourceQuantities _) as [[]|e|w] eqn:Hq; simpl; try done.
  intros [= <-]. apply missing_config_nil in Hm as (? & ? & ? & ? & ? & ? & ?).
  rewrite validateResourceQuantities_Ok in Hq. setoid_rewrite Hvisit in Hq.
  split_and!; [by split|done|]. exists cfg0. by rewrite Heq at 2; rewrite Heq.
Qed.
End LoadFacts.

(** ** Properties *)

(** C39: [ValidateOpaBundle] accepts exactly the bundles whose name is a ConfigMap key and
    whose source names a GitHub repository, a workflow file in [.github/workflows] and a
    branch, tag or pull reference, with the characters and lengths written out. *)
Theorem ValidateOpaBundle_spec `{StartupLib} bundle :
  ValidateOpaBundle bundle = Ok tt ↔
  IsConfigMapKey (ob_Name bundle) = [] ∧
  github_repository (src_Repository (ob_BundleSource bundle)) ∧
  github_workflow (src_Workflow (ob_BundleSource bundle)) ∧
  github_ref (src_Ref (ob_BundleSource bundle)).
Proof.
  rewrite <-repository_matches, <-workflow_matches, <-ref_matches. unfold ValidateOpaBundle.
  destruct (IsConfigMapKey _); [|naive_solver].
  destruct (bool_decide_reflect (src_Repository (ob_BundleSource bundle) = "")) as [->|Hr].
  { split; [done|]. intros (_ & Hm & _). vm_compute in Hm. done. }
  destruct (MatchString githubRepositoryPattern _), (MatchString githubWorkflowPattern _),
    (MatchString githubRefPattern _); simpl; naive_solver.
Qed.

(** C7: for organisations with ASCII names, [BuildGitHubSANRegex] succeeds, and the
    expression it builds matches exactly the names of certificates of workflow files in
    repositories of one of these organisations, at some reference: an organisation's name
    can neither be continued nor act as a pattern. *)
Theorem BuildGitHubSANRegex_spec orgs :
  orgs ≠ [] → Forall (λ o, all_chars is_ascii o = true) orgs →
  ∃ re, BuildGitHubSANRegex orgs = Ok re ∧
        ∀ san, MatchString re san = true ↔ workflow_san orgs san.
Proof.
  intros Hne Hascii. destruct orgs as [|o os]; [done|].
  eexists. split; [|intros san; apply compiled_san].
  unfold BuildGitHubSANRegex. by rewrite san_compiles.
Qed.

(** The quantities of a complete configuration give the resources of both sidecars. *)
Lemma config_resources `{StartupLib} cfg (Hok : config_ok cfg) (lib : Lib) data :
  (∀ s q, ParseQuantity s = Ok q → MustParse s = Ok q) →
  let globals := {| appCfg := cfg; OpaSelfAuthorizationBundleBinaryData := data |} in
  is_ok TexasResources = true ∧ is_ok OpaResources = true.
Proof.
  intros Hparse globals. pose proof (ok_quantities _ Hok) as Hq.
  assert (∀ name value, (name, value) ∈ configured_quantities cfg →
            ∃ q, MustParse value = Ok q) as Hm by (intros n v (q & Hv)%Hq; eauto).
  unfold configured_quantities in Hm. repeat setoid_rewrite elem_of_cons in Hm.
  unfold TexasResources, OpaResources, resource_requirements, globals. simpl.
  repeat match goal with |- context [MustParse ?v] =>
    let q := fresh "q" in let Hv := fresh "Hv" in
    destruct (Hm _ v ltac:(eauto 12)) as [q Hv]; rewrite Hv; clear Hv; simpl end. done.
Qed.

(** What [Load] leaves. *)
Lemma Load_leaves `{StartupLib} `{IdentityLib} env visit st :
  (∀ l, visit l ≡ₚ l) →
  let '(r, st') := Load env visit st in
  (r ≠ Ok tt → cs_appCfg st' = cs_appCfg st ∧
     cs_CertificateIdentityForGithubActions st' = cs_CertificateIdentityForGithubActions st) ∧
  (r = Ok tt → ∃ cfg, cs_appCfg st' = Some cfg ∧ config_ok cfg ∧ cs_CredStore st' ≠ None ∧
    cs_OpaSelfAuthorizationBundleBinaryData st' = Some ∅ ∧
    (cfg_OpaSelfAuthorizationBundle cfg ≠ None ↔ ∃ raw,
      env "ACCESSERATOR_OPA_SELF_AUTHORIZATION_BUNDLE" = Some raw ∧ TrimSpace raw ≠ "") ∧
    (cfg_OpaEnabled cfg = true → ∃ identity,
      GetCertificateIdentityForGitHubOrgs (cfg_OpaAllowedBundleSignatureSourceOrgs cfg) =
        Ok identity ∧ cs_CertificateIdentityForGithubActions st' = Some identity) ∧
    ∀ (lib : Lib) data,
      (∀ s q, ParseQuantity s = Ok q → MustParse s = Ok q) →
      let globals := {| appCfg := cfg; OpaSelfAuthorizationBundleBinaryData := data |} in
      is_ok TexasResources = true ∧ is_ok OpaResources = true).
Proof.
  intros Hvisit. unfold Load.
  destruct NewStoreFromDocker as [store|e|w]; [|by split..].
  destruct (load_config env visit) as [cfg|e|w] eqn:Hl; [|by split..].
  apply load_config_Ok in Hl as (Hok & Hself & _); [|done].
  pose proof (config_resources cfg Hok) as Hres.
  destruct (cfg_OpaEnabled cfg) eqn:Hopa.
  - destruct (GetCertificateIdentityForGitHubOrgs _) as [certIdentity|e|w] eqn:Hid; [|by split..].
    split; [done|]. intros _. exists cfg. simpl. split_and!; eauto.
  - split; [done|]. intros _. exists cfg. simpl. split_and!; eauto. congruence.
Qed.

(** C37: [Load] stores a configuration exactly when it succeeds.  Whatever order Go visits
    the quantities in, the stored configuration has every required variable, only
    quantities that parse (so the resources of both sidecars can be built), a valid bundle
    for self authorization exactly when the environment has one, and, where OPA is enabled,
    the certificate identity of the configured organisations. *)
Theorem Load_sound `{StartupLib} `{IdentityLib} env visit st :
  (∀ l, visit l ≡ₚ l) →
  let '(r, st') := Load env visit st in
  (r ≠ Ok tt → cs_appCfg st' = cs_appCfg st ∧
     cs_CertificateIdentityForGithubActions st' = cs_CertificateIdentityForGithubActions st) ∧
  (r = Ok tt → ∃ cfg, cs_appCfg st' = Some cfg ∧ config_ok cfg ∧ cs_CredStore st' ≠ None ∧
    cs_OpaSelfAuthorizationBundleBinaryData st' = Some ∅ ∧
    (cfg_OpaSelfAuthorizationBundle cfg ≠ None ↔ ∃ raw,
      env "ACCESSERATOR_OPA_SELF_AUTHORIZATION_BUNDLE" = Some raw ∧ TrimSpace raw ≠ "") ∧
    (cfg_OpaEnabled cfg = true → ∃ identity,
      GetCertificateIdentityForGitHubOrgs (cfg_OpaAllowedBundleSignatureSourceOrgs cfg) =
        Ok identity ∧ cs_CertificateIdentityForGithubActions st' = Some identity) ∧
    ∀ (lib : Lib) data,
      (∀ s q, ParseQuantity s = Ok q → MustParse s = Ok q) →
      let globals := {| appCfg := cfg; OpaSelfAuthorizationBundleBinaryData := data |} in
      is_ok TexasResources = true ∧ is_ok OpaResources = true).
Proof. apply Load_leaves. Qed.

(** The run of [validateAndLoadSelfAuthorizationBundle] when it succeeds. *)
Lemma validateAndLoad_run `{Globals} bundle h data :
  steps (validateAndLoadSelfAuthorizationBundle bundle) h (Ret (Ok data)) →
  ∃ h' oci layer old,
    h = h' ++ [Ev (OpResolveOci (ob_URL bundle)) (Ok oci); Ev (OpFetchOpaBundleLayer oci) (Ok layer)] ∧
    hasAllowedPrefix (ob_URL bundle) (cfg_OpaAllowedBundleRegistryUrlPrefixes Get) = true ∧
    steps (@VerifyBundleSource DefaultAttestationFetcher bundle) h' (Ret (Ok tt)) ∧
    OpaSelfAuthorizationBundleBinaryData = Some old ∧
    data = Some (<[ob_Name bundle := layer]> old).
Proof.
  unfold validateAndLoadSelfAuthorizationBundle.
  intros (h1 & [] & h2 & -> & [Hp ->]%steps_Ret_inv & H2)%gom_bind_steps. simpl in *.
  apply gom_bind_steps in H2 as (h3 & [] & h4 & -> & H3%gom_on_err_steps & H4).
  apply gom_bind_steps in H4 as (h5 & oci & h6 & -> & H5%gom_on_err_steps & H6).
  apply (call_steps (OpResolveOci _)) in H5 as ->.
  apply gom_bind_steps in H6 as (h7 & layer & h8 & -> & H7%gom_on_err_steps & H8).
  apply (call_steps (OpFetchOpaBundleLayer _)) in H7 as ->.
  destruct OpaSelfAuthorizationBundleBinaryData as [old|] eqn:Hold;
    [|by apply steps_Ret_inv in H8 as [? _]].
  apply steps_Ret_inv in H8 as [[= <-] ->]. exists h3, oci, layer, old.
  split_and!; [done| |exact H3|done|done].
  unfold ValidateBundleUrlPrefixes in Hp. simpl in Hp. by destruct (hasAllowedPrefix _ _).
Qed.

(** When [validateAndLoadSelfAuthorizationBundle] succeeds, the bundle's URL has an
    allowed prefix, its source was proved for a digest that the URL resolved to, and the
    binary data got exactly one entry, under the bundle's name: the layer fetched for a
    digest that the URL resolved to, as the registry gave it. *)
Theorem validateAndLoad_sound `{Globals} `{SigstoreLib} registry public github certID bundle h data :
  replied (registry_reply registry public github certID) h →
  steps (validateAndLoadSelfAuthorizationBundle bundle) h (Ret (Ok data)) →
  hasAllowedPrefix (ob_URL bundle) (cfg_OpaAllowedBundleRegistryUrlPrefixes Get) = true ∧
  source_proved registry public github certID h bundle ∧
  ∃ old oci layer t t', OpaSelfAuthorizationBundleBinaryData = Some old ∧
    data = Some (<[ob_Name bundle := layer]> old) ∧
    ResolveOciRepositoryAndDigest (H := registry t) (ob_URL bundle) = Ok oci ∧
    FetchOpaBundleLayer (H := registry t') oci = Ok layer.
Proof.
  intros Hr (h' & oci & layer & old & -> & Hp & Hv & Hold & ->)%validateAndLoad_run.
  destruct (Hr (OpResolveOci (ob_URL bundle)) (Ok oci)) as [t Ht]; [set_solver|].
  destruct (Hr (OpFetchOpaBundleLayer oci) (Ok layer)) as [t' Ht']; [set_solver|].
  apply replied_app in Hr as [Hr _]. split_and!.
  - exact Hp.
  - eapply source_proved_part; [by apply part_of_app_l|]. by apply verify_proved.
  - by exists old, oci, layer, t, t'.
Qed.

(** The digest that is verified and the digest whose layer is loaded come from two
    resolutions of the URL, and nothing compares them: when the tag moves in between, a
    bundle that was not verified is loaded. *)
Theorem validateAndLoad_resolves_twice `{Globals} bundle old verified loaded referrers layer :
  OpaSelfAuthorizationBundleBinaryData = Some old →
  hasAllowedPrefix (ob_URL bundle) (cfg_OpaAllowedBundleRegistryUrlPrefixes Get) = true →
  src_Repository (ob_BundleSource bundle) ≠ "" →
  List.filter is_slsa_provenance referrers ≠ [] →
  let slsa := List.filter is_slsa_provenance referrers in
  steps (validateAndLoadSelfAuthorizationBundle bundle)
    [Ev (OpResolveOci (ob_URL bundle)) (Ok verified);
     Ev (OpListReferrers verified SigstoreBundleMediaType) (Ok referrers);
     Ev (OpValidateSigstoreBundles verified slsa (ob_BundleSource bundle)) (Ok tt);
     Ev (OpResolveOci (ob_URL bundle)) (Ok loaded);
     Ev (OpFetchOpaBundleLayer loaded) (Ok layer)]
    (Ret (Ok (Some (<[ob_Name bundle := layer]> old)))).
Proof.
  intros Hold Hp Hrepo Hs slsa. unfold validateAndLoadSelfAuthorizationBundle.
  unfold ValidateBundleUrlPrefixes. simpl map. cbn [List.filter]. rewrite Hp. simpl negb. cbv iota.
  unfold VerifyBundleSource. rewrite bool_decide_false by done.
  do 2 (apply steps_op; simpl). destruct slsa as [|d l] eqn:Hl; [done|].
  simpl. unfold slsa in Hl. rewrite Hl. do 3 (apply steps_op; simpl). rewrite Hold. apply steps_refl.
Qed.

(** ** Applications *)

(** The libraries of the start, on few inputs; the environment is that of [SampleGlobals]. *)
#[export] Instance SampleStartup : StartupLib := {|
  IsConfigMapKey s := if bool_decide (s = "") then ["a valid config key must not be empty"] else [];
  ParseQuantity s := if bool_decide (s = "") then Err (ErrorString "cannot parse")
                     else Ok {| q_repr := s |};
  DynamicStore := unit;
  NewStoreFromDocker := Ok tt;
  ProcessEnvironment _ := Ok (@appCfg SampleGlobals);
|}.
#[export] Instance SampleIdentity : @IdentityLib SampleSigstore := {|
  NewCertificateIdentity _ _ := Ok tt;
|}.

Definition sample_config_state : ConfigState :=
  {| cs_appCfg := None; cs_CredStore := None; cs_OpaSelfAuthorizationBundleBinaryData := None;
     cs_CertificateIdentityForGithubActions := None |}.

Lemma Load_sound_witness :
  ∃ cfg, cs_appCfg (snd (Load (λ _, None) (@rev _) sample_config_state)) = Some cfg ∧
         config_ok cfg.
Proof.
  pose proof (Load_sound (λ _, None) (@rev _) sample_config_state
                (λ l, symmetry (Permutation_rev l))) as Hl.
  assert (fst (Load (λ _, None) (@rev _) sample_config_state) = Ok tt) as Hok
    by (vm_compute; reflexivity).
  destruct (Load _ _ _) as [r st']. destruct Hl as [_ Hl].
  destruct (Hl Hok) as (cfg & Hcfg & Hc & _). exists cfg. split; [exact Hcfg|exact Hc].
Defined.

(** The texts of the configured organisation, and one that only starts like it. *)
Lemma BuildGitHubSANRegex_spec_witness :
  ∃ re, BuildGitHubSANRegex ["kartverket"; "a.b"] = Ok re ∧
    (MatchString re "https://github.com/kartverket/r/.github/workflows/b.yml@refs/heads/main" = true ∧
     MatchString re "https://github.com/kartverket-x/r/.github/workflows/b.yml@refs" = false ∧
     MatchString re "https://github.com/axb/r/.github/workflows/b.yml@refs" = false) ∧
    ∀ san, MatchString re san = true ↔ workflow_san ["kartverket"; "a.b"] san.
Proof.
  destruct (BuildGitHubSANRegex_spec ["kartverket"; "a.b"]) as (re & Hre & Hm).
  - discriminate.
  - repeat constructor.
  - exists re. split; [exact Hre|]. split; [|exact Hm].
    vm_compute in Hre. injection Hre as <-. vm_compute. auto.
Defined.

(** Verified, resolved again, fetched. *)
Definition sample_start : history :=
  sample_lookups ++ [Ev (OpResolveOci "ghcr.io/kartverket/policy:1") (Ok sample_oci);
                     Ev (OpFetchOpaBundleLayer sample_oci) (Ok "layer")].

Lemma sample_start_replies :
  replied (registry_reply sample_registry sample_root sample_root sample_identity) sample_start.
Proof.
  intros op r [Hin|Hin]%elem_of_app; [by apply sample_lookups_replies|]. revert op r Hin.
  apply replied_Forall. repeat constructor; exists 0%nat; vm_compute; reflexivity.
Qed.

Lemma validateAndLoad_sound_witness :
  source_proved sample_registry sample_root sample_root sample_identity sample_start
    (ToOpaBundle sample_bundle).
Proof.
  apply (validateAndLoad_sound sample_registry sample_root sample_root sample_identity
           (ToOpaBundle sample_bundle) sample_start
           (Some (<["policy" := "layer"]> {["self" := "bundle"]})) sample_start_replies).
  do 5 apply steps_op. apply steps_refl.
Defined.
