(* ===== verification/Schema.v ===== *)
(** * The schema of SecurityConfigs: the validation markers of
      [api/v1alpha/securityconfig_types.go]

    The API server stores a SecurityConfig only if it meets the schema that is generated
    from the markers: lengths, patterns, numbers of items, and rules in CEL.  Here each
    type has the predicate that its markers say.  A field that is optional and has its zero
    value is absent, as the types write it; the types of other modules are not looked into.
    The theorems: the names of all generated objects are names that the API server takes,
    up to the exact length of the SecurityConfig's own name; and for a SecurityConfig that
    meets the schema and passed admission, resolving can only fail because something that
    it refers to cannot be read. *)
From stdpp Require Import base gmap strings list.
From Stdlib Require Import ZArith Ascii Lia.
From S2P Require Import Prelude GoStrings Regex Kube Api Model Cluster ProgTheory RefServer Config Naming State Utilities Reconciliation Generators Resources Samples Resolver Oci Sigstore Validation Startup.
Open Scope go_scope.

(** ** Forms of markers *)

(** [MinLength] and [MaxLength] count characters; in UTF-8 every byte but a continuation
    byte starts one. *)
Definition starts_rune (c : ascii) : bool :=
  negb ((128 <=? nat_of_ascii c)%nat && (nat_of_ascii c <? 192)%nat).
Fixpoint RuneCount (s : string) : nat :=
  match s with
  | EmptyString => 0
  | String c s' => (if starts_rune c then 1 else 0) + RuneCount s'
  end.
Definition length_between (least most : nat) (s : string) : bool :=
  (least <=? RuneCount s)%nat && (RuneCount s <=? most)%nat.
Definition items_between {A : Type} (least most : nat) (l : list A) : bool :=
  (least <=? length l)%nat && (length l <=? most)%nat.

(** An optional field. *)
Definition absent_or {A : Type} (valid : A → bool) (o : option A) : bool :=
  match o with Some a => valid a | None => true end.
Definition empty_or (valid : string → bool) (s : string) : bool := empty s || valid s.

(** [self.endsWith(t)] of CEL. *)
Definition ends_with (s t : string) : bool := HasPrefix (rev_string s) (rev_string t).

(** [self.all(x, self.filter(y, y.f == x.f).size() == 1)]. *)
Definition all_unique {A : Type} (f : A → string) (l : list A) : bool :=
  forallb (λ x, (length (List.filter (λ y, bool_decide (f y = f x)) l) =? 1)%nat) l.

(** [\[has(a), has(b), has(c)\].filter(x, x).size() <= 1]. *)
Definition at_most_one (l : list bool) : bool := (length (List.filter id l) <=? 1)%nat.

(** ** Names and keys *)

Definition dnsSubdomainPattern : regex :=
  MustCompile "^[a-z0-9]([-a-z0-9]*[a-z0-9])?(\.[a-z0-9]([-a-z0-9]*[a-z0-9])?)*$".
Definition dataKeyPattern : regex := MustCompile "^[a-zA-Z0-9]([-._a-zA-Z0-9]*[a-zA-Z0-9])?$".
Definition keyRefKeyPattern : regex := MustCompile "^[A-Za-z0-9]([-A-Za-z0-9_.]*[A-Za-z0-9])?$".

Definition ResourceName_valid (s : ResourceName) : bool :=
  length_between 1 253 s && MatchString dnsSubdomainPattern s.
Definition DataKey_valid (s : DataKey) : bool :=
  length_between 1 63 s && MatchString dataKeyPattern s.

Definition ResourceRef_valid (r : ResourceRef) : bool := ResourceName_valid (rref_Name r).
Definition SecretKeySelector_valid (s : SecretKeySelector) : bool :=
  ResourceName_valid (sks_Name s) && DataKey_valid (sks_Key s).
Definition SecretRef_valid (r : SecretRef) : bool :=
  SecretKeySelector_valid (sref_ClientID r) && SecretKeySelector_valid (sref_ClientJWK r).
Definition KeyRef_valid (r : KeyRef) : bool :=
  (1 <=? RuneCount (kr_Name r))%nat && MatchString dnsSubdomainPattern (kr_Name r) &&
  (1 <=? RuneCount (kr_Key r))%nat && MatchString keyRefKeyPattern (kr_Key r).

(** ** Audiences *)

Definition ValueFrom_valid (v : ValueFrom) : bool :=
  (is_some (vf_ConfigMapKeyRef v) || is_some (vf_SecretKeyRef v)) &&
  negb (is_some (vf_ConfigMapKeyRef v) && is_some (vf_SecretKeyRef v)) &&
  absent_or KeyRef_valid (vf_ConfigMapKeyRef v) && absent_or KeyRef_valid (vf_SecretKeyRef v).

Definition AllowedAudience_valid (a : AllowedAudience) : bool :=
  (is_some (al_Value a) || is_some (al_ValueFrom a)) &&
  negb (is_some (al_Value a) && is_some (al_ValueFrom a)) &&
  absent_or (λ value, negb (empty value)) (al_Value a) &&
  absent_or ValueFrom_valid (al_ValueFrom a).

Definition IdPortenSpec_valid (s : IdPortenSpec) : bool :=
  AllowedAudience_valid (ip_AllowedAudience s).
Definition AnsattportenSpec_valid (s : AnsattportenSpec) : bool :=
  AllowedAudience_valid (an_AllowedAudience s).

(** ** TokenX, Maskinporten and Entra ID *)

Definition AccessPolicyClient_valid (c : AccessPolicyClient) : bool :=
  ResourceName_valid (apc_Application c) && absent_or ResourceName_valid (apc_Namespace c).
Definition AccessPolicySpec_valid (p : AccessPolicySpec) : bool :=
  match aps_Clients p with
  | [] => true
  | clients => items_between 1 100 clients && forallb AccessPolicyClient_valid clients
  end.
Definition TokenXSpec_valid (s : TokenXSpec) : bool :=
  absent_or AccessPolicySpec_valid (tx_AccessPolicy s).

Definition MaskinportenScope_valid (s : MaskinportenScope) : bool :=
  items_between 1 100 (ms_ConsumedScopes s).
Definition MaskinportenClientSpec_valid (c : MaskinportenClientSpec) : bool :=
  length_between 1 100 (mc_ClientName c) && absent_or MaskinportenScope_valid (mc_Scopes c).
Definition MaskinportenSpec_valid (s : MaskinportenSpec) : bool :=
  at_most_one [is_some (mp_Client s); is_some (mp_ClientRef s); is_some (mp_SecretRef s)] &&
  absent_or MaskinportenClientSpec_valid (mp_Client s) &&
  absent_or ResourceRef_valid (mp_ClientRef s) && absent_or SecretRef_valid (mp_SecretRef s).

Definition EntraIDSpec_valid (s : EntraIDSpec) : bool :=
  at_most_one [is_some (ei_Client s); is_some (ei_ClientRef s); is_some (ei_SecretRef s)] &&
  absent_or ResourceRef_valid (ei_ClientRef s) && absent_or SecretRef_valid (ei_SecretRef s).

(** ** OPA *)

Definition endpointPattern : regex := MustCompile "^/v1/data(/[a-z_][a-z0-9_]*)+$".

(** A limit of zero is absent. *)
Definition OpaRequestPolicyRequestBody_valid (b : OpaRequestPolicyRequestBody) : bool :=
  let absent := bool_decide (rb_MaxRequestBodyBytes b = 0%Z) in
  (negb (rb_Include b) || negb absent) &&
  (absent || (1 <=? rb_MaxRequestBodyBytes b)%Z && (rb_MaxRequestBodyBytes b <=? 1048576)%Z).

Definition OpaRequestPolicy_valid (p : OpaRequestPolicy) : bool :=
  MatchString endpointPattern (rp_Endpoint p) &&
  empty_or (λ s, bool_decide (s ∈ ["FORWARD"; "DENY"])) (rp_FailureMode p) &&
  absent_or OpaRequestPolicyRequestBody_valid (rp_RequestBody p).

(** The patterns are those of [pkg/model/opa.go]. *)
Definition GitHubRepositorySource_valid (s : GitHubRepositorySource) : bool :=
  MatchString githubRepositoryPattern (gh_Repository s) &&
  length_between 3 140 (gh_Repository s) &&
  empty_or (λ w, MatchString githubWorkflowPattern w && (RuneCount w <=? 300)%nat)
    (gh_Workflow s) &&
  empty_or (λ r, MatchString githubRefPattern r && length_between 1 255 r &&
                 negb (Contains r "..") && negb (ends_with r ".lock")) (gh_Ref s).

Definition BundleSource_valid (b : BundleSource) : bool :=
  DataKey_valid (bs_Name b) && (RuneCount (bs_URL b) <=? 253)%nat &&
  absent_or (λ v, GitHubRepositorySource_valid (bv_Source v)) (bs_Verification b).

Definition OpenPolicyAgentSpec_valid (s : OpenPolicyAgentSpec) : bool :=
  items_between 1 20 (opa_BundleURLs s) &&
  all_unique bs_Name (opa_BundleURLs s) && all_unique bs_URL (opa_BundleURLs s) &&
  forallb BundleSource_valid (opa_BundleURLs s) &&
  absent_or OpaRequestPolicy_valid (opa_RequestPolicy s).

(** ** The whole spec *)

Definition SecurityConfigSpec_valid (s : SecurityConfigSpec) : bool :=
  absent_or TokenXSpec_valid (spec_Tokenx s) &&
  absent_or MaskinportenSpec_valid (spec_Maskinporten s) &&
  absent_or EntraIDSpec_valid (spec_EntraID s) &&
  absent_or IdPortenSpec_valid (spec_Idporten s) &&
  absent_or AnsattportenSpec_valid (spec_Ansattporten s) &&
  absent_or OpenPolicyAgentSpec_valid (spec_Opa s) &&
  ResourceName_valid (spec_ApplicationRef s).

(** ** Names of the API server *)

(** Letters in lower case and digits. *)
Definition lower_alnum (c : ascii) : bool :=
  existsb (in_range c) [("a", "z"); ("0", "9")]%char.
Definition dns_char (c : ascii) : bool := lower_alnum c || bool_decide (c = "-"%char).

(** Reading a name: at the start of a label, behind a letter or digit, behind a dash. *)
Inductive dns_state := AtStart | AfterAlnum | AfterDash.
#[global] Instance dns_state_eq_dec : EqDecision dns_state.
Proof. solve_decision. Defined.

Definition dns_step (st : dns_state) (c : ascii) : option dns_state :=
  if lower_alnum c then Some AfterAlnum
  else if bool_decide (c = "-"%char) then
    match st with AtStart => None | _ => Some AfterDash end
  else if bool_decide (c = "."%char) then
    match st with AfterAlnum => Some AtStart | _ => None end
  else None.
Fixpoint dns_run (st : dns_state) (s : string) : option dns_state :=
  match s with
  | EmptyString => Some st
  | String c s' => match dns_step st c with Some st' => dns_run st' s' | None => None end
  end.
Definition dns_subdomain (s : string) : Prop := dns_run AtStart s = Some AfterAlnum.

Lemma dns_run_app st s t :
  dns_run st (s +:+ t) = match dns_run st s with Some st' => dns_run st' t | None => None end.
Proof. revert st. induction s as [|c s IH]; intros st; simpl; [done|]. by destruct (dns_step st c). Qed.

(** ** The pattern accepts exactly these names *)

(** The rest of a label behind its first character, and one more label. *)
Definition label_rest (s : string) : Prop :=
  s = "" ∨ ∃ mid c, s = mid +:+ String c "" ∧ all_chars dns_char mid = true ∧ lower_alnum c = true.
Definition dot_label (s : string) : Prop :=
  ∃ c rest, s = String "." (String c rest) ∧ lower_alnum c = true ∧ label_rest rest.
Inductive dot_labels : string → Prop :=
| no_labels : dot_labels ""
| more_labels s t : dot_label s → dot_labels t → dot_labels (s +:+ t).

Definition lower_re : regex := RClass false [("a", "z"); ("0", "9")]%char.
Definition dns_char_re : regex := RClass false [("-", "-"); ("a", "z"); ("0", "9")]%char.
Definition rest_re : regex :=
  RAlt REmpty (RSeq (RSeq (RStar dns_char_re) (RSeq lower_re REmpty)) REmpty).

Lemma dns_pattern_shape :
  dnsSubdomainPattern = RSeq RBegin (RSeq lower_re (RSeq rest_re
    (RSeq (RStar (RSeq (char_re ".") (RSeq lower_re (RSeq rest_re REmpty))))
      (RSeq REnd REmpty)))).
Proof. vm_compute. reflexivity. Qed.

Lemma M_rest b s e : M rest_re b s e ↔ label_rest s.
Proof.
  unfold rest_re, label_rest. rewrite M_alt_iff, M_empty_inv.
  rewrite (M_then (λ s, ∃ mid c, s = mid +:+ String c "" ∧ all_chars dns_char mid = true ∧
                        lower_alnum c = true)).
  - setoid_rewrite M_empty_inv. split; (intros [H|H]; [by left|right]).
    + destruct H as (s1 & s2 & -> & (mid & c & -> & ?) & ->). exists mid, c. by rewrite string_app_nil_r.
    + destruct H as (mid & c & -> & ?). exists (mid +:+ String c ""), "".
      rewrite string_app_nil_r. split_and!; [done|by exists mid, c|done].
  - intros b1 t1 e1. rewrite (M_then (λ s, all_chars dns_char s = true)).
    2:{ intros b2 t2 e2. unfold dns_char_re. rewrite M_star_class.
        erewrite all_chars_ext; [done|by_bytes]. }
    setoid_rewrite (M_class_then _ lower_alnum); [|by_bytes]. setoid_rewrite M_empty_inv.
    naive_solver.
Qed.

Lemma M_dot_label b s e :
  M (RSeq (char_re ".") (RSeq lower_re (RSeq rest_re REmpty))) b s e ↔ dot_label s.
Proof.
  rewrite M_char_then. unfold lower_re.
  setoid_rewrite (M_class_then _ lower_alnum); [|by_bytes].
  setoid_rewrite (M_then label_rest); [|intros; apply M_rest].
  setoid_rewrite M_empty_inv. unfold dot_label. split.
  - intros (s1 & -> & c & s2 & -> & Hc & s3 & s4 & -> & Hl & ->).
    exists c, s3. by rewrite string_app_nil_r.
  - intros (c & rest & -> & Hc & Hl). eexists. split; [done|]. exists c, rest.
    split_and!; [done..|]. exists rest, "". by rewrite string_app_nil_r.
Qed.

(** A star whose body does not depend on where it stands. *)
Lemma M_star_labels b s e :
  M (RStar (RSeq (char_re ".") (RSeq lower_re (RSeq rest_re REmpty)))) b s e ↔ dot_labels s.
Proof.
  split.
  - intros Hm. remember (RStar _) as r eqn:Hr. induction Hm; try discriminate Hr.
    + constructor.
    + injection Hr as ->. constructor; [by eapply M_dot_label|by apply IHHm2].
  - intros Hl. revert b. induction Hl as [|s t Hs Ht IH]; intros b; [constructor|].
    constructor; [by apply M_dot_label|apply IH].
Qed.

Lemma dns_run_chars st mid :
  st ≠ AtStart → all_chars dns_char mid = true →
  ∃ st', dns_run st mid = Some st' ∧ st' ≠ AtStart.
Proof.
  revert st. induction mid as [|c mid IH]; intros st Hst Hall; simpl in *; [eauto|].
  apply andb_prop in Hall as [Hc Hall]. unfold dns_step, dns_char in *.
  destruct (lower_alnum c); [by apply IH|]. simpl in Hc. rewrite Hc. destruct st; [done|by apply IH..].
Qed.

Lemma dns_step_alnum st c : lower_alnum c = true → dns_step st c = Some AfterAlnum.
Proof. unfold dns_step. by intros ->. Qed.

Lemma dns_run_rest s : label_rest s → dns_run AfterAlnum s = Some AfterAlnum.
Proof.
  intros [->|(mid & c & -> & Hm & Hc)]; [done|]. rewrite dns_run_app.
  destruct (dns_run_chars AfterAlnum mid) as (st' & -> & _); [done..|].
  simpl. by rewrite dns_step_alnum.
Qed.

Lemma dns_run_labels s : dot_labels s → dns_run AfterAlnum s = Some AfterAlnum.
Proof.
  induction 1 as [|s t (c & rest & -> & Hc & Hr) _ IH]; [done|]. rewrite dns_run_app.
  cbn [dns_run]. change (dns_step AfterAlnum ".") with (Some AtStart). cbn [dns_run].
  rewrite dns_step_alnum by done. by rewrite dns_run_rest.
Qed.

(** Behind a character of a label, what is left is the rest of the label and more labels. *)
Lemma dns_run_split s :
  (∀ st, st ≠ AtStart → dns_run st s = Some AfterAlnum →
    ∃ l r, s = l +:+ r ∧ dot_labels r ∧ (label_rest l ∧ (st = AfterDash → l ≠ ""))) ∧
  (dns_run AtStart s = Some AfterAlnum →
    ∃ c l r, s = String c (l +:+ r) ∧ lower_alnum c = true ∧ label_rest l ∧ dot_labels r).
Proof.
  assert (∀ c l, dns_char c = true → label_rest l → l ≠ "" → label_rest (String c l)) as Hcons.
  { intros c l Hc [->|(mid & d & -> & Hm & Hd)] Hl; [done|]. right.
    exists (String c mid), d. simpl. by rewrite Hc, Hm. }
  induction s as [|c s [IH1 IH2]]; simpl.
  - split; [|done]. intros st Hst [= ->]. exists "", "".
    split_and!; [done|constructor|by left|done].
  - split.
    + intros st Hst Hrun. destruct (dns_step st c) as [st'|] eqn:Hstep; [|done].
      unfold dns_step in Hstep. destruct (lower_alnum c) eqn:Hc.
      * injection Hstep as <-. apply IH1 in Hrun as (l & r & -> & Hr & Hl & _); [|done].
        exists (String c l), r. split_and!; [done|done| |done].
        destruct (decide (l = "")) as [->|Hne].
        -- right. exists "", c. done.
        -- apply Hcons; [unfold dns_char; by rewrite Hc|done|done].
      * case_bool_decide as Hd; [|case_bool_decide as Hp; [|done]].
        -- destruct st; [done|..]; injection Hstep as <-;
             apply IH1 in Hrun as (l & r & -> & Hr & Hl & Hne); try done;
             exists (String c l), r; (split_and!; [done|done| |done]);
             (apply Hcons; [|done|by apply Hne]); unfold dns_char;
             by rewrite (bool_decide_true _ Hd), orb_true_r.
        -- destruct st; [done| |done]. injection Hstep as <-.
           apply IH2 in Hrun as (c' & l & r & -> & Hc' & Hl & Hr).
           exists "", (String c (String c' (l +:+ r))). split_and!; [done| |by left|done].
           subst c. apply (more_labels (String "." (String c' l)) r); [|done].
           by exists c', l.
    + intros Hrun. destruct (dns_step AtStart c) as [st'|] eqn:Hstep; [|done].
      unfold dns_step in Hstep. destruct (lower_alnum c) eqn:Hc.
      * injection Hstep as <-. apply IH1 in Hrun as (l & r & -> & Hr & Hl & _); [|done].
        exists c, l, r. done.
      * by repeat case_bool_decide.
Qed.

Lemma dns_matches s : MatchString dnsSubdomainPattern s = true ↔ dns_subdomain s.
Proof.
  rewrite dns_pattern_shape, MatchString_begin. unfold lower_re.
  setoid_rewrite (M_class_then _ lower_alnum); [|by_bytes].
  setoid_rewrite (M_then label_rest); [|intros; apply M_rest].
  setoid_rewrite (M_then dot_labels); [|intros; apply M_star_labels].
  setoid_rewrite M_end_then. unfold dns_subdomain. split.
  - intros (s2 & s3 & -> & c & s4 & -> & Hc & l & s5 & -> & Hl & r & s6 & -> & Hr & He & ->).
    destruct s3; [|done]. rewrite !string_app_nil_r. simpl.
    rewrite dns_step_alnum by done. rewrite dns_run_app, dns_run_rest by done.
    by apply dns_run_labels.
  - intros (c & l & r & -> & Hc & Hl & Hr)%dns_run_split. eexists _, "".
    split; [by rewrite string_app_nil_r|]. exists c. eexists. split_and!; [done..|].
    exists l. eexists. split_and!; [done..|]. exists r, "". by rewrite string_app_nil_r.
Qed.

(** ** Lengths *)

Lemma dns_run_runes st s st' : dns_run st s = Some st' → RuneCount s = String.length s.
Proof.
  revert st. induction s as [|c s IH]; intros st; simpl; [done|].
  destruct (dns_step st c) as [st1|] eqn:Hs; [|done]. intros Hr.
  assert (starts_rune c = true) as ->; [|by rewrite (IH _ Hr)].
  revert Hs. unfold dns_step.
  destruct c as [[] [] [] [] [] [] [] []]; try reflexivity; discriminate.
Qed.

Lemma ResourceName_valid_spec s :
  ResourceName_valid s = true ↔ dns_subdomain s ∧ (String.length s ≤ 253)%nat.
Proof.
  unfold ResourceName_valid, length_between. rewrite !andb_true_iff, !Nat.leb_le, dns_matches.
  split.
  - intros [[_ Hl] Hd]. split; [done|]. by rewrite <-(dns_run_runes _ _ _ Hd).
  - intros [Hd Hl]. rewrite (dns_run_runes _ _ _ Hd). split_and!; [|done|done].
    destruct s; [done|]. simpl. lia.
Qed.

(** ** Names that are built from names *)

Lemma dns_run_alnums st s :
  s ≠ "" → all_chars lower_alnum s = true → dns_run st s = Some AfterAlnum.
Proof.
  revert st. induction s as [|c s IH]; intros st Hne Hall; [done|]. simpl in *.
  apply andb_prop in Hall as [Hc Hall]. rewrite dns_step_alnum by done.
  destruct s; [done|]. by apply IH.
Qed.

Lemma hex_digits_alnum n h acc :
  all_chars lower_alnum acc = true → all_chars lower_alnum (hex_digits n h acc) = true.
Proof.
  revert h acc. induction n as [|n IH]; intros h acc Ha; simpl; [done|]. apply IH. simpl.
  rewrite Ha, andb_true_r.
  apply (below_16 (λ d, lower_alnum (hex_digit d) = true)); [by apply Z.mod_pos_bound|].
  split_and!; reflexivity.
Qed.

(** A name, and what is put behind it. *)
Lemma suffixed_valid base suffix :
  dns_subdomain base → dns_run AfterAlnum suffix = Some AfterAlnum →
  ResourceName_valid (base +:+ suffix) = true ↔
  (String.length base + String.length suffix ≤ 253)%nat.
Proof.
  intros Hb Hs. rewrite ResourceName_valid_spec, string_length_app.
  unfold dns_subdomain in *. rewrite dns_run_app, Hb. tauto.
Qed.

Lemma dashed_valid base suffix :
  dns_subdomain base → dns_run AfterDash suffix = Some AfterAlnum →
  ResourceName_valid (dashed base suffix) = true ↔
  (String.length base + (1 + String.length suffix) ≤ 253)%nat.
Proof. intros Hb Hs. unfold dashed. by rewrite suffixed_valid. Qed.

Lemma hashed_valid base suffix :
  dns_subdomain base → dns_run AfterDash suffix = Some AfterAlnum →
  ResourceName_valid (WithShortHashSuffix (dashed base suffix)) = true ↔
  (String.length base + (10 + String.length suffix) ≤ 253)%nat.
Proof.
  intros Hb Hs. unfold WithShortHashSuffix. set (hash := ShortHash _).
  unfold dashed. rewrite !string_app_assoc, suffixed_valid; [|done|].
  - rewrite !string_length_app. unfold hash. rewrite ShortHash_length. simpl. lia.
  - change (dns_run AfterDash (suffix +:+ "-" +:+ hash) = Some AfterAlnum).
    rewrite dns_run_app, Hs. change (dns_run AfterDash hash = Some AfterAlnum).
    apply dns_run_alnums.
    + intros Heq. apply (f_equal String.length) in Heq. unfold hash in Heq.
      by rewrite ShortHash_length in Heq.
    + by apply hex_digits_alnum.
Qed.

Lemma egress_valid base tokenx :
  dns_subdomain base → tokenx = "" ∨ dns_subdomain tokenx →
  ResourceName_valid (dashed (dashed base tokenx) EgressNameSuffix) = true ↔
  (String.length base + String.length tokenx ≤ 245)%nat.
Proof.
  intros Hb Ht. unfold dashed. rewrite !string_app_assoc, suffixed_valid; [|done|].
  - rewrite !string_length_app. simpl. lia.
  - change (dns_run AfterDash (tokenx +:+ "-egress") = Some AfterAlnum).
    rewrite dns_run_app. destruct Ht as [->|Ht]; [done|].
    assert (dns_run AfterDash tokenx = Some AfterAlnum) as ->; [|done].
    unfold dns_subdomain in Ht. destruct tokenx as [|c t]; [done|]. simpl in *.
    destruct (dns_step AtStart c) as [st|] eqn:Hs; [|done].
    unfold dns_step in *. by repeat case_match; simplify_eq.
Qed.

(** ** The names of the resources *)

Section Names.
Context `{Lib} `{!LibLaws} `{Globals}.

(** The names that are made of the name of the SecurityConfig, and those made of the name
    of its application. *)
Lemma own_names_valid sc :
  dns_subdomain (sc_Name sc) → (cfg_TokenxName Get = "" ∨ dns_subdomain (cfg_TokenxName Get)) →
  ResourceName_valid (spec_ApplicationRef (sc_Spec sc)) = true →
  Forall (λ p, ResourceName_valid p.2 = true) (resource_names sc) ↔
  (String.length (sc_Name sc) ≤ 231 ∧
   String.length (sc_Name sc) + String.length (cfg_TokenxName Get) ≤ 245)%nat.
Proof.
  intros Hsc Ht Happ. unfold resource_names. rewrite !Forall_cons, Forall_nil. cbn [snd].
  unfold TokenxNamer.JwkerName, TokenxNamer.EgressName, MaskinportenNamer.MaskinportenClientName,
    MaskinportenNamer.SecretFromRefName, MaskinportenNamer.ServiceEntryName,
    EntraIdNamer.AzureAdApplicationName, EntraIdNamer.SecretFromRefName,
    EntraIdNamer.ServiceEntryName, IdPortenNamer.ServiceEntryName,
    AnsattportenNamer.ServiceEntryName, OpaNamer.ConfigMapName, OpaNamer.EnvoyFilterName.
  cbn [applicationRef securityConfigName newNameBase].
  rewrite !hashed_valid, egress_valid by done. cbn [String.length MaskinportenNameSuffix
    EntraIdNameSuffix IdPortenNameSuffix AnsattportenNameSuffix OpaNameSuffix].
  rewrite Happ. intuition lia.
Qed.

Lemma client_secret_names_valid sc :
  let n := newNameBase sc in
  ResourceName_valid (spec_ApplicationRef (sc_Spec sc)) = true →
  Forall (λ s, ResourceName_valid s = true)
    [TokenxNamer.SecretName n; MaskinportenNamer.SecretName n; EntraIdNamer.SecretName n] ↔
  (String.length (spec_ApplicationRef (sc_Spec sc)) ≤ 231)%nat.
Proof.
  intros n [Happ _]%ResourceName_valid_spec. rewrite !Forall_cons, Forall_nil.
  unfold n, TokenxNamer.SecretName, MaskinportenNamer.SecretName, EntraIdNamer.SecretName.
  cbn [applicationRef newNameBase]. rewrite !hashed_valid, dashed_valid by done.
  cbn [String.length JwkerSecretNameSuffix MaskinportenNameSuffix EntraIdNameSuffix].
  intuition lia.
Qed.

(** C18: when the application's and the SecurityConfig's names are names of the API server,
    so are the names of all twelve resources, exactly as long as the SecurityConfig's own
    name has at most 231 characters, and at most 245 together with the name of TokenX; and
    the Secrets that the clients are asked to create have such names exactly when the
    application's name has at most 231 characters. *)
Theorem generated_names_valid scope rfs :
  let sc := sp_SecurityConfig scope in
  let n := newNameBase sc in
  ControllerResources scope = Ok rfs → sp_InvalidConfig scope = false →
  SecurityConfigSpec_valid (sc_Spec sc) = true → dns_subdomain (sc_Name sc) →
  (cfg_TokenxName Get = "" ∨ dns_subdomain (cfg_TokenxName Get)) →
  (Forall (λ c, ResourceName_valid (GetResourceName c) = true) rfs ↔
   (String.length (sc_Name sc) ≤ 231 ∧
    String.length (sc_Name sc) + String.length (cfg_TokenxName Get) ≤ 245)%nat) ∧
  (Forall (λ s, ResourceName_valid s = true)
     [TokenxNamer.SecretName n; MaskinportenNamer.SecretName n; EntraIdNamer.SecretName n] ↔
   (String.length (spec_ApplicationRef (sc_Spec sc)) ≤ 231)%nat).
Proof.
  intros sc n [_ [[_ Hi]|[Hn _]]]%ControllerResources_names Hinv Hspec Hsc Ht; [congruence|].
  unfold SecurityConfigSpec_valid in Hspec. apply andb_prop in Hspec as [_ Happ].
  split; [|by apply client_secret_names_valid].
  rewrite <-(own_names_valid sc) by done. fold sc in Hn.
  rewrite <-Hn, Forall_fmap. done.
Qed.
End Names.

(** ** What a valid spec gives the resolvers *)

Lemma at_most_one_type {C T : Type} `{ConfigSource C T} (c : C) :
  at_most_one [is_some (GetClient c); is_some (GetClientRef c); is_some (GetSecretRef c)] = true →
  ∃ t, DetermineConfigType c = Ok t.
Proof.
  unfold DetermineConfigType.
  destruct (GetClient c), (GetClientRef c), (GetSecretRef c); simpl; try discriminate; eauto.
Qed.

(** The keys of Secrets that the credentials of a spec name, and the keys of Secrets or
    ConfigMaps that its audiences name. *)
Definition secret_ref_keys (r : option SecretRef) : list (string * string) :=
  match r with
  | Some r => [(sks_Name (sref_ClientID r), sks_Key (sref_ClientID r));
               (sks_Name (sref_ClientJWK r), sks_Key (sref_ClientJWK r))]
  | None => []
  end.
Definition credential_keys (s : SecurityConfigSpec) : list (string * string) :=
  match spec_Maskinporten s with Some m => secret_ref_keys (mp_SecretRef m) | None => [] end ++
  match spec_EntraID s with Some e => secret_ref_keys (ei_SecretRef e) | None => [] end.
Definition audience_key (f : ValueFrom → option KeyRef) (a : AllowedAudience) :
    list (string * string) :=
  match al_ValueFrom a with
  | Some v => match f v with Some r => [(kr_Name r, kr_Key r)] | None => [] end
  | None => []
  end.
Definition audience_keys (f : ValueFrom → option KeyRef) (s : SecurityConfigSpec) :
    list (string * string) :=
  match spec_Idporten s with Some i => audience_key f (ip_AllowedAudience i) | None => [] end ++
  match spec_Ansattporten s with
  | Some a => audience_key f (an_AllowedAudience a) | None => [] end.

(** A reply without an error, in which what the spec names is found: the labels of the
    Application's rules are labels, the keys exist, and the audiences are not empty. *)
Definition found `{Lib} (sc : SecurityConfig) (op : Op) : resp op → Prop :=
  match op with
  | OpGet k key =>
      match k return outcome (Object k) → Prop with
      | KApplication => λ r, ∃ o : Object KApplication, r = Ok o ∧
          ∀ rule, rule ∈ application_rules (o_Body o) →
            is_ok (LabelSelectorAsSelector (match_labels (ir_NamespacesByLabel rule))) = true
      | KSecret => λ r, ∃ o : Object KSecret, r = Ok o ∧
          (∀ key', (key.2, key') ∈ credential_keys (sc_Spec sc) →
             is_some (sec_Data (o_Body o) !! key') = true) ∧
          (∀ key', (key.2, key') ∈ audience_keys vf_SecretKeyRef (sc_Spec sc) →
             default "" (sec_Data (o_Body o) !! key') ≠ "")
      | KConfigMap => λ r, ∃ o : Object KConfigMap, r = Ok o ∧
          ∀ key', (key.2, key') ∈ audience_keys vf_ConfigMapKeyRef (sc_Spec sc) →
            default "" (cm_Data (o_Body o) !! key') ≠ ""
      | _ => λ _, True
      end
  | OpListNamespaces _ => λ r, is_ok r = true
  | OpResolveOci _ => λ r, is_ok r = true
  | OpFetchOpaBundleLayer _ => λ r, is_ok r = true
  | _ => λ _, True
  end.

Lemma is_ok_Ok {A : Type} (o : outcome A) : is_ok o = true → ∃ a, o = Ok a.
Proof. destruct o; [eauto|done..]. Qed.

Lemma succeeds_mapM {A B} G (f : A → GoM B) (l : list A) :
  (∀ a, a ∈ l → succeeds G (λ _, True) (f a)) → succeeds G (λ _, True) (gom_mapM f l).
Proof.
  induction l as [|a l IH]; intros Hf; [by apply succeeds_Ok|]. cbn [gom_mapM].
  eapply succeeds_bind; [apply Hf; by left|]. intros b _.
  eapply succeeds_bind; [apply IH; intros; apply Hf; by right|]. intros bs _.
  by apply succeeds_Ok.
Qed.

Section Progress.
Context `{Lib} `{Globals} (sc : SecurityConfig).
Context (Hvalid : SecurityConfigSpec_valid (sc_Spec sc) = true).
Context (Hallowed : spec_allowed (sc_Spec sc)).
Context (Hproduction : is_some (cfg_RunsInProduction Get) = true).

(** The parts of a spec that is valid are valid. *)
Lemma valid_parts :
  absent_or MaskinportenSpec_valid (spec_Maskinporten (sc_Spec sc)) = true ∧
  absent_or EntraIDSpec_valid (spec_EntraID (sc_Spec sc)) = true ∧
  absent_or IdPortenSpec_valid (spec_Idporten (sc_Spec sc)) = true ∧
  absent_or AnsattportenSpec_valid (spec_Ansattporten (sc_Spec sc)) = true.
Proof.
  pose proof Hvalid as Hv. unfold SecurityConfigSpec_valid in Hv. rewrite !andb_true_iff in Hv.
  by destruct_and! Hv.
Qed.

Lemma tokenx_succeeds : succeeds (found sc) (λ _, True) (ResolveTokenXConfig sc).
Proof.
  destruct Hallowed as [Htx _]. unfold ResolveTokenXConfig.
  destruct (spec_Tokenx (sc_Spec sc)) as [tokenx|] eqn:Ht; [|by apply succeeds_Ok].
  rewrite Htx by done. simpl negb. rewrite andb_false_r.
  destruct (tx_Enabled tokenx); [|by apply succeeds_Ok].
  eapply succeeds_bind.
  { apply succeeds_on_err. intros r (app & -> & Hrules).
    apply (succeeds_Ok _ (λ app : Object KApplication, ∀ rule, rule ∈ application_rules (o_Body app) →
      is_ok (LabelSelectorAsSelector (match_labels (ir_NamespacesByLabel rule))) = true)).
    exact Hrules. }
  intros app Hrules. apply (succeeds_bind _ (λ _, True)); [|by intros; apply succeeds_Ok].
  unfold resolveJwkerInboundRules.
  destruct (tx_AccessPolicy tokenx) as [policy|]; [|by apply succeeds_Ok].
  apply (succeeds_bind _ (λ _, True)); [|by intros; apply succeeds_Ok].
  destruct (aps_InheritInboundRules policy); [|by apply succeeds_Ok].
  apply succeeds_mapM. intros rule Hrule. unfold inherited_rules.
  eapply (succeeds_bind _ (λ r, r.2 = []));
    [|intros [l errs] Herrs; simpl in Herrs; subst errs; by apply succeeds_Ok].
  unfold getNamespaceListForInboundRule.
  destruct (negb (bool_decide (ir_Namespace rule = ""))); [by apply succeeds_Ok|].
  destruct (negb (bool_decide (ir_NamespacesByLabel rule = ∅))); [|by apply succeeds_Ok].
  eapply (succeeds_let _ (λ _, True)); [|by intros; apply succeeds_Ok].
  unfold getNamespacesByLabel. destruct (is_ok_Ok _ (Hrules rule Hrule)) as [sel ->].
  apply succeeds_on_err. intros r [l ->]%is_ok_Ok. by apply succeeds_Ok.
Qed.

(** The two credentials of a reference, from Secrets that hold its keys. *)
Lemma secret_pair_succeeds ref ns :
  (∀ p, p ∈ secret_ref_keys (Some ref) → p ∈ credential_keys (sc_Spec sc)) →
  succeeds (found sc) (λ _, True) (secret_pair ref ns).
Proof.
  intros Hin.
  assert (∀ name key, (name, key) ∈ credential_keys (sc_Spec sc) →
            succeeds (found sc) (λ _, True) (GetSecretDataByKey name ns key)) as Hget.
  { intros name key Hk. unfold GetSecretDataByKey.
    apply (succeeds_bind _ (λ o : Object KSecret, is_some (sec_Data (o_Body o) !! key) = true)).
    - apply succeeds_on_err. intros r (o & -> & Ho & _). apply succeeds_Ok. by apply Ho.
    - intros o Ho. destruct (sec_Data (o_Body o) !! key); [by apply succeeds_Ok|done]. }
  unfold secret_pair. eapply succeeds_bind; [apply Hget, Hin; by left|]. intros id _.
  eapply succeeds_bind; [apply Hget, Hin; right; by left|]. intros jwk _. by apply succeeds_Ok.
Qed.

Lemma maskinporten_succeeds : succeeds (found sc) (λ _, True) (ResolveMaskinportenConfig sc).
Proof.
  destruct valid_parts as (Hm & _). unfold ResolveMaskinportenConfig.
  destruct (spec_Maskinporten (sc_Spec sc)) as [spec|] eqn:Hspec; [|by apply succeeds_Ok].
  destruct (negb (mp_Enabled spec)); [by apply succeeds_Ok|].
  simpl in Hm. unfold MaskinportenSpec_valid in Hm. rewrite !andb_true_iff in Hm.
  destruct Hm as [[[Hone _] _] _]. assert (∃ t, DetermineConfigType spec = Ok t) as [t Ht] by (apply at_most_one_type; exact Hone).
  rewrite Ht. apply DetermineConfigType_cases in Ht. rewrite gom_bind_Ok.
  destruct t as [| | | |n]; simpl in Ht; try done; try by apply succeeds_Ok.
  - destruct (deref_some (mp_Client spec) Ht) as [client ->]. by apply succeeds_Ok.
  - unfold MaskinportenSpec_GetSecretRef in Ht.
    destruct (mp_SecretRef spec) as [ref|] eqn:Href; [|done]. simpl deref. rewrite gom_bind_Ok.
    apply (succeeds_bind _ (λ _, True)); [|by intros; apply succeeds_Ok]. apply succeeds_on_err.
    unfold GetMaskinportenSecretData. eapply succeeds_bind.
    + apply secret_pair_succeeds. intros p Hp. unfold credential_keys.
      rewrite Hspec, Href. apply elem_of_app. by left.
    + intros data _. cbv zeta. destruct (deref_some _ Hproduction) as [prod ->].
      rewrite gom_bind_Ok. destruct prod; by apply succeeds_Ok.
Qed.

Lemma entraid_succeeds : succeeds (found sc) (λ _, True) (ResolveEntraIdConfig sc).
Proof.
  destruct valid_parts as (_ & He & _). unfold ResolveEntraIdConfig.
  destruct (spec_EntraID (sc_Spec sc)) as [spec|] eqn:Hspec; [|by apply succeeds_Ok].
  destruct (negb (ei_Enabled spec)); [by apply succeeds_Ok|].
  simpl in He. unfold EntraIDSpec_valid in He. rewrite !andb_true_iff in He.
  destruct He as [[Hone _] _]. assert (∃ t, DetermineConfigType spec = Ok t) as [t Ht] by (apply at_most_one_type; exact Hone).
  rewrite Ht. apply DetermineConfigType_cases in Ht. rewrite gom_bind_Ok.
  destruct t as [| | | |n]; simpl in Ht; try done; try by apply succeeds_Ok.
  - destruct (deref_some (ei_Client spec) Ht) as [client ->]. by apply succeeds_Ok.
  - unfold EntraIDSpec_GetSecretRef in Ht.
    destruct (ei_SecretRef spec) as [ref|] eqn:Href; [|done]. simpl deref. rewrite gom_bind_Ok.
    apply (succeeds_bind _ (λ _, True)); [|by intros; apply succeeds_Ok]. apply succeeds_on_err.
    unfold GetEntraIdSecretData. apply (succeeds_bind _ (λ _, True)); [|by intros; apply succeeds_Ok].
    apply secret_pair_succeeds. intros p Hp. unfold credential_keys.
    rewrite Hspec, Href. apply elem_of_app. by right.
Qed.

(** An audience that is valid resolves to one audience. *)
Lemma audience_succeeds ns a :
  AllowedAudience_valid a = true →
  (∀ p, p ∈ audience_key vf_SecretKeyRef a → p ∈ audience_keys vf_SecretKeyRef (sc_Spec sc)) →
  (∀ p, p ∈ audience_key vf_ConfigMapKeyRef a →
        p ∈ audience_keys vf_ConfigMapKeyRef (sc_Spec sc)) →
  succeeds (found sc) (λ l, ∃ s, l = [s]) (ResolveAudiences ns [a]).
Proof.
  intros Hv Hs Hc. unfold ResolveAudiences. cbn [gom_mapM].
  eapply (succeeds_bind _ (λ l, ∃ s, l = [[s]])); [|intros ? [s ->]; apply succeeds_Ok; by exists s].
  eapply (succeeds_bind _ (λ l, ∃ s, l = [s])); [|intros ? [s ->]; apply succeeds_Ok; by exists s].
  unfold AllowedAudience_valid in Hv. rewrite !andb_true_iff in Hv.
  destruct Hv as [[[Hany Hone] Hvalue] Hfrom]. unfold resolve_audience.
  apply negb_true_iff in Hone. rewrite Hone. destruct (al_Value a) as [value|] eqn:Hval.
  { rewrite bool_decide_false; [apply succeeds_Ok; by exists value|]. simpl in Hvalue. by intros ->. }
  unfold audience_key in Hs, Hc. destruct (al_ValueFrom a) as [v|]; [|done]. simpl in Hfrom.
  unfold ValueFrom_valid in Hfrom. rewrite !andb_true_iff in Hfrom.
  destruct Hfrom as [[[Hanyref Honeref] _] _]. apply negb_true_iff in Honeref.
  eapply (succeeds_bind _ (λ _, True)); [|intros s _; apply succeeds_Ok; by exists s].
  apply succeeds_on_err. unfold resolveAudienceRef. rewrite Honeref.
  destruct (vf_ConfigMapKeyRef v) as [ref|].
  - apply (succeeds_bind _ (λ o : Object KConfigMap, default "" (cm_Data (o_Body o) !! kr_Key ref) ≠ "")).
    + apply succeeds_on_err. intros r (o & -> & Ho). apply succeeds_Ok. apply Ho, Hc. by left.
    + intros o Ho. cbv zeta. rewrite bool_decide_false by done. by apply succeeds_Ok.
  - destruct (vf_SecretKeyRef v) as [ref|]; [|done].
    apply (succeeds_bind _ (λ o : Object KSecret, default "" (sec_Data (o_Body o) !! kr_Key ref) ≠ "")).
    + apply succeeds_on_err. intros r (o & -> & _ & Ho). apply succeeds_Ok. apply Ho, Hs. by left.
    + intros o Ho. cbv zeta. rewrite bool_decide_false by done. by apply succeeds_Ok.
Qed.

Lemma idporten_succeeds : succeeds (found sc) (λ _, True) (ResolveIdPortenConfig sc).
Proof.
  destruct valid_parts as (_ & _ & Hi & _). unfold ResolveIdPortenConfig.
  destruct (spec_Idporten (sc_Spec sc)) as [spec|] eqn:Hspec; [|by apply succeeds_Ok].
  destruct (negb (ip_Enabled spec)); [by apply succeeds_Ok|].
  eapply (succeeds_bind _ (λ l, ∃ s, l = [s])); [|intros ? [s ->]; by apply succeeds_Ok].
  apply succeeds_on_err, audience_succeeds; [exact Hi|..]; intros p Hp; unfold audience_keys;
    rewrite Hspec; apply elem_of_app; by left.
Qed.

Lemma ansattporten_succeeds : succeeds (found sc) (λ _, True) (ResolveAnsattportenConfig sc).
Proof.
  destruct valid_parts as (_ & _ & _ & Ha). unfold ResolveAnsattportenConfig.
  destruct (spec_Ansattporten (sc_Spec sc)) as [spec|] eqn:Hspec; [|by apply succeeds_Ok].
  destruct (negb (an_Enabled spec)); [by apply succeeds_Ok|].
  eapply (succeeds_bind _ (λ l, ∃ s, l = [s])); [|intros ? [s ->]; by apply succeeds_Ok].
  apply succeeds_on_err, audience_succeeds; [exact Ha|..]; intros p Hp; unfold audience_keys;
    rewrite Hspec; apply elem_of_app; by right.
Qed.
(** A value whose strings and keys are all of ASCII characters, and so of valid UTF-8. *)
Fixpoint ascii_value (v : AnyVal) : bool :=
  match v with
  | VStr s => all_chars is_ascii s
  | VList l => forallb ascii_value l
  | VMap fields => forallb (λ f, all_chars is_ascii f.1 && ascii_value f.2) fields
  | VNull | VBool _ | VNum _ => true
  end.

(** [structpb.NewStruct] is documented to convert maps of booleans, numbers, strings, lists
    and such maps, where the strings and keys must be valid UTF-8. *)
Definition structs_convert : Prop :=
  ∀ fields, ascii_value (VMap fields) = true → is_ok (NewStruct fields) = true.

(** The Envoy configurations are such maps. *)
Lemma envoy_configs_ascii policy port :
  let config := ToOpaEnvoyExtAuthzFilterConfig policy in
  ascii_value (VMap (GetLocalClusterConfig (fc_OpaClusterName config) port)) = true ∧
  ascii_value (VMap (GetExternalAuthorizationFilterConfig config)) = true.
Proof.
  split; [reflexivity|]. unfold GetExternalAuthorizationFilterConfig.
  by destruct (rbc_IncludeRequestBody _).
Qed.

Lemma request_policy_resolves app policy :
  structs_convert → ∃ r, ResolveOpaRequestPolicy app policy = Ok r.
Proof.
  intros Hc. unfold ResolveOpaRequestPolicy. destruct (negb (rp_Enabled policy)); [eauto|]. cbv zeta.
  destruct (envoy_configs_ascii policy (cfg_OpaGrpcPort Get)) as [Hl He].
  apply Hc, is_ok_Ok in Hl as [v1 ->]. apply Hc, is_ok_Ok in He as [v2 ->].
  simpl. eauto.
Qed.

Lemma bundles_succeed data bundles :
  is_some data = true → succeeds (found sc) (λ _, True) (resolve_bundles data bundles).
Proof.
  revert data. induction bundles as [|b bundles IH]; intros data Hd; [by apply succeeds_Ok|].
  cbn [resolve_bundles]. apply (succeeds_bind _ (λ _, True)).
  - unfold resolveOpaBundle. apply (succeeds_bind _ (λ _, True)).
    + apply succeeds_on_err. intros r [oci ->]%is_ok_Ok. by apply succeeds_Ok.
    + intros oci _. apply succeeds_on_err. intros r [layer ->]%is_ok_Ok. by apply succeeds_Ok.
  - intros layer _. destruct data as [data|]; [|done]. simpl. rewrite gom_bind_Ok. by apply IH.
Qed.

Lemma opa_succeeds :
  is_some OpaSelfAuthorizationBundleBinaryData = true → structs_convert →
  succeeds (found sc) (λ _, True) (ResolveOpaConfig sc).
Proof.
  intros Hdata Hc. destruct Hallowed as [_ Hopa]. unfold ResolveOpaConfig. cbv zeta.
  destruct (spec_Opa (sc_Spec sc)) as [opa|] eqn:Ho; [|by apply succeeds_Ok].
  destruct (Hopa opa eq_refl) as (Hen & Hne & _). rewrite Hen. simpl negb. rewrite andb_false_r.
  destruct (negb (opa_Enabled opa)); [by apply succeeds_Ok|].
  destruct (opa_BundleURLs opa) as [|url urls]; [done|].
  apply (succeeds_bind _ (λ _, True)); [by apply bundles_succeed|]. intros data _.
  destruct (opa_RequestPolicy opa) as [policy|]; [|by apply succeeds_Ok].
  destruct (request_policy_resolves (spec_ApplicationRef (sc_Spec sc)) policy Hc) as [r ->].
  cbn [on_err]. rewrite gom_bind_Ok. by apply succeeds_Ok.
Qed.

Lemma resolving_succeeds :
  is_some OpaSelfAuthorizationBundleBinaryData = true → structs_convert →
  succeeds (found sc) (λ _, True) (ResolveSecurityConfig sc).
Proof.
  intros Hdata Hc. unfold ResolveSecurityConfig.
  apply (succeeds_bind _ (λ _, True)); [apply succeeds_on_err, tokenx_succeeds|intros tokenx _].
  apply (succeeds_bind _ (λ _, True)); [apply succeeds_on_err, maskinporten_succeeds|intros m _].
  apply (succeeds_bind _ (λ _, True)); [apply succeeds_on_err, entraid_succeeds|intros e _].
  apply (succeeds_bind _ (λ _, True)); [apply succeeds_on_err, idporten_succeeds|intros i _].
  apply (succeeds_bind _ (λ _, True)); [apply succeeds_on_err, ansattporten_succeeds|intros a _].
  apply (succeeds_bind _ (λ _, True)); [by apply succeeds_on_err, opa_succeeds|intros o _].
  by apply succeeds_Ok.
Qed.
End Progress.

Section Admission.
Context `{Lib} `{!LibLaws} `{Globals}.

(** A SecurityConfig that meets the schema and that the webhook admitted is resolved,
    and its twelve resources are built, whenever what it refers to is there: the API server
    and the registry answer without an error, the Secrets and ConfigMaps hold the keys that
    the spec names, and the audiences are not empty.  Nothing else can fail, and nothing
    panics. *)
Theorem admitted_resolves sc admission h r :
  SecurityConfigSpec_valid (sc_Spec sc) = true →
  steps (validateSecurityConfig sc) admission (Ret (Ok tt)) →
  is_some (cfg_RunsInProduction Get) = true →
  is_some OpaSelfAuthorizationBundleBinaryData = true → structs_convert →
  steps (ResolveSecurityConfig sc) h (Ret r) → replied (found sc) h →
  ∃ scope rfs, r = Ok scope ∧ resolved sc scope ∧
    ControllerResources scope = Ok rfs ∧ length rfs = 12%nat.
Proof.
  intros Hv [Hall _]%admitted_allowed Hp Hdata Hc Hs Hr.
  destruct (succeeds_steps _ _ _ _ _ (resolving_succeeds sc Hv Hall Hp Hdata Hc) Hs Hr)
    as (scope & -> & _).
  destruct (resolved_wf _ _ _ Hp Hs) as [Hres Hwf].
  destruct (resources_exist _ Hwf) as [rfs Hrfs]. exists scope, rfs.
  split; [done|]. split; [exact Hres|]. split; [exact Hrfs|].
  apply ControllerResources_names in Hrfs as [_ [[_ Hi]|[Hn _]]].
  - destruct Hres as (_ & _ & Hi' & _). congruence.
  - apply (f_equal length) in Hn. by rewrite length_fmap in Hn.
Qed.
End Admission.

(** ** Applications *)

(** Maskinporten with credentials from a Secret, ID-porten with an audience from a
    ConfigMap, and OPA with a bundle and a request policy. *)
Definition sample_full_sc : SecurityConfig :=
  {| sc_Kind := "SecurityConfig"; sc_Meta := sample_meta;
     sc_Spec := {| spec_Tokenx := None;
       spec_Maskinporten := Some {| mp_Enabled := true; mp_Client := None; mp_ClientRef := None;
         mp_SecretRef := Some {| sref_ClientID := {| sks_Name := "idp"; sks_Key := "id" |};
                                 sref_ClientJWK := {| sks_Name := "idp"; sks_Key := "jwk" |} |} |};
       spec_EntraID := None;
       spec_Idporten := Some {| ip_Enabled := true; ip_AllowedAudience :=
         {| al_Value := None; al_ValueFrom := Some {| vf_ConfigMapKeyRef :=
              Some {| kr_Name := "audiences"; kr_Key := "aud" |}; vf_SecretKeyRef := None |} |} |};
       spec_Ansattporten := None;
       spec_Opa := Some {| opa_Enabled := true;
         opa_BundleURLs := [{| bs_Name := "policy"; bs_URL := "ghcr.io/kartverket/policy:1";
                               bs_Verification := None |}];
         opa_RequestPolicy := Some {| rp_Enabled := true; rp_Endpoint := "/v1/data/authz/allow";
           rp_FailureMode := "DENY"; rp_RequestBody :=
             Some {| rb_Include := true; rb_MaxRequestBodyBytes := 1024 |} |} |};
       spec_ApplicationRef := "app" |};
     sc_Status := zero_status |}.

Definition sample_idp_secret : Object KSecret :=
  @MkObject KSecret "Secret" (named_meta "team" "idp")
    {| sec_StringData := ∅; sec_Data := <["id" := "client"]> {["jwk" := "key"]};
       sec_Immutable := None; sec_Type := "Opaque" |}.
Definition sample_audiences : Object KConfigMap :=
  @MkObject KConfigMap "ConfigMap" (named_meta "team" "audiences")
    {| cm_Data := {["aud" := "app.example"]}; cm_BinaryData := ∅; cm_Immutable := None |}.
Definition sample_full_replies : history :=
  [Ev (OpGet KSecret ("team", "idp")) (Ok sample_idp_secret);
   Ev (OpGet KSecret ("team", "idp")) (Ok sample_idp_secret);
   Ev (OpGet KConfigMap ("team", "audiences")) (Ok sample_audiences);
   Ev (OpResolveOci "ghcr.io/kartverket/policy:1") (Ok sample_oci);
   Ev (OpFetchOpaBundleLayer sample_oci) (Ok "layer")].

(** The schema accepts it, and rejects a second bundle of the same name. *)
Example sample_full_valid : SecurityConfigSpec_valid (sc_Spec sample_full_sc) = true.
Proof. vm_compute. reflexivity. Qed.
Example schema_rejects_twice :
  all_unique bs_Name [{| bs_Name := "a"; bs_URL := "u"; bs_Verification := None |};
                      {| bs_Name := "a"; bs_URL := "v"; bs_Verification := None |}] = false.
Proof. vm_compute. reflexivity. Qed.

Lemma sample_full_found : replied (found sample_full_sc) sample_full_replies.
Proof.
  apply replied_Forall. unfold sample_full_replies. repeat constructor.
  - eexists. split; [reflexivity|]. split; intros key' Hk; vm_compute in Hk |- *.
    + apply elem_of_cons in Hk as [[= ->]|[[= ->]|Hk%not_elem_of_nil]%elem_of_cons]; done.
    + by apply elem_of_nil in Hk.
  - eexists. split; [reflexivity|]. split; intros key' Hk; vm_compute in Hk |- *.
    + apply elem_of_cons in Hk as [[= ->]|[[= ->]|Hk%not_elem_of_nil]%elem_of_cons]; done.
    + by apply elem_of_nil in Hk.
  - eexists. split; [reflexivity|]. intros key' Hk. vm_compute in Hk |- *.
    apply elem_of_cons in Hk as [[= ->]|Hk%elem_of_nil]; done.
Qed.

Lemma admitted_resolves_witness :
  ∃ scope rfs, resolved sample_full_sc scope ∧ ControllerResources scope = Ok rfs ∧
    length rfs = 12%nat.
Proof.
  edestruct (admitted_resolves sample_full_sc [] sample_full_replies)
    as (scope & rfs & _ & Hres & Hrfs & Hlen).
  - exact sample_full_valid.
  - apply steps_refl.
  - reflexivity.
  - reflexivity.
  - intros config. split; reflexivity.
  - do 5 apply steps_op. apply steps_refl.
  - exact sample_full_found.
  - exists scope, rfs. split; [exact Hres|]. split; [exact Hrfs|exact Hlen].
Defined.

Lemma generated_names_valid_witness :
  ∃ rfs, ControllerResources sample_scope = Ok rfs ∧
    Forall (λ c, ResourceName_valid (GetResourceName c) = true) rfs.
Proof.
  eexists. split; [reflexivity|].
  apply (generated_names_valid sample_scope _).
  - reflexivity.
  - reflexivity.
  - vm_compute. reflexivity.
  - vm_compute. reflexivity.
  - right. vm_compute. reflexivity.
  - vm_compute. split; repeat constructor.
Defined.
