(* ===== verification/Pinning.v ===== *)
(** * Pinned bundles: what is verified is what runs

    The operator looks at the registry twice: the admission of a SecurityConfig (or the
    start, for the bundle for self authorization) resolves a bundle's URL and verifies the
    provenance of the digest; later the reconciliation resolves the URL again and fetches
    the layer.  The registry may have changed in between.  Here the registry
    is any function of time ([Validation.registry_reply]), and a URL that is pinned to a digest
    is shown to close the gap: the layer in the ConfigMap is the one that was fetched for the
    digest whose provenance was verified.  For other URLs
    [Startup.validateAndLoad_resolves_twice] shows the gap. *)
From stdpp Require Import base gmap strings list.
From Stdlib Require Import ZArith Lia.
From S2P Require Import Prelude GoStrings Kube Api Model Cluster ProgTheory RefServer Config Naming State Utilities Generators Samples Resolver Oci Sigstore Validation Startup Schema.
Open Scope go_scope.

(** ** Specification *)

(** The repository and the digest that a pinned reference names. *)
Definition pinned_to (parse : string → outcome Reference) (url : string)
    (repo : OciRepositoryAndDigest) : Prop :=
  ∃ ref, parse url = Ok ref ∧ HasPrefix (ref_Reference ref) "sha256:" = true ∧
    repo = {| oci_Registry := ref_Registry ref; oci_Repository := ref_Repository ref;
              oci_Digest := ref_Reference ref |}.

(** ** Lemmas *)

(** A registry that changes with time, and a parser of references that does not. *)
Section Replies.
Context `{SigstoreLib} (registry : nat → OciRegistry) (parse : string → outcome Reference).
Context (Hparse : ∀ t s, NewRepository (OciRegistry := registry t) s = parse s).

Lemma pinned_resolution_fixed url repo t r :
  pinned_to parse url repo → ResolveOciRepositoryAndDigest (H := registry t) url = r →
  r = Ok repo.
Proof.
  intros (ref & Hp & Hs & ->) <-. unfold ResolveOciRepositoryAndDigest.
  rewrite Hparse, Hp. cbn [on_err outcome_bind]. by rewrite Hs.
Qed.

Lemma pinned_resolves public github certID url repo h repo' :
  replied (registry_reply registry public github certID) h → pinned_to parse url repo →
  Ev (OpResolveOci url) (Ok repo') ∈ h → repo' = repo.
Proof.
  intros Hr Hpin (t & Heq)%Hr. symmetry in Heq. apply (pinned_resolution_fixed _ _ t _ Hpin) in Heq as [=].
  done.
Qed.
End Replies.

Lemma all_unique_NoDup {A : Type} (f : A → string) l : all_unique f l = true → NoDup (map f l).
Proof.
  unfold all_unique. intros Hl. pose proof (proj1 (forallb_forall _ _) Hl) as Hl'.
  assert (∀ x, In x l → length (List.filter (λ y, bool_decide (f y = f x)) l) = 1%nat) as Hone
    by (intros x Hx; by apply Nat.eqb_eq, (Hl' x)).
  clear Hl Hl'. induction l as [|a l IH]; simpl; constructor.
  - specialize (Hone a (or_introl eq_refl)). simpl in Hone.
    rewrite bool_decide_true in Hone by done. simpl in Hone. injection Hone as Hone.
    rewrite list_elem_of_In, in_map_iff. intros (y & Hy & Hin).
    assert (In y (List.filter (λ y, bool_decide (f y = f a)) l)) as Hf
      by (apply filter_In; by rewrite bool_decide_true).
    apply length_zero_iff_nil in Hone. by rewrite Hone in Hf.
  - apply IH. intros x Hx. specialize (Hone x (or_intror Hx)). simpl in Hone.
    case_bool_decide as Ha; [|done]. simpl in Hone. injection Hone as Hone.
    assert (In x (List.filter (λ y, bool_decide (f y = f x)) l)) as Hf
      by (apply filter_In; by rewrite bool_decide_true).
    apply length_zero_iff_nil in Hone. by rewrite Hone in Hf.
Qed.

Lemma bundle_names_distinct s opa :
  SecurityConfigSpec_valid s = true → spec_Opa s = Some opa →
  NoDup (map ob_Name (ToOpaBundles (opa_BundleURLs opa))).
Proof.
  intros Hv Hopa. assert (map ob_Name (ToOpaBundles (opa_BundleURLs opa)) =
    map bs_Name (opa_BundleURLs opa)) as ->.
  { unfold ToOpaBundles. rewrite map_map. apply map_ext. by intros []. }
  apply all_unique_NoDup. unfold SecurityConfigSpec_valid in Hv. rewrite Hopa in Hv.
  apply andb_prop in Hv as [Hv _]. apply andb_prop in Hv as [_ Hv]. simpl in Hv.
  unfold OpenPolicyAgentSpec_valid in Hv. by rewrite !andb_true_iff in Hv; destruct_and? Hv.
Qed.

Section Bundles.
Context `{Lib} `{Globals}.

(** Resolving a SecurityConfig with OPA resolves its OPA part. *)
Lemma opa_run sc h scope :
  steps (ResolveSecurityConfig sc) h (Ret (Ok scope)) →
  ∃ h', part_of h' h ∧ steps (ResolveOpaConfig sc) h' (Ret (Ok (sp_OpaConfig scope))).
Proof.
  intros Hs. unfold ResolveSecurityConfig in Hs.
  do 5 (apply gom_bind_steps in Hs as (? & ? & ? & -> & _ & Hs)).
  apply gom_bind_steps in Hs as (h1 & o & h2 & -> & Ho%gom_on_err_steps & Hs).
  apply steps_Ret_inv in Hs as [[= <-] ->]. cbn [sp_OpaConfig].
  exists h1. split; [|done]. intros e Hin. rewrite !elem_of_app. auto 10.
Qed.

(** C5: bundles that are pinned to a digest run as they were verified.  Take a SecurityConfig
    that meets the schema and was admitted, and was resolved later; the registry changes with
    time, and only the parsing of references does not depend on it.  For each of its bundles
    that asks for verification and whose URL is pinned to a digest, the ConfigMap that is
    generated for the OPA sidecar holds under the bundle's name the layer that was fetched
    during the resolution for just that digest, as the registry gave it at some moment; and
    among the referrers that the admission listed for just that digest, there is an SLSA
    provenance attestation that verifies and names the source that the SecurityConfig
    expects. *)
Theorem pinned_bundles_run_as_verified `{!SigstoreLib} registry parse public github certID sc
    h1 h2 scope opa b repo meta :
  (∀ t s, NewRepository (OciRegistry := registry t) s = parse s) →
  replied (registry_reply registry public github certID) (h1 ++ h2) →
  SecurityConfigSpec_valid (sc_Spec sc) = true →
  spec_Opa (sc_Spec sc) = Some opa → opa_Enabled opa = true →
  b ∈ opa_BundleURLs opa → bs_Verification b ≠ None → pinned_to parse (bs_URL b) repo →
  steps (validateSecurityConfig sc) h1 (Ret (Ok tt)) →
  steps (ResolveSecurityConfig sc) h2 (Ret (Ok scope)) →
  ∃ cm layer fetch_time referrers d verify_time,
    opaconfigmap.GetDesired meta (sp_OpaConfig scope) = Some cm ∧
    cm_BinaryData (o_Body cm) !! bs_Name b = Some layer ∧
    Ev (OpFetchOpaBundleLayer repo) (Ok layer) ∈ h2 ∧
    FetchOpaBundleLayer (H := registry fetch_time) repo = Ok layer ∧
    Ev (OpListReferrers repo SigstoreBundleMediaType) (Ok referrers) ∈ h1 ∧
    d ∈ referrers ∧ attests_slsa d ∧
    @provenance _ (registry verify_time) public github certID repo
      (ob_BundleSource (ToOpaBundle b)) d.
Proof.
  intros Hparse [Hr1 Hr2]%replied_app Hvalid Hopa Hen Hb Hver Hpin Hadm Hres.
  destruct (admitted_proved _ _ _ _ _ _ Hr1 Hadm _ _ Hopa Hb Hver)
    as (repo' & refs & d & t0 & t1 & Hin & _ & Hlist & Hd & Hslsa & _ & Hprov).
  apply (pinned_resolution_fixed _ _ Hparse _ _ _ _ Hpin) in Hin as [= ->].
  destruct (opa_run _ _ _ Hres) as (h' & Hpart & Ho).
  destruct (opa_steps sc opa h' _ Hopa Hen Ho) as (Hon & _ & _ & h3 & Hpart3 & Hloop).
  apply resolve_bundles_layers in Hloop as [_ Hall].
  2:{ by eapply bundle_names_distinct. }
  destruct (Hall (ToOpaBundle b)) as (repo' & layer & Hl & Hin & Hf).
  { unfold ToOpaBundles. apply list_elem_of_fmap. by exists b. }
  apply Hpart3, Hpart in Hin, Hf.
  apply (pinned_resolves _ _ Hparse _ _ _ _ _ _ _ Hr2 Hpin) in Hin as ->.
  destruct (Hr2 _ _ Hf) as [t Ht].
  unfold opaconfigmap.GetDesired. rewrite Hon. eexists _, layer, t, refs, d, t1.
  split_and!; [done|exact Hl|done|by symmetry|done..|exact Hprov].
Qed.
End Bundles.

(** ** Application *)

Definition sample_pinned_url : string := "ghcr.io/kartverket/policy@sha256:616263".
Definition sample_pinned_bundle : BundleSource :=
  {| bs_Name := "policy"; bs_URL := sample_pinned_url; bs_Verification := bs_Verification sample_bundle |}.
Definition sample_pinned_opa : OpenPolicyAgentSpec :=
  {| opa_Enabled := true; opa_BundleURLs := [sample_pinned_bundle]; opa_RequestPolicy := None |}.
Definition sample_pinned_sc : SecurityConfig :=
  {| sc_Kind := "SecurityConfig"; sc_Meta := sample_meta;
     sc_Spec := {| spec_Tokenx := None; spec_Maskinporten := None; spec_EntraID := None;
                   spec_Idporten := None; spec_Ansattporten := None;
                   spec_Opa := Some sample_pinned_opa; spec_ApplicationRef := "app" |};
     sc_Status := zero_status |}.

Definition pinned_admission : history :=
  [Ev (OpResolveOci sample_pinned_url) (Ok sample_oci);
   Ev (OpListReferrers sample_oci SigstoreBundleMediaType) (Ok [sample_referrer]);
   Ev (OpValidateSigstoreBundles sample_oci [sample_referrer] sample_source) (Ok tt)].
Definition pinned_resolution : history :=
  [Ev (OpResolveOci sample_pinned_url) (Ok sample_oci);
   Ev (OpFetchOpaBundleLayer sample_oci) (Ok "layer")].

Lemma pinned_replies :
  replied (registry_reply sample_registry sample_root sample_root sample_identity)
    (pinned_admission ++ pinned_resolution).
Proof.
  apply replied_Forall. repeat constructor.
  - exists 0%nat. vm_compute. reflexivity.
  - exists 0%nat, false. exact sample_validated.
  - exists 0%nat. vm_compute. reflexivity.
  - exists 0%nat. vm_compute. reflexivity.
Qed.

Lemma pinned_resolved :
  ∃ scope, steps (ResolveSecurityConfig sample_pinned_sc) pinned_resolution (Ret (Ok scope)).
Proof. eexists. do 2 apply steps_op. apply steps_refl. Qed.

Lemma pinned_bundles_run_as_verified_witness :
  ∃ (cm : Object KConfigMap) layer, cm_BinaryData (o_Body cm) !! "policy" = Some layer ∧
    Ev (OpFetchOpaBundleLayer sample_oci) (Ok layer) ∈ pinned_resolution.
Proof.
  destruct pinned_resolved as [scope Hscope].
  destruct (pinned_bundles_run_as_verified sample_registry (@NewRepository SampleRegistry)
    sample_root sample_root sample_identity sample_pinned_sc pinned_admission pinned_resolution
    scope sample_pinned_opa sample_pinned_bundle sample_oci sample_meta)
    as (cm & layer & t & refs & d & t' & _ & Hl & Hf & _).
  - reflexivity.
  - exact pinned_replies.
  - vm_compute. reflexivity.
  - reflexivity.
  - reflexivity.
  - left.
  - discriminate.
  - eexists. split; [reflexivity|]. split; vm_compute; reflexivity.
  - do 3 apply steps_op. apply steps_refl.
  - exact Hscope.
  - exists cm, layer. split; [exact Hl|exact Hf].
Defined.
