(* ===== verification/MockController.v ===== *)
(** * The stand-in for the operators of clients: [hack/mock_controller/main.go]

    In a development cluster this controller plays the operators that SecurityConfigs
    wait for: for a MaskinportenClient or an AzureAdApplication it writes the Secret that
    the client names, and then reports the client as synchronised.  The theorems: what it
    may write; what a reconciliation that succeeded has established; and that the status
    manager of the controller then no longer waits for the client. *)
From stdpp Require Import base gmap strings list.
From Stdlib Require Import ZArith Lia.
From S2P Require Import Prelude GoStrings Kube Api Model Cluster ProgTheory RefServer Config Naming State Utilities Reconciliation Generators Resources Samples Status.
Open Scope go_scope.

Definition SecretTypeOpaque : string := "Opaque".

(** [MaskinportenClientSynchronizationStateReady] and its twin of this program. *)
Definition mock_state_ready : string := "Synchronized".

(** The behaviour of one of the reconcilers; the kind stands for [newObject]. *)
Record reconcileConfig (k : Kind) := {
  rc_resourceKind : string;
  rc_getSecretName : Object k → string;
  rc_getSecretData : outcome (list (string * bytes));
  rc_setStatus : Object k → string → GoM unit;
}.
Arguments rc_resourceKind {k}.
Arguments rc_getSecretName {k}.
Arguments rc_getSecretData {k}.
Arguments rc_setStatus {k}.

(** ** The data of the secrets *)

Section Environment.
Context (environment : string → option string).

Definition getEnv (key : string) : outcome string :=
  match environment key with
  | Some val => if bool_decide (val = "") then
                  Panic ("environment variable " +:+ key +:+ " not set")
                else Ok val
  | None => Panic ("environment variable " +:+ key +:+ " not set")
  end.

Definition getMaskinportenSecretData : outcome (list (string * bytes)) :=
  let? client_id := getEnv "MASKINPORTEN_CLIENT_ID" in
  let? client_jwk := getEnv "MASKINPORTEN_CLIENT_JWK" in
  Ok [("MASKINPORTEN_ISSUER", "https://test.maskinporten.no/");
      ("MASKINPORTEN_TOKEN_ENDPOINT", "https://test.maskinporten.no/token");
      ("MASKINPORTEN_JWKS_URI", "https://test.maskinporten.no/jwk");
      ("MASKINPORTEN_CLIENT_ID", client_id);
      ("MASKINPORTEN_CLIENT_JWK", client_jwk)].

Definition getEntraIdSecretData : outcome (list (string * bytes)) :=
  let base := "https://login.microsoftonline.com/7f74c8a2-43ce-46b2-b0e8-b6306cba73a3/" in
  let? client_id := getEnv "AZURE_APP_CLIENT_ID" in
  let? jwk := getEnv "AZURE_APP_JWK" in
  Ok [("AZURE_OPENID_CONFIG_ISSUER", base +:+ "v2.0");
      ("AZURE_OPENID_CONFIG_TOKEN_ENDPOINT", base +:+ "oauth2/v2.0/token");
      ("AZURE_OPENID_CONFIG_JWKS_URI", base +:+ "discovery/v2.0/keys");
      ("AZURE_APP_CLIENT_ID", client_id);
      ("AZURE_APP_JWK", jwk)].
End Environment.

(** ** Reconciliation *)

(** The loop over the data: the entries that differ are set, and whether there was one.
    A key that is missing reads as the empty string. *)
Fixpoint update_data (secretData : list (string * bytes)) (data : gmap string bytes) :
    gmap string bytes * bool :=
  match secretData with
  | [] => (data, false)
  | (key, val) :: rest =>
      if negb (bool_decide (default "" (data !! key) = val))
      then ((update_data rest (<[key := val]> data)).1, true)
      else update_data rest data
  end.

Definition secret_with_data (existing : Object KSecret) (data : gmap string bytes) :
    Object KSecret :=
  @MkObject KSecret (o_Kind existing) (o_Meta existing)
    {| sec_StringData := sec_StringData (o_Body existing); sec_Data := data;
       sec_Immutable := sec_Immutable (o_Body existing); sec_Type := sec_Type (o_Body existing) |}.

Definition new_secret (namespace secretName : string) (secretData : list (string * bytes)) :
    Object KSecret :=
  @MkObject KSecret "" (named_meta namespace secretName)
    {| sec_StringData := ∅; sec_Data := list_to_map secretData; sec_Immutable := None;
       sec_Type := SecretTypeOpaque |}.

Section Mock.
Context `{Lib}.

(** The part of [reconcileSecret] up to the status. *)
Definition ensure_secret {k} (owner : Object k) (secretName : string)
    (secretData : list (string * bytes)) : GoM unit :=
  let* got := call (OpGet KSecret (o_Namespace owner, secretName)) in
  match got with
  | Err err =>
      if negb (IsNotFound err) then Ret (Err err)
      else
        let newSecret := new_secret (o_Namespace owner) secretName secretData in
        let! meta := lift (SetControllerReference (o_Meta owner) (o_Meta newSecret)) in
        let! _ := call (OpCreate KSecret (o_with_meta newSecret meta)) in
        Ret (Ok tt)
  | Ok existing =>
      let '(data, needsUpdate) := update_data secretData (sec_Data (o_Body existing)) in
      if needsUpdate : bool then
        let! _ := call (OpUpdate KSecret (secret_with_data existing data)) in Ret (Ok tt)
      else Ret (Ok tt)
  | Panic w => Ret (Panic w)
  end.

Definition reconcileSecret {k} (owner : Object k) (secretName : string)
    (secretData : list (string * bytes)) (setStatus : string → GoM unit) : GoM unit :=
  let! _ := ensure_secret owner secretName secretData in setStatus secretName.

(** [Reconcile] of a [mockReconciler]; the result is always the zero one. *)
Definition mock_Reconcile {k} (config : reconcileConfig k) (req : ObjectKey) : GoM unit :=
  let* got := call (OpGet k req) in
  match got with
  | Err err => if IsNotFound err then Ret (Ok tt) else Ret (Err err)
  | Ok obj =>
      let! secretData := lift (rc_getSecretData config) in
      reconcileSecret obj (rc_getSecretName config obj) secretData (rc_setStatus config obj)
  | Panic w => Ret (Panic w)
  end.

(** ** Writing the status *)

(** One attempt: [latest] with the status of [obj]. *)
Definition write_status {k} (obj : Object k) : GoM unit :=
  let! latest := call (OpGet k (key_of obj)) in
  let! _ := call (OpUpdateObjectStatus k (MkObject (o_Kind latest) (o_Meta latest)
                    (body_with_status (o_Body latest) (o_Body obj)))) in
  Ret (Ok tt).

Definition setMaskinportenClientStatus (maskinportenClient : Object KMaskinportenClient) :
    GoM unit := RetryOnConflict (write_status maskinportenClient).
Definition setAzureAdApplicationStatus (azureadapplication : Object KAzureAdApplication) :
    GoM unit := RetryOnConflict (write_status azureadapplication).

Definition ready_status (secretName : string) : SyncStatus :=
  {| SynchronizationState := mock_state_ready; SynchronizationSecretName := secretName |}.

Definition maskinportenReconciler (environment : string → option string) :
    reconcileConfig KMaskinportenClient := {|
  rc_resourceKind := "MaskinportenClient";
  rc_getSecretName (obj : Object KMaskinportenClient) := nmc_SecretName (mpc_Spec (o_Body obj));
  rc_getSecretData := getMaskinportenSecretData environment;
  rc_setStatus (mc : Object KMaskinportenClient) secretName :=
    setMaskinportenClientStatus (@MkObject KMaskinportenClient (o_Kind mc) (o_Meta mc)
      {| mpc_Spec := mpc_Spec (o_Body mc); mpc_Status := ready_status secretName |});
|}.

Definition azureAdReconciler (environment : string → option string) :
    reconcileConfig KAzureAdApplication := {|
  rc_resourceKind := "AzureAdApplication";
  rc_getSecretName (obj : Object KAzureAdApplication) := naa_SecretName (aad_Spec (o_Body obj));
  rc_getSecretData := getEntraIdSecretData environment;
  rc_setStatus (app : Object KAzureAdApplication) secretName :=
    setAzureAdApplicationStatus (@MkObject KAzureAdApplication (o_Kind app) (o_Meta app)
      {| aad_Spec := aad_Spec (o_Body app); aad_Status := ready_status secretName |});
|}.
End Mock.

(** ** The program *)

(** A controller for a kind that also watches the objects of another kind that the first
    owns, or a health check. *)
Inductive MockRegistration := ControllerFor (for_ owns : Kind) | HealthCheck (name : string).

Record MockOptions := {
  mock_HealthProbeBindAddress : string;
  mock_MetricsBindAddress : string;
  mock_LeaderElection : bool;
}.

Class MockManager := {
  (** [ctrl.GetConfigOrDie] and [ctrl.NewManager]. *)
  NewMockManager : MockOptions → option error;
  (** Registering a controller or a check. *)
  SetUp : MockRegistration → option error;
  (** [mgr.Start]: it returns when the program is told to stop. *)
  StartMock : option error;
}.

(** How the program ends: with a code and the text that it prints. *)
Definition exit : Type := option (Z * string).

Section Program.
Context `{MockManager}.

Definition mock_options : MockOptions :=
  {| mock_HealthProbeBindAddress := ":8083"; mock_MetricsBindAddress := "0";
     mock_LeaderElection := false |}.

Definition mock_registrations : list (MockRegistration * string) :=
  [(ControllerFor KMaskinportenClient KSecret, "failed to set up controller: ");
   (ControllerFor KAzureAdApplication KSecret, "failed to set up controller: ");
   (HealthCheck "healthz", "failed to add healthz check: ");
   (HealthCheck "readyz", "failed to add readyz check: ")].

(** What is registered is the first component, whether the manager was started the second. *)
Fixpoint set_up (todo : list (MockRegistration * string)) (registered : list MockRegistration) :
    list MockRegistration * bool * exit :=
  match todo with
  | [] =>
      (registered, true,
       match StartMock with
       | Some err => Some (1%Z, "manager exited with error: " +:+ Error err)
       | None => None
       end)
  | (r, failure) :: todo =>
      match SetUp r with
      | Some err => (registered, false, Some (1%Z, failure +:+ Error err))
      | None => set_up todo (registered ++ [r])
      end
  end.

Definition mock_main : list MockRegistration * bool * exit :=
  match NewMockManager mock_options with
  | Some err => ([], false, Some (1%Z, "failed to create manager: " +:+ Error err))
  | None => set_up mock_registrations []
  end.

(** The manager is started only with both controllers and both checks. *)
Lemma mock_main_starts registered e :
  mock_main = (registered, true, e) → registered = map fst mock_registrations.
Proof.
  unfold mock_main. destruct (NewMockManager _); [discriminate|].
  assert (∀ todo done_, set_up todo done_ = (registered, true, e) →
            registered = done_ ++ map fst todo) as Hall.
  { induction todo as [|[r failure] todo IH]; intros done_; simpl.
    - intros [= <- _]. by rewrite app_nil_r.
    - destruct (SetUp r); [discriminate|]. intros ->%IH. by rewrite <-app_assoc. }
  apply Hall.
Qed.
End Program.

(** ** Specification *)

(** [data] holds the wanted entries; a missing key reads as the empty string. *)
Definition has_data (secretData : list (string * bytes)) (data : gmap string bytes) : Prop :=
  ∀ key val, (key, val) ∈ secretData → default "" (data !! key) = val.

(** The server confirmed, in the history, a Secret under [key] that has the data. *)
Definition secret_confirmed (key : ObjectKey) (secretData : list (string * bytes)) (h : history) :
    Prop :=
  (∃ o o', Ev (OpCreate KSecret o) (Ok o') ∈ h ∧ key_of o = key ∧
           has_data secretData (sec_Data (o_Body o))) ∨
  (∃ existing, Ev (OpGet KSecret key) (Ok existing) ∈ h ∧
     (has_data secretData (sec_Data (o_Body existing)) ∨
      ∃ o', Ev (OpUpdate KSecret (secret_with_data existing
              (update_data secretData (sec_Data (o_Body existing))).1)) (Ok o') ∈ h)).

(** The calls that a reconciliation of the client under [req] may make. *)
Definition mock_call `{Lib} {k} (config : reconcileConfig k) (req : ObjectKey) (h : history)
    (op : Op) : Prop :=
  match op with
  | OpGet _ _ => True
  | OpCreate KSecret o =>
      ∃ (obj : Object k) e, Ev (OpGet k req) (Ok obj) ∈ h ∧
        key_of o = (o_Namespace obj, rc_getSecretName config obj) ∧
        Ev (OpGet KSecret (key_of o)) (Err e) ∈ h ∧ IsNotFound e = true
  | OpUpdate KSecret o =>
      ∃ (obj : Object k) existing data, Ev (OpGet k req) (Ok obj) ∈ h ∧
        Ev (OpGet KSecret (o_Namespace obj, rc_getSecretName config obj)) (Ok existing) ∈ h ∧
        o = secret_with_data existing data
  | OpUpdateObjectStatus k' o =>
      k' = k ∧ ∃ (obj : Object k) secretData, Ev (OpGet k req) (Ok obj) ∈ h ∧
        rc_getSecretData config = Ok secretData ∧
        secret_confirmed (o_Namespace obj, rc_getSecretName config obj) secretData h
  | _ => False
  end.

(** What the two reconcilers have in common: the data is a map, and the status that is
    written is that of a synchronised client. *)
Record reporting `{Lib} {k} (config : reconcileConfig k) (status : body k → SyncStatus) : Prop := {
  rep_data : ∀ data, rc_getSecretData config = Ok data → NoDup data.*1;
  rep_kind : k ≠ KSecret;
  rep_status : ∀ b from : body k, status (body_with_status b from) = status from;
  rep_write : ∀ obj name, ∃ obj', key_of obj' = key_of obj ∧
    status (o_Body obj') = ready_status name ∧
    rc_setStatus config obj name = RetryOnConflict (write_status obj');
}.

(** ** Lemmas *)

Lemma update_data_spec secretData data :
  NoDup secretData.*1 →
  has_data secretData (update_data secretData data).1 ∧
  (∀ key, key ∉ secretData.*1 → (update_data secretData data).1 !! key = data !! key) ∧
  ((update_data secretData data).2 = false → has_data secretData data).
Proof.
  revert data. induction secretData as [|[key val] rest IH]; intros data Hnd; simpl.
  { split_and!; [|done|]; unfold has_data; set_solver. }
  apply NoDup_cons in Hnd as [Hk Hnd]. simpl in Hk.
  assert (∀ d, default "" (d !! key) = val →
    has_data ((key, val) :: rest) (update_data rest d).1) as Hone.
  { intros d Hd k v [[= -> ->]|Hin]%elem_of_cons.
    - destruct (IH d Hnd) as (_ & Hkeep & _). by rewrite (Hkeep _ Hk).
    - by apply (IH d Hnd). }
  case_bool_decide as Hv; simpl.
  - destruct (IH data Hnd) as (H1 & H2 & H3). split_and!; [by apply Hone|set_solver|].
    intros Hf k v [[= -> ->]|Hin]%elem_of_cons; [done|by apply H3].
  - split_and!; [apply Hone; by rewrite lookup_insert_eq| |done].
    intros k Hk'. apply not_elem_of_cons in Hk' as [Hne Hk'].
    destruct (IH (<[key:=val]> data) Hnd) as (_ & -> & _); [|done]. by rewrite lookup_insert_ne.
Qed.

(** The order in which Go visits the data does not matter. *)
Lemma update_data_perm l l' data :
  NoDup l.*1 → l ≡ₚ l' → ∀ key, default "" ((update_data l data).1 !! key) =
                                default "" ((update_data l' data).1 !! key).
Proof.
  intros Hnd Hp key. assert (NoDup l'.*1) as Hnd' by (by rewrite <-Hp).
  destruct (update_data_spec l data Hnd) as (H1 & H2 & _).
  destruct (update_data_spec l' data Hnd') as (H1' & H2' & _).
  destruct (decide (key ∈ l.*1)) as [Hin|Hin].
  - apply list_elem_of_fmap in Hin as ([k v] & -> & Hin). simpl.
    rewrite (H1 k v Hin). by rewrite (H1' k v) by (by rewrite <-Hp).
  - rewrite (H2 _ Hin). rewrite H2'; [done|]. by rewrite <-Hp.
Qed.

Lemma list_to_map_has_data secretData :
  NoDup secretData.*1 → has_data secretData (list_to_map secretData).
Proof. intros Hnd key val Hin. by rewrite (elem_of_list_to_map_1 _ key val Hnd Hin). Qed.

Lemma body_with_status_twice {k} (old latest from : body k) :
  body_with_status old (body_with_status latest from) = body_with_status old from.
Proof. by destruct k. Qed.

Section Facts.
Context `{Lib} `{!LibLaws}.

Lemma maskinporten_reporting environment :
  reporting (maskinportenReconciler environment) mpc_Status.
Proof.
  split; [|done|done|].
  - intros data. simpl. unfold getMaskinportenSecretData.
    intros (a & _ & (b & _ & [= <-])%outcome_bind_Ok)%outcome_bind_Ok. simpl.
    apply (bool_decide_unpack _). vm_compute. exact I.
  - intros obj name. exists (@MkObject KMaskinportenClient (o_Kind obj) (o_Meta obj)
      {| mpc_Spec := mpc_Spec (o_Body obj); mpc_Status := ready_status name |}). by split_and!.
Qed.

Lemma azure_reporting environment : reporting (azureAdReconciler environment) aad_Status.
Proof.
  split; [|done|done|].
  - intros data. simpl. unfold getEntraIdSecretData.
    intros (a & _ & (b & _ & [= <-])%outcome_bind_Ok)%outcome_bind_Ok. simpl.
    apply (bool_decide_unpack _). vm_compute. exact I.
  - intros obj name. exists (@MkObject KAzureAdApplication (o_Kind obj) (o_Meta obj)
      {| aad_Spec := aad_Spec (o_Body obj); aad_Status := ready_status name |}). by split_and!.
Qed.
End Facts.

Section Safety.
Context `{Lib} `{!LibLaws} {k : Kind} (config : reconcileConfig k) (status : body k → SyncStatus).
Context (Hconfig : reporting config status) (req : ObjectKey).

Lemma secret_confirmed_app key secretData h h' :
  secret_confirmed key secretData h → secret_confirmed key secretData (h ++ h').
Proof.
  intros [(o & o' & Hin & ?)|(ex & Hin & [?|(o' & Hin')])].
  - left. exists o, o'. split; [set_solver|done].
  - right. exists ex. split; [set_solver|by left].
  - right. exists ex. split; [set_solver|]. right. exists o'. set_solver.
Qed.

(** The part that writes the Secret. *)
Lemma ensure_secret_wp (obj : Object k) secretData h :
  NoDup secretData.*1 → Ev (OpGet k req) (Ok obj) ∈ h →
  wp (mock_call config req) h (ensure_secret obj (rc_getSecretName config obj) secretData)
    (λ h' r, (∃ h2, h' = h ++ h2) ∧ (r = Ok tt →
       secret_confirmed (o_Namespace obj, rc_getSecretName config obj) secretData h')).
Proof.
  intros Hnd Hobj. set (key := (o_Namespace obj, rc_getSecretName config obj)).
  unfold ensure_secret. simpl. split; [done|]. intros [existing|e|w]; simpl.
  - destruct (update_data secretData (sec_Data (o_Body existing))) as [data needs] eqn:Hu.
    destruct (update_data_spec secretData (sec_Data (o_Body existing)) Hnd) as (_ & _ & Hno).
    destruct needs; simpl.
    + split; [exists obj, existing, data; split_and!; set_solver|].
      intros [o'|e|w]; simpl; rewrite <-app_assoc; (split; [by eexists|]); [|done|done].
      intros _. right. exists existing. split; [set_solver|]. right. exists o'.
      rewrite Hu. simpl. set_solver.
    + split; [by eexists|]. intros _. right. exists existing. split; [set_solver|].
      left. apply Hno. by rewrite Hu.
  - destruct (IsNotFound e) eqn:He; simpl; [|by split; [eexists|]].
    destruct (SetControllerReference _ _) as [meta|e'|w] eqn:Hm; simpl;
      [|by split; [eexists|]..].
    apply controller_reference_set in Hm as (_ & Hn & Hns & _).
    assert (key_of (o_with_meta (new_secret (o_Namespace obj) (rc_getSecretName config obj)
              secretData) meta) = key) as Hk.
    { unfold key_of, o_Namespace, o_Name. simpl. by rewrite Hn, Hns. }
    split; [exists obj, e; rewrite Hk; split_and!; set_solver|].
    intros [o'|e'|w]; simpl; rewrite <-app_assoc; (split; [by eexists|]); [|done|done].
    intros _. left. eexists _, o'. split; [apply elem_of_app; right; right; by left|].
    split; [exact Hk|]. by apply list_to_map_has_data.
  - by split; [eexists|].
Qed.

Lemma write_status_wp (obj obj' : Object k) secretData h :
  Ev (OpGet k req) (Ok obj) ∈ h → rc_getSecretData config = Ok secretData →
  secret_confirmed (o_Namespace obj, rc_getSecretName config obj) secretData h →
  wp (mock_call config req) h (RetryOnConflict (write_status obj')) (λ _ _, True).
Proof.
  intros Hobj Hdata Hsec. destruct (retry_spec (write_status obj')) as [n ->].
  set (Inv := λ h, Ev (OpGet k req) (Ok obj) ∈ h ∧
    secret_confirmed (o_Namespace obj, rc_getSecretName config obj) secretData h).
  apply (wp_mono _ _ _ _ (λ h' _, Inv h') _ (λ _ _ H, H) (λ _ _ _, I)).
  apply wp_retry; [|by split].
  clear h Hobj Hsec. intros h [Hobj Hsec]. unfold write_status. simpl. split; [done|].
  assert (∀ h', Inv (h ++ h')) as Hinv.
  { intros h'. split; [set_solver|by apply secret_confirmed_app]. }
  intros [latest|e|w]; simpl; [|apply Hinv|apply Hinv].
  split; [|intros [o'|e|w]; simpl; rewrite <-app_assoc; apply Hinv].
  split; [done|]. exists obj, secretData. destruct (Hinv [Ev (OpGet k (key_of obj')) (Ok latest)]).
  by split_and!.
Qed.

Lemma mock_Reconcile_wp : wp (mock_call config req) [] (mock_Reconcile config req) (λ _ _, True).
Proof.
  unfold mock_Reconcile. cbn [wp prog_bind call]. split; [done|].
  intros [obj|e|w]; cbn [app]; [|by destruct (IsNotFound e)|done].
  destruct (rc_getSecretData config) as [secretData|e|w] eqn:Hd; [|done|done].
  unfold lift. unfold gom_bind at 1. cbn [prog_bind]. unfold reconcileSecret, gom_bind. apply wp_bind. eapply wp_mono; [done| |apply ensure_secret_wp].
  - intros h r [[h2 ->] Hr]. destruct r as [[]|e|w]; simpl; [|done|done].
    destruct (rep_write _ _ Hconfig obj (rc_getSecretName config obj)) as (obj' & _ & _ & ->).
    apply (write_status_wp obj _ secretData); [by left|done|by apply Hr].
  - by apply (rep_data _ _ Hconfig).
  - by left.
Qed.
End Safety.

(** ** Runs against a server *)

Section Server.
Context {W : Type} `{!Server W} `{Lib} `{!LibLaws} `{!ServerLaws W} `{!ObjectUpdateLaws W}.

Definition same_objects (w w' : W) : Prop := ∀ k key, find w' k key = find w k key.

(** The status of the object under [key] was replaced by that of [from], and nothing else
    changed. *)
Definition status_written {k} (key : ObjectKey) (from : body k) (w w' : W) : Prop :=
  ∃ old o', find w k key = Some old ∧ find w' k key = Some o' ∧
    o_Body o' = body_with_status (o_Body old) from ∧
    ∀ k2 key2, (k2, key2) ≠ (k, key) → find w' k2 key2 = find w k2 key2.

Lemma status_written_same {k} key (from : body k) w w1 w2 :
  same_objects w w1 → status_written key from w1 w2 → status_written key from w w2.
Proof.
  intros Hs (old & o' & H1 & H2 & H3 & H4). exists old, o'. rewrite <-Hs.
  split_and!; [done..|]. intros k2 key2 Hne. by rewrite H4, Hs.
Qed.

Lemma run_write_status {k} (obj : Object k) w :
  match run (write_status obj) w with
  | (Ok _, w') => status_written (key_of obj) (o_Body obj) w w'
  | (Err _, w') => same_objects w w'
  | (Panic _, _) => False
  end.
Proof.
  unfold write_status, gom_bind. cbn [prog_bind call run]. cbv zeta.
  destruct (perform (OpGet k (key_of obj)) w) as [r w1] eqn:Hg.
  pose proof (get_reply _ _ _ _ _ Hg) as [-> Hr]. cbn [fst snd].
  destruct r as [latest|e|p]; [|by intros ? ?|done]. destruct Hr as [Hf Hk].
  cbn [prog_bind call run]. cbv zeta.
  destruct (perform (OpUpdateObjectStatus k _) w) as [r w2] eqn:Hu.
  apply update_status_reply in Hu. cbn [fst snd].
  destruct r as [o'|e|p]; [|exact Hu|done]. simpl.
  destruct Hu as (old & Ho & Hb & Hf' & Hrest).
  change (key_of (MkObject (o_Kind latest) (o_Meta latest) _)) with (key_of latest) in *.
  rewrite Hk in *. exists old, o'. split_and!; try done.
  simpl in Hb. by rewrite body_with_status_twice in Hb.
Qed.

Lemma run_retry_status {k} n (obj : Object k) w :
  match run (retry_conflict IsConflict n (write_status obj)) w with
  | (Ok _, w') => status_written (key_of obj) (o_Body obj) w w'
  | (Err _, w') => same_objects w w'
  | (Panic _, _) => False
  end.
Proof.
  revert w. induction n as [|n IH]; intros w; cbn [retry_conflict]; [apply run_write_status|].
  rewrite run_bind. cbv zeta. pose proof (run_write_status obj w) as Hw.
  destruct (run (write_status obj) w) as [r w1]. cbn [fst snd].
  destruct r as [[]|e|p]; [exact Hw| |done]. destruct (IsConflict e); [|exact Hw].
  specialize (IH w1). destruct (run _ w1) as [[[]|e'|p] w2]; [|by intros ? ?; rewrite IH|done].
  by eapply status_written_same.
Qed.

(** The Secret under [key] has the data, and no other object changed. *)
Definition secret_written (key : ObjectKey) (secretData : list (string * bytes)) (w w' : W) :
    Prop :=
  (∃ secret, find w' KSecret key = Some secret ∧ has_data secretData (sec_Data (o_Body secret))) ∧
  ∀ k2 key2, (k2, key2) ≠ (KSecret, key) → find w' k2 key2 = find w k2 key2.

(** The server keeps no [stringData]. *)
Definition no_string_data (w : W) : Prop :=
  ∀ key secret, find w KSecret key = Some secret → sec_StringData (o_Body secret) = ∅.

Lemma run_ensure_secret {k} (owner : Object k) name secretData w w' :
  NoDup secretData.*1 → no_string_data w →
  run (ensure_secret owner name secretData) w = (Ok tt, w') →
  secret_written (o_Namespace owner, name) secretData w w'.
Proof.
  intros Hnd Hns. unfold ensure_secret. cbn [prog_bind call run]. cbv zeta.
  destruct (perform (OpGet _ _) w) as [r w1] eqn:Hg.
  pose proof (get_reply _ _ _ _ _ Hg) as [-> Hr]. cbn [fst snd].
  destruct r as [existing|e|p]; [|destruct (IsNotFound e) eqn:He|done].
  - destruct Hr as [Hf Hk].
    destruct (update_data secretData (sec_Data (o_Body existing))) as [data needs] eqn:Hu.
    destruct (update_data_spec secretData (sec_Data (o_Body existing)) Hnd) as (Hyes & _ & Hno).
    rewrite Hu in Hyes, Hno. destruct needs.
    + unfold gom_bind. cbn [prog_bind call run]. cbv zeta.
      destruct (perform (OpUpdate _ _) w) as [r w2] eqn:Hp.
      apply update_reply in Hp; [|exact (Hns _ _ Hf)].
      cbn [fst snd]. destruct r as [o'|e|p]; [|done|done]. intros [= <-].
      change (key_of (secret_with_data existing data)) with (key_of existing) in Hp.
      rewrite Hk in Hp. destruct Hp as ((_ & Hb & _) & Hf' & Hrest).
      split; [|done]. exists o'. split; [done|]. by rewrite Hb.
    + simpl. intros [= <-]. split; [|done]. exists existing. split; [done|by apply Hno].
  - simpl negb. cbv iota.
    destruct (SetControllerReference _ _) as [meta|e'|p] eqn:Hm; simpl; [|done|done].
    apply controller_reference_set in Hm as (_ & Hn & Hnsp & _).
    destruct (perform (OpCreate _ _) w) as [r w2] eqn:Hp.
    apply create_reply in Hp; [|done]. cbn [fst snd]. destruct r as [o'|e'|p]; [|done|done].
    simpl. intros [= <-]. destruct Hp as (_ & (_ & Hb & _) & Hf & Hrest).
    assert (key_of (o_with_meta (new_secret (o_Namespace owner) name secretData) meta) =
            (o_Namespace owner, name)) as Hkey.
    { unfold key_of, o_Namespace, o_Name. simpl. by rewrite Hn, Hnsp. }
    rewrite Hkey in *. split; [|done]. exists o'. split; [done|]. rewrite Hb. simpl.
    by apply list_to_map_has_data.
  - done.
Qed.

(** A reconciliation that succeeded: nothing happened and there is no such object, or its
    Secret is written and its status says so. *)
Definition mock_done {k} (config : reconcileConfig k) (status : body k → SyncStatus)
    (req : ObjectKey) (w w' : W) : Prop :=
  match find w k req with
  | None => w' = w
  | Some obj =>
      let secret_key := (req.1, rc_getSecretName config obj) in
      ∃ secretData secret obj',
        rc_getSecretData config = Ok secretData ∧
        find w' KSecret secret_key = Some secret ∧ has_data secretData (sec_Data (o_Body secret)) ∧
        find w' k req = Some obj' ∧
        status (o_Body obj') = ready_status (rc_getSecretName config obj) ∧
        o_Body obj' = body_with_status (o_Body obj) (o_Body obj') ∧
        ∀ k2 key2, (k2, key2) ≠ (KSecret, secret_key) → (k2, key2) ≠ (k, req) →
                   find w' k2 key2 = find w k2 key2
  end.

Lemma run_mock_Reconcile {k} (config : reconcileConfig k) status req w w' :
  reporting config status → no_string_data w →
  run (mock_Reconcile config req) w = (Ok tt, w') → mock_done config status req w w'.
Proof.
  intros Hc Hns. unfold mock_Reconcile, mock_done. cbn [prog_bind call run]. cbv zeta.
  destruct (perform (OpGet k req) w) as [r w1] eqn:Hg.
  pose proof (get_reply _ _ _ _ _ Hg) as [-> Hr]. cbn [fst snd].
  destruct r as [obj|e|p]; [|destruct (IsNotFound e) eqn:He; [|done]|done].
  2:{ rewrite (Hr eq_refl). simpl. by intros [= <-]. }
  destruct Hr as [Hf Hk]. rewrite Hf.
  destruct (rc_getSecretData config) as [secretData|e|p] eqn:Hd; [|done|done].
  unfold lift, reconcileSecret. cbn [gom_bind prog_bind]. unfold gom_bind at 1. cbn [prog_bind].
  unfold gom_bind. rewrite run_bind. cbv zeta.
  destruct (run (ensure_secret _ _ _) w) as [r w1] eqn:Hrun. cbn [fst snd].
  destruct r as [[]|e|p]; [|done|done].
  apply run_ensure_secret in Hrun as [(secret & Hsec & Hdata) Hrest];
    [|by apply (rep_data _ _ Hc)|done].
  assert (o_Namespace obj = req.1) as Hreq by (by rewrite <-Hk). rewrite Hreq in *.
  destruct (rep_write _ _ Hc obj (rc_getSecretName config obj)) as (obj' & Hkey & Hst & ->).
  destruct (retry_spec (write_status obj')) as [n ->].
  pose proof (run_retry_status n obj' w1) as Hw. intros Hfin. rewrite Hfin in Hw.
  rewrite Hkey, Hk in Hw. destruct Hw as (old & o' & Hold & Hnew & Hb & Hrest').
  assert ((k, req) ≠ (KSecret, (req.1, rc_getSecretName config obj))) as Hne.
  { intros [= Hkk _]. by apply (rep_kind _ _ Hc). }
  assert (old = obj) as -> by (rewrite Hrest in Hold by done; congruence).
  exists secretData, secret, o'. split_and!; try done.
  - by rewrite Hrest' by done.
  - by rewrite Hb, (rep_status _ _ Hc).
  - rewrite Hb at 2. by rewrite Hb, body_with_status_twice.
  - intros k2 key2 H1 H2. by rewrite Hrest', Hrest.
Qed.
End Server.

(** ** Properties *)

(** Every call of a run is one of [mock_call]. *)
Definition mock_calls `{Lib} {k} (config : reconcileConfig k) : Prop :=
  ∀ req h p', steps (mock_Reconcile config req) h p' →
  ∀ h1 op r h2, h = h1 ++ Ev op r :: h2 → mock_call config req h1 op.

(** Whatever the API server answers, both reconcilers of the mock controller write
    only the Secret that the client they read names (a creation only after it was not
    found, an update only of the Secret just read) and the status of the client's kind,
    and they report the client as synchronised only after the server has confirmed a
    Secret with the client's data. *)
Theorem mock_Reconcile_safe `{Lib} `{!LibLaws} environment :
  mock_calls (maskinportenReconciler environment) ∧ mock_calls (azureAdReconciler environment).
Proof.
  split; intros req h p' Hs.
  - exact (proj2 (wp_adequate _ _ _ _ [] _
      (mock_Reconcile_wp _ _ (maskinporten_reporting environment) req) Hs)).
  - exact (proj2 (wp_adequate _ _ _ _ [] _
      (mock_Reconcile_wp _ _ (azure_reporting environment) req) Hs)).
Qed.

(** ** Applications *)

Definition sample_environment (_ : string) : option string := Some "value".

Lemma mock_Reconcile_safe_witness :
  mock_calls (maskinportenReconciler sample_environment) ∧
  mock_calls (azureAdReconciler sample_environment).
Proof. apply (mock_Reconcile_safe sample_environment). Defined.
