(* ===== verification/EndToEnd.v ===== *)
(** * From a SecurityConfig to a ready status

    The controller creates the clients of a SecurityConfig and waits; the operator of the
    clients writes their Secrets and reports; the controller then finds them synchronised.
    Here [Controller], [MockController] and [Status] are run one after the other against
    one API server: the SecurityConfig becomes ready, and its status names the Secrets that
    hold the data. *)
From stdpp Require Import base gmap strings list.
From Stdlib Require Import ZArith Lia.
From S2P Require Import Prelude GoStrings Kube Api Model Cluster ProgTheory RefServer Config Naming State Utilities Reconciliation Generators Resources Samples Resolver Events Status Controller MockController.
Open Scope go_scope.

(** ** Specification *)

Section Specification.
Context {W : Type} `{!Server W}.

(** The client that a check asks for is there, with the synchronisation state. *)
Definition synchronised {k} (status : body k → SyncStatus) (ready : string) (w : W)
    (key : ObjectKey) : Prop :=
  ∃ o, find w k key = Some o ∧ SynchronizationState (status (o_Body o)) = ready.

Definition jwker_ready (scope : Scope) (w : W) : Prop :=
  let sc := sp_SecurityConfig scope in
  txc_Enabled (sp_TokenXConfig scope) = true →
  synchronised (k := KJwker) jwker_Status JwkerSynchronizationStateReady w
    (sc_Namespace sc, TokenxNamer.JwkerName (newNameBase sc)).

Definition maskinporten_key (scope : Scope) : outcome ObjectKey :=
  let sc := sp_SecurityConfig scope in
  let? name := client_name (mpc_Type (sp_MaskinportenConfig scope))
                 (MaskinportenNamer.MaskinportenClientName (newNameBase sc))
                 (let? m := deref (spec_Maskinporten (sc_Spec sc)) in
                  let? r := deref (mp_ClientRef m) in Ok (rref_Name r)) in
  Ok (sc_Namespace sc, name).
Definition maskinporten_ready (scope : Scope) (w : W) : Prop :=
  mpc_Enabled (sp_MaskinportenConfig scope) = true →
  mpc_Type (sp_MaskinportenConfig scope) ≠ CfgSecretRef →
  ∀ key, maskinporten_key scope = Ok key →
  synchronised (k := KMaskinportenClient) mpc_Status MaskinportenClientSynchronizationStateReady w key.

Definition entraid_key (scope : Scope) : outcome ObjectKey :=
  let sc := sp_SecurityConfig scope in
  let? name := client_name (eic_Type (sp_EntraIdConfig scope))
                 (EntraIdNamer.AzureAdApplicationName (newNameBase sc))
                 (let? m := deref (spec_EntraID (sc_Spec sc)) in
                  let? r := deref (ei_ClientRef m) in Ok (rref_Name r)) in
  Ok (sc_Namespace sc, name).
Definition entraid_ready (scope : Scope) (w : W) : Prop :=
  eic_Enabled (sp_EntraIdConfig scope) = true →
  eic_Type (sp_EntraIdConfig scope) ≠ CfgSecretRef →
  ∀ key, entraid_key scope = Ok key →
  synchronised (k := KAzureAdApplication) aad_Status AzureAdApplicationSynchronizationStateReady w key.

(** The status names the Secret of the client under [key]. *)
Definition names_secret {k} (status : body k → SyncStatus) (w : W) (key : outcome ObjectKey)
    (name : string) : Prop :=
  ∀ key' o, key = Ok key' → find w k key' = Some o →
    name = SynchronizationSecretName (status (o_Body o)).

(** The secret names in a status are those of the clients of a scope. *)
Definition status_names (scope : Scope) (st : SecurityConfigStatus) (w : W) : Prop :=
  (mpc_Enabled (sp_MaskinportenConfig scope) = true →
   mpc_Type (sp_MaskinportenConfig scope) ≠ CfgSecretRef →
   names_secret (k := KMaskinportenClient) mpc_Status w (maskinporten_key scope) (st_MaskinportenSecretName st)) ∧
  (eic_Enabled (sp_EntraIdConfig scope) = true →
   eic_Type (sp_EntraIdConfig scope) ≠ CfgSecretRef →
   names_secret (k := KAzureAdApplication) aad_Status w (entraid_key scope) (st_EntraIdSecretName st)).

(** The mock controller reconciled an enabled client, and did nothing otherwise. *)
Definition mock_step (enabled : bool) (p : GoM unit) (w w' : W) : Prop :=
  if enabled then run p w = (Ok tt, w') else w' = w.
End Specification.

(** ** The checks of the status manager *)

Section Checks.
Context {W : Type} `{!Server W} `{Lib} `{!ServerLaws W}.

Lemma run_check_jwker scope w b s' w' :
  jwker_ready scope w → run (check_jwker scope) w = ((Ok b, s'), w') →
  w' = w ∧ b = false ∧ (s' = scope ∨ ∃ n, s' = upd_status scope (λ s, st_with_jwker s n)).
Proof.
  intros Hready. unfold check_jwker. destruct (txc_Enabled _) eqn:He.
  - destruct (Hready He) as (o & Hf & Hs). simpl.
    destruct (perform _ w) as [r w1] eqn:Hg. pose proof (get_reply _ _ _ _ _ Hg) as [-> Hr].
    cbn [fst snd]. destruct r as [o'|e|p]; [|done|done]. destruct Hr as [Hf' _].
    pose proof (eq_trans (eq_sym Hf) Hf') as [= <-]. intros [= <- <- <-].
    split_and!; [done|by rewrite bool_decide_true|right; by eexists].
  - intros [= <- <- <-]. auto.
Qed.

Lemma run_check_maskinporten scope w b s' w' :
  maskinporten_ready scope w → run (check_maskinporten scope) w = ((Ok b, s'), w') →
  w' = w ∧ b = false ∧ (∃ f, s' = upd_status scope f ∧
    ∀ s, st_EntraIdSecretName (f s) = st_EntraIdSecretName s) ∧
  (mpc_Enabled (sp_MaskinportenConfig scope) = true →
   mpc_Type (sp_MaskinportenConfig scope) ≠ CfgSecretRef →
   names_secret (k := KMaskinportenClient) mpc_Status w (maskinporten_key scope)
     (st_MaskinportenSecretName (sc_Status (sp_SecurityConfig s')))).
Proof.
  intros Hready. unfold check_maskinporten. destruct (mpc_Enabled _) eqn:He.
  2:{ intros [= <- <- <-]. split_and!; [done|done| |done].
      exists (λ s, s). split; [|done]. by destruct scope as [[] ? ? ? ? ? ? ? ? ?]. }
  case_bool_decide as Ht.
  { intros [= <- <- <-]. split_and!; [done|done|by eexists|done]. }
  specialize (Hready He Ht). unfold maskinporten_key in *.
  destruct (client_name _ _ _) as [name|e|p]; [|done|done].
  destruct (Hready _ eq_refl) as (o & Hf & Hs). simpl.
  destruct (perform _ w) as [r w1] eqn:Hg. pose proof (get_reply _ _ _ _ _ Hg) as [-> Hr].
  cbn [fst snd]. destruct r as [o'|e|p]; [|done|done]. destruct Hr as [Hf' _].
  pose proof (eq_trans (eq_sym Hf) Hf') as [= <-]. simpl. intros [= <- <- <-].
  split_and!; [done|by rewrite bool_decide_true|by eexists|].
  intros _ _ key' o' [= <-] Hf2. by pose proof (eq_trans (eq_sym Hf) Hf2) as [= <-].
Qed.

Lemma run_check_entraid scope w b s' w' :
  entraid_ready scope w → run (check_entraid scope) w = ((Ok b, s'), w') →
  w' = w ∧ b = false ∧ (∃ f, s' = upd_status scope f ∧
    ∀ s, st_MaskinportenSecretName (f s) = st_MaskinportenSecretName s) ∧
  (eic_Enabled (sp_EntraIdConfig scope) = true →
   eic_Type (sp_EntraIdConfig scope) ≠ CfgSecretRef →
   names_secret (k := KAzureAdApplication) aad_Status w (entraid_key scope)
     (st_EntraIdSecretName (sc_Status (sp_SecurityConfig s')))).
Proof.
  intros Hready. unfold check_entraid. destruct (eic_Enabled _) eqn:He.
  2:{ intros [= <- <- <-]. split_and!; [done|done| |done].
      exists (λ s, s). split; [|done]. by destruct scope as [[] ? ? ? ? ? ? ? ? ?]. }
  case_bool_decide as Ht.
  { intros [= <- <- <-]. split_and!; [done|done|by eexists|done]. }
  specialize (Hready He Ht). unfold entraid_key in *.
  destruct (client_name _ _ _) as [name|e|p]; [|done|done].
  destruct (Hready _ eq_refl) as (o & Hf & Hs). simpl.
  destruct (perform _ w) as [r w1] eqn:Hg. pose proof (get_reply _ _ _ _ _ Hg) as [-> Hr].
  cbn [fst snd]. destruct r as [o'|e|p]; [|done|done]. destruct Hr as [Hf' _].
  pose proof (eq_trans (eq_sym Hf) Hf') as [= <-]. simpl. intros [= <- <- <-].
  split_and!; [done|by rewrite bool_decide_true|by eexists|].
  intros _ _ key' o' [= <-] Hf2. by pose proof (eq_trans (eq_sym Hf) Hf2) as [= <-].
Qed.

Lemma set_audiences_upd scope :
  ∃ f, set_audiences scope = upd_status scope f ∧
    ∀ s, st_MaskinportenSecretName (f s) = st_MaskinportenSecretName s ∧
         st_EntraIdSecretName (f s) = st_EntraIdSecretName s.
Proof.
  unfold set_audiences. destruct (ipc_Enabled _), (anc_Enabled _).
  - by eexists (λ s, st_with_ansattporten (st_with_idporten s _) _).
  - by eexists.
  - by eexists.
  - exists (λ s, s). split; [|done]. by destruct scope as [[] ? ? ? ? ? ? ? ? ?].
Qed.

(** With every client synchronised, a state that is determined is [Ready]. *)
Lemma determined_ready scope crs w state s' w' :
  sp_InvalidConfig scope = false → GetErrors (Some scope) = [] →
  length (sp_Descendants scope) = CountNonNilResources crs →
  jwker_ready scope w → maskinporten_ready scope w → entraid_ready scope w →
  run (DetermineReconciliationState crs scope) w = ((Ok state, s'), w') →
  state = StateReady ∧ w' = w ∧ status_names scope (sc_Status (sp_SecurityConfig s')) w.
Proof.
  intros Hinv Herr Hlen Hj Hm He. unfold DetermineReconciliationState.
  rewrite Hinv, Herr, Hlen, Nat.eqb_refl. cbn [length Nat.ltb Nat.leb negb].
  unfold scope_bind. rewrite run_bind. cbv zeta.
  destruct (run (check_jwker scope) w) as [[r1 s1] w1] eqn:H1. cbn [fst snd].
  destruct r1 as [b1|e|p]; [|done|done]. apply run_check_jwker in H1 as (-> & -> & Hs1); [|done].
  assert (∃ f1, s1 = upd_status scope f1) as [f1 ->].
  { destruct Hs1 as [-> | [n ->]]; [|by eexists]. exists (λ s, s).
    by destruct scope as [[] ? ? ? ? ? ? ? ? ?]. }
  rewrite run_bind. cbv zeta.
  destruct (run (check_maskinporten _) w) as [[r2 s2] w2] eqn:H2. cbn [fst snd].
  destruct r2 as [b2|e|p]; [|done|done].
  apply run_check_maskinporten in H2 as (-> & -> & (f2 & -> & _) & Hn2); [|exact Hm].
  rewrite run_bind. cbv zeta.
  destruct (run (check_entraid _) w) as [[r3 s3] w3] eqn:H3. cbn [fst snd].
  destruct r3 as [b3|e|p]; [|done|done].
  apply run_check_entraid in H3 as (-> & -> & (f3 & -> & Hf3) & Hn3); [|exact He].
  set (s := upd_status (upd_status (upd_status scope f1) f2) f3) in *.
  destruct (set_audiences_upd s) as (f4 & Hs4 & Hf4). rewrite Hs4. simpl.
  intros [= <- <- <-]. split_and!; [done|done|]. split; simpl.
  - intros Hen Hty. rewrite (proj1 (Hf4 _)), Hf3. by apply Hn2.
  - intros Hen Hty. rewrite (proj2 (Hf4 _)). by apply Hn3.
Qed.
End Checks.

(** ** The clients that a reconciliation leaves *)

Section Clients.
Context {W : Type} `{!Server W} `{Lib} `{Globals}.

Definition maskinporten_managed (scope : Scope) : bool :=
  mpc_Enabled (sp_MaskinportenConfig scope) && is_managed (mpc_Type (sp_MaskinportenConfig scope)).
Definition entraid_managed (scope : Scope) : bool :=
  eic_Enabled (sp_EntraIdConfig scope) && is_managed (eic_Type (sp_EntraIdConfig scope)).

(** The keys of the clients that are created here. *)
Definition managed_client (scope : Scope) (name : nameBase → string) : ObjectKey :=
  (sc_Namespace (sp_SecurityConfig scope), name (newNameBase (sp_SecurityConfig scope))).

Lemma managed_maskinporten_key scope :
  maskinporten_managed scope = true →
  maskinporten_key scope = Ok (managed_client scope MaskinportenNamer.MaskinportenClientName).
Proof.
  unfold maskinporten_managed, maskinporten_key, is_managed. intros [_ Ht]%andb_prop.
  by destruct (mpc_Type (sp_MaskinportenConfig scope)).
Qed.
Lemma managed_entraid_key scope :
  entraid_managed scope = true →
  entraid_key scope = Ok (managed_client scope EntraIdNamer.AzureAdApplicationName).
Proof.
  unfold entraid_managed, entraid_key, is_managed. intros [_ Ht]%andb_prop.
  by destruct (eic_Type (sp_EntraIdConfig scope)).
Qed.

Lemma converged_clients scope rfs w :
  ControllerResources scope = Ok rfs → sp_InvalidConfig scope = false →
  Forall (resource_converged (sc_Meta (sp_SecurityConfig scope)) w) rfs →
  (maskinporten_managed scope = true → ∃ spec o,
     mpc_ClientSpec (sp_MaskinportenConfig scope) = Some spec ∧
     find w KMaskinportenClient
       (managed_client scope MaskinportenNamer.MaskinportenClientName) = Some o ∧
     mpc_Spec (o_Body o) = spec) ∧
  (entraid_managed scope = true → ∃ spec o,
     eic_ClientSpec (sp_EntraIdConfig scope) = Some spec ∧
     find w KAzureAdApplication
       (managed_client scope EntraIdNamer.AzureAdApplicationName) = Some o ∧
     aad_Spec (o_Body o) = spec).
Proof.
  unfold ControllerResources. intros Hc Hinv. rewrite Hinv in Hc.
  assert (∃ c3 c6, maskinportenClientControllerResource scope = Ok c3 ∧
            azureAdApplicationControllerResource scope = Ok c6 ∧ c3 ∈ rfs ∧ c6 ∈ rfs)
    as (c3 & c6 & H3 & H6 & Hin3 & Hin6).
  { repeat (apply outcome_bind_Ok in Hc as (? & ? & Hc)). injection Hc as <-.
    eexists _, _. split_and!; [eassumption|eassumption|set_solver|set_solver]. }
  rewrite Forall_forall. intros Hall. specialize (Hall c3 Hin3) as Hc3.
  specialize (Hall c6 Hin6) as Hc6. clear Hall Hin3 Hin6 Hc. split.
  - unfold maskinporten_managed. intros [He Ht]%andb_prop.
    unfold maskinportenClientControllerResource, maskinportenclient.GetDesired in H3.
    rewrite He, Ht in H3. simpl in H3.
    destruct (mpc_ClientSpec (sp_MaskinportenConfig scope)) as [spec|]; [|done].
    simpl in H3. injection H3 as <-. destruct Hc3 as (o & Hf & _ & Hs & _).
    exists spec, o. by split_and!.
  - unfold entraid_managed. intros [He Ht]%andb_prop.
    unfold azureAdApplicationControllerResource, azureadapplication.GetDesired in H6.
    rewrite He, Ht in H6. simpl in H6.
    destruct (eic_ClientSpec (sp_EntraIdConfig scope)) as [spec|]; [|done].
    simpl in H6. injection H6 as <-. destruct Hc6 as (o & Hf & _ & Hs & _).
    exists spec, o. by split_and!.
Qed.
End Clients.

(** What the operator of a client has done for a specification with this secret name:
    a Secret with the data, and the client synchronised with it. *)
Definition client_served {W} `{!Server W} {k} (status : body k → SyncStatus) (ready : string)
    (secret_name : string) (secretData : outcome (list (string * bytes))) (key : ObjectKey)
    (w w' : W) : Prop :=
  ∃ data secret o, secretData = Ok data ∧
    find w' KSecret (key.1, secret_name) = Some secret ∧
    has_data data (sec_Data (o_Body secret)) ∧
    find w' k key = Some o ∧ SynchronizationState (status (o_Body o)) = ready ∧
    SynchronizationSecretName (status (o_Body o)) = secret_name ∧
    ∀ k2 key2, (k2, key2) ≠ (KSecret, (key.1, secret_name)) → (k2, key2) ≠ (k, key) →
               find w' k2 key2 = find w k2 key2.

Section Served.
Context {W : Type} `{!Server W} `{Lib} `{!LibLaws} `{!ServerLaws W} `{!ObjectUpdateLaws W}.

Lemma mock_serves {k} (config : reconcileConfig k) status req (o : Object k) w w' :
  reporting config status → no_string_data w → find w k req = Some o →
  run (mock_Reconcile config req) w = (Ok tt, w') →
  client_served status mock_state_ready (rc_getSecretName config o) (rc_getSecretData config)
    req w w'.
Proof.
  intros Hc Hns Hf Hrun. apply (run_mock_Reconcile _ _ _ _ _ Hc Hns) in Hrun.
  unfold mock_done in Hrun. rewrite Hf in Hrun.
  destruct Hrun as (data & secret & o' & Hd & Hs & Hh & Hf' & Hst & _ & Hrest).
  exists data, secret, o'. split_and!; try done; by rewrite Hst.
Qed.

(** A step of the mock controller for a client that is there when it is enabled. *)
Lemma mock_step_serves {k} (config : reconcileConfig k) status enabled req w w' (P : body k → Prop) :
  reporting config status → no_string_data w →
  mock_step enabled (mock_Reconcile config req) w w' →
  (enabled = true → ∃ o, find w k req = Some o ∧ P (o_Body o)) →
  (enabled = true → ∃ o, P (o_Body o) ∧
     client_served status mock_state_ready (rc_getSecretName config o) (rc_getSecretData config)
       req w w') ∧
  ∀ k2 key2, k2 ≠ KSecret → k2 ≠ k → find w' k2 key2 = find w k2 key2.
Proof.
  intros Hc Hns Hstep Hclient. unfold mock_step in Hstep. destruct enabled; [|by subst w'].
  destruct (Hclient eq_refl) as (o & Hf & HP).
  pose proof (mock_serves _ _ _ _ _ _ Hc Hns Hf Hstep) as Hserved. split; [by eauto|].
  destruct Hserved as (data & secret & o' & _ & _ & _ & _ & _ & _ & Hrest).
  intros k2 key2 H1 H2. apply Hrest; congruence.
Qed.

Lemma served_synchronised {k} (status : body k → SyncStatus) ready name data key w w' :
  client_served status ready name data key w w' → synchronised status ready w' key.
Proof. intros (d & secret & o & _ & _ & _ & Hf & Hs & _). by exists o. Qed.

Lemma served_name {k} (status : body k → SyncStatus) ready name data key w w' name' w2 key2 :
  client_served status ready name data key w w' → find w2 k key = find w' k key →
  key2 = Ok key → names_secret status w2 key2 name' → name' = name.
Proof.
  intros (d & secret & o & _ & _ & _ & Hf & _ & Hn & _) Hw -> Hnames. rewrite <-Hn.
  apply (Hnames key o eq_refl). by rewrite Hw.
Qed.
End Served.

Lemma managed_not_ref t : is_managed t = true → t ≠ CfgSecretRef.
Proof. by destruct t. Qed.

(** Scopes that differ in their descendants have the same clients. *)
Lemma same_clients scope s1 :
  same_but_descendants scope s1 →
  sp_InvalidConfig s1 = sp_InvalidConfig scope ∧
  sp_MaskinportenConfig s1 = sp_MaskinportenConfig scope ∧
  sp_EntraIdConfig s1 = sp_EntraIdConfig scope ∧
  maskinporten_key s1 = maskinporten_key scope ∧ entraid_key s1 = entraid_key scope.
Proof.
  intros Hs. pose proof (eq_sym Hs) as Hs'. split_and!.
  - exact (f_equal sp_InvalidConfig Hs').
  - exact (f_equal sp_MaskinportenConfig Hs').
  - exact (f_equal sp_EntraIdConfig Hs').
  - exact (f_equal maskinporten_key Hs').
  - exact (f_equal entraid_key Hs').
Qed.

(** ** The theorem *)

Section Liveness.
Context {W : Type} `{!Server W} `{Lib} `{!LibLaws} `{!ServerLaws W} `{!ObjectUpdateLaws W}.
Context `{Globals}.

Lemma clients_ready environment scope rfs w0 result s1 w1 w2 w3 state s2 w4 :
  let m := sp_MaskinportenConfig scope in
  let e := sp_EntraIdConfig scope in
  let mkey := managed_client scope MaskinportenNamer.MaskinportenClientName in
  let ekey := managed_client scope EntraIdNamer.AzureAdApplicationName in
  ControllerResources scope = Ok rfs → sp_InvalidConfig scope = false →
  sp_Descendants scope = [] →
  (mpc_Enabled m = true → is_managed (mpc_Type m) = true) →
  (eic_Enabled e = true → is_managed (eic_Type e) = true) →
  run (doReconcile rfs scope) w0 = ((Ok result, s1), w1) →
  Forall honest (trace (doReconcile rfs scope) w0) →
  no_string_data w1 →
  mock_step (mpc_Enabled m) (mock_Reconcile (maskinportenReconciler environment) mkey) w1 w2 →
  no_string_data w2 →
  mock_step (eic_Enabled e) (mock_Reconcile (azureAdReconciler environment) ekey) w2 w3 →
  jwker_ready scope w3 →
  run (DetermineReconciliationState rfs s1) w3 = ((Ok state, s2), w4) →
  let st := sc_Status (sp_SecurityConfig s2) in
  state = StateReady ∧
  (mpc_Enabled m = true → ∃ spec, mpc_ClientSpec m = Some spec ∧
     st_MaskinportenSecretName st = nmc_SecretName spec ∧
     client_served (k := KMaskinportenClient) mpc_Status mock_state_ready (nmc_SecretName spec)
       (getMaskinportenSecretData environment) mkey w1 w2) ∧
  (eic_Enabled e = true → ∃ spec, eic_ClientSpec e = Some spec ∧
     st_EntraIdSecretName st = naa_SecretName spec ∧
     client_served (k := KAzureAdApplication) aad_Status mock_state_ready (naa_SecretName spec)
       (getEntraIdSecretData environment) ekey w2 w3).
Proof.
  intros m e mkey ekey Hc Hinv Hds Hm He Hrun Hhonest Hns1 Hmock Hns2 Hazure Hjwker Hdet st.
  destruct (doReconcile_outcome scope rfs _ _ Hc Hds (trace_steps _ w0) Hhonest) as [Hsame Hrep].
  destruct (doReconcile_runs scope rfs w0 _ _ Hc Hrun) as [_ Hconv].
  rewrite Hrun in Hsame, Hrep. destruct Hrep as (Herr & _ & _ & Hlen). cbn [fst snd] in *.
  destruct (converged_clients _ _ _ Hc Hinv (Hconv eq_refl)) as [Hm1 He1].
  assert (mpc_Enabled m = true → maskinporten_managed scope = true) as Hmm
    by (intros Hen; apply andb_true_intro; auto).
  assert (eic_Enabled e = true → entraid_managed scope = true) as Hem
    by (intros Hen; apply andb_true_intro; auto).
  destruct (mock_step_serves _ _ _ _ _ _ (λ b : body KMaskinportenClient, mpc_ClientSpec m = Some (mpc_Spec b))
    (maskinporten_reporting environment) Hns1 Hmock) as [Hserved_m Hkeep2].
  { intros (spec & o & Hspec & Hf & <-)%Hmm%Hm1. by exists o. }
  destruct (mock_step_serves _ _ _ _ _ _ (λ b : body KAzureAdApplication, eic_ClientSpec e = Some (aad_Spec b))
    (azure_reporting environment) Hns2 Hazure) as [Hserved_e Hkeep3].
  { intros (spec & o & Hspec & Hf & <-)%Hem%He1. exists o. by rewrite Hkeep2. }
  destruct (same_clients _ _ Hsame) as (Hinv1 & Hsm & Hse & Hkm & Hke).
  destruct (determined_ready s1 rfs w3 state s2 w4) as (Hstate & -> & Hnames_m & Hnames_e);
    [congruence|done|done|..|exact Hdet|].
  { by revert Hjwker; change (jwker_ready (sp_with_descendants scope []) w3 → jwker_ready s1 w3);
      rewrite Hsame. }
  { unfold maskinporten_ready. rewrite Hsm, Hkm. intros Hen _ key Hkey.
    rewrite managed_maskinporten_key in Hkey by auto. injection Hkey as <-.
    destruct (Hserved_m Hen) as (o & _ & Hs). destruct (served_synchronised _ _ _ _ _ _ _ Hs)
      as (o' & Hf & Hsync). exists o'. by rewrite Hkeep3. }
  { unfold entraid_ready. rewrite Hse, Hke. intros Hen _ key Hkey.
    rewrite managed_entraid_key in Hkey by auto. injection Hkey as <-.
    destruct (Hserved_e Hen) as (o & _ & Hs). by eapply served_synchronised. }
  rewrite Hsm, Hkm in Hnames_m. rewrite Hse, Hke in Hnames_e. split_and!; [done|..]; intros Hen.
  - destruct (Hserved_m Hen) as (o & Hspec & Hs). exists (mpc_Spec (o_Body o)).
    split_and!; [done| |exact Hs]. eapply (served_name _ _ _ _ _ _ _ _ w3); [exact Hs|by apply Hkeep3|..].
    + by apply managed_maskinporten_key, Hmm.
    + by apply Hnames_m, managed_not_ref, Hm.
  - destruct (Hserved_e Hen) as (o & Hspec & Hs). exists (aad_Spec (o_Body o)).
    split_and!; [done| |exact Hs]. eapply (served_name _ _ _ _ _ _ _ _ w3); [exact Hs|done|..].
    + by apply managed_entraid_key, Hem.
    + by apply Hnames_e, managed_not_ref, He.
Qed.

(** After a reconciliation without an error, once the operator of the clients has
    reconciled the clients that it left (and TokenX has rolled out the Jwker, if there is
    one), the state that the status manager determines is [Ready], the status names the
    Secrets that the clients were created with, and these Secrets hold the clients'
    data. *)
Theorem clients_become_ready environment scope rfs w0 result s1 w1 w2 w3 state s2 w4 :
  let m := sp_MaskinportenConfig scope in
  let e := sp_EntraIdConfig scope in
  let mkey := managed_client scope MaskinportenNamer.MaskinportenClientName in
  let ekey := managed_client scope EntraIdNamer.AzureAdApplicationName in
  ControllerResources scope = Ok rfs → sp_InvalidConfig scope = false →
  sp_Descendants scope = [] →
  (mpc_Enabled m = true → is_managed (mpc_Type m) = true) →
  (eic_Enabled e = true → is_managed (eic_Type e) = true) →
  run (doReconcile rfs scope) w0 = ((Ok result, s1), w1) →
  Forall honest (trace (doReconcile rfs scope) w0) →
  no_string_data w1 →
  mock_step (mpc_Enabled m) (mock_Reconcile (maskinportenReconciler environment) mkey) w1 w2 →
  no_string_data w2 →
  mock_step (eic_Enabled e) (mock_Reconcile (azureAdReconciler environment) ekey) w2 w3 →
  jwker_ready scope w3 →
  run (DetermineReconciliationState rfs s1) w3 = ((Ok state, s2), w4) →
  let st := sc_Status (sp_SecurityConfig s2) in
  state = StateReady ∧
  (mpc_Enabled m = true → ∃ spec, mpc_ClientSpec m = Some spec ∧
     st_MaskinportenSecretName st = nmc_SecretName spec ∧
     client_served (k := KMaskinportenClient) mpc_Status mock_state_ready (nmc_SecretName spec)
       (getMaskinportenSecretData environment) mkey w1 w2) ∧
  (eic_Enabled e = true → ∃ spec, eic_ClientSpec e = Some spec ∧
     st_EntraIdSecretName st = naa_SecretName spec ∧
     client_served (k := KAzureAdApplication) aad_Status mock_state_ready (naa_SecretName spec)
       (getEntraIdSecretData environment) ekey w2 w3).
Proof. apply clients_ready. Qed.
End Liveness.

(** ** Applications *)

(** Maskinporten with a client of its own, and nothing else. *)
Definition sample_client_scope : Scope :=
  {| sp_SecurityConfig := sample_sc;
     sp_TokenXConfig := {| txc_Enabled := false; txc_ApplicationRef := "app";
       txc_JwkerSpec := {| js_SecretName := ""; js_AccessPolicy := None |} |};
     sp_MaskinportenConfig := {| mpc_Enabled := true; mpc_Type := CfgInlineClient;
       mpc_ClientSpec := Some {| nmc_ClientName := "app";
         nmc_Scopes := {| nms_ConsumedScopes := []; nms_ExposedScopes := [] |};
         nmc_SecretName := "app-maskinporten" |};
       mpc_ClientRef := None; mpc_SecretData := None |};
     sp_EntraIdConfig := sp_EntraIdConfig sample_scope;
     sp_IdPortenConfig := {| ipc_Enabled := false; ipc_Audience := "" |};
     sp_AnsattportenConfig := sp_AnsattportenConfig sample_scope;
     sp_OpaConfig := sp_OpaConfig sample_scope; sp_Descendants := []; sp_InvalidConfig := false;
     sp_ValidationErrorMessage := None |}.
Definition sample_client_resources : list ControllerResource :=
  match ControllerResources sample_client_scope with Ok l => l | _ => [] end.

(** The three runs. *)
Abbreviation sample_run1 :=
  (run (doReconcile sample_client_resources sample_client_scope) empty_store) (only parsing).
Abbreviation sample_run2 :=
  (run (mock_Reconcile (maskinportenReconciler sample_environment)
         (managed_client sample_client_scope MaskinportenNamer.MaskinportenClientName))
    sample_run1.2) (only parsing).
Abbreviation sample_run3 :=
  (run (DetermineReconciliationState sample_client_resources sample_run1.1.2) sample_run2.2)
  (only parsing).

(** Before the operator has run, the status waits for it. *)
Example sample_waits :
  (run (DetermineReconciliationState sample_client_resources sample_run1.1.2)
     sample_run1.2).1.1 = Ok StateWaitingForMaskinportenClient.
Proof. vm_compute. reflexivity. Qed.

Lemma run_ok {A W : Type} (x : outcome A * W) o : x.1 = o → x = (o, x.2).
Proof. by destruct x; simpl; intros ->. Qed.

Lemma resources_eq (o : outcome (list ControllerResource)) :
  is_ok o = true → o = Ok (match o with Ok l => l | _ => [] end).
Proof. by destruct o. Qed.

Lemma run_eq {A S W : Type} (x : outcome A * S * W) o : x.1.1 = o → x = ((o, x.1.2), x.2).
Proof. by destruct x as [[]]; simpl; intros ->. Qed.

Lemma store_no_string_data (s : Store) :
  map_to_list (s_objs s KSecret) = [] ∨
  (∃ key o, map_to_list (s_objs s KSecret) = [(key, o)] ∧ sec_StringData (o_Body o) = ∅) →
  no_string_data s.
Proof.
  intros Hs key secret. simpl. unfold lookup_obj.
  intros (o & Hl%elem_of_map_to_list & Ho)%bind_Some. case_decide; [|done]. simplify_eq.
  destruct Hs as [Hs|(key' & o' & Hs & Hd)]; rewrite Hs in Hl.
  - by apply not_elem_of_nil in Hl.
  - apply list_elem_of_singleton in Hl. by injection Hl as _ <-.
Qed.

Lemma sample_run1_eq :
  run (doReconcile sample_client_resources sample_client_scope) empty_store =
  ((Ok zero_result, sample_run1.1.2), sample_run1.2).
Proof. apply run_eq. vm_compute. reflexivity. Qed.
Lemma sample_run2_eq :
  run (mock_Reconcile (maskinportenReconciler sample_environment)
         (managed_client sample_client_scope MaskinportenNamer.MaskinportenClientName))
    sample_run1.2 = (Ok tt, sample_run2.2).
Proof. apply run_ok. vm_compute. reflexivity. Qed.
Lemma sample_run3_eq :
  run (DetermineReconciliationState sample_client_resources sample_run1.1.2) sample_run2.2 =
  ((Ok StateReady, sample_run3.1.2), sample_run3.2).
Proof. apply run_eq. vm_compute. reflexivity. Qed.

Lemma clients_become_ready_witness :
  sample_run3.1.1 = Ok StateReady ∧
  st_MaskinportenSecretName (sc_Status (sp_SecurityConfig sample_run3.1.2)) = "app-maskinporten".
Proof.
  destruct (clients_become_ready sample_environment sample_client_scope sample_client_resources
    empty_store zero_result sample_run1.1.2 sample_run1.2 sample_run2.2 sample_run2.2
    StateReady sample_run3.1.2 sample_run3.2) as (_ & Hm & _).
  - exact (resources_eq (ControllerResources sample_client_scope) eq_refl).
  - reflexivity.
  - reflexivity.
  - reflexivity.
  - discriminate.
  - exact sample_run1_eq.
  - apply honestb_honest. vm_compute. reflexivity.
  - apply store_no_string_data. left. vm_compute. reflexivity.
  - exact sample_run2_eq.
  - apply store_no_string_data. right. eexists _, _. split; vm_compute; reflexivity.
  - reflexivity.
  - discriminate.
  - exact sample_run3_eq.
  - destruct (Hm eq_refl) as (spec & Hspec & Hname & _). split; [vm_compute; reflexivity|].
    injection Hspec as <-. exact Hname.
Defined.
