(* ===== verification/Credentials.v ===== *)
(** * From a SecurityConfig to the credentials of a pod

    The last link of the chain that [EndToEnd] starts: the pod webhook gives the sidecar of a
    pod the Secrets that the status of its SecurityConfig names, and these are the Secrets
    that hold the credentials of the clients.  [Resolver], [Controller], [MockController],
    [Status] and [PodWebhook] are run one after the other. *)
From stdpp Require Import base gmap strings list.
From Stdlib Require Import ZArith Ascii Lia.
From S2P Require Import Prelude GoStrings Kube Api Model Cluster ProgTheory RefServer Config Naming State Utilities Reconciliation Generators Resources Samples Resolver Events Status Controller Sidecars PodWebhook MockController EndToEnd.
Open Scope go_scope.

(** ** What is enabled stays enabled *)

Section Resolved.
Context `{Lib} `{Globals} (sc : SecurityConfig).

Lemma maskinporten_as_specified :
  yields (λ m, mpc_Enabled m = enabled mp_Enabled (spec_Maskinporten (sc_Spec sc)))
    (ResolveMaskinportenConfig sc).
Proof.
  unfold ResolveMaskinportenConfig.
  destruct (spec_Maskinporten _) as [spec|]; [|by apply yields_Ok].
  simpl. destruct (mp_Enabled spec); [|by apply yields_Ok]. cbn [negb].
  apply yields_bind_any. intros [| | | |n].
  - apply yields_bind_any. intros client. by apply yields_Ok.
  - by apply yields_Ok.
  - apply yields_bind_any. intros r. apply yields_bind_any. intros data. by apply yields_Ok.
  - by apply yields_Ok.
  - apply yields_Err.
Qed.

Lemma entraid_as_specified :
  yields (λ e, eic_Enabled e = enabled ei_Enabled (spec_EntraID (sc_Spec sc)))
    (ResolveEntraIdConfig sc).
Proof.
  unfold ResolveEntraIdConfig.
  destruct (spec_EntraID _) as [spec|]; [|by apply yields_Ok].
  simpl. destruct (ei_Enabled spec); [|by apply yields_Ok]. cbn [negb].
  apply yields_bind_any. intros [| | | |n].
  - apply yields_bind_any. intros client. by apply yields_Ok.
  - by apply yields_Ok.
  - apply yields_bind_any. intros r. apply yields_bind_any. intros data. by apply yields_Ok.
  - by apply yields_Ok.
  - apply yields_Err.
Qed.

(** A scope that was resolved enables what the spec enables. *)
Definition as_specified (scope : Scope) : Prop :=
  sp_SecurityConfig scope = sc ∧ sp_InvalidConfig scope = false ∧ sp_Descendants scope = [] ∧
  mpc_Enabled (sp_MaskinportenConfig scope) =
    enabled mp_Enabled (spec_Maskinporten (sc_Spec sc)) ∧
  eic_Enabled (sp_EntraIdConfig scope) = enabled ei_Enabled (spec_EntraID (sc_Spec sc)).

Lemma resolved_as_specified : yields as_specified (ResolveSecurityConfig sc).
Proof.
  unfold ResolveSecurityConfig.
  apply yields_bind_any. intros tokenx.
  eapply yields_bind; [apply yields_on_err, maskinporten_as_specified|]. intros m Hm.
  eapply yields_bind; [apply yields_on_err, entraid_as_specified|]. intros e He.
  do 3 (apply yields_bind_any; intros ?). apply yields_Ok. unfold as_specified. simpl.
  by rewrite Hm, He.
Qed.
End Resolved.

(** ** What the sidecar reads *)

Lemma items_append {A : Type} (s : slice A) l : items (append_slice s l) = items s ++ l.
Proof. destruct l; simpl; [by rewrite app_nil_r|done]. Qed.

(** The sidecar's environment has the keys of the Secrets that the status names. *)
Lemma texas_environment `{Globals} `{Lib} sc c :
  GetTexasContainer sc = Ok c →
  ctr_Name c = TexasInitContainerName ∧
  (enabled mp_Enabled (spec_Maskinporten (sc_Spec sc)) = true →
   env_from_secret (st_MaskinportenSecretName (sc_Status sc)) ∈ items (ctr_EnvFrom c)) ∧
  (enabled ei_Enabled (spec_EntraID (sc_Spec sc)) = true →
   env_from_secret (st_EntraIdSecretName (sc_Status sc)) ∈ items (ctr_EnvFrom c)).
Proof.
  unfold GetTexasContainer. intros (vars & Hv & Hc)%outcome_bind_Ok.
  apply outcome_bind_Ok in Hc as (res & _ & Hc). cbv zeta in Hc. injection Hc as <-.
  split; [done|]. simpl ctr_EnvFrom. rewrite items_append.
  assert (∃ l, tev_EnvFromSources vars = l ++
    (if enabled mp_Enabled (spec_Maskinporten (sc_Spec sc))
     then [env_from_secret (st_MaskinportenSecretName (sc_Status sc))] else []) ++
    (if enabled ei_Enabled (spec_EntraID (sc_Spec sc))
     then [env_from_secret (st_EntraIdSecretName (sc_Status sc))] else [])) as [l ->].
  { unfold GetTexasEnvVars in Hv. cbv zeta in Hv.
    apply outcome_bind_Ok in Hv as (v1 & _ & Hv). apply outcome_bind_Ok in Hv as (v2 & _ & Hv).
    injection Hv as <-. by eexists. }
  split; intros ->; rewrite !elem_of_app; [right; right; left|do 3 right]; by left.
Qed.

(** ** The theorem *)

(** The environment of [c] has the keys of a Secret in [ns] that holds [data]. *)
Definition reads_secret {W} `{!Server W} (w : W) (ns : string) (c : Container) (name : string)
    (data : outcome (list (string * bytes))) : Prop :=
  env_from_secret name ∈ items (ctr_EnvFrom c) ∧
  ∃ d secret, data = Ok d ∧ find w KSecret (ns, name) = Some secret ∧
              has_data d (sec_Data (o_Body secret)).

(** The SecurityConfig has this spec and names these Secrets. *)
Definition shows_status (sc : SecurityConfig) (spec : SecurityConfigSpec)
    (st : SecurityConfigStatus) : Prop :=
  sc_Spec sc = spec ∧ st_MaskinportenSecretName (sc_Status sc) = st_MaskinportenSecretName st ∧
  st_EntraIdSecretName (sc_Status sc) = st_EntraIdSecretName st.

Section Credentials.
Context {W : Type} `{!Server W} `{Lib} `{!LibLaws} `{!ServerLaws W} `{!ObjectUpdateLaws W}.
Context `{Globals}.

Lemma served_secret {k} (status : body k → SyncStatus) ready name data key (w w' : W) :
  client_served status ready name data key w w' →
  ∃ d secret, data = Ok d ∧ find w' KSecret (key.1, name) = Some secret ∧
              has_data d (sec_Data (o_Body secret)).
Proof. intros (d & secret & o & Hd & Hf & Hh & _). eauto. Qed.

(** A step for another client keeps the Secrets of other names. *)
Lemma served_keeps {k} (status : body k → SyncStatus) ready name data key (w w' : W) name' ns :
  client_served status ready name data key w w' → k ≠ KSecret → name' ≠ name →
  find w' KSecret (ns, name') = find w KSecret (ns, name').
Proof.
  intros (d & secret & o & _ & _ & _ & _ & _ & _ & Hrest) Hk Hn. apply Hrest; congruence.
Qed.

(** C2: take a SecurityConfig whose clients are created for it, and run all the parts: it is
    resolved, reconciled without an error, the operator reconciles the clients, the status is
    determined; then a pod of its application that asks for Texas passes the mutating
    webhook, which is given the SecurityConfig with this status.  Then the state is Ready,
    and the sidecar that the pod gets reads the Secrets of exactly the clients that the spec enables, and the Secrets are
    there, in the pod's namespace, with the clients' data. *)
Theorem pod_reads_client_secrets environment sc resolution scope rfs w0 result s1 w1 w2 w3
    state s2 w4 hc pod h pod' value services :
  let m := sp_MaskinportenConfig scope in
  let e := sp_EntraIdConfig scope in
  let ns := m_Namespace (pod_Meta pod) in
  steps (ResolveSecurityConfig sc) resolution (Ret (Ok scope)) →
  (mpc_Enabled m = true → is_managed (mpc_Type m) = true) →
  (eic_Enabled e = true → is_managed (eic_Type e) = true) →
  (∀ sm se, mpc_ClientSpec m = Some sm → eic_ClientSpec e = Some se →
            nmc_SecretName sm ≠ naa_SecretName se) →
  ControllerResources scope = Ok rfs →
  run (doReconcile rfs scope) w0 = ((Ok result, s1), w1) →
  Forall honest (trace (doReconcile rfs scope) w0) →
  no_string_data w1 →
  mock_step (mpc_Enabled m) (mock_Reconcile (maskinportenReconciler environment)
    (managed_client scope MaskinportenNamer.MaskinportenClientName)) w1 w2 →
  no_string_data w2 →
  mock_step (eic_Enabled e) (mock_Reconcile (azureAdReconciler environment)
    (managed_client scope EntraIdNamer.AzureAdApplicationName)) w2 w3 →
  jwker_ready scope w3 →
  run (DetermineReconciliationState rfs s1) w3 = ((Ok state, s2), w4) →
  ns = sc_Namespace sc →
  steps (Default hc pod) h (Ret (Ok tt, pod')) → eligible pod h →
  annotation pod AccesseratorServicesAnnotation = Some value →
  ParseAccesseratorServices value = Ok services → Texas ∈ services →
  (∀ sc', found_for pod h sc' →
    shows_status sc' (sc_Spec sc) (sc_Status (sp_SecurityConfig s2))) →
  state = StateReady ∧
  ∃ texas, texas ∈ pod_InitContainers pod' ∧ ctr_Name texas = TexasInitContainerName ∧
    (enabled mp_Enabled (spec_Maskinporten (sc_Spec sc)) = true →
     ∃ name, reads_secret w3 ns texas name (getMaskinportenSecretData environment)) ∧
    (enabled ei_Enabled (spec_EntraID (sc_Spec sc)) = true →
     ∃ name, reads_secret w3 ns texas name (getEntraIdSecretData environment)).
Proof.
  intros m e ns Hres Hm He Hdiff Hc Hrun Hhonest Hns1 Hm1 Hns2 Hm2 Hj Hdet Hns Hpod Hel Hval
    Hparse Htexas Hshows.
  pose proof (yields_steps _ _ _ _ (resolved_as_specified sc) Hres) as (Hsc & Hinv & Hds & Hme & Hee).
  destruct (clients_ready _ _ _ _ _ _ _ _ _ _ _ _ Hc Hinv Hds Hm He Hrun Hhonest Hns1 Hm1 Hns2
              Hm2 Hj Hdet) as (Hready & Hmp & Hei).
  split; [exact Hready|].
  destruct (Default_injected _ _ _ _ _ Hpod Hel Hval)
    as (sc' & services' & sidecars & Hf & Hp & Hsides & Hi & _).
  rewrite Hparse in Hp. injection Hp as <-.
  apply Hshows in Hf as (Hspec & Hsm & Hse).
  apply list_elem_of_lookup in Htexas as [i Hlook].
  destruct (Forall2_lookup_l _ _ _ _ _ Hsides Hlook) as (texas & Htx & Hcont).
  apply texas_environment in Hcont as (Hname & Hread_m & Hread_e).
  rewrite Hspec, ?Hsm, ?Hse in *. exists texas. split; [|split; [done|split]].
  - rewrite Hi. apply elem_of_app. right. by eapply list_elem_of_lookup_2.
  - intros Hen. destruct (Hmp (eq_trans Hme Hen)) as (sm & Hsm' & Hnm & Hserved).
    exists (nmc_SecretName sm). rewrite Hnm in Hread_m. split; [by apply Hread_m|].
    destruct (served_secret _ _ _ _ _ _ _ Hserved) as (d & secret & Hd & Hfs & Hh).
    exists d, secret. split_and!; [done| |done].
    unfold managed_client in Hfs. simpl in Hfs. rewrite Hsc, <-Hns in Hfs.
    destruct (eic_Enabled e) eqn:Hene; [|by simpl in Hm2; subst w3].
    destruct (Hei Hene) as (se & Hse' & _ & Hserved_e).
    rewrite <-Hfs. eapply served_keeps; [exact Hserved_e|done|by apply Hdiff].
  - intros Hen. destruct (Hei (eq_trans Hee Hen)) as (se & Hse' & Hnm & Hserved).
    exists (naa_SecretName se). rewrite Hnm in Hread_e. split; [by apply Hread_e|].
    destruct (served_secret _ _ _ _ _ _ _ Hserved) as (d & secret & Hd & Hfs & Hh).
    exists d, secret. unfold managed_client in Hfs. simpl in Hfs. rewrite Hsc, <-Hns in Hfs. done.
Qed.
End Credentials.

(** ** Applications *)

(** Maskinporten is enabled and nothing is said about its client, which is then created. *)
Definition sample_mp_sc : SecurityConfig :=
  {| sc_Kind := "SecurityConfig"; sc_Meta := sample_meta;
     sc_Spec := {| spec_Tokenx := None;
       spec_Maskinporten := Some {| mp_Enabled := true; mp_Client := None; mp_ClientRef := None;
                                    mp_SecretRef := None |};
       spec_EntraID := None; spec_Idporten := None; spec_Ansattporten := None; spec_Opa := None;
       spec_ApplicationRef := "app" |};
     sc_Status := zero_status |}.
Definition sample_mp_scope : Scope :=
  match ResolveSecurityConfig sample_mp_sc with Ret (Ok s) => s | _ => sample_scope end.
Definition sample_mp_resources : list ControllerResource :=
  match ControllerResources sample_mp_scope with Ok l => l | _ => [] end.

(** The runs one after the other, as in [EndToEnd]. *)
Abbreviation mp_run1 :=
  (run (doReconcile sample_mp_resources sample_mp_scope) empty_store) (only parsing).
Abbreviation mp_run2 :=
  (run (mock_Reconcile (maskinportenReconciler sample_environment)
         (managed_client sample_mp_scope MaskinportenNamer.MaskinportenClientName)) mp_run1.2)
  (only parsing).
Abbreviation mp_run3 :=
  (run (DetermineReconciliationState sample_mp_resources mp_run1.1.2) mp_run2.2) (only parsing).

(** The SecurityConfig with its status, in a store with the namespace. *)
Definition sample_mp_name : string := MaskinportenNamer.SecretName (newNameBase sample_mp_sc).
Definition sample_mp_ready : SecurityConfig :=
  sc_with_status sample_mp_sc
    (st_with_phase (st_with_maskinporten zero_status sample_mp_name) PhaseReady "ready" true).
Definition pod_store : Store := put_sc (put empty_store sample_namespace) sample_mp_ready.
Definition pod_trace : history := trace (Default true sample_pod) pod_store.
Definition sample_mp_pod : Pod := (run (Default true sample_pod) pod_store).1.2.

Lemma pod_trace_eq :
  pod_trace = [Ev (OpGet KNamespace ("", "team")) (Ok sample_namespace);
               Ev (OpListSecurityConfigs "team") (Ok [sample_mp_ready])].
Proof. vm_compute. reflexivity. Qed.

Lemma sample_mp_run : steps (Default true sample_pod) pod_trace (Ret (Ok tt, sample_mp_pod)).
Proof.
  pose proof (trace_steps (Default true sample_pod) pod_store) as Hs.
  assert ((run (Default true sample_pod) pod_store).1 = (Ok tt, sample_mp_pod)) as Hr.
  { unfold sample_mp_pod. by rewrite (surjective_pairing (run _ _).1). }
  by rewrite Hr in Hs.
Qed.

Lemma sample_mp_eligible : eligible sample_pod pod_trace.
Proof.
  split_and!.
  - exists "app". by vm_compute.
  - exists AccesseratorServicesAnnotation. split; [exists "Texas, opa"; by vm_compute|by vm_compute].
  - rewrite pod_trace_eq. by vm_compute.
Qed.

Lemma sample_mp_found sc' :
  found_for sample_pod pod_trace sc' → sc' = sample_mp_ready.
Proof.
  rewrite pod_trace_eq. intros (e & app & He & Happ & Hf & _).
  assert (app = "app") as -> by (vm_compute in Happ; congruence).
  apply elem_of_cons in He as [->|He]; [done|]. apply list_elem_of_singleton in He as ->.
  vm_compute in Hf. by injection Hf as <-.
Qed.

(** The three runs end as expected. *)
Lemma mp_run1_eq :
  run (doReconcile sample_mp_resources sample_mp_scope) empty_store =
  ((Ok zero_result, mp_run1.1.2), mp_run1.2).
Proof. apply run_eq. vm_compute. reflexivity. Qed.
Lemma mp_run2_eq :
  run (mock_Reconcile (maskinportenReconciler sample_environment)
         (managed_client sample_mp_scope MaskinportenNamer.MaskinportenClientName)) mp_run1.2 =
  (Ok tt, mp_run2.2).
Proof. apply run_ok. vm_compute. reflexivity. Qed.
Lemma mp_run3_eq :
  run (DetermineReconciliationState sample_mp_resources mp_run1.1.2) mp_run2.2 =
  ((Ok StateReady, mp_run3.1.2), mp_run3.2).
Proof. apply run_eq. vm_compute. reflexivity. Qed.
Lemma mp_run3_status :
  st_MaskinportenSecretName (sc_Status (sp_SecurityConfig mp_run3.1.2)) = sample_mp_name ∧
  st_EntraIdSecretName (sc_Status (sp_SecurityConfig mp_run3.1.2)) = "".
Proof. split; vm_compute; reflexivity. Qed.

Lemma pod_reads_client_secrets_witness :
  ∃ texas name, texas ∈ pod_InitContainers sample_mp_pod ∧
    env_from_secret name ∈ items (ctr_EnvFrom texas) ∧
    is_Some (find mp_run2.2 KSecret ("team", name)).
Proof.
  destruct (pod_reads_client_secrets sample_environment sample_mp_sc [] sample_mp_scope
    sample_mp_resources empty_store zero_result mp_run1.1.2 mp_run1.2 mp_run2.2 mp_run2.2
    StateReady mp_run3.1.2 mp_run3.2 true sample_pod pod_trace sample_mp_pod "Texas, opa"
    [Texas; Opa]) as (_ & texas & Hin & _ & Hm & _).
  - apply steps_refl.
  - reflexivity.
  - discriminate.
  - discriminate.
  - exact (resources_eq (ControllerResources sample_mp_scope) eq_refl).
  - exact mp_run1_eq.
  - apply honestb_honest. vm_compute. reflexivity.
  - apply store_no_string_data. left. vm_compute. reflexivity.
  - exact mp_run2_eq.
  - apply store_no_string_data. right. eexists _, _. split; vm_compute; reflexivity.
  - reflexivity.
  - discriminate.
  - exact mp_run3_eq.
  - reflexivity.
  - exact sample_mp_run.
  - exact sample_mp_eligible.
  - vm_compute. reflexivity.
  - vm_compute. reflexivity.
  - left.
  - intros sc' ->%sample_mp_found. destruct mp_run3_status as [H1 H2].
    split; [reflexivity|]. rewrite H1, H2. split; reflexivity.
  - destruct (Hm eq_refl) as (name & Hread & d & secret & _ & Hf & _).
    exists texas, name. split; [exact Hin|]. split; [exact Hread|]. exists secret. exact Hf.
Defined.
