(* ===== verification/Main.v ===== *)
(** * The entry of the program: [cmd/main.go]

    The flags and the options made of them, and the sequence in which the program is set
    up; the first part that fails ends the program.  The manager of controller-runtime is
    the class [ManagerLib].  The theorem: when the manager is started, the configuration is
    loaded, the trusted roots are there for every later verification, and the bundle for
    self authorization, if one is configured, is verified and loaded. *)
From stdpp Require Import base gmap strings list.
From Stdlib Require Import ZArith Ascii Lia.
From S2P Require Import Prelude GoStrings Regex Kube Api Model Cluster ProgTheory RefServer Config Naming State Utilities Reconciliation Generators Resources Samples Oci Sigstore Validation Startup.
Open Scope go_scope.

(** ** Flags and options *)

Record Flags := {
  metricsAddr : string;
  probeAddr : string;
  enableLeaderElection : bool;
  secureMetrics : bool;
  webhookCertPath : string;
  webhookCertName : string;
  webhookCertKey : string;
  metricsCertPath : string;
  metricsCertName : string;
  metricsCertKey : string;
  enableHTTP2 : bool;
  isDeployment : bool;
}.

(** The values without arguments. *)
Definition default_flags : Flags := {|
  metricsAddr := "0"; probeAddr := ":8081"; enableLeaderElection := false; secureMetrics := true;
  webhookCertPath := ""; webhookCertName := "tls.crt"; webhookCertKey := "tls.key";
  metricsCertPath := ""; metricsCertName := "tls.crt"; metricsCertKey := "tls.key";
  enableHTTP2 := false; isDeployment := false;
|}.

(** [tls.Config], as far as it is written. *)
Record TLSConfig := { NextProtos : list string }.
Definition disableHTTP2 (c : TLSConfig) : TLSConfig := {| NextProtos := ["http/1.1"] |}.
Definition tlsOpts (flags : Flags) : list (TLSConfig → TLSConfig) :=
  if negb (enableHTTP2 flags) then [disableHTTP2] else [].

(** The directory, the certificate and the key of a server; empty when not given. *)
Record CertFiles := { CertDir : string; CertName : string; KeyName : string }.
Definition cert_files (path name key : string) : CertFiles :=
  if (0 <? String.length path)%nat then {| CertDir := path; CertName := name; KeyName := key |}
  else {| CertDir := ""; CertName := ""; KeyName := "" |}.

Record WebhookOptions := { wo_TLSOpts : list (TLSConfig → TLSConfig); wo_Certs : CertFiles }.
Definition webhookServerOptions (flags : Flags) : WebhookOptions := {|
  wo_TLSOpts := tlsOpts flags;
  wo_Certs := cert_files (webhookCertPath flags) (webhookCertName flags) (webhookCertKey flags);
|}.

(** [mo_Filtered]: the filter provider with authentication and authorization is set. *)
Record MetricsOptions := {
  mo_BindAddress : string;
  mo_SecureServing : bool;
  mo_TLSOpts : list (TLSConfig → TLSConfig);
  mo_Filtered : bool;
  mo_Certs : CertFiles;
}.
Definition metricsServerOptions (flags : Flags) : MetricsOptions := {|
  mo_BindAddress := metricsAddr flags;
  mo_SecureServing := secureMetrics flags;
  mo_TLSOpts := tlsOpts flags;
  mo_Filtered := secureMetrics flags;
  mo_Certs := cert_files (metricsCertPath flags) (metricsCertName flags) (metricsCertKey flags);
|}.

Record ManagerOptions := {
  Metrics : MetricsOptions;
  WebhookServer : WebhookOptions;
  HealthProbeBindAddress : string;
  LeaderElection : bool;
  LeaderElectionID : string;
}.
Definition manager_options (flags : Flags) : ManagerOptions := {|
  Metrics := metricsServerOptions flags;
  WebhookServer := webhookServerOptions flags;
  HealthProbeBindAddress := probeAddr flags;
  LeaderElection := enableLeaderElection flags;
  LeaderElectionID := "ea93bf51.kartverket.no";
|}.

(** ** The manager *)

(** What [main] registers with the manager before it starts it. *)
Inductive Registration :=
| SecurityConfigController | PodWebhook | SecurityConfigWebhook | Healthz | Readyz.
#[global] Instance Registration_eq_dec : EqDecision Registration.
Proof. solve_decision. Defined.

Class ManagerLib := {
  (** [ctrl.GetConfigOrDie] and [ctrl.NewManager]. *)
  NewManager : ManagerOptions → option error;
  (** Registering one of the parts. *)
  Register : Registration → option error;
  (** [mgr.Start]: it returns when the program is told to stop. *)
  Start : option error;
}.

(** The package variables that the set-up fills, and what the manager knows. *)
Record MainState `{StartupLib} `{SigstoreLib} := {
  ms_config : ConfigState;
  ms_public : Once TrustedMaterial;
  ms_github : Once TrustedMaterial;
  ms_registered : list Registration;
  ms_started : bool;
}.

Section Main.
Context `{StartupLib} `{SigstoreLib} `{!IdentityLib} `{ManagerLib}.
(** The environment of the process, the order in which a map is visited, and what a program
    gives that runs while the package variables are those of the state. *)
Context (environment : string → option string)
  (visit : list (string * string) → list (string * string))
  (execute : MainState → ∀ A, prog A → A).

Definition ms_with_config (st : MainState) (c : ConfigState) : MainState :=
  {| ms_config := c; ms_public := ms_public st; ms_github := ms_github st;
     ms_registered := ms_registered st; ms_started := ms_started st |}.
Definition ms_with_public (st : MainState) (o : Once TrustedMaterial) : MainState :=
  {| ms_config := ms_config st; ms_public := o; ms_github := ms_github st;
     ms_registered := ms_registered st; ms_started := ms_started st |}.
Definition ms_with_github (st : MainState) (o : Once TrustedMaterial) : MainState :=
  {| ms_config := ms_config st; ms_public := ms_public st; ms_github := o;
     ms_registered := ms_registered st; ms_started := ms_started st |}.
Definition ms_register (st : MainState) (r : Registration) : MainState :=
  {| ms_config := ms_config st; ms_public := ms_public st; ms_github := ms_github st;
     ms_registered := ms_registered st ++ [r]; ms_started := ms_started st |}.
Definition ms_start (st : MainState) : MainState :=
  {| ms_config := ms_config st; ms_public := ms_public st; ms_github := ms_github st;
     ms_registered := ms_registered st; ms_started := true |}.

(** A part of [main]: whether to go on; an error or a panic ends the program. *)
Definition part := MainState → bool * MainState.
Definition then_ (p q : part) : part := λ st,
  let '(go_on, st) := p st in if go_on : bool then q st else (false, st).
Definition check_error (e : option error) : part := λ st, (negb (is_some e), st).

Definition load_part : part := λ st,
  let '(r, c) := Load environment visit (ms_config st) in (is_ok r, ms_with_config st c).

Definition public_root_part : part := λ st,
  let '(r, o) := PublicTrustedRoot (ms_public st) in (is_ok r, ms_with_public st o).
Definition github_root_part : part := λ st,
  let '(r, o) := GitHubTrustedRoot (ms_github st) in (is_ok r, ms_with_github st o).

(** The globals that the rest of the program sees. *)
Definition globals_of (cfg : Config) (c : ConfigState) : Globals :=
  {| appCfg := cfg;
     OpaSelfAuthorizationBundleBinaryData := cs_OpaSelfAuthorizationBundleBinaryData c |}.

Definition cs_with_data (c : ConfigState) (data : gomap string) : ConfigState :=
  {| cs_appCfg := cs_appCfg c; cs_CredStore := cs_CredStore c;
     cs_OpaSelfAuthorizationBundleBinaryData := data;
     cs_CertificateIdentityForGithubActions := cs_CertificateIdentityForGithubActions c |}.

(** The zero value of a [Config] has no bundle. *)
Definition self_bundle_part : part := λ st,
  match cs_appCfg (ms_config st) with
  | Some cfg =>
      match cfg_OpaSelfAuthorizationBundle cfg with
      | Some bundle =>
          match execute st _ (@validateAndLoadSelfAuthorizationBundle
                             (globals_of cfg (ms_config st)) bundle) with
          | Ok data => (true, ms_with_config st (cs_with_data (ms_config st) data))
          | _ => (false, st)
          end
      | None => (true, st)
      end
  | None => (true, st)
  end.

Definition register_part (r : Registration) : part := λ st,
  match Register r with None => (true, ms_register st r) | Some _ => (false, st) end.

Definition webhooks_part : part :=
  if bool_decide (environment "ENABLE_WEBHOOKS" = Some "false") then (λ st, (true, st))
  else then_ (register_part PodWebhook) (register_part SecurityConfigWebhook).

Definition start_part : part := λ st, (negb (is_some Start), ms_start st).

(** [main]; the result tells whether the program ended without an error. *)
Definition main (flags : Flags) : part :=
  then_ (check_error (NewManager (manager_options flags)))
  (then_ load_part
  (then_ public_root_part
  (then_ github_root_part
  (then_ self_bundle_part
  (then_ (register_part SecurityConfigController)
  (then_ webhooks_part
  (then_ (register_part Healthz)
  (then_ (register_part Readyz)
         start_part)))))))).
End Main.

(** ** Specification *)

(** A trusted root was loaded, and every later call returns it. *)
Definition root_available `{SigstoreLib} (baseUrl : option string) (once : Once TrustedMaterial) :
    Prop :=
  ∃ material, LoadTrustedRoot baseUrl = Ok material ∧
              trusted_root baseUrl once = (Ok (Some material), once).

Definition fresh_once {A : Type} : Once A := Build_Once false None.

Definition initial_state `{StartupLib} `{SigstoreLib} : MainState :=
  {| ms_config := {| cs_appCfg := None; cs_CredStore := None;
                     cs_OpaSelfAuthorizationBundleBinaryData := None;
                     cs_CertificateIdentityForGithubActions := None |};
     ms_public := fresh_once; ms_github := fresh_once; ms_registered := []; ms_started := false |}.

(** What is registered at the start. *)
Definition registrations (environment : string → option string) : list Registration :=
  [SecurityConfigController] ++
  (if bool_decide (environment "ENABLE_WEBHOOKS" = Some "false") then []
   else [PodWebhook; SecurityConfigWebhook]) ++ [Healthz; Readyz].

(** The identity that certificates must have; [zero] is the zero value of the variable. *)
Definition identity_of `{StartupLib} `{SigstoreLib} `{!IdentityLib} (zero : CertificateIdentity)
    (s : MainState) : CertificateIdentity :=
  match cs_CertificateIdentityForGithubActions (ms_config s) with
  | Some identity => identity
  | None => zero
  end.

(** The replies to a program come from the registry, as it changes with time, and
    verifications use the trusted roots and the identity of the state. *)
Definition world_answers `{StartupLib} `{SigstoreLib} `{!IdentityLib}
    (registry : nat → OciRegistry) (zero : CertificateIdentity)
    (execute : MainState → ∀ A, prog A → A) : Prop :=
  ∀ s A (p : prog A), ∃ h, steps p h (Ret (execute s A p)) ∧
    replied (registry_reply registry (PublicTrustedRoot (ms_public s)).1
               (GitHubTrustedRoot (ms_github s)).1 (identity_of zero s)) h.

(** Nothing but the configuration is set up. *)
Definition fresh_parts `{StartupLib} `{SigstoreLib} (s : MainState) : Prop :=
  (ms_registered s = [] ∧ ms_github s = fresh_once) ∧ ms_public s = fresh_once.

(** ** Lemmas *)

Section Facts.
Context `{StartupLib} `{SigstoreLib} `{!IdentityLib} `{ManagerLib}.
Implicit Types (st : MainState) (p q : part).

(** A part that keeps an assertion when it goes on. *)
Definition keeps_going (P Q : MainState → Prop) p : Prop :=
  ∀ st, P st → ms_started st = false →
    let '(go_on, st') := p st in ms_started st' = false ∧ (go_on = true → Q st').

Lemma then_started (P Q : MainState → Prop) p q st b st' :
  keeps_going P Q p → P st → ms_started st = false →
  then_ p q st = (b, st') → ms_started st' = true →
  ∃ st1, Q st1 ∧ ms_started st1 = false ∧ q st1 = (b, st').
Proof.
  intros Hp HP Hst. unfold then_. specialize (Hp st HP Hst). destruct (p st) as [go_on st1].
  destruct Hp as [Hs1 HQ]. destruct go_on.
  - intros Hq _. exists st1. auto.
  - intros [= _ <-]. congruence.
Qed.

Lemma then_keeps (P Q R : MainState → Prop) p q :
  keeps_going P Q p → keeps_going Q R q → keeps_going P R (then_ p q).
Proof.
  intros Hp Hq st HP Hst. unfold then_. specialize (Hp st HP Hst).
  destruct (p st) as [go_on st1]. destruct Hp as [Hs1 HQ]. destruct go_on; [|done].
  exact (Hq st1 (HQ eq_refl) Hs1).
Qed.

Lemma check_keeps (P : MainState → Prop) e : keeps_going P P (check_error e).
Proof. intros st HP Hst. by split. Qed.

(** [P] speaks of the registrations as an argument and of nothing that registering
    changes. *)
Lemma register_keeps (P : MainState → Prop) l r :
  (∀ st r', P st → P (ms_register st r')) →
  keeps_going (λ st, P st ∧ ms_registered st = l) (λ st, P st ∧ ms_registered st = l ++ [r])
    (register_part r).
Proof.
  intros HP st [Hst Hl] Hs. unfold register_part. destruct (Register r); split; try done.
  intros _. simpl. rewrite Hl. auto.
Qed.

Lemma root_keeps (P : MainState → Prop) :
  (∀ st o, P st → P (ms_with_public st o)) →
  keeps_going (λ st, P st ∧ ms_public st = fresh_once)
    (λ st, P st ∧ root_available None (ms_public st)) public_root_part.
Proof.
  intros HP st [Hst Ho] Hs. unfold public_root_part, PublicTrustedRoot, trusted_root. rewrite Ho.
  simpl. destruct (LoadTrustedRoot None) as [m|e|w] eqn:Hl; simpl; split; try done.
  intros _. split; [by apply HP|]. exists m. by split.
Qed.

Lemma github_keeps (P : MainState → Prop) :
  (∀ st o, P st → P (ms_with_github st o)) →
  keeps_going (λ st, P st ∧ ms_github st = fresh_once)
    (λ st, P st ∧ root_available (Some gitHubTufBaseUrl) (ms_github st)) github_root_part.
Proof.
  intros HP st [Hst Ho] Hs. unfold github_root_part, GitHubTrustedRoot, trusted_root. rewrite Ho.
  simpl. destruct (LoadTrustedRoot _) as [m|e|w] eqn:Hl; simpl; split; try done.
  intros _. split; [by apply HP|]. exists m. by split.
Qed.
End Facts.

(** ** Properties *)

Section Properties.
Context `{StartupLib} `{SigstoreLib} `{!IdentityLib} `{ManagerLib}.

(** What [load_part] establishes. *)
Definition loaded (environment : string → option string) (cfg : Config) (c : ConfigState) : Prop :=
  cs_appCfg c = Some cfg ∧ config_ok cfg ∧
  (cfg_OpaSelfAuthorizationBundle cfg ≠ None ↔ ∃ raw,
     environment "ACCESSERATOR_OPA_SELF_AUTHORIZATION_BUNDLE" = Some raw ∧ TrimSpace raw ≠ "") ∧
  (cfg_OpaEnabled cfg = true → cs_CertificateIdentityForGithubActions c ≠ None).

Lemma load_keeps environment visit (P : MainState → Prop) :
  (∀ l, visit l ≡ₚ l) → (∀ st c, P st → P (ms_with_config st c)) →
  keeps_going P (λ st, P st ∧ ∃ cfg, loaded environment cfg (ms_config st) ∧
                   cs_OpaSelfAuthorizationBundleBinaryData (ms_config st) = Some ∅)
    (load_part environment visit).
Proof.
  intros Hv HP st Hst Hs. unfold load_part.
  pose proof (Load_leaves environment visit (ms_config st) Hv) as Hl.
  destruct (Load environment visit (ms_config st)) as [[[]|e|w] c]; simpl; split; try done.
  intros _. split; [by apply HP|]. destruct Hl as [_ Hl].
  destruct (Hl eq_refl) as (cfg & Hcfg & Hok & _ & Hd & Hself & Hid & _).
  exists cfg. split; [|done]. split_and!; [done..|].
  intros Hopa. destruct (Hid Hopa) as (identity & _ & ->). done.
Qed.

(** What [self_bundle_part] establishes.  Without a bundle for self authorization its data is
    empty.  With one, its URL has an allowed prefix; a provenance attestation for what the
    URL resolved to verifies with the trusted roots and the identity of the state and names
    the configured source; and the data is the layer of what the URL resolved to, under the
    name of the bundle. *)
Definition bundle_loaded (registry : nat → OciRegistry) (zero : CertificateIdentity)
    (cfg : Config) (s : MainState) : Prop :=
  match cfg_OpaSelfAuthorizationBundle cfg with
  | None => cs_OpaSelfAuthorizationBundleBinaryData (ms_config s) = Some ∅
  | Some bundle =>
      (∃ prefix rest, prefix ∈ cfg_OpaAllowedBundleRegistryUrlPrefixes cfg ∧
                      ob_URL bundle = prefix +:+ rest) ∧
      (∃ h, source_proved registry (PublicTrustedRoot (ms_public s)).1
              (GitHubTrustedRoot (ms_github s)).1 (identity_of zero s) h bundle) ∧
      ∃ oci layer t t',
        ResolveOciRepositoryAndDigest (H := registry t) (ob_URL bundle) = Ok oci ∧
        FetchOpaBundleLayer (H := registry t') oci = Ok layer ∧
        cs_OpaSelfAuthorizationBundleBinaryData (ms_config s) =
          Some {[ob_Name bundle := layer]}
  end.

Lemma self_bundle_keeps registry zero environment execute (P : MainState → Prop) :
  world_answers registry zero execute →
  (∀ st c, P st → P (ms_with_config st c)) →
  keeps_going (λ st, P st ∧ ∃ cfg, loaded environment cfg (ms_config st) ∧
                 cs_OpaSelfAuthorizationBundleBinaryData (ms_config st) = Some ∅)
    (λ st, P st ∧ ∃ cfg, loaded environment cfg (ms_config st) ∧
                         bundle_loaded registry zero cfg st)
    (self_bundle_part execute).
Proof.
  intros Hexec HP st (Hst & cfg & Hl & Hd) Hs. unfold self_bundle_part, globals_of.
  pose proof Hl as (Hcfg & _). rewrite Hcfg, Hd.
  destruct (cfg_OpaSelfAuthorizationBundle cfg) as [bundle|] eqn:Hb.
  - destruct (Hexec st _ (@validateAndLoadSelfAuthorizationBundle
      {| appCfg := cfg; OpaSelfAuthorizationBundleBinaryData := Some ∅ |} bundle)) as (h & Hh & Hr).
    destruct (execute _ _ _) as [data|e|w]; simpl; split; try done.
    intros _. split; [by apply HP|]. exists cfg. split; [exact Hl|].
    apply (@validateAndLoad_run {| appCfg := cfg; OpaSelfAuthorizationBundleBinaryData := Some ∅ |})
      in Hh as Hrun.
    destruct Hrun as (h' & oci & layer & old & -> & Hp & Hv & [= <-] & ->).
    destruct (Hr (OpResolveOci (ob_URL bundle)) (Ok oci)) as [t Ht]; [set_solver|].
    destruct (Hr (OpFetchOpaBundleLayer oci) (Ok layer)) as [t' Ht']; [set_solver|].
    apply replied_app in Hr as [Hr _]. apply (verify_proved _ _ _ _ _ _ Hr) in Hv.
    unfold bundle_loaded. rewrite Hb. split_and!.
    + by apply hasAllowedPrefix_spec.
    + by exists h'.
    + by exists oci, layer, t, t'.
  - split; [done|]. intros _. split; [done|]. exists cfg. split; [exact Hl|].
    unfold bundle_loaded. by rewrite Hb.
Qed.

Lemma webhooks_keeps environment (P : MainState → Prop) :
  (∀ st r', P st → P (ms_register st r')) →
  keeps_going (λ st, P st ∧ ms_registered st = [SecurityConfigController])
    (λ st, P st ∧ ms_registered st = [SecurityConfigController] ++
       (if bool_decide (environment "ENABLE_WEBHOOKS" = Some "false") then []
        else [PodWebhook; SecurityConfigWebhook])) (webhooks_part environment).
Proof.
  intros HP. unfold webhooks_part. case_bool_decide.
  - intros st Hst Hs. by rewrite app_nil_r.
  - eapply then_keeps; by apply register_keeps.
Qed.

(** The part in front of [Hmain] went on; [P] holds before it, and what [keeps] says after. *)
Ltac next_part Hmain P keeps :=
  let s1 := fresh "s" in let P1 := fresh "P" in
  eapply (then_started _ _) in Hmain as (s1 & P1 & ? & Hmain);
    [|exact keeps|first [exact P|unfold fresh_parts in P; destruct_and? P; by split_and!]|first [assumption|reflexivity]|assumption];
  clear P; rename P1 into P.

(** What holds when the manager is started. *)
Lemma main_leaves registry zero environment visit execute flags result st :
  (∀ l, visit l ≡ₚ l) → world_answers registry zero execute →
  main environment visit execute flags initial_state = (result, st) → ms_started st = true →
  (∃ cfg, loaded environment cfg (ms_config st) ∧ bundle_loaded registry zero cfg st) ∧
  root_available None (ms_public st) ∧ root_available (Some gitHubTufBaseUrl) (ms_github st) ∧
  ms_registered st = registrations environment.
Proof.
  intros Hv Hexec Hmain Hstarted. unfold main in Hmain.
  set (L := λ s : MainState, ∃ cfg, loaded environment cfg (ms_config s) ∧
              cs_OpaSelfAuthorizationBundleBinaryData (ms_config s) = Some ∅).
  set (B := λ s : MainState, ∃ cfg, loaded environment cfg (ms_config s) ∧
              bundle_loaded registry zero cfg s).
  set (R := λ s : MainState, root_available None (ms_public s) ∧
              root_available (Some gitHubTufBaseUrl) (ms_github s)).
  assert (fresh_parts initial_state) as P0 by done.
  next_part Hmain P0 (check_keeps fresh_parts (NewManager (manager_options flags))).
  next_part Hmain P0 (load_keeps environment visit fresh_parts Hv (λ _ _ Hx, Hx)).
  next_part Hmain P0 (root_keeps (λ s, (L s ∧ ms_registered s = []) ∧ ms_github s = fresh_once)
                        (λ _ _ Hx, Hx)).
  next_part Hmain P0 (github_keeps (λ s, (root_available None (ms_public s) ∧
                        ms_registered s = []) ∧ L s) (λ _ _ Hx, Hx)).
  next_part Hmain P0 (self_bundle_keeps registry zero environment execute (λ s, R s ∧ ms_registered s = [])
                        Hexec (λ _ _ Hx, Hx)).
  next_part Hmain P0 (register_keeps (λ s, R s ∧ B s) [] SecurityConfigController
                        (λ _ _ Hx, Hx)).
  next_part Hmain P0 (webhooks_keeps environment (λ s, R s ∧ B s) (λ _ _ Hx, Hx)).
  set (l := [SecurityConfigController] ++ _) in P0.
  next_part Hmain P0 (register_keeps (λ s, R s ∧ B s) l Healthz (λ _ _ Hx, Hx)).
  next_part Hmain P0 (register_keeps (λ s, R s ∧ B s) (l ++ [Healthz]) Readyz (λ _ _ Hx, Hx)).
  injection Hmain as _ <-. destruct P0 as [[[? ?] HB] Hr]. split_and!; [exact HB|done|done|].
  refine (eq_trans Hr _). subst l. unfold registrations. by rewrite <-!app_assoc.
Qed.

(** C8: the manager is started only when the configuration was loaded and is complete,
    both trusted roots were loaded (so that every later call returns them), the provenance of
    the bundle for self authorization, if one is configured, was verified with these roots
    and the configured identity and its layer was loaded, and the controller, the webhooks
    (unless they are switched off) and the health checks are registered. *)
Theorem main_starts registry zero environment visit execute flags result st :
  (∀ l, visit l ≡ₚ l) → world_answers registry zero execute →
  main environment visit execute flags initial_state = (result, st) → ms_started st = true →
  (∃ cfg, loaded environment cfg (ms_config st) ∧ bundle_loaded registry zero cfg st) ∧
  root_available None (ms_public st) ∧ root_available (Some gitHubTufBaseUrl) (ms_github st) ∧
  ms_registered st = registrations environment.
Proof. apply main_leaves. Qed.
End Properties.

(** ** Applications *)

#[export] Instance SampleManager : ManagerLib :=
  {| NewManager _ := None; Register _ := None; Main.Start := None |}.

(** The replies of the sample's registry.  Apart from the sample's attestation nothing is
    verified in time. *)
Definition not_in_time : error := wrapf "verification failed: " ErrNoMatchingSigstoreBundleFound.
#[local] Instance OciRepositoryAndDigest_eq_dec : EqDecision OciRepositoryAndDigest.
Proof. solve_decision. Defined.
Definition sample_verdict (public github : outcome (option (@TrustedMaterial SampleSigstore)))
    (oci : OciRepositoryAndDigest) (referrers : list Descriptor) (source : OpaBundleSource) :
    outcome unit :=
  match StripAlgPrefix (oci_Digest oci) with
  | Err _ =>
      Err (ErrorString ("failed to strip alg prefix artifact SHA256 for for OPA bundle " +:+
             oci_Registry oci +:+ "/" +:+ oci_Repository oci +:+ "@" +:+ oci_Digest oci))
  | Panic w => Panic w
  | Ok _ =>
      match public, github with
      | Ok (Some _), Ok (Some _) =>
          if bool_decide (oci = sample_oci ∧ referrers = [sample_referrer]) &&
             SatisfiesVerificationSource
               (GetRepositorySourceFromVerifiedSigstoreBundleCertificate sample_certificate) source
          then Ok tt else Err not_in_time
      | _, _ => Err not_in_time
      end
  end.
Definition sample_answer (public github : outcome (option (@TrustedMaterial SampleSigstore)))
    (op : Op) : resp op :=
  match op return resp op with
  | OpResolveOci reference => ResolveOciRepositoryAndDigest (H := SampleRegistry) reference
  | OpFetchOpaBundleLayer repo => FetchOpaBundleLayer (H := SampleRegistry) repo
  | OpListReferrers _ _ => Ok [sample_referrer]
  | OpValidateSigstoreBundles oci referrers source =>
      sample_verdict public github oci referrers source
  | op => (perform op empty_store).1
  end.
Definition sample_execute `{StartupLib} (s : MainState) (A : Type) (p : prog A) : A :=
  answered (sample_answer (PublicTrustedRoot (ms_public s)).1 (GitHubTrustedRoot (ms_github s)).1) p.

(** When the deadline passes at once, no goroutine looks at a referrer. *)
Lemma deadline_at_once attest source referrers :
  group_returns attest source true referrers (Err not_in_time).
Proof.
  assert (∀ todo, ∃ g, rtc (gstep attest source true) (g_cancel (g_init todo)) g ∧
            g_final g = true ∧ g_result source g = Err not_in_time) as Hall.
  { induction todo as [|d todo (g & Hr & Hf & Hres)].
    - eexists. split; [eapply rtc_l; [by apply g_exhausted|apply rtc_refl]|done].
    - exists g. split; [|done]. eapply rtc_l; [by eapply g_next|].
      eapply rtc_l; [by eapply g_spawn; [done|simpl; unfold maxConcurrentSigstoreBundlePullAndVerifies; lia]|].
      eapply rtc_l; [by apply (g_skip _ _ _ _ [] d [])|]. exact Hr. }
  destruct (Hall referrers) as (g & Hr & Hf & Hres). exists g. split; [|done].
  eapply rtc_l; [by apply g_deadline|exact Hr].
Qed.

Lemma sample_verdict_ok public github certID oci referrers source :
  ∃ deadline, ValidateSigstoreBundlesMatchesExpectedSource public github certID deadline oci
    referrers source (sample_verdict public github oci referrers source).
Proof.
  unfold ValidateSigstoreBundlesMatchesExpectedSource, sample_verdict.
  destruct (StripAlgPrefix (oci_Digest oci)) as [raw|e|w] eqn:Hs; [|by exists true..].
  assert (∃ deadline, group_returns (attested_source public github oci raw certID) source deadline
            referrers (Err not_in_time)) as Hno by (exists true; apply deadline_at_once).
  destruct public as [[[]|]|e|w]; try exact Hno. destruct github as [[[]|]|e|w]; try exact Hno.
  destruct (_ && _) eqn:Hd; [|exact Hno].
  apply andb_prop in Hd as [[-> ->]%bool_decide_eq_true Hsat]. exists false. destruct certID. assert (raw = sample_hash) as -> by (vm_compute in Hs; by injection Hs as <-).
  by apply sample_group_for.
Qed.

Lemma sample_world `{StartupLib} : world_answers sample_registry sample_identity sample_execute.
Proof.
  intros s A p. apply answered_steps. intros op. destruct op; try exact I.
  - by exists 0%nat.
  - by exists 0%nat.
  - exists 0%nat. apply sample_verdict_ok.
Qed.

(** A configuration with a bundle for self authorization. *)
Definition sample_self : OpaBundle :=
  {| ob_Name := "policy"; ob_URL := bs_URL sample_bundle;
     ob_BundleSource := {| src_Repository := "kartverket/policy";
                           src_Workflow := ".github/workflows/build.yml";
                           src_Ref := "refs/heads/main" |} |}.
#[local] Instance SelfStartup : StartupLib := {|
  IsConfigMapKey := @IsConfigMapKey SampleStartup;
  ParseQuantity := @ParseQuantity SampleStartup;
  DynamicStore := unit;
  NewStoreFromDocker := Ok tt;
  ProcessEnvironment _ := Ok (cfg_with_self_bundle (@appCfg SampleGlobals) (Some sample_self));
|}.
Definition self_environment (name : string) : option string :=
  if bool_decide (name = "ACCESSERATOR_OPA_SELF_AUTHORIZATION_BUNDLE") then Some "policy" else None.

Abbreviation self_main := (@main SelfStartup SampleSigstore SampleIdentity SampleManager
  self_environment (@rev _) (@sample_execute SelfStartup) default_flags
  (@initial_state SelfStartup SampleSigstore)) (only parsing).

Lemma main_starts_witness :
  (∃ cfg, loaded self_environment cfg (ms_config self_main.2) ∧
          bundle_loaded sample_registry sample_identity cfg self_main.2) ∧
  cs_OpaSelfAuthorizationBundleBinaryData (ms_config self_main.2) = Some {["policy" := "layer"]}.
Proof.
  destruct (main_starts sample_registry sample_identity self_environment (@rev _) (@sample_execute SelfStartup)
    default_flags self_main.1 self_main.2) as (H1 & _).
  - intros l. symmetry. apply Permutation_rev.
  - apply sample_world.
  - apply surjective_pairing.
  - vm_compute. reflexivity.
  - split; [exact H1|]. vm_compute. reflexivity.
Defined.
