(* ===== verification/Operator.v ===== *)
(** * The running operator: what its start gives the reconciliation and the webhooks

    The other files take the configuration of the program as it is ([Globals]) and say in
    hypotheses what they need of it.  Here these hypotheses are discharged: once [main] has
    started the manager, the configuration that it loaded has what resolving, generating and
    injecting rely on.  Nothing here models more code. *)
From stdpp Require Import base gmap strings list.
From Stdlib Require Import ZArith Ascii Lia.
From S2P Require Import Prelude GoStrings Regex Kube Api Model Cluster ProgTheory RefServer Config Naming State Utilities Reconciliation Generators Resources Samples Resolver Sidecars Oci Sigstore Validation Startup Schema Main.
Open Scope go_scope.

(** With a production flag and quantities that parse, the Texas container can be built for
    any SecurityConfig. *)
Lemma texas_container_exists `{Globals} `{Lib} sc :
  is_some (cfg_RunsInProduction Get) = true → is_ok TexasResources = true →
  is_ok (GetTexasContainer sc) = true.
Proof.
  intros Hp Hr. unfold GetTexasContainer, GetTexasEnvVars, idportenWellKnownURL,
    ansattportenWellKnownURL.
  destruct (cfg_RunsInProduction Get) as [prod|]; [|done]. destruct TexasResources; [|done..].
  cbv zeta. cbn [deref outcome_bind]. by repeat case_goal.
Qed.

Section Operator.
Context `{StartupLib} `{SigstoreLib} `{!IdentityLib} `{ManagerLib}.

(** [main] has run up to the start of the manager, for some order in which the quantities
    are visited and some replies of the registry. *)
Definition started (environment : string → option string) (flags : Flags) (st : MainState) : Prop :=
  ∃ registry zero visit execute result, (∀ l, visit l ≡ₚ l) ∧
    world_answers registry zero execute ∧
    main environment visit execute flags initial_state = (result, st) ∧ ms_started st = true.

(** What [main] leaves in the package variables. *)
Lemma started_globals environment flags st :
  started environment flags st →
  ∃ cfg, cs_appCfg (ms_config st) = Some cfg ∧ config_ok cfg ∧
    is_some (cs_OpaSelfAuthorizationBundleBinaryData (ms_config st)) = true.
Proof.
  intros (registry & zero & visit & execute & result & Hv & Hexec & Hmain & Hst).
  destruct (main_leaves _ _ _ _ _ _ _ _ Hv Hexec Hmain Hst) as [(cfg & (Hcfg & Hok & _) & Hb) _].
  exists cfg. split_and!; [done|done|]. unfold bundle_loaded in Hb.
  destruct (cfg_OpaSelfAuthorizationBundle cfg) as [bundle|]; [|by rewrite Hb].
  by destruct Hb as (_ & _ & ? & ? & ? & ? & _ & _ & ->).
Qed.

Context `{Lib} `{!LibLaws}.
Context (quantities_agree : ∀ s q, ParseQuantity s = Ok q → MustParse s = Ok q).
Context (documented_structs : structs_convert).

(** C17: once [main] has started the manager, the program can do its work with the
    configuration that was loaded: the Texas sidecar can be built for any SecurityConfig,
    and a SecurityConfig that meets the schema and that the webhook admitted is resolved and
    its twelve resources are built, whenever the API server and the registry have what it
    refers to: nothing else can fail, and nothing panics.  Of the libraries this takes that
    [resource.MustParse] accepts what [resource.ParseQuantity] accepts, and that
    [structpb.NewStruct] converts maps whose strings are valid. *)
Theorem started_operator_resolves environment flags st :
  started environment flags st →
  ∃ cfg, cs_appCfg (ms_config st) = Some cfg ∧
    let globals := globals_of cfg (ms_config st) in
    (∀ sc, is_ok (GetTexasContainer sc) = true) ∧
    ∀ sc admission h r,
      SecurityConfigSpec_valid (sc_Spec sc) = true →
      steps (validateSecurityConfig sc) admission (Ret (Ok tt)) →
      steps (ResolveSecurityConfig sc) h (Ret r) → replied (found sc) h →
      ∃ scope rfs, r = Ok scope ∧ resolved sc scope ∧
        ControllerResources scope = Ok rfs ∧ length rfs = 12%nat.
Proof.
  intros Hst. destruct (started_globals _ _ _ Hst) as (cfg & Hcfg & Hok & Hd).
  exists cfg. split; [done|]. intros globals.
  assert (is_some (cfg_RunsInProduction Get) = true) as Hp.
  { pose proof (ok_production _ Hok) as Hp. change (is_some (cfg_RunsInProduction cfg) = true).
    by destruct (cfg_RunsInProduction cfg). }
  split.
  - intros sc. apply texas_container_exists; [done|]. by apply config_resources.
  - intros sc admission h r Hvalid Hadm Hs Hr. by eapply admitted_resolves.
Qed.
End Operator.

(** ** Application *)

Abbreviation sample_main :=
  (@main SampleStartup SampleSigstore SampleIdentity SampleManager (λ _, None) (@rev _)
     (@sample_execute SampleStartup) default_flags
     (@initial_state SampleStartup SampleSigstore)) (only parsing).

Lemma sample_main_config :
  cs_appCfg (ms_config sample_main.2) = Some (@appCfg SampleGlobals).
Proof. vm_compute. reflexivity. Qed.

Lemma sample_quantities s q : ParseQuantity s = Ok q → MustParse s = Ok q.
Proof. cbn. by case_bool_decide. Qed.

Lemma started_operator_resolves_witness :
  let globals := globals_of (@appCfg SampleGlobals) (ms_config sample_main.2) in
  is_ok (GetTexasContainer sample_full_sc) = true ∧
  ∃ scope rfs, resolved sample_full_sc scope ∧ ControllerResources scope = Ok rfs ∧
    length rfs = 12%nat.
Proof.
  destruct (started_operator_resolves sample_quantities (λ _ _, eq_refl) (λ _, None) default_flags
    sample_main.2)
    as (cfg & Hcfg & Htexas & Hall).
  - exists sample_registry, sample_identity, (@rev _), (@sample_execute SampleStartup), sample_main.1.
    split_and!.
    + intros l. symmetry. apply Permutation_rev.
    + apply sample_world.
    + apply surjective_pairing.
    + vm_compute. reflexivity.
  - rewrite sample_main_config in Hcfg. injection Hcfg as <-. split; [apply Htexas|].
    edestruct (Hall sample_full_sc [] sample_full_replies) as (scope & rfs & _ & Hres).
    + exact sample_full_valid.
    + apply steps_refl.
    + do 5 apply steps_op. apply steps_refl.
    + exact sample_full_found.
    + exists scope, rfs. exact Hres.
Defined.
